(* ===== verification/_CoqProject ===== *)
-Q . S2P
Prelude.v
Dom.v
Observer.v
Timers.v
Particles.v
Scene.v
Shaders.v
Navigation.v
Typing.v
Double.v
JsNumber.v
Counter.v
CounterObserver.v
Throttle.v
Contact.v
Boot.v
ScrollEffects.v
Decorations.v
Floating.v
Reveal.v
Glitch.v
