(* ===== verification/Prelude.v ===== *)
(** * A verification library for src/script.js of the portfolio site

    The script is the whole behaviour of a one-page portfolio: a WebGL
    particle backdrop (Three.js) behind the hero section, and a set of
    independent decorations of the page (mobile menu, reveal-on-scroll
    classes, counters, typing effect, glitch, contact form, scroll
    listeners).  Everything starts from two [DOMContentLoaded] listeners;
    afterwards the browser drives the code through animation frames,
    timers, intersection observers and input events.  This library
    models each part as executable Rocq definitions written from the
    source, and proves what each part guarantees.

    ** Files, in dependency order (one Module per file)

    - [Prelude] (this file): the runtime services the script calls, as
      interfaces ([Float32Store]: stores into a [Float32Array];
      [MathRandom]: the global [Math.random] sequence; [MathTrig]:
      [Math.sin]/[Math.cos]) with concrete instances; a state-and-failure
      monad [ST] with the preservation combinators [st_preserves] and the
      tactic [st_pres]; the three-entry buffer update [ins3]; shared
      lemmas and tactics; the hint database [jsmodel].
    - [Dom]: elements, class lists ([DOMTokenList] add/remove/toggle, with
      [Proper] instances for class lists up to permutation and an [Equiv]
      on elements), [querySelector]/[querySelectorAll] on simple selectors.
    - [Observer] (after [Dom]): the browser's "update intersection
      observations" steps of the W3C [IntersectionObserver]
      specification, in the vertical direction: root margin, ratio,
      threshold index and the entries queued per frame, for both
      readings of [isIntersecting] below the threshold (the
      specification's and Chromium's).
    - [Timers]: the browser's timer queue as the interface [TimerQueue]
      (HTML timer order: by due time, then by scheduling order), an
      implementation [list_timers], and the event-loop runner
      [run_timers].
    - [Particles] ([ParticleField]): [createParticleSystem]'s buffer loop
      (lines 43-103) and the particle loop of [animate] (lines 207-234),
      statement by statement on the flat [Float32Array]s, and the
      per-particle reading [particle_update] that the loop refines.
    - [Scene]: [initThreeJS], [animate], [onWindowResize] and
      [onDocumentMouseMove] (lines 1-273) on a record [Page] of the
      script's globals and the browser state they touch, driven by the
      step relation [page_step] (one constructor per browser event).
    - [Shaders]: the GLSL of the particle material (lines 112-188) on
      the reals: wave, spiral and pointer repulsion of the vertex shader,
      the point size, and the alpha and colour of the fragment shader;
      the material's options (lines 189-192) with WebGL's depth test and
      blending of one pixel.
    - [Navigation]: [initNavigation] (lines 276-310): the listeners it
      registers and their dispatch in registration order, and
      [querySelector] on a link's [href]: the parse of CSS that throws
      [SyntaxError] (["#"], URLs, [mailto:]) and the evaluation of
      selector lists of type, [*], [#id] and [.class] compounds in
      document order; other selectors are reported as outside the model.
    - [Double] (before [JsNumber]): IEEE 754 binary64, the values of
      JavaScript's Number type: rounding to nearest, ties to even, with
      subnormals and overflow to an infinity ([round53], [fl]), and
      [+], [*], [/], [<] and [Math.floor] with [NaN] and infinities; the
      relative error bound [2^-53] of a rounding ([round53_rel]).
    - [JsNumber] (before [Counter]): [parseInt] and [parseFloat], which
      round to a double, and [Number::toString] (the shortest digits that
      read back as the double, exponent form from [1e21] and below
      [1e-6]), the runtime algorithms the counters, the animation delays
      and the floating elements call, written out on ASCII strings.
    - [Typing], [Counter], [Throttle], [Contact], [Glitch]: the typing
      effect, the counter animation and its [IntersectionObserver]
      (observe, callback, [unobserve], frames of all counters, as the
      step relation [co_step]), [throttle] with its event-loop driver and
      a pure reference, the contact form and the glitch effect, on
      [TimerQueue] or on animation frames.
    - [CounterObserver] (after [Counter]): the counters' observer
      (threshold 0.5) computed by [Observer] at every frame, after the
      animation frame callbacks, with [unobserve] dropping the started
      counters' registrations.
    - [Boot]: the two [DOMContentLoaded] listeners (lines 517-584), the
      order of the twelve [init*] routines, the animation classes and
      the skill items' [animationDelay] strings (``${index * 0.1}s`` in
      doubles: the fourth item gets [0.30000000000000004s]).
    - [ScrollEffects], [Decorations]: the scroll listeners (progress bar,
      navbar, parallax), registered by the routines [Boot] ran and
      dispatched in registration order with the navbar's [TypeError]; the
      skill bars (the [.skill-bar] query, the observer callback, the
      assignment of [level + '%'] through the CSS parser's check of a
      width, and any sequence of notifications as [skill_reach]) and
      hover styles.
    - [Floating] (after [Decorations]): [initFloatingElements], the
      speed each closure captures ([parseFloat] of [data-speed] with
      its [|| 0.5] fallback), and the [animate] loops of all elements
      frame by frame, each callback reading its own [Date.now()].
    - [Reveal] (after [Floating]): the two observers of the page, scroll animations
      (threshold 0.1, root margin [-50px] at the bottom) and skill bars
      (threshold 0.5), updated frame by frame on one document with
      their callbacks [Boot.reveal] and [Decorations.skill_callback];
      layouts and viewports are arbitrary per frame.

    ** What is proved

    - Particle field: the buffer loop refines the per-particle update
      ([update_particles_refines]); positions stay in the box [[-25, 25]]
      ([update_particles_bounds]) by wrap-around, not clamping
      ([wrap_axis_wraparound]); buffer lengths are kept; with exact
      arithmetic, velocities stay within 0.4995 in magnitude and decay
      as [0.999^k] without perturbation ([run_updates_damping]); initial particles lie in the
      spherical shell [[5, 25)] with attributes in their ranges; every
      entry of the buffers is a single-precision value after creation
      and after any number of frames.
    - Shaders: a point within 8 units of the pointer's image is pushed
      out to distance [3 + 5 d / 8] and one exactly on it is undefined
      ([mouse_repel_pushes_out]); the vertex shader moves a particle by
      at most 4.1 units ([vertex_pos_bounded]); with the material's
      [AdditiveBlending] and [depthWrite: false] the canvas does not
      depend on the order the particles are drawn in
      ([particle_blend_order_independent]).
    - Scene: the page invariant holds in every reachable state
      ([reachable_*]): positions in the box, colour/size/opacity fixed,
      the clock equal to [0.016] times the frames rendered, one pending
      [animate]; the two-state machine of the spec; pointer smoothing in
      closed form [t + (m0 - t) * 0.9^k]; resize touches only the
      viewport uniforms; a zero-width viewport makes the pointer
      non-finite for good.
    - DOM routines: the menu and hamburger stay in step; a link click
      closes the menu, cancels the navigation, throws [SyntaxError] on
      an [href] that is not a selector (["#"], a URL) and otherwise
      scrolls to the first element its selector matches
      ([nav_link_click]); the typing effect restores the title after
      exactly [length + 1] timer runs; computing in doubles, a counter
      with a value [0 < f < 2^32] takes 125 or 126 calls, showing
      [floor(k f / 125)] at call [k] or one less when [k f / 125] is an
      integer the rounded sum falls short of
      ([counter_animation_frames]; ["50"] shows 3 at call 10 and takes
      126 calls), every counter ends within 126 calls on
      [String(parseInt(text))] as the runtime writes it
      ([counter_final_text]), and the observer starts each counter once,
      from its original text ([counter_starts_once]); throttled runs are at least
      [limit] ms apart, and driven by the event loop the throttle runs
      exactly at the calls a leading-edge throttle keeps
      ([throttle_equiv]); the contact form's button is consistent, is restored by
      its timer, and a second [submit] leaves [" Sending..."]; a glitch
      lasts 100 ms; the first listener stops at the first routine that
      throws: with the canvas but without the Three.js library nothing
      runs, and without a [.hamburger] it stops after [initThreeJS]
      ([boot_stops_at_first_throw]), so no scroll listener of the page is registered, and
      without a [.navbar] every scroll throws a [TypeError] while the
      other scroll listeners still run ([scroll_listeners_navbar_error]);
      elements that get [fade-in] from the listener are never observed
      and, through any frames of the observers, never revealed
      ([boot_sections_never_revealed]).
    - Decorations: through any observer notifications only skill bars
      change, each only by a valid CSS width [level%], and a bar reported
      intersecting gets exactly that width, so a bar without
      [data-level] never fills ([skill_bar_width]).
    - Floating elements: one [animate] per element stays pending forever,
      only floating elements get a transform and it stays within its
      20 px, 15 degree and [[0.9, 1.1]] scale box
      ([float_page_invariant]); a missing, [NaN] or zero speed animates
      at [0.5] and an infinite one is ignored
      ([float_transform_bounds]).
    - Observers: in every state the frames reach, each element is its
      loaded form with [visible] only if observed and a width only if
      it is a skill bar ([observers_decorate]); a frame in which an
      observed element shows a tenth of its height above the bottom 50
      pixels reveals it, and one in which a bar shows half its height
      fills it ([observer_frame_reveals]); the last 50 pixels of the
      window reveal nothing ([reveal_bottom_margin]).  The counters
      driven by their observer refine [Counter]'s model
      ([counter_page_refines]), and a counter not yet started starts,
      from its original text, in the first frame where half of it is
      in the window ([counter_starts_when_visible]).

    ** Numbers, bounds and fuel

    JavaScript numbers are rationals [Q].  A store into a [Float32Array]
    goes through [f32] of [Float32Store], which is only assumed monotone,
    compatible with [==], exact on small integers and idempotent (a
    single-precision value is stored as it is), so the particle
    theorems hold for the real single-precision rounding as well as for
    [exact_store] and [grid24_store].  The counters and the animation
    delays compute in binary64 ([Double]), where the rounding is what
    the claims are about; the other double arithmetic of the script
    (pointer smoothing, scroll geometry, floating transforms, shaders)
    is exact, on [Q] or on the reals.  [NaN] and [Infinity] are explicit
    where the code can produce them ([Scene.jsnum], [Double.float_val],
    [ScrollEffects.num]).  The particle loop runs with fuel
    [S (length positions)], one more than the iterations it makes
    ([frame_loop_run]); a counter needs 125 or 126 calls and [126] is
    proved enough for every text (each of the at most 126 additions
    adds a relative error of at most [2^-53], so after [j] calls the
    running value is [j f / 125] up to a relative [2^-45]);
    [Number::toString] tries 1 to 17 digits, which suffice for every
    double; timer runs are counted by [run_timers]'s fuel, and the
    theorems state how many runs suffice.

    ** Not modelled

    The rendering of Three.js, a library the script only calls (the
    shaders and the blending of a pixel are modelled, not the pipeline
    that runs them: matrices, clipping, rasterisation); the camera
    projection; the page's HTML and CSS (inputs of the model: the
    document, the texts, the attributes; CSS itself, except the check of a
    width value the skill bars depend on, and selectors beyond type,
    [*], [#id] and [.class]); negative zero, which no operation of the
    script distinguishes from zero; the parallax [translateY] string,
    kept as a number; the horizontal direction of the
    IntersectionObserver's geometry (boxes are vertical intervals, and
    an element's layout is an input of every frame); the exact
    interleaving of the twelve routines' own listeners, each component
    having its own timer queue or frame loop; the progress bar element
    [initScrollProgress] appends (its width is a field of the scroll
    state) and [lastScrollTop], which is written and never read. *)

From Stdlib Require Export QArith Lqa Qround.
From stdpp Require Export base list options.

(** ** Notation scope of the development *)

Declare Scope js_scope.
Delimit Scope js_scope with js.
Open Scope Q_scope.

(** The strict comparison of two JavaScript numbers, as a boolean: [a < b]
    in a condition of the source. *)
Definition qltb (x y : Q) : bool := negb (Qle_bool y x).
Notation "x <? y" := (qltb x y) : js_scope.
Open Scope js_scope.

Create HintDb jsmodel.

(** ** The JavaScript runtime the script calls

    The script calls three services of the runtime that are not code of the
    repository.  Each is an interface here: the components are verified
    against the interface, and concrete instances discharge it. *)

(** Every store into a [Float32Array] rounds the double to single
    precision.  What the particle code needs of that rounding: it respects
    [==], it is monotone, and small integers (such as the boundary 25) are
    stored exactly, as IEEE-754 round-to-nearest does. *)
Class Float32Store := {
  f32 : Q -> Q;
  f32_proper :: Proper (Qeq ==> Qeq) f32;
  f32_mono : forall x y, x <= y -> f32 x <= f32 y;
  f32_int : forall z : Z, (Z.abs z <= 2 ^ 24)%Z -> f32 (inject_Z z) == inject_Z z;
  f32_idem : forall x, f32 (f32 x) == f32 x
}.

(** [Math.random]: one global generator whose successive results are
    [random_draw 0], [random_draw 1], ...; every component that calls
    [Math.random] consumes the next value of the same sequence. *)
Class MathRandom := {
  random_draw : nat -> Q;
  random_range : forall n, 0 <= random_draw n < 1
}.

(** [Math.sin] and [Math.cos], idealised by the Pythagorean identity. *)
Class MathTrig := {
  js_sin : Q -> Q;
  js_cos : Q -> Q;
  trig_unit : forall t, js_sin t * js_sin t + js_cos t * js_cos t == 1
}.

(** [Math.PI], the decimal literal JavaScript prints for it. *)
Definition Math_PI : Q := 3.141592653589793.

(** The runtime with no rounding: every value is stored as computed. *)
Program Definition exact_store : Float32Store := {| f32 := fun q => q |}.
Next Obligation. by intros a b H. Qed.
Next Obligation. done. Qed.
Next Obligation. done. Qed.

(** A generator that cycles through [0, 1/7, ..., 6/7]: a fixed seed. *)
Program Definition seq_random : MathRandom :=
  {| random_draw := fun n => (Z.of_nat (n mod 7) # 7) |}.
Next Obligation.
  intros n. pose proof (Nat.mod_upper_bound n 7 ltac:(lia)).
  unfold Qle, Qlt; cbn. lia.
Qed.

(** A generator that always returns [0.5]: every perturbation
    [(Math.random() - 0.5) * k] of the script is then zero. *)
Program Definition half_random : MathRandom := {| random_draw := fun _ => 0.5 |}.
Next Obligation. split; unfold Qle, Qlt; cbn; lia. Qed.

(** A generator stuck just below 1: [1 - 2^-30], a value [Math.random]
    can return. *)
Program Definition near_one_random : MathRandom :=
  {| random_draw := fun _ => 1 - (1 # (2 ^ 30)) |}.
Next Obligation. split; unfold Qle, Qlt; cbn; lia. Qed.

(** A constant angle with [sin = 3/5] and [cos = 4/5]. *)
Program Definition const_trig : MathTrig :=
  {| js_sin := fun _ => 3 # 5; js_cos := fun _ => 4 # 5 |}.
Next Obligation. reflexivity. Qed.

(** Rounding to the nearest multiple of [2^-24], ties upwards: on
    [[0.5, 1]] these are exactly the single-precision numbers, so this
    store rounds there as a [Float32Array] does. *)
Definition grid24 (q : Q) : Q :=
  inject_Z (Qfloor (q * inject_Z (2 ^ 24) + (1 # 2))) / inject_Z (2 ^ 24).

Program Definition grid24_store : Float32Store := {| f32 := grid24 |}.
Next Obligation.
  intros a b H. unfold grid24.
  assert (E : Qfloor (a * inject_Z (2 ^ 24) + (1 # 2)) = Qfloor (b * inject_Z (2 ^ 24) + (1 # 2))).
  { apply Z.le_antisymm; apply Qfloor_resp_le; rewrite H; apply Qle_refl. }
  by rewrite E.
Qed.
Next Obligation.
  intros x y H. unfold grid24.
  apply Qmult_le_compat_r; [|done].
  rewrite <- Zle_Qle. apply Qfloor_resp_le.
  apply Qplus_le_compat; [|apply Qle_refl].
  apply Qmult_le_compat_r; [done|done].
Qed.
Next Obligation.
  intros z _. unfold grid24.
  assert (E : Qfloor (inject_Z z * inject_Z (2 ^ 24) + (1 # 2)) = (z * 2 ^ 24)%Z).
  { unfold Qfloor; cbn. change (Z.pos (1 * 1 * 2)) with 2%Z. change (Z.pos (1 * 1)) with 1%Z. generalize (z * 2 ^ 24)%Z. intros w. Z.to_euclidean_division_equations. lia. }
  rewrite E, inject_Z_mult. apply Qdiv_mult_l. done.
Qed.
Next Obligation.
  intros x. unfold grid24 at 1. set (k := Qfloor (x * inject_Z (2 ^ 24) + (1 # 2))).
  assert (E1 : grid24 x * inject_Z (2 ^ 24) + (1 # 2) == inject_Z k + (1 # 2)).
  { unfold grid24. fold k. field. discriminate. }
  rewrite E1. assert (E2 : Qfloor (inject_Z k + (1 # 2)) = k).
  { unfold Qfloor; cbn. change (Z.pos (1 * 2)) with 2%Z. Z.to_euclidean_division_equations. lia. }
  by rewrite E2.
Qed.

(** [q ^ k] for a natural exponent, computed by repeated products. *)
Fixpoint qpow (q : Q) (k : nat) : Q :=
  match k with O => 1 | S k' => q * qpow q k' end.

#[export] Instance Q_inhabited : Inhabited Q := populate 0.

(** ** A state monad with failure

    [ST S A] threads a state [S] and fails with [None] where the script
    would read [undefined] out of a typed array (its value would then
    be [NaN]). *)
Definition ST (S A : Type) : Type := S -> option (A * S).

#[export] Instance st_ret {S} : MRet (ST S) := fun A a s => Some (a, s).
#[export] Instance st_bind {S} : MBind (ST S) :=
  fun A B k m s => match m s with Some (a, s') => k a s' | None => None end.

Definition st_get {S} : ST S S := fun s => Some (s, s).
Definition st_modify {S} (f : S -> S) : ST S unit := fun s => Some (tt, f s).

(** ** Typed arrays: lists updated by index

    A loop of the script writes three consecutive entries of a flat
    buffer (the x, y and z of one particle); [ins3] is that update. *)

Section Ins3.
Context {A : Type}.
Implicit Types (l : list A) (i j : nat).

Definition ins3 (i : nat) (x0 x1 x2 : A) (l : list A) : list A :=
  <[(i + 2)%nat := x2]> (<[(i + 1)%nat := x1]> (<[i := x0]> l)).

End Ins3.

(** ** Lemmas *)

Lemma qltb_true x y : qltb x y = true <-> x < y.
Proof.
  unfold qltb. rewrite negb_true_iff.
  split; intros H.
  - apply Qnot_le_lt. intros Hle. apply Qle_bool_iff in Hle. congruence.
  - destruct (Qle_bool y x) eqn:E; [|done]. apply Qle_bool_iff in E. lra.
Qed.

Lemma qltb_false x y : qltb x y = false <-> y <= x.
Proof.
  unfold qltb. rewrite negb_false_iff. apply Qle_bool_iff.
Qed.

#[export] Instance qltb_proper : Proper (Qeq ==> Qeq ==> eq) qltb.
Proof. intros a b Hab c d Hcd. unfold qltb. by rewrite Hab, Hcd. Qed.

#[export] Instance Qfloor_proper : Proper (Qeq ==> eq) Qfloor.
Proof.
  intros a b H. apply Z.le_antisymm; apply Qfloor_resp_le; rewrite H; apply Qle_refl.
Qed.

(** [case_qlt] splits on an innermost comparison of the goal and records
    the branch taken as an order hypothesis that [lra] can use. *)
Ltac case_qlt :=
  match goal with
  | |- context [qltb ?a ?b] =>
      lazymatch a with context [qltb _ _] => fail | _ => idtac end;
      lazymatch b with context [qltb _ _] => fail | _ => idtac end;
      let H := fresh "Hcmp" in
      destruct (qltb a b) eqn:H;
      [apply qltb_true in H | apply qltb_false in H]
  end.

(** [lra] misreads powers with a negative exponent and divisions by a
    constant; [qpow_lra] computes the inverses of constants and names
    every power, so that [lra] treats them as unknowns bound only by the
    hypotheses. *)
Ltac qpow_lra :=
  unfold Qdiv in *;
  repeat match goal with
  | H : context [Qinv (Qmake ?n ?d)] |- _ =>
      let v := eval vm_compute in (Qinv (Qmake n d)) in change (Qinv (Qmake n d)) with v in H
  | |- context [Qinv (Qmake ?n ?d)] =>
      let v := eval vm_compute in (Qinv (Qmake n d)) in change (Qinv (Qmake n d)) with v
  end;
  repeat match goal with
  | H : context [Qpower ?a ?e] |- _ => let p := fresh "p" in set (p := Qpower a e) in *; clearbody p
  | |- context [Qpower ?a ?e] => let p := fresh "p" in set (p := Qpower a e) in *; clearbody p
  end; lra.

Section RuntimeFacts.
Context {FS : Float32Store}.

Lemma f32_25 : f32 25 == 25.
Proof. apply (f32_int 25). done. Qed.

Lemma f32_m25 : f32 (Qopp 25) == Qopp 25.
Proof.
  assert (E : Qopp 25 == inject_Z (-25)) by reflexivity.
  rewrite E. by apply f32_int.
Qed.

(** A stored value that was in an interval whose ends are stored exactly
    stays in it. *)
Lemma f32_between lo hi x :
  f32 lo == lo -> f32 hi == hi -> lo <= x <= hi -> lo <= f32 x <= hi.
Proof.
  intros Hlo Hhi [H1 H2]. split.
  - apply (Qle_trans _ (f32 lo)); [rewrite Hlo; apply Qle_refl | by apply f32_mono].
  - apply (Qle_trans _ (f32 hi)); [by apply f32_mono | rewrite Hhi; apply Qle_refl].
Qed.
End RuntimeFacts.

Section TrigFacts.
Context {TR : MathTrig}.

Lemma js_sin_bound t : -1 <= js_sin t <= 1.
Proof. pose proof (trig_unit t). split; nra. Qed.

Lemma js_cos_bound t : -1 <= js_cos t <= 1.
Proof. pose proof (trig_unit t). split; nra. Qed.
End TrigFacts.


Lemma st_bind_run {S A B} (m : ST S A) (k : A -> ST S B) s :
  (m ≫= k) s = match m s with Some (a, s') => k a s' | None => None end.
Proof. done. Qed.

Lemma st_bind_Some {S A B} (m : ST S A) (k : A -> ST S B) s a s' :
  m s = Some (a, s') -> (m ≫= k) s = k a s'.
Proof. intros H. by rewrite st_bind_run, H. Qed.

Lemma st_ret_run {S A} (a : A) (s : S) : (mret a : ST S A) s = Some (a, s).
Proof. done. Qed.


(** A property of the state that a computation keeps on every run that
    does not fail. *)
Definition st_preserves {S A} (P : S -> Prop) (m : ST S A) : Prop :=
  forall s a s', P s -> m s = Some (a, s') -> P s'.

Lemma st_preserves_ret {S A} (P : S -> Prop) (a : A) : st_preserves P (mret a).
Proof. intros s b s' Hs [= _ <-]. exact Hs. Qed.

Lemma st_preserves_get {S} (P : S -> Prop) : st_preserves P st_get.
Proof. intros s b s' Hs [= _ <-]. exact Hs. Qed.

Lemma st_preserves_bind {S A B} (P : S -> Prop) (m : ST S A) (k : A -> ST S B) :
  st_preserves P m -> (forall a, st_preserves P (k a)) -> st_preserves P (m ≫= k).
Proof.
  intros Hm Hk s b s' Hs. rewrite st_bind_run.
  destruct (m s) as [[a s1]|] eqn:E; [|discriminate]. apply Hk, (Hm s a s1 Hs E).
Qed.

Lemma st_preserves_fail {S A} (P : S -> Prop) : st_preserves P (fun _ => @None (A * S)).
Proof. discriminate. Qed.

#[export] Hint Resolve st_preserves_ret st_preserves_get st_preserves_fail : jsmodel.

(** [st_pres] splits a computation into its steps and closes those the
    hint database [jsmodel] knows. *)
Ltac st_pres :=
  repeat first [ apply st_preserves_bind; intros | solve [eauto with jsmodel] ].

Lemma option_bind_Some {A B} (x : option A) (f : A -> option B) y :
  (x ≫= f) = Some y -> exists a, x = Some a /\ f a = Some y.
Proof. destruct x as [a|]; cbn; [eauto | discriminate]. Qed.

Section Ins3Facts.
Context {A : Type}.
Implicit Types (l : list A) (i j : nat).

Lemma length_ins3 i x0 x1 x2 l : length (ins3 i x0 x1 x2 l) = length l.
Proof. unfold ins3. by rewrite !length_insert. Qed.

Lemma lookup_ins3 i x0 x1 x2 l j :
  (i + 2 < length l)%nat ->
  ins3 i x0 x1 x2 l !! j =
    if decide (j = i) then Some x0
    else if decide (j = i + 1)%nat then Some x1
    else if decide (j = i + 2)%nat then Some x2 else l !! j.
Proof.
  intros Hlen. unfold ins3. rewrite !list_lookup_insert, !length_insert.
  repeat case_decide; subst; try done; lia.
Qed.

Lemma ins3_ins3 i x0 x1 x2 y0 y1 y2 l :
  ins3 i y0 y1 y2 (ins3 i x0 x1 x2 l) = ins3 i y0 y1 y2 l.
Proof.
  apply list_eq. intros j. unfold ins3.
  rewrite !list_lookup_insert, !length_insert.
  repeat case_decide; subst; try done; lia.
Qed.
End Ins3Facts.

(** [lookup_simpl] rewrites every lookup of an inserted list of the goal,
    discharging the index side conditions with [lia], and uses the
    lookups the context knows. *)
Ltac lookup_simpl :=
  repeat match goal with
  | |- context [<[?i := ?x]> ?l !! ?j] =>
      first [ rewrite (list_lookup_insert_ne l i j x) by lia
            | rewrite (list_lookup_insert_eq l i x) by (rewrite ?length_insert; lia) ]
  | H : ?l !! ?j = Some _ |- context [?l !! ?j] => rewrite H
  end.
