(* ===== verification/Dom.v ===== *)
(** * The part of the DOM the decoration routines touch

    Elements with a tag, an optional id, a class list (a [DOMTokenList]),
    attributes, an inline style and a text content; a document is the list
    of its elements in document order, addressed by position.  The class
    list is kept as a duplicate-free list: [add], [remove] and [toggle]
    are written as the DOM standard defines them, and two class lists that
    are permutations of each other are the same set of classes
    ([Proper] instances below). *)

From stdpp Require Import base list strings gmap.
From S2P Require Import Prelude.

Module Dom.

(** ** [DOMTokenList] *)

Definition cl_add (c : string) (l : list string) : list string :=
  if bool_decide (c ∈ l) then l else l ++ [c].

Definition cl_remove (c : string) (l : list string) : list string :=
  filter (fun x => x <> c) l.

(** [classList.toggle(c)]: removes [c] when present, appends it otherwise. *)
Definition cl_toggle (c : string) (l : list string) : list string :=
  if bool_decide (c ∈ l) then cl_remove c l else l ++ [c].

Definition cl_contains (c : string) (l : list string) : bool := bool_decide (c ∈ l).

(** ** Elements and documents *)

Record Elem := MkElem {
  e_tag : string;
  e_id : option string;
  e_classes : list string;
  e_attrs : list (string * string);
  e_style : gmap string string;
  e_text : string
}.

Abbreviation Doc := (list Elem).

(** [element.getAttribute(a)]: the first attribute of that name, [null]
    ([None]) when there is none. *)
Definition get_attribute (a : string) (e : Elem) : option string :=
  (fun ikv => ikv.2.2) <$> list_find (fun kv => kv.1 = a) (e_attrs e).

Definition set_classes (cs : list string) (e : Elem) : Elem :=
  MkElem (e_tag e) (e_id e) cs (e_attrs e) (e_style e) (e_text e).

Definition set_style (k v : string) (e : Elem) : Elem :=
  MkElem (e_tag e) (e_id e) (e_classes e) (e_attrs e) (<[k := v]> (e_style e)) (e_text e).

Definition set_text (t : string) (e : Elem) : Elem :=
  MkElem (e_tag e) (e_id e) (e_classes e) (e_attrs e) (e_style e) t.

(** The simple selectors of the script: [.class], [#id] and a tag name;
    a selector list such as ['.fade-in, .slide-in-left'] matches an
    element matched by one of its members. *)
Inductive selector := ByClass (c : string) | ById (i : string) | ByTag (t : string).

Definition matches (s : selector) (e : Elem) : bool :=
  match s with
  | ByClass c => cl_contains c (e_classes e)
  | ById i => bool_decide (e_id e = Some i)
  | ByTag t => bool_decide (e_tag e = t)
  end.

Definition matches_any (ss : list selector) (e : Elem) : bool :=
  existsb (fun s => matches s e) ss.

(** [document.querySelectorAll(ss)]: the positions of the matching
    elements, in document order. *)
Definition query_all (ss : list selector) (d : Doc) : list nat :=
  filter (fun i => default false (matches_any ss <$> d !! i) = true) (seq 0 (length d)).

(** [document.querySelector(ss)]: the first of them, [null] if none. *)
Definition query (ss : list selector) (d : Doc) : option nat := head (query_all ss d).

(** Applies [f] to the element at position [i]. *)
Definition modify_elem (f : Elem -> Elem) (i : nat) (d : Doc) : Doc :=
  match d !! i with Some e => <[i := f e]> d | None => d end.

(** An element without its classes. *)
Definition strip (e : Elem) : Elem := set_classes [] e.

(** Two elements are equivalent when they differ at most in the order of
    their classes: a class list is a set. *)
#[export] Instance elem_equiv : Equiv Elem :=
  fun e e' => strip e = strip e' /\ e_classes e ≡ₚ e_classes e'.

(** ** Lemmas *)

#[export] Instance elem_equivalence : Equivalence (≡@{Elem}).
Proof.
  split.
  - intros e. by split.
  - intros e e' [H1 H2]. by split.
  - intros e1 e2 e3 [H1 H2] [H3 H4]. split; [congruence | by rewrite H2].
Qed.

Section ClassListFacts.
Implicit Types (c x : string) (l : list string).

Lemma elem_of_cl_add c x l : x ∈ cl_add c l <-> x = c \/ x ∈ l.
Proof. unfold cl_add. case_bool_decide; set_solver. Qed.

Lemma elem_of_cl_remove c x l : x ∈ cl_remove c l <-> x <> c /\ x ∈ l.
Proof. unfold cl_remove. rewrite list_elem_of_filter. tauto. Qed.

Lemma elem_of_cl_toggle c x l :
  x ∈ cl_toggle c l <-> (x <> c /\ x ∈ l) \/ (x = c /\ c ∉ l).
Proof.
  unfold cl_toggle. case_bool_decide.
  - rewrite elem_of_cl_remove. naive_solver.
  - rewrite elem_of_app, list_elem_of_singleton. naive_solver.
Qed.

Lemma cl_contains_spec c l : cl_contains c l = true <-> c ∈ l.
Proof. unfold cl_contains. apply bool_decide_eq_true. Qed.

Lemma cl_contains_toggle c l : cl_contains c (cl_toggle c l) = negb (cl_contains c l).
Proof.
  unfold cl_contains. destruct (decide (c ∈ l)).
  - rewrite (bool_decide_true (c ∈ l)) by done. apply bool_decide_false.
    rewrite elem_of_cl_toggle. naive_solver.
  - rewrite (bool_decide_false (c ∈ l)) by done. apply bool_decide_true.
    rewrite elem_of_cl_toggle. naive_solver.
Qed.

Lemma cl_contains_toggle_ne c c' l : c <> c' -> cl_contains c' (cl_toggle c l) = cl_contains c' l.
Proof. intros Hc. unfold cl_contains. apply bool_decide_ext. rewrite elem_of_cl_toggle. naive_solver. Qed.

Lemma cl_contains_remove c l : cl_contains c (cl_remove c l) = false.
Proof. unfold cl_contains. apply bool_decide_false. rewrite elem_of_cl_remove. naive_solver. Qed.

Lemma NoDup_cl_add c l : NoDup l -> NoDup (cl_add c l).
Proof.
  unfold cl_add. case_bool_decide; [done|]. intros Hl.
  apply NoDup_app. split_and!; [done | | apply NoDup_singleton]. set_solver.
Qed.

Lemma NoDup_cl_remove c l : NoDup l -> NoDup (cl_remove c l).
Proof. apply NoDup_filter. Qed.

Lemma NoDup_cl_toggle c l : NoDup l -> NoDup (cl_toggle c l).
Proof.
  unfold cl_toggle. case_bool_decide; [apply NoDup_cl_remove|].
  intros Hl. apply NoDup_app. split_and!; [done | | apply NoDup_singleton]. set_solver.
Qed.

Lemma cl_remove_notin c l : c ∉ l -> cl_remove c l = l.
Proof.
  induction l as [|x l IH]; intros Hc; [done|]. unfold cl_remove in *.
  rewrite filter_cons_True by set_solver. f_equal. apply IH. set_solver.
Qed.

Lemma cl_remove_app c l1 l2 : cl_remove c (l1 ++ l2) = cl_remove c l1 ++ cl_remove c l2.
Proof. apply filter_app. Qed.

(** Toggling twice gives back the same set of classes (the class moves
    to the end of the list when it was there). *)
Lemma cl_toggle_involutive c l : NoDup l -> cl_toggle c (cl_toggle c l) ≡ₚ l.
Proof.
  intros Hl. unfold cl_toggle at 2. case_bool_decide as Hc.
  - unfold cl_toggle. rewrite bool_decide_false by (rewrite elem_of_cl_remove; naive_solver).
    apply list_elem_of_split in Hc as (l1 & l2 & ->).
    apply NoDup_app in Hl as (_ & H12 & H2). apply NoDup_cons in H2 as [Hc2 _].
    assert (Hc1 : c ∉ l1) by (intros Hc1; by apply (H12 c Hc1), list_elem_of_here).
    rewrite cl_remove_app. unfold cl_remove at 2. rewrite filter_cons_False by naive_solver.
    fold (cl_remove c l2). rewrite !cl_remove_notin by done.
    rewrite <-app_assoc. apply Permutation_app_head. by rewrite <-Permutation_cons_append.
  - unfold cl_toggle. rewrite bool_decide_true by set_solver.
    rewrite cl_remove_app. unfold cl_remove at 2. rewrite filter_cons_False, filter_nil, app_nil_r by naive_solver.
    by rewrite cl_remove_notin.
Qed.

Lemma elem_of_perm c l1 l2 : l1 ≡ₚ l2 -> c ∈ l1 <-> c ∈ l2.
Proof. intros Hl. by rewrite Hl. Qed.

#[export] Instance cl_add_perm : Proper ((=) ==> (≡ₚ) ==> (≡ₚ)) cl_add.
Proof.
  intros c ? <- l1 l2 Hl. pose proof (elem_of_perm c _ _ Hl). unfold cl_add.
  do 2 case_bool_decide; [done | tauto | tauto | by rewrite Hl].
Qed.

#[export] Instance cl_remove_perm : Proper ((=) ==> (≡ₚ) ==> (≡ₚ)) cl_remove.
Proof. intros c ? <- l1 l2 Hl. unfold cl_remove. by rewrite Hl. Qed.

#[export] Instance cl_toggle_perm : Proper ((=) ==> (≡ₚ) ==> (≡ₚ)) cl_toggle.
Proof.
  intros c ? <- l1 l2 Hl. pose proof (elem_of_perm c _ _ Hl). unfold cl_toggle.
  do 2 case_bool_decide; [by rewrite Hl | tauto | tauto | by rewrite Hl].
Qed.

#[export] Instance cl_contains_perm : Proper ((=) ==> (≡ₚ) ==> (=)) cl_contains.
Proof. intros c ? <- l1 l2 Hl. unfold cl_contains. apply bool_decide_ext, elem_of_perm, Hl. Qed.

End ClassListFacts.

#[export] Hint Resolve NoDup_cl_add NoDup_cl_remove NoDup_cl_toggle : jsmodel.

Section QueryFacts.
Implicit Types (d : Doc) (ss : list selector).

Lemma elem_of_query_all ss d i :
  i ∈ query_all ss d <-> exists e, d !! i = Some e /\ matches_any ss e = true.
Proof.
  unfold query_all. rewrite list_elem_of_filter, elem_of_seq. split.
  - intros [Hm _]. destruct (d !! i); naive_solver.
  - intros (e & He & Hm). rewrite He. split; [done|]. apply lookup_lt_Some in He. lia.
Qed.

Lemma NoDup_query_all ss d : NoDup (query_all ss d).
Proof. apply NoDup_filter, NoDup_seq. Qed.

Lemma query_Some ss d i :
  query ss d = Some i -> exists e, d !! i = Some e /\ matches_any ss e = true.
Proof.
  unfold query. intros H. apply elem_of_query_all.
  destruct (query_all ss d); cbn in H; simplify_eq. apply list_elem_of_here.
Qed.

Lemma query_None ss d :
  query ss d = None -> forall i e, d !! i = Some e -> matches_any ss e = false.
Proof.
  unfold query. intros H i e He. apply not_true_is_false. intros Hm.
  assert (Hi : i ∈ query_all ss d) by (apply elem_of_query_all; eauto).
  destruct (query_all ss d); [apply not_elem_of_nil in Hi; done | discriminate].
Qed.

Lemma query_all_ext ss d d' :
  length d = length d' ->
  (forall i, default false (matches_any ss <$> d !! i) = default false (matches_any ss <$> d' !! i)) ->
  query_all ss d = query_all ss d'.
Proof. intros Hl Hm. unfold query_all. rewrite Hl. apply list_filter_iff. intros i. by rewrite Hm. Qed.

Lemma length_modify_elem f i d : length (modify_elem f i d) = length d.
Proof. unfold modify_elem. destruct (d !! i); [apply length_insert | done]. Qed.

Lemma lookup_modify_elem f i j d :
  modify_elem f i d !! j = (if decide (i = j) then f <$> d !! j else d !! j).
Proof.
  unfold modify_elem. destruct (d !! i) eqn:E; case_decide; subst.
  - rewrite list_lookup_insert_eq by (eapply lookup_lt_Some; done). by rewrite E.
  - by rewrite list_lookup_insert_ne.
  - by rewrite E.
  - done.
Qed.

End QueryFacts.

End Dom.
