(* ===== verification/Observer.v ===== *)
(** * IntersectionObserver: the update of intersection observations

    Three routines of the script create an [IntersectionObserver]:
    [initScrollAnimations] (threshold 0.1, root margin
    ['0px 0px -50px 0px'], script.js lines 314-325), [initSkillBars]
    (threshold 0.5, line 343) and [initCounterAnimation] (threshold 0.5,
    line 491).  Which entries their callbacks receive is decided by the
    browser: at every rendering frame it runs the "update intersection
    observations" steps of the W3C specification for every observer and
    every observed target, in the order of [observe], and queues an entry
    when the target's threshold index or its [isIntersecting] differ from
    the ones recorded at the previous frame.  This file models those
    steps in the vertical direction: boxes are intervals of the
    document, the root is the viewport grown by the top and bottom of
    [rootMargin] (a negative margin shrinks it), and an observer has the
    single threshold the script gives.

    The specification makes [isIntersecting] true as soon as the target
    touches the root, even below the threshold; Chromium reports [false]
    below the first threshold.  The section variable
    [gate_below_threshold] selects the second reading; every theorem
    holds for both. *)

From Stdlib Require Import QArith Qminmax.
From stdpp Require Import base list sets.
From S2P Require Import Prelude.

Module Observer.

(** The options object: one threshold and the top and bottom of
    [rootMargin], in pixels. *)
Record IOOptions := MkOptions {
  io_threshold : Q;
  io_margin_top : Q;
  io_margin_bottom : Q
}.

(** A target's box in document coordinates: its top and its height. *)
Record Rect := MkRect { r_top : Q; r_height : Q }.

(** The viewport: [window.scrollY] and [window.innerHeight]. *)
Record Viewport := MkViewport { vp_scroll : Q; vp_height : Q }.

(** The registration of a target with an observer: its
    [previousThresholdIndex] and [previousIsIntersecting]. *)
Record Registration := MkReg {
  reg_target : nat;
  reg_prev_index : Z;
  reg_prev_inter : bool
}.

(** [observer.observe(el)]: a new registration, with index [-1] so that
    the first update always queues an entry. *)
Definition observe (i : nat) : Registration := MkReg i (-1) false.

Definition root_top (o : IOOptions) (v : Viewport) : Q := vp_scroll v - io_margin_top o.
Definition root_bottom (o : IOOptions) (v : Viewport) : Q :=
  vp_scroll v + vp_height v + io_margin_bottom o.

(** The target and the root intersect or are edge-adjacent. *)
Definition geom_intersects (o : IOOptions) (v : Viewport) (r : Rect) : bool :=
  Qle_bool (r_top r) (root_bottom o v) && Qle_bool (root_top o v) (r_top r + r_height r).

(** [intersectionRatio]: the visible share of the target's height; 1 for
    an empty target that touches the root, 0 when they do not meet. *)
Definition intersection_ratio (o : IOOptions) (v : Viewport) (r : Rect) : Q :=
  if geom_intersects o v r then
    if qltb 0 (r_height r)
    then (Qmin (root_bottom o v) (r_top r + r_height r) - Qmax (root_top o v) (r_top r)) / r_height r
    else 1
  else 0.

(** The index of the first threshold greater than the ratio. *)
Definition threshold_index (o : IOOptions) (ratio : Q) : Z :=
  if qltb ratio (io_threshold o) then 0 else 1.

Section Update.
Variable gate_below_threshold : bool.

Definition is_intersecting (o : IOOptions) (v : Viewport) (r : Rect) : bool :=
  geom_intersects o v r &&
  (negb gate_below_threshold || negb (qltb (intersection_ratio o v r) (io_threshold o))).

(** Steps 2.1-2.16 of "update intersection observations" for one
    registration: the new registration and the entry queued, if any, as
    the pair ([target], [isIntersecting]) the callbacks read. *)
Definition update_observation (o : IOOptions) (layout : nat -> Rect) (v : Viewport)
    (reg : Registration) : Registration * option (nat * bool) :=
  let r := layout (reg_target reg) in
  let inter := is_intersecting o v r in
  let idx := threshold_index o (intersection_ratio o v r) in
  if bool_decide (idx = reg_prev_index reg) && Bool.eqb inter (reg_prev_inter reg)
  then (reg, None)
  else (MkReg (reg_target reg) idx inter, Some (reg_target reg, inter)).

(** All registrations of one observer, in the order of [observe]; the
    entries in the order they are queued. *)
Fixpoint update_observations (o : IOOptions) (layout : nat -> Rect) (v : Viewport)
    (regs : list Registration) : list Registration * list (nat * bool) :=
  match regs with
  | [] => ([], [])
  | reg :: rs =>
      let '(reg', e) := update_observation o layout v reg in
      let '(rs', es) := update_observations o layout v rs in
      (reg' :: rs', option_list e ++ es)
  end.

End Update.

(** ** Lemmas *)

Lemma targets_observe (l : list nat) : map reg_target (map observe l) = l.
Proof. induction l; cbn; congruence. Qed.

Section UpdateFacts.
Context (g : bool) (o : IOOptions) (layout : nat -> Rect) (v : Viewport).

Lemma update_observation_target reg :
  reg_target (update_observation g o layout v reg).1 = reg_target reg.
Proof. unfold update_observation. by case_match. Qed.

Lemma update_observation_inter reg :
  reg_prev_inter (update_observation g o layout v reg).1 =
  is_intersecting g o v (layout (reg_target reg)).
Proof.
  unfold update_observation. case_match eqn:E; [|done].
  apply andb_true_iff in E as [_ E]. by apply Bool.eqb_prop in E.
Qed.

Lemma update_observation_entry reg ie :
  (update_observation g o layout v reg).2 = Some ie ->
  ie = (reg_target reg, is_intersecting g o v (layout (reg_target reg))).
Proof. unfold update_observation. case_match; naive_solver. Qed.

(** A registration that records an intersection either recorded one
    before or queued an intersecting entry. *)
Lemma update_observation_new_inter reg :
  reg_prev_inter (update_observation g o layout v reg).1 = true ->
  reg_prev_inter reg = true \/ (update_observation g o layout v reg).2 = Some (reg_target reg, true).
Proof.
  unfold update_observation. case_match eqn:E; cbn; [by left|]. intros ->. by right.
Qed.

Lemma update_observations_targets regs :
  map reg_target (update_observations g o layout v regs).1 = map reg_target regs.
Proof.
  induction regs as [|reg rs IH]; [done|]. cbn.
  destruct (update_observation _ _ _ _ _) as [reg' e] eqn:E.
  destruct (update_observations _ _ _ _ _) as [rs' es] eqn:Es. cbn in *.
  by rewrite IH, <- (update_observation_target reg), E.
Qed.

Lemma length_update_observations regs :
  length (update_observations g o layout v regs).1 = length regs.
Proof. by rewrite <- (length_map reg_target), update_observations_targets, length_map. Qed.

(** The new registrations are those of [update_observation], and the
    entries are theirs in order. *)
Lemma update_observations_spec regs :
  update_observations g o layout v regs =
  (map (fun r => (update_observation g o layout v r).1) regs,
   concat (map (fun r => option_list (update_observation g o layout v r).2) regs)).
Proof.
  induction regs as [|r rs IH]; [done|]. cbn.
  destruct (update_observation _ _ _ _ r) as [r' e]. by rewrite IH.
Qed.

(** Every queued entry is about a registered target and carries its
    current [isIntersecting]. *)
Lemma update_observations_entries regs i b :
  (i, b) ∈ (update_observations g o layout v regs).2 ->
  i ∈ map reg_target regs /\ b = is_intersecting g o v (layout i).
Proof.
  induction regs as [|r rs IH]; cbn; [set_solver|].
  destruct (update_observation _ _ _ _ r) as [r' e] eqn:E.
  destruct (update_observations _ _ _ _ rs) as [rs' es] eqn:Es. cbn.
  intros [Hi | Hi]%elem_of_app.
  - destruct e as [ie|]; cbn in Hi; [|set_solver]. apply list_elem_of_singleton in Hi.
    pose proof (update_observation_entry r ie) as He. rewrite E in He.
    specialize (He eq_refl). subst ie. injection He as -> ->. split; [by left | done].
  - destruct (IH Hi). set_solver.
Qed.

Lemma update_observation_entry_in regs r ie :
  r ∈ regs -> (update_observation g o layout v r).2 = Some ie ->
  ie ∈ (update_observations g o layout v regs).2.
Proof.
  intros Hr He. rewrite update_observations_spec. cbn. apply list_elem_of_In, in_concat.
  exists (option_list (update_observation g o layout v r).2). rewrite He. split; [|by left].
  apply in_map_iff. exists r. split; [by rewrite He | by apply list_elem_of_In].
Qed.

(** Targets observed once get at most one entry each per update. *)
Lemma update_observations_NoDup regs (P : nat * bool -> Prop) `{!forall e, Decision (P e)} :
  NoDup (map reg_target regs) ->
  NoDup (fst <$> filter P (update_observations g o layout v regs).2).
Proof.
  induction regs as [|r rs IH]; intros Hnd; [constructor|]. cbn in Hnd.
  apply NoDup_cons in Hnd as [Hr Hnd]. cbn.
  destruct (update_observation _ _ _ _ r) as [r' e] eqn:E.
  destruct (update_observations _ _ _ _ rs) as [rs' es] eqn:Es. cbn.
  rewrite filter_app, fmap_app. apply NoDup_app. split_and!.
  - destruct e as [ie|]; cbn; [|constructor]. case_decide; cbn; repeat constructor. set_solver.
  - intros i Hi1 Hi2. destruct e as [ie|]; cbn in Hi1; [|set_solver].
    pose proof (update_observation_entry r ie) as He. rewrite E in He. specialize (He eq_refl).
    case_decide; cbn in Hi1; [|set_solver]. apply list_elem_of_singleton in Hi1. subst ie i. cbn in *.
    apply list_elem_of_fmap in Hi2 as ([j b] & Hj & Hin). cbn in Hj. subst j.
    apply list_elem_of_filter in Hin as [_ Hin].
    pose proof (update_observations_entries rs (reg_target r) b) as Hent. rewrite ?Es in Hent.
    by destruct (Hent Hin) as [? _].
  - by apply IH.
Qed.

End UpdateFacts.

Section Geometry.
Context (g : bool) (o : IOOptions) (v : Viewport).

(** At or above the threshold, a target that meets the root intersects,
    in both readings. *)
Lemma is_intersecting_threshold r :
  geom_intersects o v r = true -> io_threshold o <= intersection_ratio o v r ->
  is_intersecting g o v r = true.
Proof.
  intros Hg Ht. unfold is_intersecting. rewrite Hg. cbn.
  destruct (qltb _ _) eqn:E; [apply qltb_true in E; lra | by rewrite orb_true_r].
Qed.

(** A target whose top is below the bottom of the root does not
    intersect. *)
Lemma is_intersecting_below r :
  root_bottom o v < r_top r -> is_intersecting g o v r = false.
Proof.
  intros Hb. unfold is_intersecting, geom_intersects.
  destruct (Qle_bool (r_top r) _) eqn:E; [|done]. apply Qle_bool_iff in E. lra.
Qed.

End Geometry.

End Observer.
