(* ===== verification/Timers.v ===== *)
(** * The browser's timers: [setTimeout] and the event loop

    Several routines of the script defer work with [setTimeout]
    (the typing effect, the contact form, the throttle, the glitch
    effect).  The timer queue is a service of the browser, not code of
    the repository: [TimerQueue] states what the script relies on (the
    HTML standard's timer semantics), and the components are verified
    against it.  A queue has a clock in milliseconds and a list of pending
    callbacks with their due times, in the order they will fire: by due
    time, and in order of scheduling among equal due times.
    [list_timers] is an implementation. *)

From stdpp Require Import base list sets.
From S2P Require Import Prelude.

Module Timers.
Local Open Scope nat_scope.

(** Inserts a timer after every pending timer due at the same time or
    earlier. *)
Fixpoint insert_timer {C} (tc : nat * C) (l : list (nat * C)) : list (nat * C) :=
  match l with
  | [] => [tc]
  | tc' :: l' => if bool_decide (tc'.1 <= tc.1)%nat then tc' :: insert_timer tc l' else tc :: l
  end.

Class TimerQueue (T : Type -> Type) := {
  tq_empty {C} : nat -> T C;
  tq_now {C} : T C -> nat;
  (** [setTimeout(cb, delay)] *)
  tq_set {C} : nat -> C -> T C -> T C;
  (** the event loop runs the next timer *)
  tq_pop {C} : T C -> option (C * T C);
  (** the clock reaches [t] (an input event arrives at time [t]) *)
  tq_advance {C} : nat -> T C -> T C;
  tq_pending {C} : T C -> list (nat * C);
  tq_now_empty {C} t : tq_now (tq_empty (C := C) t) = t;
  tq_pending_empty {C} t : tq_pending (tq_empty (C := C) t) = [];
  tq_now_set {C} d (c : C) q : tq_now (tq_set d c q) = tq_now q;
  tq_pending_set {C} d (c : C) q :
    tq_pending (tq_set d c q) = insert_timer (tq_now q + d, c) (tq_pending q);
  tq_pop_none {C} (q : T C) : tq_pending q = [] -> tq_pop q = None;
  tq_pop_some {C} (q : T C) t c rest :
    tq_pending q = (t, c) :: rest ->
    exists q', tq_pop q = Some (c, q') /\ tq_pending q' = rest /\ tq_now q' = Nat.max (tq_now q) t;
  tq_advance_now {C} t (q : T C) : tq_now (tq_advance t q) = Nat.max (tq_now q) t;
  tq_advance_pending {C} t (q : T C) : tq_pending (tq_advance t q) = tq_pending q
}.

(** ** The implementation: a clock and a sorted list *)

Record list_timers (C : Type) := ListTimers { lt_now : nat; lt_pending : list (nat * C) }.
Arguments ListTimers {C}.
Arguments lt_now {C}.
Arguments lt_pending {C}.

Program Instance list_timer_queue : TimerQueue list_timers := {|
  tq_empty C t := ListTimers t [];
  tq_now C q := lt_now q;
  tq_set C d c q := ListTimers (lt_now q) (insert_timer (lt_now q + d, c) (lt_pending q));
  tq_pop C q := match lt_pending q with
                | [] => None
                | (t, c) :: rest => Some (c, ListTimers (Nat.max (lt_now q) t) rest)
                end;
  tq_advance C t q := ListTimers (Nat.max (lt_now q) t) (lt_pending q);
  tq_pending C q := lt_pending q
|}.
Next Obligation. done. Qed.
Next Obligation. done. Qed.
Next Obligation. done. Qed.
Next Obligation. done. Qed.
Next Obligation. intros C q Hq. cbn in *. by rewrite Hq. Qed.
Next Obligation. intros C q t c rest Hq. cbn in *. rewrite Hq. by eexists. Qed.
Next Obligation. done. Qed.
Next Obligation. done. Qed.

(** ** Running the event loop *)

Section Run.
Context `{TQ : TimerQueue T} {C St : Type}.
Variable handle : C -> St -> T C -> St * T C.

(** Runs the next [fuel] timers (fewer if the queue empties). *)
Fixpoint run_timers (fuel : nat) (s : St) (q : T C) : St * T C :=
  match fuel with
  | O => (s, q)
  | S f =>
      match tq_pop q with
      | None => (s, q)
      | Some (c, q') => let '(s', q'') := handle c s q' in run_timers f s' q''
      end
  end.

End Run.

(** ** Lemmas *)

Lemma insert_timer_nil {C} (tc : nat * C) : insert_timer tc [] = [tc].
Proof. done. Qed.

Lemma length_insert_timer {C} (tc : nat * C) l : length (insert_timer tc l) = S (length l).
Proof. induction l as [|tc' l IH]; cbn; [done|]. case_bool_decide; cbn; [by rewrite IH | done]. Qed.

Lemma elem_of_insert_timer {C} (tc x : nat * C) l : x ∈ insert_timer tc l <-> x = tc \/ x ∈ l.
Proof.
  induction l as [|tc' l IH]; cbn; [set_solver|].
  case_bool_decide; rewrite ?elem_of_cons, ?IH; naive_solver.
Qed.

Section RunFacts.
Context `{TQ : TimerQueue T} {C St : Type}.
Variable handle : C -> St -> T C -> St * T C.

Lemma run_timers_empty fuel s (q : T C) :
  tq_pending q = [] -> run_timers handle fuel s q = (s, q).
Proof. intros Hq. destruct fuel; cbn; [done|]. by rewrite tq_pop_none. Qed.

Lemma run_timers_step fuel s (q : T C) t c rest :
  tq_pending q = (t, c) :: rest ->
  exists q', tq_pending q' = rest /\ tq_now q' = Nat.max (tq_now q) t /\
    run_timers handle (S fuel) s q = let '(s', q'') := handle c s q' in run_timers handle fuel s' q''.
Proof.
  intros Hq. destruct (tq_pop_some q t c rest Hq) as (q' & Hpop & Hp & Hn).
  exists q'. split_and!; [done | done |]. cbn. by rewrite Hpop.
Qed.

(** Running [a + b] timers is running [a], then [b]: once the queue is
    empty the remaining runs do nothing. *)
Lemma run_timers_add a b s (q : T C) :
  run_timers handle (a + b) s q =
    let '(s', q') := run_timers handle a s q in run_timers handle b s' q'.
Proof.
  revert s q. induction a as [|a IH]; intros s q; [done|]. cbn.
  destruct (tq_pop q) as [[c q']|] eqn:E.
  - destruct (handle c s q') as [s' q'']. apply IH.
  - destruct b; cbn; [done|]. by rewrite E.
Qed.

End RunFacts.

End Timers.
