(* ===== verification/Particles.v ===== *)
(** * The particle field: [createParticleSystem] and the update loop of
    [animate] in src/script.js

    The buffers of the [THREE.BufferGeometry] are flat [Float32Array]s:
    three entries per particle for [position], [velocity] and [color], one
    for [size] and [opacity].  Module [ParticleField] models them as lists
    of rationals and models the two loops of the source over them, statement
    by statement, in the state monad of the prelude: the initialisation
    loop (lines 53-97) and the per-frame loop of [animate] (lines 210-234).
    Beside the flat model it gives the per-particle reading of the spec
    (records [vec3] and [particle], the step [particle_update]) and proves
    that the flat loops implement it, and that the buffers keep the type
    of a [Float32Array] ([mem_f32]) through both loops. *)

From S2P Require Import Prelude.

Module ParticleField.

(** ** Data *)

Record vec3 := V3 { vx : Q; vy : Q; vz : Q }.

(** One particle as the spec describes it (section 3). *)
Record particle := Particle {
  p_position : vec3;
  p_velocity : vec3;
  p_color : vec3;
  p_size : Q;
  p_opacity : Q
}.

(** [const particleCount = 2000] (line 44). *)
Definition particleCount : nat := 2000.

(** [const maxDistance = 25] (line 227). *)
Definition maxDistance : Q := 25.

Section Update.
Context {FS : Float32Store}.

(** Lines 228-229 (and 230-233 for the other axes): the two boundary
    tests run one after the other on the stored coordinate; each
    assignment stores its value through the [Float32Array]. *)
Definition wrap_axis (p : Q) : Q :=
  let p1 := if maxDistance <? p then f32 (- maxDistance) else p in
  if p1 <? - maxDistance then f32 maxDistance else p1.

(** One axis of one particle in a frame: lines 212 (perturbation by the
    random draw [r]), 217 (damping), 222 (integration) and 228-229
    (wrap).  Returns the new position and the new velocity. *)
Definition axis_update (r p v : Q) : Q * Q :=
  let v1 := f32 (v + (r - 0.5) * 0.001) in
  let v2 := f32 (v1 * 0.999) in
  (wrap_axis (f32 (p + v2)), v2).

(** One particle in a frame, given the three draws of [Math.random] its
    iteration makes (x, then y, then z).  Colour, size and opacity are
    not touched by the loop. *)
Definition particle_update (rx ry rz : Q) (pa : particle) : particle :=
  let '(V3 px py pz) := p_position pa in
  let '(V3 wx wy wz) := p_velocity pa in
  let '(px', wx') := axis_update rx px wx in
  let '(py', wy') := axis_update ry py wy in
  let '(pz', wz') := axis_update rz pz wz in
  Particle (V3 px' py' pz') (V3 wx' wy' wz') (p_color pa) (p_size pa) (p_opacity pa).

End Update.

(** ** The buffers as the source keeps them *)

(** The five attributes of the geometry (lines 99-103). *)
Inductive attr := APosition | AColor | ASize | AVelocity | AOpacity.

#[export] Instance attr_eq_dec : EqDecision attr.
Proof. solve_decision. Defined.

(** The five [Float32Array]s, and the position of [Math.random] in its
    sequence (the generator is global state shared with the rest of the
    page). *)
Record Mem := MkMem {
  m_position : list Q;
  m_color : list Q;
  m_size : list Q;
  m_velocity : list Q;
  m_opacity : list Q;
  m_rng : nat
}.

Definition arr (a : attr) (m : Mem) : list Q :=
  match a with
  | APosition => m_position m | AColor => m_color m | ASize => m_size m
  | AVelocity => m_velocity m | AOpacity => m_opacity m
  end.

Definition set_arr (a : attr) (l : list Q) (m : Mem) : Mem :=
  let '(MkMem p c s v o r) := m in
  match a with
  | APosition => MkMem l c s v o r | AColor => MkMem p l s v o r
  | ASize => MkMem p c l v o r | AVelocity => MkMem p c s l o r
  | AOpacity => MkMem p c s v l r
  end.

Definition bump_rng (m : Mem) : Mem :=
  let '(MkMem p c s v o r) := m in MkMem p c s v o (S r).

Section Buffers.
Context {FS : Float32Store} {RNG : MathRandom}.

(** [a[i]]: reading past the end gives [undefined]; the model fails. *)
Definition read (a : attr) (i : nat) : ST Mem Q :=
  fun m => match arr a m !! i with Some x => Some (x, m) | None => None end.

(** [a[i] = x]: the value is rounded to single precision; a typed array
    ignores a store past its end, as stdpp's [insert] does. *)
Definition write (a : attr) (i : nat) (x : Q) : ST Mem unit :=
  st_modify (fun m => set_arr a (<[i := f32 x]> (arr a m)) m).

(** [Math.random()]. *)
Definition random : ST Mem Q :=
  fun m => Some (random_draw (m_rng m), bump_rng m).

(** *** The body of the loop of [animate] (lines 210-234) *)

(** [velocities[i] += (Math.random() - 0.5) * 0.001] (lines 212-214). *)
Definition perturb (i : nat) : ST Mem unit :=
  v ← read AVelocity i; r ← random; write AVelocity i (v + (r - 0.5) * 0.001).

(** [velocities[i] *= 0.999] (lines 217-219). *)
Definition damp (i : nat) : ST Mem unit :=
  v ← read AVelocity i; write AVelocity i (v * 0.999).

(** [positions[i] += velocities[i]] (lines 222-224). *)
Definition integrate (i : nat) : ST Mem unit :=
  p ← read APosition i; v ← read AVelocity i; write APosition i (p + v).

(** [if (positions[i] > maxDistance) positions[i] = -maxDistance;
     if (positions[i] < -maxDistance) positions[i] = maxDistance;]
    (lines 228-229, 230-231, 232-233). *)
Definition wrap_coord (i : nat) : ST Mem unit :=
  p ← read APosition i;
  (if maxDistance <? p then write APosition i (- maxDistance) else mret tt);;
  p' ← read APosition i;
  if p' <? - maxDistance then write APosition i maxDistance else mret tt.

Definition perturb_all (i : nat) : ST Mem unit :=
  perturb i;; perturb (i + 1);; perturb (i + 2).
Definition damp_all (i : nat) : ST Mem unit :=
  damp i;; damp (i + 1);; damp (i + 2).
Definition integrate_all (i : nat) : ST Mem unit :=
  integrate i;; integrate (i + 1);; integrate (i + 2).
Definition wrap_all (i : nat) : ST Mem unit :=
  wrap_coord i;; wrap_coord (i + 1);; wrap_coord (i + 2).

Definition frame_body (i : nat) : ST Mem unit :=
  perturb_all i;; damp_all i;; integrate_all i;; wrap_all i.

(** [for (let i = 0; i < positions.length; i += 3)], with fuel: each
    iteration consumes one unit, and [update_particles] supplies more
    than the loop can use ([frame_loop_total]). *)
Fixpoint frame_loop (fuel i : nat) : ST Mem unit :=
  match fuel with
  | O => fun _ => None
  | S fuel' =>
      m ← st_get;
      if (i <? length (m_position m))%nat then frame_body i;; frame_loop fuel' (i + 3)
      else mret tt
  end.

Definition update_particles : ST Mem unit :=
  m ← st_get; frame_loop (S (length (m_position m))) 0.

(** *** The reference: what one frame does to the flat buffers

    Entry [j] of the buffers is coordinate [j mod 3] of particle
    [j / 3]; the loop draws for it the [j]-th value of [Math.random]
    after the seed [r] of the frame.  [pos_after n] and [vel_after n]
    are the buffers once the entries below [n] are updated. *)
Definition pos_after (n r : nat) (pos vel : list Q) : list Q :=
  imap (fun j p => if bool_decide (j < n)%nat
                   then (axis_update (random_draw (j + r)) p (vel !!! j)).1 else p) pos.

Definition vel_after (n r : nat) (pos vel : list Q) : list Q :=
  imap (fun j v => if bool_decide (j < n)%nat
                   then (axis_update (random_draw (j + r)) (pos !!! j) v).2 else v) vel.

(** [k] frames of [animate] in a row, as far as the particles go
    ([requestAnimationFrame(animate)], line 202). *)
Fixpoint run_updates (k : nat) : ST Mem unit :=
  match k with
  | O => mret tt
  | S k' => update_particles;; run_updates k'
  end.

End Buffers.

(** *** The per-particle reading of the buffers *)

Definition vec_at (l : list Q) (k : nat) : option vec3 :=
  x ← l !! (3 * k)%nat; y ← l !! (3 * k + 1)%nat; z ← l !! (3 * k + 2)%nat;
  Some (V3 x y z).

Definition particle_at (m : Mem) (k : nat) : option particle :=
  pp ← vec_at (m_position m) k; vv ← vec_at (m_velocity m) k;
  cc ← vec_at (m_color m) k; sz ← m_size m !! k; op ← m_opacity m !! k;
  Some (Particle pp vv cc sz op).

(** The buffers as [createParticleSystem] allocates them: three entries
    per particle for position, velocity and colour, one for size and
    opacity. *)
Definition mem_wf (n : nat) (m : Mem) : Prop :=
  (length (m_position m) = 3 * n /\ length (m_velocity m) = 3 * n /\
   length (m_color m) = 3 * n /\ length (m_size m) = n /\ length (m_opacity m) = n)%nat.

(** The type of the buffers: every entry of a [Float32Array] is a
    single-precision number, one that the store leaves as it is. *)
Definition mem_f32 {FS : Float32Store} (m : Mem) : Prop :=
  forall a, Forall (fun x => f32 x == x) (arr a m).

(** ** The initialisation loop of [createParticleSystem] (lines 43-103) *)

(** The four neon colours of lines 70-90, in the order of the tests. *)
Inductive neon := BrightGreen | BrightCyan | BrightMagenta | WhiteBlue.

Definition neon_rgb (c : neon) : vec3 :=
  match c with
  | BrightGreen => V3 0.0 1.0 0.3
  | BrightCyan => V3 0.0 0.9 1.0
  | BrightMagenta => V3 1.0 0.0 1.0
  | WhiteBlue => V3 0.8 0.9 1.0
  end.

(** [if (colorChoice < 0.35) ... else if (colorChoice < 0.65) ...
     else if (colorChoice < 0.85) ... else ...] (lines 70-90). *)
Definition choose_color (colorChoice : Q) : neon :=
  if colorChoice <? 0.35 then BrightGreen
  else if colorChoice <? 0.65 then BrightCyan
  else if colorChoice <? 0.85 then BrightMagenta
  else WhiteBlue.

(** [new Float32Array(n)] is filled with zeros (lines 45-49). *)
Definition alloc_mem (count rng : nat) : Mem :=
  MkMem (replicate (count * 3) 0) (replicate (count * 3) 0) (replicate count 0)
        (replicate (count * 3) 0) (replicate count 0) rng.

(** A point inside the simulation box [[-25, 25]^3]. *)
Definition in_box (v : vec3) : Prop :=
  - maxDistance <= vx v <= maxDistance /\ - maxDistance <= vy v <= maxDistance /\
  - maxDistance <= vz v <= maxDistance.

(** The squared distance from the origin. *)
Definition norm2 (v : vec3) : Q := vx v * vx v + vy v * vy v + vz v * vz v.

(** A field of one particle near the faces of the box (for the
    witnesses). *)
Definition mem_example : Mem :=
  MkMem [24.9; 0; -24.9] [0; 1; 0.3] [2] [0.2; 0; -0.2] [0.5] 0.

Section Init.
Context {FS : Float32Store} {RNG : MathRandom} {TR : MathTrig}.

(** The three stores [a[i * 3] = ..; a[i * 3 + 1] = ..; a[i * 3 + 2] = ..]. *)
Definition write_vec (a : attr) (i : nat) (v : vec3) : ST Mem unit :=
  write a (i * 3) (vx v);; write a (i * 3 + 1) (vy v);; write a (i * 3 + 2) (vz v).

(** One iteration of the loop of lines 53-97: nine calls of
    [Math.random], in the order of the source. *)
Definition init_particle (i : nat) : ST Mem unit :=
  r ← random; let radius := r * 20 + 5 in
  t ← random; let theta := t * Math_PI * 2 in
  f ← random; let phi := f * Math_PI in
  write APosition (i * 3) (radius * js_sin phi * js_cos theta);;
  write APosition (i * 3 + 1) (radius * js_sin phi * js_sin theta);;
  write APosition (i * 3 + 2) (radius * js_cos phi);;
  a ← random; write AVelocity (i * 3) ((a - 0.5) * 0.03);;
  b ← random; write AVelocity (i * 3 + 1) ((b - 0.5) * 0.03);;
  c ← random; write AVelocity (i * 3 + 2) ((c - 0.5) * 0.03);;
  colorChoice ← random; write_vec AColor i (neon_rgb (choose_color colorChoice));;
  sz ← random; write ASize i (sz * 4 + 1.5);;
  op ← random; write AOpacity i (op * 0.8 + 0.2).

(** [for (let i = 0; i < particleCount; i++)]: [n] iterations left,
    starting at [i]. *)
Fixpoint init_loop (n i : nat) : ST Mem unit :=
  match n with
  | O => mret tt
  | S n' => init_particle i;; init_loop n' (S i)
  end.

(** The buffers of [createParticleSystem] (lines 44-103), with
    [Math.random] at position [rng] when it starts. *)
Definition create_buffers (count rng : nat) : option Mem :=
  snd <$> init_loop count 0 (alloc_mem count rng).

(** *** The reference: one particle as the spec describes its creation

    [d a] is the [a]-th of the nine draws of the particle. *)
Definition vec_f32 (v : vec3) : vec3 := V3 (f32 (vx v)) (f32 (vy v)) (f32 (vz v)).

Definition initial_particle (d : nat -> Q) : particle :=
  let radius := d 0%nat * 20 + 5 in
  let theta := d 1%nat * Math_PI * 2 in
  let phi := d 2%nat * Math_PI in
  Particle
    (vec_f32 (V3 (radius * js_sin phi * js_cos theta)
                 (radius * js_sin phi * js_sin theta) (radius * js_cos phi)))
    (vec_f32 (V3 ((d 3%nat - 0.5) * 0.03) ((d 4%nat - 0.5) * 0.03) ((d 5%nat - 0.5) * 0.03)))
    (vec_f32 (neon_rgb (choose_color (d 6%nat))))
    (f32 (d 7%nat * 4 + 1.5))
    (f32 (d 8%nat * 0.8 + 0.2)).
End Init.

(** ** Lemmas *)

Ltac st_run :=
  unfold mbind, st_bind, mret, st_ret, st_get, st_modify, read, write, random;
  repeat progress (cbn; lookup_simpl).

(** [solve_lookup] proves a lookup of a buffer the loop has updated;
    [st_seq lem] runs the first statement of a sequence with its run
    lemma [lem]. *)
Ltac solve_lookup :=
  first [ by lookup_simpl
        | by rewrite lookup_ins3 by lia; repeat case_decide; try lia ].

Ltac st_seq lem :=
  erewrite st_bind_Some; [| eapply lem; solve_lookup ].

Section UpdateFacts.
Context {FS : Float32Store}.

(** ** Lemmas on the boundary wrap *)

Lemma wrap_axis_above p : maxDistance < p -> wrap_axis p == - maxDistance.
Proof.
  unfold wrap_axis, maxDistance. intros H.
  case_qlt; [|lra]. case_qlt; rewrite ?f32_25, ?f32_m25 in *; lra.
Qed.

Lemma wrap_axis_below p : p < - maxDistance -> wrap_axis p == maxDistance.
Proof.
  unfold wrap_axis, maxDistance. intros H.
  case_qlt; [lra|]. case_qlt; [|lra]. apply f32_25.
Qed.

Lemma wrap_axis_inside p : - maxDistance <= p <= maxDistance -> wrap_axis p = p.
Proof.
  unfold wrap_axis, maxDistance. intros H.
  case_qlt; [lra|]. case_qlt; [lra|done].
Qed.

Lemma wrap_axis_bound p : - maxDistance <= wrap_axis p <= maxDistance.
Proof.
  destruct (Qlt_le_dec maxDistance p) as [H|H].
  { rewrite (wrap_axis_above p H). unfold maxDistance. lra. }
  destruct (Qlt_le_dec p (- maxDistance)) as [H'|H'].
  { rewrite (wrap_axis_below p H'). unfold maxDistance. lra. }
  rewrite wrap_axis_inside; lra.
Qed.

End UpdateFacts.

Section BufferFacts.
Context {FS : Float32Store} {RNG : MathRandom}.

(** Each group of three statements of the loop body updates the three
    entries of one particle in place. *)
Lemma perturb_all_run i p c s v o r v0 v1 v2 :
  v !! i = Some v0 -> v !! (i + 1)%nat = Some v1 -> v !! (i + 2)%nat = Some v2 ->
  perturb_all i (MkMem p c s v o r) =
    Some (tt, MkMem p c s
      (ins3 i (f32 (v0 + (random_draw r - 0.5) * 0.001))
              (f32 (v1 + (random_draw (1 + r) - 0.5) * 0.001))
              (f32 (v2 + (random_draw (2 + r) - 0.5) * 0.001)) v) o (3 + r)).
Proof.
  intros H0 H1 H2. pose proof (lookup_lt_Some _ _ _ H2).
  unfold perturb_all, perturb. st_run. done.
Qed.

Lemma damp_all_run i p c s v o r v0 v1 v2 :
  v !! i = Some v0 -> v !! (i + 1)%nat = Some v1 -> v !! (i + 2)%nat = Some v2 ->
  damp_all i (MkMem p c s v o r) =
    Some (tt, MkMem p c s
      (ins3 i (f32 (v0 * 0.999)) (f32 (v1 * 0.999)) (f32 (v2 * 0.999)) v) o r).
Proof.
  intros H0 H1 H2. pose proof (lookup_lt_Some _ _ _ H2).
  unfold damp_all, damp. st_run. done.
Qed.

Lemma integrate_all_run i p c s v o r p0 p1 p2 v0 v1 v2 :
  p !! i = Some p0 -> p !! (i + 1)%nat = Some p1 -> p !! (i + 2)%nat = Some p2 ->
  v !! i = Some v0 -> v !! (i + 1)%nat = Some v1 -> v !! (i + 2)%nat = Some v2 ->
  integrate_all i (MkMem p c s v o r) =
    Some (tt, MkMem
      (ins3 i (f32 (p0 + v0)) (f32 (p1 + v1)) (f32 (p2 + v2)) p) c s v o r).
Proof.
  intros H0 H1 H2 H3 H4 H5. pose proof (lookup_lt_Some _ _ _ H2).
  unfold integrate_all, integrate. st_run. done.
Qed.

(** The two boundary tests of one coordinate store [wrap_axis] of it. *)
Lemma wrap_coord_run i p c s v o r q :
  p !! i = Some q ->
  wrap_coord i (MkMem p c s v o r) = Some (tt, MkMem (<[i := wrap_axis q]> p) c s v o r).
Proof.
  intros Hq. pose proof (lookup_lt_Some _ _ _ Hq).
  unfold wrap_coord, wrap_axis. st_run.
  repeat (case_qlt; st_run);
    by rewrite ?list_insert_insert_eq, ?(list_insert_id p i q).
Qed.

Lemma wrap_all_run i p c s v o r q0 q1 q2 :
  p !! i = Some q0 -> p !! (i + 1)%nat = Some q1 -> p !! (i + 2)%nat = Some q2 ->
  wrap_all i (MkMem p c s v o r) =
    Some (tt, MkMem (ins3 i (wrap_axis q0) (wrap_axis q1) (wrap_axis q2) p) c s v o r).
Proof.
  intros H0 H1 H2. pose proof (lookup_lt_Some _ _ _ H2).
  unfold wrap_all. st_seq wrap_coord_run. st_seq wrap_coord_run.
  erewrite wrap_coord_run by solve_lookup. done.
Qed.

(** The whole body of the loop at index [i] replaces the three entries
    of the particle of [i] by the result of [axis_update] on each axis,
    with the draws [r], [1 + r], [2 + r] of [Math.random]. *)
Lemma frame_body_run i p c s v o r p0 p1 p2 v0 v1 v2 :
  p !! i = Some p0 -> p !! (i + 1)%nat = Some p1 -> p !! (i + 2)%nat = Some p2 ->
  v !! i = Some v0 -> v !! (i + 1)%nat = Some v1 -> v !! (i + 2)%nat = Some v2 ->
  frame_body i (MkMem p c s v o r) =
    Some (tt, MkMem
      (ins3 i (axis_update (random_draw r) p0 v0).1
              (axis_update (random_draw (1 + r)) p1 v1).1
              (axis_update (random_draw (2 + r)) p2 v2).1 p) c s
      (ins3 i (axis_update (random_draw r) p0 v0).2
              (axis_update (random_draw (1 + r)) p1 v1).2
              (axis_update (random_draw (2 + r)) p2 v2).2 v) o (3 + r)).
Proof.
  intros Hp0 Hp1 Hp2 Hv0 Hv1 Hv2.
  pose proof (lookup_lt_Some _ _ _ Hp2). pose proof (lookup_lt_Some _ _ _ Hv2).
  unfold frame_body.
  st_seq perturb_all_run. st_seq damp_all_run. rewrite ins3_ins3.
  st_seq integrate_all_run. erewrite wrap_all_run by solve_lookup.
  by rewrite ins3_ins3.
Qed.

(** *** The loop against the reference arrays *)

Lemma lookup_pos_after n r P V j :
  pos_after n r P V !! j =
    (fun p => if bool_decide (j < n)%nat
              then (axis_update (random_draw (j + r)) p (V !!! j)).1 else p) <$> P !! j.
Proof. apply list_lookup_imap. Qed.

Lemma lookup_vel_after n r P V j :
  vel_after n r P V !! j =
    (fun v => if bool_decide (j < n)%nat
              then (axis_update (random_draw (j + r)) (P !!! j) v).2 else v) <$> V !! j.
Proof. apply list_lookup_imap. Qed.

Lemma length_pos_after n r P V : length (pos_after n r P V) = length P.
Proof. apply length_imap. Qed.

Lemma length_vel_after n r P V : length (vel_after n r P V) = length V.
Proof. apply length_imap. Qed.

Lemma after_0 r P V : pos_after 0 r P V = P /\ vel_after 0 r P V = V.
Proof.
  split; apply list_eq; intros j;
    rewrite ?lookup_pos_after, ?lookup_vel_after; by destruct (_ !! j).
Qed.

(** Entries the loop has not reached yet hold their old value. *)
Lemma lookup_after_ge n r P V j :
  (n <= j)%nat -> (j < length P)%nat -> (j < length V)%nat ->
  pos_after n r P V !! j = Some (P !!! j) /\ vel_after n r P V !! j = Some (V !!! j).
Proof.
  intros Hn HP HV. rewrite lookup_pos_after, lookup_vel_after,
    !list_lookup_lookup_total_lt by done.
  cbn. rewrite !bool_decide_false by lia. done.
Qed.

(** One iteration of the loop moves the frontier by one particle. *)
Lemma ins3_after i r P V :
  (i + 2 < length P)%nat -> length V = length P ->
  ins3 i (axis_update (random_draw (i + r)) (P !!! i) (V !!! i)).1
         (axis_update (random_draw (i + 1 + r)) (P !!! (i + 1)%nat) (V !!! (i + 1)%nat)).1
         (axis_update (random_draw (i + 2 + r)) (P !!! (i + 2)%nat) (V !!! (i + 2)%nat)).1
         (pos_after i r P V) = pos_after (i + 3)%nat r P V /\
  ins3 i (axis_update (random_draw (i + r)) (P !!! i) (V !!! i)).2
         (axis_update (random_draw (i + 1 + r)) (P !!! (i + 1)%nat) (V !!! (i + 1)%nat)).2
         (axis_update (random_draw (i + 2 + r)) (P !!! (i + 2)%nat) (V !!! (i + 2)%nat)).2
         (vel_after i r P V) = vel_after (i + 3)%nat r P V.
Proof.
  intros HP HV. split; apply list_eq; intros j;
    rewrite lookup_ins3 by (rewrite ?length_pos_after, ?length_vel_after; lia);
    rewrite ?lookup_pos_after, ?lookup_vel_after;
    repeat case_decide; subst;
    rewrite ?list_lookup_lookup_total_lt by lia; cbn;
    rewrite ?bool_decide_true by lia; try done; lia.
Qed.

(** The loop from particle [k] on, with enough fuel, updates every
    particle and draws three values of [Math.random] for each. *)
Lemma frame_loop_run fuel k n r P V c s o :
  length P = (3 * n)%nat -> length V = length P -> (k <= n)%nat -> (n - k < fuel)%nat ->
  frame_loop fuel (3 * k)
    (MkMem (pos_after (3 * k) r P V) c s (vel_after (3 * k) r P V) o (3 * k + r)) =
  Some (tt, MkMem (pos_after (3 * n) r P V) c s (vel_after (3 * n) r P V) o (3 * n + r)).
Proof.
  revert k. induction fuel as [|fuel IH]; intros k HP HV Hk Hf; [lia|].
  cbn [frame_loop]. unfold st_get, mbind at 1, st_bind at 1. cbn [m_position].
  rewrite length_pos_after.
  destruct (Nat.ltb_spec (3 * k) (length P)) as [Hlt|Hge].
  - destruct (lookup_after_ge (3 * k) r P V (3 * k)) as [Hp0 Hv0]; try lia.
    destruct (lookup_after_ge (3 * k) r P V (3 * k + 1)) as [Hp1 Hv1]; try lia.
    destruct (lookup_after_ge (3 * k) r P V (3 * k + 2)) as [Hp2 Hv2]; try lia.
    rewrite (st_bind_Some _ _ _ tt _ (frame_body_run _ _ c s _ o _ _ _ _ _ _ _
               Hp0 Hp1 Hp2 Hv0 Hv1 Hv2)).
    replace (1 + (3 * k + r))%nat with (3 * k + 1 + r)%nat by lia.
    replace (2 + (3 * k + r))%nat with (3 * k + 2 + r)%nat by lia.
    destruct (ins3_after (3 * k) r P V) as [-> ->]; try lia.
    replace (3 * k + 3)%nat with (3 * S k)%nat by lia.
    replace (3 + (3 * k + r))%nat with (3 * S k + r)%nat by lia.
    apply IH; lia.
  - assert (k = n) by lia. subst. done.
Qed.

Lemma update_particles_run n P V c s o r :
  length P = (3 * n)%nat -> length V = length P ->
  update_particles (MkMem P c s V o r) =
    Some (tt, MkMem (pos_after (3 * n) r P V) c s (vel_after (3 * n) r P V) o (3 * n + r)).
Proof.
  intros HP HV. unfold update_particles, st_get, mbind at 1, st_bind at 1. cbn [m_position].
  destruct (after_0 r P V) as [E1 E2].
  pose proof (frame_loop_run (S (length P)) 0 n r P V c s o HP HV) as L.
  rewrite Nat.mul_0_r, E1, E2 in L. apply L; lia.
Qed.

(** The particle [k] of the updated buffers, read back as a record. *)
Lemma vec_at_after n r P V k :
  length P = (3 * n)%nat -> length V = length P -> (k < n)%nat ->
  exists p0 p1 p2 v0 v1 v2,
    vec_at P k = Some (V3 p0 p1 p2) /\ vec_at V k = Some (V3 v0 v1 v2) /\
    vec_at (pos_after (3 * n) r P V) k =
      Some (V3 (axis_update (random_draw (3 * k + r)) p0 v0).1
               (axis_update (random_draw (3 * k + 1 + r)) p1 v1).1
               (axis_update (random_draw (3 * k + 2 + r)) p2 v2).1) /\
    vec_at (vel_after (3 * n) r P V) k =
      Some (V3 (axis_update (random_draw (3 * k + r)) p0 v0).2
               (axis_update (random_draw (3 * k + 1 + r)) p1 v1).2
               (axis_update (random_draw (3 * k + 2 + r)) p2 v2).2).
Proof.
  intros HP HV Hk.
  exists (P !!! (3 * k)%nat), (P !!! (3 * k + 1)%nat), (P !!! (3 * k + 2)%nat),
    (V !!! (3 * k)%nat), (V !!! (3 * k + 1)%nat), (V !!! (3 * k + 2)%nat).
  unfold vec_at. rewrite !lookup_pos_after, !lookup_vel_after,
    !list_lookup_lookup_total_lt by lia.
  cbn. rewrite !bool_decide_true by lia. done.
Qed.

Lemma vec_at_out l k : (length l <= 3 * k)%nat -> vec_at l k = None.
Proof. intros H. unfold vec_at. rewrite (lookup_ge_None_2 l (3 * k)%nat) by lia. done. Qed.

(** Every entry of the updated buffers comes out of [axis_update]. *)
Lemma Forall_pos_after (Pr : Q -> Prop) n r P V :
  length P = (3 * n)%nat -> length V = length P ->
  (forall j p v, P !! j = Some p -> V !! j = Some v ->
     Pr (axis_update (random_draw (j + r)) p v).1) ->
  Forall Pr (pos_after (3 * n) r P V).
Proof.
  intros HP HV H. apply Forall_lookup. intros j x. rewrite lookup_pos_after.
  destruct (P !! j) as [p|] eqn:Hj; cbn; [|done].
  pose proof (lookup_lt_Some _ _ _ Hj).
  rewrite bool_decide_true by lia. intros [= <-].
  apply H; [done|]. rewrite list_lookup_lookup_total_lt; [done|lia].
Qed.

Lemma Forall_vel_after (Pr : Q -> Prop) n r P V :
  length P = (3 * n)%nat -> length V = length P ->
  (forall j p v, P !! j = Some p -> V !! j = Some v ->
     Pr (axis_update (random_draw (j + r)) p v).2) ->
  Forall Pr (vel_after (3 * n) r P V).
Proof.
  intros HP HV H. apply Forall_lookup. intros j x. rewrite lookup_vel_after.
  destruct (V !! j) as [v|] eqn:Hj; cbn; [|done].
  pose proof (lookup_lt_Some _ _ _ Hj).
  rewrite bool_decide_true by lia. intros [= <-].
  apply (H j (P !!! j) v); [|done]. rewrite list_lookup_lookup_total_lt; [done|lia].
Qed.

End BufferFacts.

Section InitFacts.
Context {FS : Float32Store} {RNG : MathRandom} {TR : MathTrig}.

Lemma vec_at_ins3 i x y z l q :
  (i * 3 + 2 < length l)%nat ->
  vec_at (ins3 (i * 3) x y z l) q = if decide (q = i) then Some (V3 x y z) else vec_at l q.
Proof.
  intros Hl. unfold vec_at. rewrite !lookup_ins3 by lia.
  repeat case_decide; subst; try lia; done.
Qed.

Lemma init_particle_run i p c s v o r :
  init_particle i (MkMem p c s v o r) =
    Some (tt, let P0 := initial_particle (fun a => random_draw (a + r)) in
      MkMem (ins3 (i * 3) (vx (p_position P0)) (vy (p_position P0)) (vz (p_position P0)) p)
            (ins3 (i * 3) (vx (p_color P0)) (vy (p_color P0)) (vz (p_color P0)) c)
            (<[i := p_size P0]> s)
            (ins3 (i * 3) (vx (p_velocity P0)) (vy (p_velocity P0)) (vz (p_velocity P0)) v)
            (<[i := p_opacity P0]> o) (9 + r)).
Proof. unfold init_particle, write_vec. st_run. done. Qed.

(** After one iteration, particle [i] is the created particle and the
    others are as before. *)
Lemma particle_at_init_step N i p c s v o r :
  (i < N)%nat -> mem_wf N (MkMem p c s v o r) ->
  forall m', init_particle i (MkMem p c s v o r) = Some (tt, m') ->
  mem_wf N m' /\ m_rng m' = (9 + r)%nat /\
  forall q, particle_at m' q =
    if decide (q = i) then Some (initial_particle (fun a => random_draw (a + r)))
    else particle_at (MkMem p c s v o r) q.
Proof.
  intros Hi (HP & HV & Hc & Hs & Ho) m'. rewrite init_particle_run. intros [= <-]. cbn in *.
  split; [unfold mem_wf; cbn; rewrite !length_ins3, !length_insert; lia|].
  split; [done|]. intros q.
  unfold particle_at; cbn [m_position m_velocity m_color m_size m_opacity].
  rewrite !vec_at_ins3 by lia. rewrite !list_lookup_insert.
  case_decide; subst.
  - rewrite !decide_True by lia. done.
  - rewrite !decide_False by lia. done.
Qed.

(** The loop from iteration [i] on, [n] iterations: each creates its
    particle from the next nine draws, and leaves the others alone. *)
Lemma init_loop_run N n i m :
  mem_wf N m -> (i + n <= N)%nat ->
  exists m', init_loop n i m = Some (tt, m') /\ mem_wf N m' /\
    m_rng m' = (9 * n + m_rng m)%nat /\
    forall q, particle_at m' q =
      if decide (i <= q < i + n)%nat
      then Some (initial_particle (fun a => random_draw (a + (9 * (q - i) + m_rng m))))
      else particle_at m q.
Proof.
  revert i m. induction n as [|n IH]; intros i m Hwf Hn.
  - exists m. split; [done|]. split; [done|]. split; [lia|].
    intros q. rewrite decide_False by lia. done.
  - destruct m as [p c s v o r].
    pose proof (init_particle_run i p c s v o r) as E.
    destruct (particle_at_init_step N i p c s v o r ltac:(lia) Hwf _ E) as (Hwf1 & Hr1 & Hq1).
    cbn [init_loop]. rewrite (st_bind_Some _ _ _ tt _ E).
    destruct (IH (S i) _ Hwf1 ltac:(lia)) as (m' & Hl & Hwf' & Hr' & Hq').
    exists m'. split; [done|]. split; [done|]. split; [rewrite Hr', Hr1; cbn; lia|].
    intros q. rewrite Hq', Hq1, Hr1. cbn [m_rng].
    repeat case_decide; try lia; subst; try done;
      rewrite ?Nat.sub_diag, ?Nat.mul_0_r, ?Nat.add_0_l; try done.
    replace (9 * (q - S i) + (9 + r))%nat with (9 * (q - i) + r)%nat by lia. done.
Qed.

(** What [createParticleSystem] builds: [count] particles, the particle
    [q] made of the draws [9q] to [9q + 8]. *)
Lemma create_buffers_run count r :
  exists m, create_buffers count r = Some m /\ mem_wf count m /\
    m_rng m = (9 * count + r)%nat /\
    forall q, (q < count)%nat ->
      particle_at m q = Some (initial_particle (fun a => random_draw (a + (9 * q + r)))).
Proof.
  assert (Hwf : mem_wf count (alloc_mem count r)).
  { unfold mem_wf, alloc_mem; cbn. rewrite !length_replicate. lia. }
  destruct (init_loop_run count count 0 _ Hwf ltac:(lia)) as (m & Hl & Hwf' & Hr & Hq).
  exists m. unfold create_buffers. rewrite Hl. split; [done|]. split; [done|].
  split; [done|]. intros q Hq'. rewrite Hq, decide_True by lia.
  by rewrite Nat.sub_0_r.
Qed.

Lemma scaled_unit (r x : Q) : 0 <= r -> -1 <= x <= 1 -> - r <= r * x <= r.
Proof. intros. split; nra. Qed.

Lemma prod_unit (x y : Q) : -1 <= x <= 1 -> -1 <= y <= 1 -> -1 <= x * y <= 1.
Proof. intros. split; nra. Qed.

(** A coordinate [radius * sin * cos] (or [radius * cos]) of a radius
    below 25 is stored inside the box. *)
Lemma stored_coord_in_box (r x : Q) :
  0 <= r < 25 -> -1 <= x <= 1 -> - maxDistance <= f32 (r * x) <= maxDistance.
Proof.
  intros Hr Hx. unfold maxDistance.
  apply f32_between; [apply f32_m25 | apply f32_25 |].
  pose proof (scaled_unit r x ltac:(lra) Hx). lra.
Qed.

Lemma stored_coord3_in_box (r x y : Q) :
  0 <= r < 25 -> -1 <= x <= 1 -> -1 <= y <= 1 ->
  - maxDistance <= f32 (r * x * y) <= maxDistance.
Proof.
  intros Hr Hx Hy. rewrite <- Qmult_assoc.
  apply stored_coord_in_box; auto using prod_unit.
Qed.

Lemma initial_position_in_box d :
  (forall a, 0 <= d a < 1) -> in_box (p_position (initial_particle d)).
Proof.
  intros Hd. destruct (Hd 0%nat) as [H0 H1].
  unfold initial_particle, in_box, vec_f32; cbn [vx vy vz p_position].
  assert (Hr : 0 <= d 0%nat * 20 + 5 < 25) by lra.
  split; [|split]; [apply stored_coord3_in_box | apply stored_coord3_in_box |
                    apply stored_coord_in_box]; auto using js_sin_bound, js_cos_bound.
Qed.

End InitFacts.

(** ** The buffers keep their type *)

Section StorageFacts.
Context {FS : Float32Store} {RNG : MathRandom} {TR : MathTrig}.

Lemma arr_set_arr a b l m : arr b (set_arr a l m) = if decide (a = b) then l else arr b m.
Proof. destruct m, a, b; done. Qed.

Lemma read_f32 a i : st_preserves mem_f32 (read a i).
Proof. unfold read. intros s x s' Hs E. destruct (arr a s !! i); simplify_eq. exact Hs. Qed.

Lemma write_f32 a i x : st_preserves mem_f32 (write a i x).
Proof.
  intros s u s' Hs [= _ <-] b. rewrite arr_set_arr. case_decide as Hab; [subst b|apply Hs].
  apply Forall_insert; [apply Hs | apply f32_idem].
Qed.

Lemma random_f32 : st_preserves mem_f32 random.
Proof. intros s x s' Hs [= _ <-] b. specialize (Hs b). destruct s, b; exact Hs. Qed.

#[local] Hint Resolve read_f32 write_f32 random_f32 : jsmodel.

Lemma frame_loop_f32 fuel i : st_preserves mem_f32 (frame_loop fuel i).
Proof.
  revert i. induction fuel as [|fuel IH]; intros i; [apply st_preserves_fail|]. cbn [frame_loop].
  st_pres. destruct (_ <? _)%nat; [|st_pres].
  apply st_preserves_bind; [|intros; apply IH].
  unfold frame_body, perturb_all, damp_all, integrate_all, wrap_all,
    perturb, damp, integrate, wrap_coord. st_pres; case_match; st_pres.
Qed.

Lemma run_updates_f32 k : st_preserves mem_f32 (run_updates k).
Proof.
  induction k as [|k IH]; cbn [run_updates]; [apply st_preserves_ret|].
  apply st_preserves_bind; [|intros; exact IH].
  unfold update_particles. apply st_preserves_bind; [apply st_preserves_get | intros; apply frame_loop_f32].
Qed.

Lemma init_loop_f32 n i : st_preserves mem_f32 (init_loop n i).
Proof.
  revert i. induction n as [|n IH]; intros i; cbn [init_loop]; st_pres.
Qed.

Lemma alloc_mem_f32 count r : mem_f32 (alloc_mem count r).
Proof.
  assert (H0 : f32 0 == 0) by (apply (f32_int 0); done).
  intros []; apply Forall_replicate, H0.
Qed.

End StorageFacts.

Section StorageProperties.
Context {FS : Float32Store} {RNG : MathRandom} {TR : MathTrig}.

(** The buffers are well typed: every entry of the five
    [Float32Array]s that [createParticleSystem] fills is a
    single-precision number, and so is every entry after any number of
    frames of [animate]; no store puts a value that the array cannot
    hold. *)
Lemma buffers_float32 count r m k m' :
  create_buffers count r = Some m -> run_updates k m = Some (tt, m') -> mem_f32 m /\ mem_f32 m'.
Proof.
  unfold create_buffers. intros ([u m0] & Hrun & ->)%fmap_Some Hk. cbn in Hk |- *.
  assert (Hm : mem_f32 m0) by exact (init_loop_f32 count 0 _ _ _ (alloc_mem_f32 count r) Hrun).
  split; [exact Hm | exact (run_updates_f32 k _ _ _ Hm Hk)].
Qed.

End StorageProperties.

(** ** Properties of the particle field *)

Section FieldProperties.
Context {FS : Float32Store} {RNG : MathRandom}.

(** C1. Refinement: on buffers of [n] particles, the per-frame loop of
    [animate] terminates without reading outside a buffer, draws
    [3 n] values of [Math.random], and leaves every particle [k] as
    [particle_update] of it with the draws [3k], [3k+1], [3k+2] of the
    frame; colour, size and opacity are read back unchanged. *)
Theorem update_particles_refines n m :
  mem_wf n m ->
  exists m', update_particles m = Some (tt, m') /\
    m_rng m' = (3 * n + m_rng m)%nat /\
    forall k, particle_at m' k =
      particle_update (random_draw (3 * k + m_rng m))
                      (random_draw (3 * k + 1 + m_rng m))
                      (random_draw (3 * k + 2 + m_rng m)) <$> particle_at m k.
Proof.
  destruct m as [P c s V o r]; intros (HP & HV & Hc & Hs & Ho); cbn in *.
  eexists. split; [apply (update_particles_run n); lia|]. split; [done|].
  intros k. unfold particle_at; cbn [m_position m_velocity m_color m_size m_opacity m_rng].
  destruct (decide (k < n)%nat) as [Hk|Hk].
  - destruct (vec_at_after n r P V k) as (p0 & p1 & p2 & v0 & v1 & v2 & E1 & E2 & E3 & E4);
      try lia.
    rewrite E1, E2, E3, E4. cbn.
    destruct (vec_at c k), (s !! k), (o !! k); done.
  - rewrite !vec_at_out by (rewrite ?length_pos_after, ?length_vel_after; lia). done.
Qed.

(** C2. Boundary invariant: after a frame every coordinate of every
    particle lies in [[-maxDistance, maxDistance]], whatever the
    positions were before the frame. *)
Theorem update_particles_bounds n m m' :
  mem_wf n m -> update_particles m = Some (tt, m') ->
  Forall (fun x => - maxDistance <= x <= maxDistance) (m_position m').
Proof.
  destruct m as [P c s V o r]; intros (HP & HV & _) Hrun; cbn in *.
  rewrite (update_particles_run n) in Hrun by lia. injection Hrun as <-; cbn.
  apply Forall_pos_after; [lia|lia|]. intros. apply wrap_axis_bound.
Qed.

(** The per-frame loop keeps the number of particles: every buffer
    keeps its length. *)
Lemma update_particles_wf n m m' :
  mem_wf n m -> update_particles m = Some (tt, m') -> mem_wf n m'.
Proof.
  destruct m as [P c s V o r]; intros (HP & HV & Hc & Hs & Ho) Hrun; cbn in *.
  rewrite (update_particles_run n) in Hrun by lia. injection Hrun as <-.
  repeat split; cbn; rewrite ?length_pos_after, ?length_vel_after; lia.
Qed.

(** C9. Initialisation: every particle [createParticleSystem] creates lies
    in the box, has one of the four neon colours, a velocity in
    [[-0.015, 0.015]] on each axis, a size in [[1.5, 5.5]] and an opacity
    in [[0.2, 1]], each bound as the [Float32Array] stores it. *)
Theorem create_buffers_ranges {TR : MathTrig} count r m :
  create_buffers count r = Some m ->
  forall q, (q < count)%nat -> exists pa, particle_at m q = Some pa /\
    in_box (p_position pa) /\ (exists c, p_color pa = vec_f32 (neon_rgb c)) /\
    (f32 (-0.015) <= vx (p_velocity pa) <= f32 0.015 /\
     f32 (-0.015) <= vy (p_velocity pa) <= f32 0.015 /\
     f32 (-0.015) <= vz (p_velocity pa) <= f32 0.015) /\
    f32 1.5 <= p_size pa <= f32 5.5 /\ f32 0.2 <= p_opacity pa <= f32 1.
Proof.
  destruct (create_buffers_run count r) as (m0 & E & _ & _ & Hq).
  rewrite E. intros [= <-] q Hlt. eexists. split; [by apply Hq|].
  pose proof (fun a => random_range (a + (9 * q + r))) as Hd.
  split; [apply initial_position_in_box; exact Hd|]. split; [by eexists|].
  cbn [initial_particle p_velocity p_size p_opacity vec_f32 vx vy vz].
  pose proof (Hd 3%nat). pose proof (Hd 4%nat). pose proof (Hd 5%nat).
  pose proof (Hd 7%nat). pose proof (Hd 8%nat).
  repeat split; apply f32_mono; lra.
Qed.

(** Boundary wrap is a wraparound, not a clamp: a coordinate beyond a
    face of the box re-enters on the opposite face; inside it is kept. *)
Lemma wrap_axis_wraparound p :
  (maxDistance < p -> wrap_axis p == - maxDistance) /\
  (p < - maxDistance -> wrap_axis p == maxDistance) /\
  (- maxDistance <= p <= maxDistance -> wrap_axis p = p).
Proof.
  split; [apply wrap_axis_above|]. split; [apply wrap_axis_below|apply wrap_axis_inside].
Qed.

End FieldProperties.

(** The colour choice depends on the draw only. *)

(** The colour test of lines 70-90 splits [[0, 1)] into the intervals
    [[0, 0.35)], [[0.35, 0.65)], [[0.65, 0.85)] and [[0.85, 1)], of
    lengths 0.35, 0.30, 0.20 and 0.15: the probabilities of the four
    colours under a uniform [Math.random]. *)
Lemma choose_color_intervals c :
  (choose_color c = BrightGreen <-> c < 0.35) /\
  (choose_color c = BrightCyan <-> 0.35 <= c < 0.65) /\
  (choose_color c = BrightMagenta <-> 0.65 <= c < 0.85) /\
  (choose_color c = WhiteBlue <-> 0.85 <= c).
Proof.
  unfold choose_color.
  repeat case_qlt; repeat split; intros; try done; lra.
Qed.

(** ** Properties in exact arithmetic

    With a store that does not round, the update has closed forms. *)

Section ExactArithmetic.
#[local] Existing Instance exact_store.
Context {RNG : MathRandom}.

Lemma sphere_norm (r s1 c1 s2 c2 : Q) :
  s1 * s1 + c1 * c1 == 1 -> s2 * s2 + c2 * c2 == 1 ->
  norm2 (V3 (r * s1 * c2) (r * s1 * s2) (r * c1)) == r * r.
Proof.
  intros H1 H2.
  assert (E : norm2 (V3 (r * s1 * c2) (r * s1 * s2) (r * c1)) ==
              r * r * (s1 * s1 * (s2 * s2 + c2 * c2) + c1 * c1))
    by (unfold norm2; cbn; ring).
  rewrite E, H2, Qmult_1_r, H1. ring.
Qed.

(** C8. Initialisation on a spherical shell: without rounding, every
    particle [createParticleSystem] creates is at a distance in [[5, 25)]
    from the origin. *)
Theorem create_buffers_shell {TR : MathTrig} count r m :
  create_buffers count r = Some m ->
  forall q, (q < count)%nat -> exists pa, particle_at m q = Some pa /\
    25 <= norm2 (p_position pa) < 625.
Proof.
  destruct (create_buffers_run count r) as (m0 & E & _ & _ & Hq).
  rewrite E. intros [= <-] q Hlt. eexists. split; [by apply Hq|].
  pose proof (random_range (0 + (9 * q + r))) as Hd.
  unfold initial_particle, vec_f32; cbn [p_position vx vy vz f32 exact_store].
  rewrite sphere_norm by apply trig_unit. nra.
Qed.

(** The zero-perturbation fixture of the spec: with the draw 0.5 the
    velocity is only damped, and a coordinate driven past a face
    reappears exactly on the opposite face. *)
Lemma axis_update_crossing p v :
  (axis_update 0.5 p v).2 == 0.999 * v /\
  (maxDistance < p + (axis_update 0.5 p v).2 -> (axis_update 0.5 p v).1 == - maxDistance) /\
  (p + (axis_update 0.5 p v).2 < - maxDistance -> (axis_update 0.5 p v).1 == maxDistance) /\
  (- maxDistance <= p + (axis_update 0.5 p v).2 <= maxDistance ->
   (axis_update 0.5 p v).1 == p + (axis_update 0.5 p v).2).
Proof.
  cbn [axis_update fst snd f32 exact_store].
  split; [ring|]. split; [apply wrap_axis_above|]. split; [apply wrap_axis_below|].
  intros H. by rewrite wrap_axis_inside.
Qed.

(** The perturbation is damped in the step that adds it: the new
    velocity is [0.999 * (v + (r - 0.5) * 0.001)]. *)
Lemma axis_update_damps_perturbation r p v :
  (axis_update r p v).2 == 0.999 * v + 0.999 * ((r - 0.5) * 0.001).
Proof. cbn [axis_update snd f32 exact_store]. ring. Qed.

(** Velocities stay bounded: once every velocity is within 0.4995, the
    fixed point of [v -> 0.999 * (v + 0.0005)], a frame keeps it so,
    whatever [Math.random] returns. *)
Lemma update_particles_velocity_bound n m m' :
  mem_wf n m -> Forall (fun v => -0.4995 <= v <= 0.4995) (m_velocity m) ->
  update_particles m = Some (tt, m') ->
  Forall (fun v => -0.4995 <= v <= 0.4995) (m_velocity m').
Proof.
  destruct m as [P c s V o r]; intros (HP & HV & _) HB Hrun; cbn in *.
  rewrite (update_particles_run n) in Hrun by lia. injection Hrun as <-; cbn.
  apply Forall_vel_after; [lia|lia|]. intros j p v _ Hv.
  pose proof (proj1 (Forall_lookup _ _) HB j v Hv).
  pose proof (random_range (j + r)).
  cbn [axis_update snd f32 exact_store]. cbv beta in *. lra.
Qed.

(** C5. Exponential decay: with the perturbation switched off ([Math.random]
    always 0.5) and no rounding, [k] frames multiply every velocity by
    [0.999^k] (after 1000 frames [0.999^1000], about 0.368). *)
Theorem run_updates_damping n m k :
  mem_wf n m ->
  exists m', @run_updates _ half_random k m = Some (tt, m') /\
    forall j v, m_velocity m !! j = Some v ->
      exists v', m_velocity m' !! j = Some v' /\ v' == qpow 0.999 k * v.
Proof.
  revert m. induction k as [|k IH]; intros m Hwf.
  - exists m. split; [done|]. intros j v Hv. exists v. split; [done | cbn; ring].
  - destruct m as [P c s V o r]. destruct Hwf as (HP & HV & Hc & Hs & Ho). cbn in *.
    pose proof (@update_particles_run _ half_random n P V c s o r HP ltac:(lia)) as E.
    destruct (IH (MkMem (@pos_after _ half_random (3 * n) r P V) c s
                  (@vel_after _ half_random (3 * n) r P V) o (3 * n + r)))
      as (m' & Hm' & Hv').
    { unfold mem_wf; cbn. rewrite length_pos_after, length_vel_after. lia. }
    exists m'. split; [cbn; rewrite (st_bind_Some _ _ _ tt _ E); exact Hm'|].
    intros j v Hv. pose proof (lookup_lt_Some _ _ _ Hv).
    edestruct Hv' as (v' & Hv'' & Eq).
    { cbn. rewrite lookup_vel_after, Hv. cbn. rewrite bool_decide_true by lia. reflexivity. }
    exists v'. split; [exact Hv''|]. rewrite Eq. cbn. ring.
Qed.

End ExactArithmetic.

(** Opacity can reach 1: under single-precision rounding a draw just
    below 1 gives the opacity [0.8 * d + 0.2], stored as exactly 1. *)
Lemma create_buffers_opacity_one :
  exists m pa,
    @create_buffers grid24_store near_one_random const_trig 1 0 = Some m /\
    particle_at m 0 = Some pa /\ p_opacity pa == 1.
Proof. do 2 eexists. split; [vm_compute; reflexivity|]. split; vm_compute; reflexivity. Qed.

(** ** Witnesses: the properties at a concrete field *)

Section Witnesses.
#[local] Existing Instance exact_store.
#[local] Existing Instance seq_random.
#[local] Existing Instance const_trig.

Lemma update_particles_refines_witness :
  mem_wf 1 mem_example /\
  exists m', update_particles mem_example = Some (tt, m') /\
    m_rng m' = (3 * 1 + m_rng mem_example)%nat /\
    forall k, particle_at m' k =
      particle_update (random_draw (3 * k + m_rng mem_example))
                      (random_draw (3 * k + 1 + m_rng mem_example))
                      (random_draw (3 * k + 2 + m_rng mem_example))
        <$> particle_at mem_example k.
Proof. split; [repeat split | apply update_particles_refines; repeat split]. Defined.

Lemma update_particles_bounds_witness :
  exists m', update_particles mem_example = Some (tt, m') /\
    Forall (fun x => - maxDistance <= x <= maxDistance) (m_position m').
Proof.
  eexists. split; [vm_compute; reflexivity|].
  apply (update_particles_bounds 1 mem_example); [repeat split | vm_compute; reflexivity].
Defined.

Lemma update_particles_wf_witness :
  exists m', update_particles mem_example = Some (tt, m') /\ mem_wf 1 m'.
Proof.
  eexists. split; [vm_compute; reflexivity|].
  apply (update_particles_wf 1 mem_example); [repeat split | vm_compute; reflexivity].
Defined.
Lemma create_buffers_ranges_witness :
  exists m, create_buffers 2 0 = Some m /\ (1 < 2)%nat /\
  exists pa, particle_at m 1 = Some pa /\
    in_box (p_position pa) /\ (exists c, p_color pa = vec_f32 (neon_rgb c)) /\
    (f32 (-0.015) <= vx (p_velocity pa) <= f32 0.015 /\
     f32 (-0.015) <= vy (p_velocity pa) <= f32 0.015 /\
     f32 (-0.015) <= vz (p_velocity pa) <= f32 0.015) /\
    f32 1.5 <= p_size pa <= f32 5.5 /\ f32 0.2 <= p_opacity pa <= f32 1.
Proof.
  eexists. split; [vm_compute; reflexivity|]. split; [lia|].
  apply (create_buffers_ranges 2 0); [vm_compute; reflexivity | lia].
Defined.

Lemma wrap_axis_wraparound_witness :
  maxDistance < 25.5 /\ wrap_axis 25.5 == - maxDistance /\
  -26 < - maxDistance /\ wrap_axis (-26) == maxDistance /\
  - maxDistance <= 3 <= maxDistance /\ wrap_axis 3 = 3.
Proof.
  destruct (wrap_axis_wraparound 25.5) as [H1 _].
  destruct (wrap_axis_wraparound (-26)) as [_ [H2 _]].
  destruct (wrap_axis_wraparound 3) as [_ [_ H3]].
  unfold maxDistance in *.
  split; [vm_compute; reflexivity|]. split; [apply H1; vm_compute; reflexivity|].
  split; [vm_compute; reflexivity|]. split; [apply H2; vm_compute; reflexivity|].
  split; [split; vm_compute; discriminate|]. apply H3. split; vm_compute; discriminate.
Defined.

Lemma choose_color_intervals_witness :
  0.35 <= 0.5 < 0.65 /\ choose_color 0.5 = BrightCyan.
Proof.
  assert (H : 0.35 <= 0.5 < 0.65) by (split; vm_compute; [discriminate | reflexivity]).
  split; [exact H|]. apply (proj2 (proj1 (proj2 (choose_color_intervals 0.5)))). exact H.
Defined.

Lemma create_buffers_shell_witness :
  exists m, create_buffers 3 0 = Some m /\ (2 < 3)%nat /\
  exists pa, particle_at m 2 = Some pa /\ 25 <= norm2 (p_position pa) < 625.
Proof.
  eexists. split; [vm_compute; reflexivity|]. split; [lia|].
  apply (create_buffers_shell 3 0); [vm_compute; reflexivity | lia].
Defined.

Lemma axis_update_crossing_witness :
  maxDistance < 24.9 + (axis_update 0.5 24.9 0.2).2 /\
  (axis_update 0.5 24.9 0.2).1 == - maxDistance.
Proof.
  destruct (axis_update_crossing 24.9 0.2) as (_ & H & _).
  split; [vm_compute; reflexivity|]. apply H. vm_compute; reflexivity.
Defined.

Lemma update_particles_velocity_bound_witness :
  Forall (fun v => -0.4995 <= v <= 0.4995) (m_velocity mem_example) /\
  exists m', update_particles mem_example = Some (tt, m') /\
    Forall (fun v => -0.4995 <= v <= 0.4995) (m_velocity m').
Proof.
  assert (HB : Forall (fun v => -0.4995 <= v <= 0.4995) (m_velocity mem_example))
    by (repeat constructor; vm_compute; discriminate).
  split; [exact HB|]. eexists. split; [vm_compute; reflexivity|].
  apply (update_particles_velocity_bound 1 mem_example); [repeat split | exact HB |].
  vm_compute; reflexivity.
Defined.

Lemma run_updates_damping_witness :
  0.358 <= qpow 0.999 1000 /\ qpow 0.999 1000 <= 0.378 /\
  exists m', @run_updates _ half_random 1000 mem_example = Some (tt, m') /\
    exists v', m_velocity m' !! 0%nat = Some v' /\ v' == qpow 0.999 1000 * 0.2.
Proof.
  split; [vm_compute; discriminate|]. split; [vm_compute; discriminate|].
  destruct (run_updates_damping 1 mem_example 1000 ltac:(repeat split)) as (m' & E & H).
  exists m'. split; [exact E | apply H; reflexivity].
Defined.
End Witnesses.

Lemma buffers_float32_witness :
  exists m m', @create_buffers grid24_store seq_random const_trig 1 0 = Some m /\
    @run_updates grid24_store seq_random 1 m = Some (tt, m') /\
    @mem_f32 grid24_store m /\ @mem_f32 grid24_store m'.
Proof.
  do 2 eexists. split; [vm_compute; reflexivity|]. split; [vm_compute; reflexivity|].
  apply (@buffers_float32 grid24_store seq_random const_trig 1 0 _ 1 _); vm_compute; reflexivity.
Defined.

End ParticleField.
