(* ===== verification/Scene.v ===== *)
(** * The Three.js scene: [initThreeJS], [animate], [onWindowResize] and
    [onDocumentMouseMove] of src/script.js (lines 1-273)

    The script keeps its state in globals (lines 2-6): the THREE objects,
    the smoothed pointer [mouseX]/[mouseY], the half viewport
    [windowHalfX]/[windowHalfY] and the clock [time].  Module [Scene]
    gathers them, with the state of the objects the code writes (the
    particle buffers, the uniforms of the material, the rotation of the
    points, the aspect of the camera, the size of the renderer) and the
    browser's own state the code depends on (the viewport, the pending
    animation-frame callbacks, the registered listeners, the position of
    [Math.random]), in the record [Page].  Each function of the source is
    a function on [Page]; the browser drives them through the step
    relation [page_step], one constructor per event. *)

From S2P Require Import Prelude Particles.
Import ParticleField.

Module Scene.

(** ** JavaScript numbers that can stop being finite

    The pointer handler divides by [windowHalfX] and [onWindowResize]
    divides by [window.innerHeight].  Division by zero gives [Infinity]
    or [NaN], and neither ever becomes finite again under [+], [-] and
    [*] (for example [Infinity - Infinity] is [NaN]).  [NonFinite] stands
    for all of them. *)
Inductive jsnum := Fin (q : Q) | NonFinite.

Definition jlift2 (f : Q -> Q -> Q) (a b : jsnum) : jsnum :=
  match a, b with Fin x, Fin y => Fin (f x y) | _, _ => NonFinite end.

Definition jadd := jlift2 Qplus.
Definition jsub := jlift2 Qminus.
Definition jmul := jlift2 Qmult.

Definition jdiv (a b : jsnum) : jsnum :=
  match a, b with
  | Fin x, Fin y => if Qeq_bool y 0 then NonFinite else Fin (x / y)
  | _, _ => NonFinite
  end.

(** ** State *)

(** [particleSystem]: the buffers of its geometry, the flag
    [position.needsUpdate], the uniforms of its [ShaderMaterial]
    (lines 107-111) and its rotation. *)
Record PSystem := MkPS {
  ps_position : list Q;
  ps_color : list Q;
  ps_size : list Q;
  ps_velocity : list Q;
  ps_opacity : list Q;
  ps_needs_update : bool;
  ps_time : Q;
  ps_mouse : jsnum * jsnum;
  ps_resolution : Q * Q;
  ps_rotation : vec3
}.

Record Page := MkPage {
  pg_width : Q;                 (** [window.innerWidth] *)
  pg_height : Q;                (** [window.innerHeight] *)
  pg_has_canvas : bool;         (** [#hero-canvas] is in the document *)
  pg_loaded : bool;             (** [DOMContentLoaded] has fired *)
  pg_halfX : Q;                 (** [windowHalfX] *)
  pg_halfY : Q;                 (** [windowHalfY] *)
  pg_mouseX : jsnum;            (** [mouseX] *)
  pg_mouseY : jsnum;            (** [mouseY] *)
  pg_time : Q;                  (** [time] *)
  pg_rng : nat;                 (** position of [Math.random] *)
  pg_three : bool;              (** [scene], [camera], [renderer] exist *)
  pg_aspect : jsnum;            (** [camera.aspect] *)
  pg_renderer_size : Q * Q;     (** [renderer.setSize] *)
  pg_system : option PSystem;   (** [particleSystem] *)
  pg_listening : bool;          (** [resize] and [mousemove] listeners *)
  pg_raf : nat;                 (** pending [requestAnimationFrame(animate)] *)
  pg_renders : nat              (** calls of [renderer.render] *)
}.

(** Lines 2-6, when the script is loaded: the viewport gives the half
    sizes, the pointer and the clock start at 0. *)
Definition page0 (w h : Q) (canvas : bool) : Page :=
  MkPage w h canvas false (w / 2) (h / 2) (Fin 0) (Fin 0) 0 0 false (Fin 0) (0, 0)
         None false 0 0.

Definition set_system (s : option PSystem) (p : Page) : Page :=
  let '(MkPage w h c l hx hy mx my t r th a rs _ li ra re) := p in
  MkPage w h c l hx hy mx my t r th a rs s li ra re.

Definition set_mouse (mx my : jsnum) (p : Page) : Page :=
  let '(MkPage w h c l hx hy _ _ t r th a rs s li ra re) := p in
  MkPage w h c l hx hy mx my t r th a rs s li ra re.

Definition to_mem (ps : PSystem) (r : nat) : Mem :=
  MkMem (ps_position ps) (ps_color ps) (ps_size ps) (ps_velocity ps) (ps_opacity ps) r.

Definition set_loaded (p : Page) : Page :=
  let '(MkPage w h c _ hx hy mx my t r th a rs s li ra re) := p in
  MkPage w h c true hx hy mx my t r th a rs s li ra re.

Definition set_listening (p : Page) : Page :=
  let '(MkPage w h c l hx hy mx my t r th a rs s _ ra re) := p in
  MkPage w h c l hx hy mx my t r th a rs s true ra re.

Definition set_viewport (w h : Q) (p : Page) : Page :=
  let '(MkPage _ _ c l hx hy mx my t r th a rs s li ra re) := p in
  MkPage w h c l hx hy mx my t r th a rs s li ra re.

Definition set_raf (n : nat) (p : Page) : Page :=
  let '(MkPage w h c l hx hy mx my t r th a rs s li _ re) := p in
  MkPage w h c l hx hy mx my t r th a rs s li n re.

(** ** Operations *)

Section Operations.
Context {FS : Float32Store} {RNG : MathRandom} {TR : MathTrig}.

(** [createParticleSystem] (lines 43-198): the buffers, and the
    material's uniforms [time = 0], [mousePosition = (0, 0)] and
    [resolution = (innerWidth, innerHeight)]; the new attribute is not
    marked for upload and the points are not rotated. *)
Definition create_particle_system (w h : Q) (rng : nat) : option (PSystem * nat) :=
  m ← create_buffers particleCount rng;
  Some (MkPS (m_position m) (m_color m) (m_size m) (m_velocity m) (m_opacity m)
             false 0 (Fin 0, Fin 0) (w, h) (V3 0 0 0), m_rng m).

(** [animate] (lines 201-249).  It first schedules itself again, then
    advances the clock; with a particle system it runs the particle loop,
    marks the positions for upload, copies the clock and the pointer into
    the uniforms and turns the points; last it renders, which fails with a
    [TypeError] ([None]) when there is no renderer. *)
Definition animate (p : Page) : option Page :=
  let '(MkPage w h c l hx hy mx my t r th a rs s li ra re) := p in
  let t' := t + 0.016 in
  match s with
  | None => if th then Some (MkPage w h c l hx hy mx my t' r th a rs None li (S ra) (S re))
            else None
  | Some ps =>
      '(_, m') ← update_particles (to_mem ps r);
      let rot := ps_rotation ps in
      let ps' := MkPS (m_position m') (m_color m') (m_size m') (m_velocity m') (m_opacity m')
                      true t' (mx, my) (ps_resolution ps)
                      (V3 (vx rot + 0.0008) (vy rot + 0.0012) (vz rot + 0.0004)) in
      if th then Some (MkPage w h c l hx hy mx my t' (m_rng m') th a rs (Some ps') li (S ra) (S re))
      else None
  end.

(** [initThreeJS] (lines 9-40): nothing without the canvas; otherwise the
    camera (aspect [innerWidth / innerHeight]), the renderer (sized to
    the viewport), the particle system, one call of [animate], and the
    two listeners, in this order. *)
Definition init_three (p : Page) : option Page :=
  if negb (pg_has_canvas p) then Some p else
  let '(MkPage w h c l hx hy mx my t r _ _ _ s li ra re) := p in
  '(ps, r') ← create_particle_system w h r;
  p' ← animate (MkPage w h c l hx hy mx my t r' true (jdiv (Fin w) (Fin h)) (w, h)
                       (Some ps) li ra re);
  Some (set_listening p').

(** An animation frame of the browser runs the callbacks pending when it
    starts; those they request run at the next frame. *)
Fixpoint run_callbacks (n : nat) (p : Page) : option Page :=
  match n with
  | O => Some p
  | S n' => p' ← animate p; run_callbacks n' p'
  end.

Definition run_frame (p : Page) : option Page :=
  run_callbacks (pg_raf p) (set_raf 0 p).

End Operations.

(** [onWindowResize] (lines 252-263), the viewport already resized. *)
Definition on_resize (p : Page) : Page :=
  let '(MkPage w h c l _ _ mx my t r th _ _ s li ra re) := p in
  let upd ps := let '(MkPS po co si ve op nu ti mo _ ro) := ps in
                MkPS po co si ve op nu ti mo (w, h) ro in
  MkPage w h c l (w / 2) (h / 2) mx my t r th (jdiv (Fin w) (Fin h)) (w, h)
         (option_map upd s) li ra re.

(** [onDocumentMouseMove] (lines 266-273): the pointer in [[-1, 1]]
    relative to the centre, then [mouse += (target - mouse) * 0.1]. *)
Definition on_mouse_move (cx cy : Q) (p : Page) : Page :=
  let targetX := jdiv (Fin (cx - pg_halfX p)) (Fin (pg_halfX p)) in
  let targetY := jdiv (Fin (cy - pg_halfY p)) (Fin (pg_halfY p)) in
  set_mouse (jadd (pg_mouseX p) (jmul (jsub targetX (pg_mouseX p)) (Fin 0.1)))
            (jadd (pg_mouseY p) (jmul (jsub targetY (pg_mouseY p)) (Fin 0.1))) p.

(** ** The browser's events *)

Inductive event :=
  | DOMContentLoaded
  | AnimationFrame
  | Resize (w h : Q)
  | MouseMove (x y : Q).

Section Steps.
Context {FS : Float32Store} {RNG : MathRandom} {TR : MathTrig}.

(** [DOMContentLoaded] fires once and runs [initThreeJS] (line 518);
    a resize changes the viewport and runs [onWindowResize] once it is
    registered; a pointer move runs [onDocumentMouseMove] likewise. *)
Inductive page_step : Page -> event -> Page -> Prop :=
  | step_loaded p p' :
      pg_loaded p = false -> init_three (set_loaded p) = Some p' ->
      page_step p DOMContentLoaded p'
  | step_frame p p' :
      run_frame p = Some p' -> page_step p AnimationFrame p'
  | step_resize p w h :
      0 <= w -> 0 <= h ->
      page_step p (Resize w h)
        (if pg_listening p then on_resize (set_viewport w h p) else set_viewport w h p)
  | step_mouse p x y :
      page_step p (MouseMove x y) (if pg_listening p then on_mouse_move x y p else p).

(** The states of the page from the loading of the script on. *)
Inductive reachable (w h : Q) (canvas : bool) : Page -> Prop :=
  | reach_init : reachable w h canvas (page0 w h canvas)
  | reach_step p e p' :
      reachable w h canvas p -> page_step p e p' -> reachable w h canvas p'.

(** ** The invariant of the page

    Before [initThreeJS] has built the particle system (or when there is
    no canvas) nothing runs: no renderer, no listener, no pending frame.
    Once it is built: the renderer exists, the listeners are registered,
    exactly one [animate] is pending, the buffers hold [particleCount]
    particles whose positions are all inside the box, the time uniform
    is the clock, and colour, size and opacity are those created by
    [createParticleSystem] from the first draws of [Math.random].  In
    both cases the clock is [0.016] times the number of frames
    rendered. *)
Definition running_inv (p : Page) (ps : PSystem) : Prop :=
  pg_three p = true /\ pg_loaded p = true /\ pg_listening p = true /\ pg_raf p = 1%nat /\
  mem_wf particleCount (to_mem ps 0) /\
  Forall (fun x => - maxDistance <= x <= maxDistance) (ps_position ps) /\
  ps_time ps == pg_time p /\
  exists m0, create_buffers particleCount 0 = Some m0 /\
    ps_color ps = m_color m0 /\ ps_size ps = m_size m0 /\ ps_opacity ps = m_opacity m0.

Definition page_inv (p : Page) : Prop :=
  pg_time p == inject_Z (Z.of_nat (pg_renders p)) * 0.016 /\
  match pg_system p with
  | None => pg_three p = false /\ pg_listening p = false /\ pg_raf p = 0%nat /\ pg_rng p = 0%nat
  | Some ps => running_inv p ps
  end.

End Steps.

(** The two states of the spec (section 4.4): [Uninitialized] until
    [initThreeJS] has built the particle system, [Running] after. *)
Inductive phase := Uninitialized | Running.

Definition page_phase (p : Page) : phase :=
  match pg_system p with None => Uninitialized | Some _ => Running end.

(** The particle data of a system, which only [animate] changes. *)
Definition ps_buffers (ps : PSystem) : list Q * list Q * list Q * list Q * list Q :=
  (ps_position ps, ps_color ps, ps_size ps, ps_velocity ps, ps_opacity ps).

(** ** Lemmas *)

(** The particle count is a closed constant: simplification must not run
    the creation loop. *)
Arguments create_buffers : simpl never.

Lemma frames_time n t :
  t == inject_Z (Z.of_nat n) * 0.016 -> t + 0.016 == inject_Z (Z.of_nat (S n)) * 0.016.
Proof. intros H. rewrite Nat2Z.inj_succ, <- Z.add_1_r, inject_Z_plus, H. ring. Qed.

Lemma mem_wf_to_mem n ps r r' : mem_wf n (to_mem ps r) -> mem_wf n (to_mem ps r').
Proof. done. Qed.

Section PageFacts.
Context {FS : Float32Store} {RNG : MathRandom} {TR : MathTrig}.

(** [animate] on a page with a renderer and a well-formed particle
    system: the clock, the buffers, the uniforms, the rotation and the
    counters move; nothing else does. *)
Lemma animate_some w h c l hx hy mx my t r a rs ps li ra re :
  mem_wf particleCount (to_mem ps r) ->
  animate (MkPage w h c l hx hy mx my t r true a rs (Some ps) li ra re) =
    Some (MkPage w h c l hx hy mx my (t + 0.016) (3 * particleCount + r) true a rs
      (Some (MkPS (pos_after (3 * particleCount) r (ps_position ps) (ps_velocity ps))
                  (ps_color ps) (ps_size ps)
                  (vel_after (3 * particleCount) r (ps_position ps) (ps_velocity ps))
                  (ps_opacity ps) true (t + 0.016) (mx, my) (ps_resolution ps)
                  (V3 (vx (ps_rotation ps) + 0.0008) (vy (ps_rotation ps) + 0.0012)
                      (vz (ps_rotation ps) + 0.0004))))
      li (S ra) (S re)).
Proof.
  destruct ps as [P c' s' V o nu ti mo res rot]. intros (HP & HV & _). cbn in *.
  unfold animate, to_mem. rewrite (update_particles_run particleCount) by (cbn; unfold particleCount in *; lia). done.
Qed.

(** The system [animate] leaves behind satisfies the part of the
    invariant about the particles. *)
Lemma animate_particles_inv ps r :
  mem_wf particleCount (to_mem ps r) ->
  mem_wf particleCount (to_mem (MkPS (pos_after (3 * particleCount) r (ps_position ps) (ps_velocity ps))
                  (ps_color ps) (ps_size ps)
                  (vel_after (3 * particleCount) r (ps_position ps) (ps_velocity ps))
                  (ps_opacity ps) true 0 (Fin 0, Fin 0) (0, 0) (V3 0 0 0)) 0) /\
  Forall (fun x => - maxDistance <= x <= maxDistance)
    (pos_after (3 * particleCount) r (ps_position ps) (ps_velocity ps)).
Proof.
  intros (HP & HV & Hc & Hs & Ho). split.
  - cbn in *. repeat split; cbn; rewrite ?length_pos_after, ?length_vel_after; lia.
  - apply (Forall_pos_after _ particleCount); [done | cbn in *; lia |].
    intros. apply wrap_axis_bound.
Qed.

(** [animate] on a running page keeps the part of the invariant about
    the system, with one more frame rendered. *)
Lemma animate_running_inv w h c hx hy mx my t r a rs ps li ra re :
  mem_wf particleCount (to_mem ps r) ->
  t == inject_Z (Z.of_nat re) * 0.016 ->
  (exists m0, create_buffers particleCount 0 = Some m0 /\
     ps_color ps = m_color m0 /\ ps_size ps = m_size m0 /\ ps_opacity ps = m_opacity m0) ->
  exists p', animate (MkPage w h c true hx hy mx my t r true a rs (Some ps) li ra re) = Some p' /\
    pg_raf p' = S ra /\ pg_listening p' = li /\ page_inv (set_listening (set_raf 1 p')).
Proof.
  intros Hwf Ht Hm0. rewrite animate_some by done. eexists. split; [done|].
  split; [done|]. split; [done|]. destruct (animate_particles_inv ps r Hwf) as [Hwf' Hbox].
  cbn. split; [by apply frames_time|].
  do 4 (split; [done|]). split; [exact Hwf'|]. split; [exact Hbox|].
  split; [apply Qeq_refl | exact Hm0].
Qed.

Lemma set_raf_same p : set_raf (pg_raf p) p = p.
Proof. by destruct p. Qed.

Lemma set_listening_same p : pg_listening p = true -> set_listening p = p.
Proof. destruct p; cbn. by intros ->. Qed.

(** [initThreeJS] with a canvas starts the page. *)
Lemma init_three_canvas_inv w h hx hy mx my t a rs re :
  t == inject_Z (Z.of_nat re) * 0.016 ->
  exists p', init_three (MkPage w h true true hx hy mx my t 0 false a rs None false 0 re) = Some p' /\
    page_inv p'.
Proof.
  intros Ht.
  pose proof (create_buffers_run particleCount 0) as Hc.
  destruct Hc as (m0 & E & Hwf & _ & _).
  pose proof (animate_running_inv w h true hx hy mx my t (m_rng m0) (jdiv (Fin w) (Fin h))
              (w, h) (MkPS (m_position m0) (m_color m0) (m_size m0) (m_velocity m0)
                           (m_opacity m0) false 0 (Fin 0, Fin 0) (w, h) (V3 0 0 0)) false 0 re)
    as Hanim.
  destruct Hanim as (p2 & E2 & Hr2 & _ & Hinv2).
  { destruct m0; exact Hwf. }
  { exact Ht. }
  { exists m0. split; [exact E | split; [reflexivity | split; reflexivity]]. }
  exists (set_listening p2). split.
  - unfold init_three, create_particle_system. rewrite E. exact (f_equal _ E2).
  - rewrite <- Hr2, set_raf_same in Hinv2. exact Hinv2.
Qed.



Lemma loaded_inv p p' :
  page_inv p -> pg_loaded p = false -> init_three (set_loaded p) = Some p' -> page_inv p'.
Proof.
  intros [Ht Hs] Hl Hinit.
  destruct p as [w h c l hx hy mx my t r th a rs [ps|] li ra re];
    unfold running_inv in Hs; cbn [pg_system pg_loaded pg_three pg_listening pg_raf
                                   pg_rng pg_time pg_renders] in *.
  - destruct Hs as (_ & Hl' & _). rewrite Hl' in Hl. discriminate Hl.
  - destruct Hs as (-> & -> & -> & ->). destruct c.
    + pose proof (init_three_canvas_inv w h hx hy mx my t a rs re Ht) as Hi.
      destruct Hi as (p2 & E2 & Hinv2). cbn [set_loaded] in Hinit.
      rewrite E2 in Hinit. injection Hinit as <-. exact Hinv2.
    + unfold init_three in Hinit. cbn [set_loaded pg_has_canvas negb] in Hinit.
      injection Hinit as <-. split; [exact Ht|]. cbn. split_and!; reflexivity.
Qed.

Lemma frame_inv p p' : page_inv p -> run_frame p = Some p' -> page_inv p'.
Proof.
  intros [Ht Hs] Hrun.
  destruct p as [w h c l hx hy mx my t r th a rs [ps|] li ra re];
    unfold running_inv in Hs; cbn [pg_system pg_loaded pg_three pg_listening pg_raf
                                   pg_rng pg_time pg_renders] in *.
  - destruct Hs as (-> & -> & -> & -> & Hwf & Hbox & Hti & Hm0).
    unfold run_frame in Hrun; cbn [pg_raf set_raf run_callbacks] in Hrun.
    pose proof (animate_running_inv w h c hx hy mx my t r a rs ps true 0 re Hwf Ht Hm0) as Hanim.
    destruct Hanim as (p2 & E2 & Hr2 & Hl2 & Hinv2).
    rewrite E2 in Hrun. cbn [mbind option_bind] in Hrun. injection Hrun as <-.
    rewrite <- Hr2, set_raf_same, set_listening_same in Hinv2 by exact Hl2. exact Hinv2.
  - destruct Hs as (-> & -> & -> & ->).
    unfold run_frame in Hrun; cbn [pg_raf set_raf run_callbacks] in Hrun.
    injection Hrun as <-. split; [exact Ht|]. cbn. split_and!; reflexivity.
Qed.

Lemma resize_inv p w' h' :
  page_inv p ->
  page_inv (if pg_listening p then on_resize (set_viewport w' h' p) else set_viewport w' h' p).
Proof.
  intros [Ht Hs].
  destruct p as [w h c l hx hy mx my t r th a rs [ps|] li ra re];
    unfold running_inv in Hs; cbn [pg_system pg_loaded pg_three pg_listening pg_raf
                                   pg_rng pg_time pg_renders] in *.
  - destruct Hs as (-> & -> & -> & -> & Hwf & Hbox & Hti & Hm0).
    destruct ps. split; [exact Ht|]. unfold running_inv. cbn.
    split_and!; first [assumption | reflexivity].
  - destruct Hs as (-> & -> & -> & ->). split; [exact Ht|]. cbn. split_and!; reflexivity.
Qed.

Lemma mouse_inv p x y :
  page_inv p -> page_inv (if pg_listening p then on_mouse_move x y p else p).
Proof.
  intros [Ht Hs].
  destruct p as [w h c l hx hy mx my t r th a rs [ps|] li ra re];
    unfold running_inv in Hs; cbn [pg_system pg_loaded pg_three pg_listening pg_raf
                                   pg_rng pg_time pg_renders] in *.
  - destruct Hs as (-> & -> & -> & -> & Hwf & Hbox & Hti & Hm0).
    split; [exact Ht|]. unfold running_inv. cbn.
    split_and!; first [assumption | reflexivity].
  - destruct Hs as (-> & -> & -> & ->). split; [exact Ht|]. cbn. split_and!; reflexivity.
Qed.

(** Every event keeps the invariant. *)
Lemma page_step_inv p e p' : page_inv p -> page_step p e p' -> page_inv p'.
Proof.
  intros Hinv Hstep. destruct Hstep.
  - by apply (loaded_inv p).
  - by apply (frame_inv p).
  - by apply resize_inv.
  - by apply mouse_inv.
Qed.

(** Whether there is a particle system: [animate] and the frame keep
    it, [initThreeJS] makes one when there is a canvas. *)
Lemma animate_system p p' :
  animate p = Some p' -> (pg_system p = None <-> pg_system p' = None).
Proof.
  destruct p as [w h c l hx hy mx my t r th a rs [ps|] li ra re]; unfold animate; intros H.
  - apply option_bind_Some in H. destruct H as ([u m'] & _ & H).
    destruct th; [injection H as <-; cbn; split; discriminate | discriminate H].
  - destruct th; [injection H as <-; cbn; tauto | discriminate H].
Qed.

Lemma run_callbacks_system n p p' :
  run_callbacks n p = Some p' -> (pg_system p = None <-> pg_system p' = None).
Proof.
  revert p. induction n as [|n IH]; intros p H; cbn in H.
  - injection H as <-. tauto.
  - apply option_bind_Some in H. destruct H as (p1 & E1 & E2).
    rewrite (animate_system p p1 E1). by apply IH.
Qed.

Lemma init_three_system p p' :
  init_three p = Some p' ->
  (pg_has_canvas p = false -> p' = p) /\
  (pg_has_canvas p = true -> pg_system p' <> None).
Proof.
  unfold init_three. destruct p as [w h c l hx hy mx my t r th a rs s li ra re].
  cbn [pg_has_canvas]. destruct c; cbn [negb]; intros H.
  - split; [discriminate|]. intros _.
    apply option_bind_Some in H. destruct H as ([ps r'] & _ & H).
    apply option_bind_Some in H. destruct H as (p2 & E2 & H). injection H as <-.
    apply animate_system in E2. destruct p2; cbn in *. intros Hs. by apply E2 in Hs.
  - injection H as <-. split; [done | discriminate].
Qed.

(** [animate] and [initThreeJS] leave the pointer and the half viewport
    alone: the pointer is smoothed per input sample, not per frame. *)
Lemma animate_pointer p p' :
  animate p = Some p' ->
  pg_mouseX p' = pg_mouseX p /\ pg_mouseY p' = pg_mouseY p /\
  pg_halfX p' = pg_halfX p /\ pg_halfY p' = pg_halfY p.
Proof.
  destruct p as [w h c l hx hy mx my t r th a rs [ps|] li ra re]; unfold animate; intros H.
  - apply option_bind_Some in H. destruct H as ([u m'] & _ & H).
    destruct th; [injection H as <-; done | discriminate H].
  - destruct th; [injection H as <-; done | discriminate H].
Qed.

Lemma run_callbacks_pointer n p p' :
  run_callbacks n p = Some p' ->
  pg_mouseX p' = pg_mouseX p /\ pg_mouseY p' = pg_mouseY p /\
  pg_halfX p' = pg_halfX p /\ pg_halfY p' = pg_halfY p.
Proof.
  revert p. induction n as [|n IH]; intros p H; cbn in H.
  - by injection H as <-.
  - apply option_bind_Some in H. destruct H as (p1 & E1 & E2).
    destruct (IH p1 E2) as (F1 & F2 & F3 & F4).
    destruct (animate_pointer p p1 E1) as (G1 & G2 & G3 & G4).
    rewrite F1, F2, F3, F4, G1, G2, G3, G4. done.
Qed.

Lemma init_three_pointer p p' :
  init_three p = Some p' ->
  pg_mouseX p' = pg_mouseX p /\ pg_mouseY p' = pg_mouseY p /\
  pg_halfX p' = pg_halfX p /\ pg_halfY p' = pg_halfY p.
Proof.
  unfold init_three. destruct p as [w h c l hx hy mx my t r th a rs s li ra re].
  cbn [pg_has_canvas]. destruct c; cbn [negb]; intros H.
  - apply option_bind_Some in H. destruct H as ([ps r'] & _ & H).
    apply option_bind_Some in H. destruct H as (p2 & E2 & H). injection H as <-.
    destruct (animate_pointer _ _ E2) as (E3 & E4 & E5 & E6).
    destruct p2; cbn in *. by rewrite E3, E4, E5, E6.
  - by injection H as <-.
Qed.

Lemma iter_mouse_half k cx cy p :
  pg_halfX (Nat.iter k (on_mouse_move cx cy) p) = pg_halfX p.
Proof.
  induction k as [|k IH]; [done|]. rewrite Nat.iter_succ.
  rewrite <- IH. by destruct (Nat.iter k (on_mouse_move cx cy) p).
Qed.

(** One pointer sample: [mouse + (target - mouse) * 0.1]. *)
Lemma on_mouse_move_x cx cy p m :
  ~ pg_halfX p == 0 -> pg_mouseX p = Fin m ->
  pg_mouseX (on_mouse_move cx cy p) =
    Fin (m + ((cx - pg_halfX p) / pg_halfX p - m) * 0.1).
Proof.
  intros Hh Hm. unfold on_mouse_move. rewrite Hm.
  destruct (Qeq_bool (pg_halfX p) 0) eqn:E.
  - apply Qeq_bool_iff in E. contradiction.
  - unfold jdiv, jadd, jsub, jmul, jlift2. rewrite E. by destruct p.
Qed.

Lemma reachable_inv w h c p : reachable w h c p -> page_inv p.
Proof.
  induction 1 as [|p e p' _ IH Hstep].
  - split; [reflexivity|]. cbn. split_and!; reflexivity.
  - by apply (page_step_inv p e).
Qed.

End PageFacts.

(** ** Properties of the page *)

Section PageProperties.
Context {FS : Float32Store} {RNG : MathRandom} {TR : MathTrig}.

(** C3. Boundary invariant of the running page: in every state the page
    reaches, every position coordinate of the particle system lies in
    [[-25, 25]]. *)
Theorem reachable_positions_in_box w h c p ps :
  reachable w h c p -> pg_system p = Some ps ->
  Forall (fun x => - maxDistance <= x <= maxDistance) (ps_position ps).
Proof.
  intros Hr Hs. destruct (reachable_inv w h c p Hr) as [_ Hinv].
  rewrite Hs in Hinv. apply Hinv.
Qed.

(** C4. Colour, size and opacity never change: in every state the page
    reaches they are those [createParticleSystem] made from the first
    draws of [Math.random]. *)
Theorem reachable_attributes_fixed w h c p ps :
  reachable w h c p -> pg_system p = Some ps ->
  exists m0, create_buffers particleCount 0 = Some m0 /\
    ps_color ps = m_color m0 /\ ps_size ps = m_size m0 /\ ps_opacity ps = m_opacity m0.
Proof.
  intros Hr Hs. destruct (reachable_inv w h c p Hr) as [_ Hinv].
  rewrite Hs in Hinv. apply Hinv.
Qed.

(** C13. The clock: in every state [time] is [0.016] times the number of
    frames rendered, and once running the time uniform equals it and
    exactly one [animate] is pending. *)
Theorem reachable_clock w h c p :
  reachable w h c p ->
  pg_time p == inject_Z (Z.of_nat (pg_renders p)) * 0.016 /\
  forall ps, pg_system p = Some ps -> ps_time ps == pg_time p /\ pg_raf p = 1%nat.
Proof.
  intros Hr. destruct (reachable_inv w h c p Hr) as [Ht Hinv]. split; [exact Ht|].
  intros ps Hs. rewrite Hs in Hinv. destruct Hinv as (_ & _ & _ & Hraf & _ & _ & Hti & _).
  split; [exact Hti | exact Hraf].
Qed.

(** C14. No event handler of the scene fails in a reachable state: the
    browser can always run the next animation frame, and the first
    [DOMContentLoaded]; neither reads outside a buffer nor calls an
    undefined renderer. *)
Theorem reachable_progress w h c p :
  reachable w h c p ->
  (exists p', page_step p AnimationFrame p') /\
  (pg_loaded p = false -> exists p', page_step p DOMContentLoaded p').
Proof.
  intros Hr. destruct (reachable_inv w h c p Hr) as [Ht Hs]. split.
  - destruct p as [w' h' c' l hx hy mx my t r th a rs [ps|] li ra re];
      unfold running_inv in Hs; cbn [pg_system pg_loaded pg_three pg_listening pg_raf
                                     pg_rng pg_time pg_renders] in *.
    + destruct Hs as (-> & -> & -> & -> & Hwf & _ & _ & Hm0).
      pose proof (animate_running_inv w' h' c' hx hy mx my t r a rs ps true 0 re Hwf Ht Hm0)
        as Hanim.
      destruct Hanim as (p2 & E2 & _).
      exists p2. constructor. unfold run_frame. cbn [pg_raf set_raf run_callbacks].
      rewrite E2. reflexivity.
    + destruct Hs as (_ & _ & -> & _). eexists. constructor. reflexivity.
  - intros Hl.
    destruct p as [w' h' c' l hx hy mx my t r th a rs [ps|] li ra re];
      unfold running_inv in Hs; cbn [pg_system pg_loaded pg_three pg_listening pg_raf
                                     pg_rng pg_time pg_renders] in *.
    + destruct Hs as (_ & Hl' & _). rewrite Hl' in Hl. discriminate Hl.
    + destruct Hs as (-> & -> & -> & ->). subst l. destruct c'.
      * pose proof (init_three_canvas_inv w' h' hx hy mx my t a rs re Ht) as Hi.
        destruct Hi as (p2 & E2 & _). exists p2. constructor; [reflexivity | exact E2].
      * eexists. constructor; reflexivity.
Qed.

(** C15. The two-state machine of the spec: [Running] is never left, and
    the only way out of [Uninitialized] is [DOMContentLoaded] on a page
    that has the canvas. *)
Theorem page_phase_step p e p' :
  page_step p e p' ->
  (page_phase p = Running -> page_phase p' = Running) /\
  (page_phase p = Uninitialized -> page_phase p' = Running ->
   e = DOMContentLoaded /\ pg_has_canvas p = true).
Proof.
  unfold page_phase. intros Hstep.
  destruct Hstep as [p p' Hl Hinit | p p' Hrun | p w' h' Hw Hh | p x y].
  - destruct (init_three_system _ _ Hinit) as [Hno Hyes]. clear Hinit.
    destruct p as [w h c l hx hy mx my t r th a rs s li ra re]; cbn in Hno, Hyes |- *.
    destruct c.
    + destruct (pg_system p'); [|by destruct (Hyes eq_refl)]. split; [done|]. by destruct s.
    + rewrite (Hno eq_refl). cbn. destruct s; split; done.
  - unfold run_frame in Hrun. apply run_callbacks_system in Hrun. rename Hrun into Hsys.
    destruct p as [w h c l hx hy mx my t r th a rs s li ra re]; cbn in Hsys |- *.
    destruct s, (pg_system p'); split; intros; try done;
      first [discriminate (proj1 Hsys eq_refl) | discriminate (proj2 Hsys eq_refl)].
  - destruct p as [w h c l hx hy mx my t r th a rs s li ra re].
    destruct li, s; cbn; split; done.
  - destruct p as [w h c l hx hy mx my t r th a rs s li ra re].
    destruct li, s; cbn; split; done.
Qed.

(** C6. Pointer smoothing has the closed form of the spec: from the
    pointer [m0], [k] samples at a fixed position whose normalised value
    is [t] give [t + (m0 - t) * 0.9^k] (for [m0 = 0], [t = 1]:
    [1 - 0.9^k]). *)
Theorem mouse_smoothing_closed_form p cx cy k m0 t :
  ~ pg_halfX p == 0 -> pg_mouseX p = Fin m0 -> t == (cx - pg_halfX p) / pg_halfX p ->
  exists m, pg_mouseX (Nat.iter k (on_mouse_move cx cy) p) = Fin m /\
    m == t + (m0 - t) * qpow 0.9 k.
Proof.
  intros Hh Hm Ht. induction k as [|k IH].
  - exists m0. split; [exact Hm | cbn; ring].
  - destruct IH as (m & Em & Hmq). rewrite Nat.iter_succ.
    rewrite <- (iter_mouse_half k cx cy p) in Hh, Ht.
    eexists. split; [apply (on_mouse_move_x _ _ _ m Hh Em)|].
    rewrite <- Ht, Hmq. cbn [qpow]. ring.
Qed.

(** Inside the viewport the pointer stays in [[-1, 1]]: a sample with
    [0 <= clientX <= 2 * windowHalfX] keeps a pointer in [[-1, 1]] in
    it. *)
Lemma on_mouse_move_range p cx cy m :
  0 < pg_halfX p -> 0 <= cx <= 2 * pg_halfX p ->
  pg_mouseX p = Fin m -> -1 <= m <= 1 ->
  exists m', pg_mouseX (on_mouse_move cx cy p) = Fin m' /\ -1 <= m' <= 1.
Proof.
  intros Hh Hcx Hm Hm1. assert (Hh0 : ~ pg_halfX p == 0) by (intros E; rewrite E in Hh; discriminate Hh).
  eexists. split; [exact (on_mouse_move_x cx cy p m Hh0 Hm)|].
  assert (Ht : -1 <= (cx - pg_halfX p) / pg_halfX p <= 1).
  { split; [apply Qle_shift_div_l | apply Qle_shift_div_r]; auto; lra. }
  lra.
Qed.

(** C34. A zero-width viewport poisons the pointer for good: with
    [windowHalfX = 0] a sample makes [mouseX] non-finite ([NaN] or
    [Infinity]), and a non-finite pointer stays so through every later
    event, resizes included. *)
Theorem mouse_nonfinite p cx cy :
  (pg_halfX p == 0 -> pg_mouseX (on_mouse_move cx cy p) = NonFinite) /\
  (forall e p', page_step p e p' -> pg_mouseX p = NonFinite -> pg_mouseX p' = NonFinite).
Proof.
  split.
  - intros Hh. unfold on_mouse_move, jdiv.
    destruct (Qeq_bool (pg_halfX p) 0) eqn:E;
      [destruct p as [w h c l hx hy [mx|] my t r th a rs s li ra re]; reflexivity|].
    apply Qeq_bool_neq in E. contradiction.
  - intros e p' Hstep Hm. destruct Hstep as [p p' Hl Hinit | p p' Hrun | p w' h' Hw Hh | p x y].
    + destruct (init_three_pointer _ _ Hinit) as (E & _). clear Hinit.
      rewrite E. by destruct p.
    + unfold run_frame in Hrun. destruct (run_callbacks_pointer _ _ _ Hrun) as (E & _).
      clear Hrun. rewrite E. by destruct p.
    + destruct p; cbn in *. by destruct pg_listening0.
    + destruct p; cbn in *. destruct pg_listening0; [|done]. cbn. by rewrite Hm.
Qed.

(** C7. A resize sets the half viewport, the camera aspect, the renderer
    size and the resolution uniform, and touches neither the particles
    nor the pointer nor the clock; a second resize event with the same
    window changes nothing (resize handling is idempotent). *)
Theorem on_resize_effect p w h :
  let p' := on_resize (set_viewport w h p) in
  pg_halfX p' = w / 2 /\ pg_halfY p' = h / 2 /\ pg_aspect p' = jdiv (Fin w) (Fin h) /\
  pg_renderer_size p' = (w, h) /\
  option_map ps_resolution (pg_system p') = option_map (fun _ => (w, h)) (pg_system p) /\
  option_map ps_buffers (pg_system p') = option_map ps_buffers (pg_system p) /\
  pg_mouseX p' = pg_mouseX p /\ pg_mouseY p' = pg_mouseY p /\
  pg_time p' = pg_time p /\ pg_rng p' = pg_rng p /\ on_resize p' = p'.
Proof.
  destruct p as [w0 h0 c l hx hy mx my t r th a rs [[]|] li ra re]; cbn; split_and!; done.
Qed.

End PageProperties.

(** ** Witnesses

    An 800x600 window with the canvas: after [DOMContentLoaded] the page
    runs the 2000-particle system.  That page is obtained from the lemmas
    above rather than evaluated (building 2000 particles in exact
    rationals is too large for the kernel). *)
Section Witnesses.
#[local] Existing Instance exact_store.
#[local] Existing Instance seq_random.
#[local] Existing Instance const_trig.

Lemma loaded_page0 :
  set_loaded (page0 800 600 true) =
  MkPage 800 600 true true (800 / 2) (600 / 2) (Fin 0) (Fin 0) 0 0 false (Fin 0) (0, 0)
         None false 0 0.
Proof. reflexivity. Qed.

Lemma loaded_page :
  exists p ps, page_step (page0 800 600 true) DOMContentLoaded p /\
    reachable 800 600 true p /\ pg_system p = Some ps.
Proof.
  destruct (init_three_canvas_inv 800 600 (800 / 2) (600 / 2) (Fin 0) (Fin 0) 0 (Fin 0)
              (0, 0) 0) as (p & E & _); [vm_compute; reflexivity|].
  rewrite <- loaded_page0 in E.
  assert (Hs : page_step (page0 800 600 true) DOMContentLoaded p)
    by (apply step_loaded; [reflexivity | exact E]).
  destruct (init_three_system _ _ E) as [_ Hy].
  destruct (pg_system p) as [ps|] eqn:Es; [|destruct (Hy eq_refl eq_refl)].
  exists p, ps. split; [exact Hs|]. split; [|exact Es].
  exact (reach_step _ _ _ _ _ _ (reach_init _ _ _) Hs).
Qed.

Lemma reachable_positions_in_box_witness :
  exists p ps, reachable 800 600 true p /\ pg_system p = Some ps /\
    Forall (fun x => - maxDistance <= x <= maxDistance) (ps_position ps).
Proof.
  destruct loaded_page as (p & ps & _ & Hr & Hs). exists p, ps.
  split; [exact Hr|]. split; [exact Hs|].
  exact (reachable_positions_in_box 800 600 true p ps Hr Hs).
Defined.

Lemma reachable_attributes_fixed_witness :
  exists p ps, reachable 800 600 true p /\ pg_system p = Some ps /\
    exists m0, create_buffers particleCount 0 = Some m0 /\
      ps_color ps = m_color m0 /\ ps_size ps = m_size m0 /\ ps_opacity ps = m_opacity m0.
Proof.
  destruct loaded_page as (p & ps & _ & Hr & Hs). exists p, ps.
  split; [exact Hr|]. split; [exact Hs|].
  exact (reachable_attributes_fixed 800 600 true p ps Hr Hs).
Defined.

Lemma reachable_clock_witness :
  exists p ps, reachable 800 600 true p /\ pg_system p = Some ps /\
    pg_time p == inject_Z (Z.of_nat (pg_renders p)) * 0.016 /\
    ps_time ps == pg_time p /\ pg_raf p = 1%nat.
Proof.
  destruct loaded_page as (p & ps & _ & Hr & Hs). exists p, ps.
  destruct (reachable_clock 800 600 true p Hr) as [Ht Hps].
  split; [exact Hr|]. split; [exact Hs|]. split; [exact Ht|]. exact (Hps ps Hs).
Defined.

Lemma reachable_progress_witness :
  exists p p', reachable 800 600 true p /\ page_step p AnimationFrame p'.
Proof.
  destruct loaded_page as (p & ps & _ & Hr & _).
  destruct (reachable_progress 800 600 true p Hr) as [[p' Hp'] _].
  exists p, p'. split; [exact Hr | exact Hp'].
Defined.

Lemma page_phase_step_witness :
  exists p', page_step (page0 800 600 true) DOMContentLoaded p' /\
    page_phase (page0 800 600 true) = Uninitialized /\ page_phase p' = Running /\
    pg_has_canvas (page0 800 600 true) = true.
Proof.
  destruct loaded_page as (p & ps & Hs & _ & Es). exists p.
  assert (Hp : page_phase p = Running) by (unfold page_phase; rewrite Es; reflexivity).
  split; [exact Hs|]. split; [reflexivity|]. split; [exact Hp|].
  exact (proj2 (proj2 (page_phase_step _ _ _ Hs) eq_refl Hp)).
Defined.

Lemma mouse_smoothing_closed_form_witness :
  exists m, pg_mouseX (Nat.iter 10 (on_mouse_move 200 0) (page0 200 100 true)) = Fin m /\
    0.651 <= m /\ m <= 0.652.
Proof.
  destruct (mouse_smoothing_closed_form (page0 200 100 true) 200 0 10 0 1)
    as (m & E & Hm);
    [intros H; vm_compute in H; discriminate H | reflexivity | vm_compute; reflexivity |].
  exists m. split; [exact E|]. rewrite Hm. split; vm_compute; discriminate.
Defined.

Lemma on_mouse_move_range_witness :
  exists m', pg_mouseX (on_mouse_move 150 0 (page0 200 100 true)) = Fin m' /\
    -1 <= m' /\ m' <= 1.
Proof.
  destruct (on_mouse_move_range (page0 200 100 true) 150 0 0) as (m' & E & H1 & H2);
    [reflexivity | split; vm_compute; discriminate | reflexivity
    | split; vm_compute; discriminate |].
  exists m'. split; [exact E|]. split; [exact H1 | exact H2].
Defined.

Lemma mouse_nonfinite_witness :
  let p1 := on_mouse_move 10 10 (page0 0 0 true) in
  pg_mouseX p1 = NonFinite /\
  pg_mouseX (if pg_listening p1 then on_resize (set_viewport 640 480 p1)
             else set_viewport 640 480 p1) = NonFinite.
Proof.
  intros p1.
  destruct (mouse_nonfinite (page0 0 0 true) 10 10) as [H1 _].
  assert (E : pg_mouseX p1 = NonFinite) by (apply H1; vm_compute; reflexivity).
  split; [exact E|].
  destruct (mouse_nonfinite p1 0 0) as [_ H2].
  apply (H2 (Resize 640 480)); [apply step_resize; vm_compute; discriminate | exact E].
Defined.
End Witnesses.

End Scene.
