(* ===== verification/Shaders.v ===== *)
(** * The shaders of the particle material

    [createParticleSystem] (script.js, lines 106-194) gives the
    [THREE.ShaderMaterial] a vertex shader (lines 112-157) and a fragment
    shader (lines 159-188), GLSL programs that the GPU runs for every
    particle and every pixel of its sprite.  They read the attributes of
    [ParticleField] ([position], [size], [opacity], [color]) and the
    uniforms [time] and [mousePosition] that [animate] writes.

    GLSL arithmetic is modelled on the real numbers of the Standard
    Library, with its [sqrt], [sin] and [cos] ([length] is [sqrt] of the
    sum of squares); [normalize] of the zero vector is undefined in GLSL
    (a division by zero, [NaN] on GPUs), so the vertex computation
    returns [None] there.  The model-view and projection matrices of the
    camera are not modelled: [dynamic_size] takes the depth
    [-mvPosition.z] as an input.

    The material's options (lines 189-192) decide how the fragments
    reach the canvas: [blend] is WebGL's depth test and blending of one
    channel of one pixel as three.js configures them, on the 8-bit
    canvas whose values are clamped to [[0, 1]], and [draw] the
    fragments of a pixel in drawing order. *)

From S2P Require Import Prelude.
From Stdlib Require Import Reals Lra Sorting.Permutation.

Module Shaders.
Local Open Scope R_scope.

(** A [vec3] of the vertex shader. *)
Record v3 := MkV3 { px : R; py : R; pz : R }.

(** [length(vec2(x, y))]. *)
Definition glen (x y : R) : R := sqrt (x * x + y * y).

(** [clamp((x - e0) / (e1 - e0), 0.0, 1.0)] and the cubic of
    [smoothstep(e0, e1, x)]. *)
Definition smoothstep (e0 e1 x : R) : R :=
  let t := Rmin (Rmax ((x - e0) / (e1 - e0)) 0) 1 in t * t * (3 - 2 * t).

(** ** The vertex shader *)

(** Lines 131-133: the wave, whose phases read the attribute [position]. *)
Definition wave_motion (time : R) (position : v3) : v3 :=
  MkV3 (px position + sin (time * 0.5 + py position * 0.1) * 0.8)
       (py position + cos (time * 0.3 + px position * 0.1) * 0.8)
       (pz position + sin (time * 0.7 + px position * 0.1) * 0.8).

(** Lines 136-138: the spiral, whose angle reads the displaced [pos]. *)
Definition spiral_motion (time : R) (pos : v3) : v3 :=
  let angle := time * 0.2 + glen (px pos) (py pos) * 0.1 in
  MkV3 (px pos + cos angle * 0.3) (py pos + sin angle * 0.3) (pz pos).

(** Lines 141-145: within 8 units of [mousePosition * 15.0], the point is
    pushed away from it by [3.0 * (1.0 - distance / 8.0)].  [None]: the
    point is exactly there and [normalize] divides by zero. *)
Definition mouse_repel (mx my : R) (pos : v3) : option v3 :=
  let dx := px pos - mx * 15 in
  let dy := py pos - my * 15 in
  let distance := glen dx dy in
  if Rlt_dec distance 8 then
    if Req_EM_T distance 0 then None
    else
      let k := 3 * (1 - distance / 8) in
      Some (MkV3 (px pos + dx / distance * k) (py pos + dy / distance * k) (pz pos))
  else Some pos.

(** The displaced point of lines 128-145, before the camera transform. *)
Definition vertex_pos (time mx my : R) (position : v3) : option v3 :=
  mouse_repel mx my (spiral_motion time (wave_motion time position)).

(** Lines 151-153, with [depth = -mvPosition.z]. *)
Definition dynamic_size (time size depth : R) (position : v3) : R :=
  size * (300 / depth) * (1 + sin (time * 2 + px position * 0.1) * 0.3)
       * (1 + sin (time * 1.5 + py position * 0.1) * 0.2).

(** ** The fragment shader *)

(** Lines 170-172: the alpha of the pixel at distance [dist] from the
    centre of the sprite, [vDistance = vdist]. *)
Definition frag_alpha (time dist opacity vdist : R) : R :=
  (1 - smoothstep 0 0.5 dist) * opacity * (0.9 + 0.1 * sin (time * 3 + vdist * 0.1)).

(** Lines 175-185: core, glow and the colour of the pixel. *)
Definition frag_color (time dist vdist : R) (c : v3) : v3 :=
  let core := 1 - smoothstep 0 0.2 dist in
  let glow := (1 - smoothstep 0.3 0.8 dist) * 0.5 in
  let w := glow * sin (time * 2 + vdist * 0.05) in
  MkV3 (px c * core + px c * glow * 0.8 + 0.1 * w)
       (py c * core + py c * glow * 0.8 + 0.1 * w)
       (pz c * core + pz c * glow * 0.8 + 0.2 * w).

(** ** The material's blending (lines 189-192) *)

(** The options of the [ShaderMaterial] that decide how its fragments
    reach the canvas: [transparent], [blending], [depthWrite]
    ([vertexColors] only declares the [color] attribute). *)
Record Material := MkMaterial {
  mt_transparent : bool;
  mt_additive : bool;
  mt_depth_write : bool;
  mt_vertex_colors : bool
}.

(** [transparent: true, blending: THREE.AdditiveBlending,
    depthWrite: false, vertexColors: true]. *)
Definition particle_material : Material := MkMaterial true true false true.

(** A [ShaderMaterial] with three.js's defaults for the last three
    options: [NormalBlending] and [depthWrite: true]. *)
Definition default_material : Material := MkMaterial true false true false.

(** A fragment at one pixel: its depth and one channel of
    [gl_FragColor] with its alpha. *)
Record Fragment := MkFrag { fr_depth : R; fr_color : R; fr_alpha : R }.

(** One channel of the canvas at one pixel and the depth buffer there. *)
Record Pixel := MkPixel { pix_value : R; pix_depth : R }.

Definition clamp01 (x : R) : R := Rmin (Rmax x 0) 1.

(** WebGL's per-fragment operations as three.js sets them for the
    material: the depth test [LEQUAL]; blending on an 8-bit canvas,
    whose source, destination and factors are clamped to [[0, 1]];
    [AdditiveBlending] is [blendFunc(SRC_ALPHA, ONE)] with [FUNC_ADD],
    [NormalBlending] is [SRC_ALPHA, ONE_MINUS_SRC_ALPHA]; the depth is
    stored only with [depthWrite]. *)
Definition blend (m : Material) (p : Pixel) (f : Fragment) : Pixel :=
  if Rle_dec (fr_depth f) (pix_depth p) then
    let src := clamp01 (fr_color f) in
    let a := clamp01 (fr_alpha f) in
    let dst := clamp01 (pix_value p) in
    MkPixel (clamp01 (if mt_additive m then dst + src * a else src * a + dst * (1 - a)))
            (if mt_depth_write m then fr_depth f else pix_depth p)
  else p.

(** The fragments of a pixel in the order the points are drawn. *)
Definition draw (m : Material) (fs : list Fragment) (p : Pixel) : Pixel := fold_left (blend m) fs p.

(** ** Lemmas *)

Lemma glen_nonneg x y : 0 <= glen x y.
Proof. apply sqrt_pos. Qed.

Lemma abs_le_glen x y : Rabs x <= glen x y.
Proof.
  unfold glen. rewrite <- sqrt_Rsqr_abs. apply sqrt_le_1_alt. pose proof (Rle_0_sqr y) as Hy. unfold Rsqr in *. lra.
Qed.

Lemma abs_le_glen_r x y : Rabs y <= glen x y.
Proof. unfold glen. rewrite Rplus_comm. apply abs_le_glen. Qed.

Lemma smoothstep_range e0 e1 x : 0 <= smoothstep e0 e1 x <= 1.
Proof.
  unfold smoothstep. set (t := Rmin (Rmax ((x - e0) / (e1 - e0)) 0) 1).
  assert (Ht : 0 <= t <= 1).
  { unfold t. split; [apply Rmin_glb; [apply Rmax_r | lra] | apply Rmin_r]. }
  split; [apply Rmult_le_pos; nra|].
  assert (H : 0 <= (1 - t) * (1 - t) * (1 + 2 * t)) by (apply Rmult_le_pos; nra). nra.
Qed.

Lemma smoothstep_one e0 e1 x : e0 < e1 -> e1 <= x -> smoothstep e0 e1 x = 1.
Proof.
  intros H01 Hx. unfold smoothstep.
  assert (Hq : 1 <= (x - e0) / (e1 - e0)).
  { unfold Rdiv. apply (Rmult_le_reg_r (e1 - e0)); [lra|].
    rewrite Rmult_assoc, Rinv_l, Rmult_1_r by lra. lra. }
  rewrite Rmax_left by lra. rewrite Rmin_right by lra. ring.
Qed.

Lemma scaled_sin x k : 0 <= k -> - k <= sin x * k <= k.
Proof. intros Hk. pose proof (SIN_bound x). split; nra. Qed.

Lemma scaled_cos x k : 0 <= k -> - k <= cos x * k <= k.
Proof. intros Hk. pose proof (COS_bound x). split; nra. Qed.

(** The push of [mouse_repel] along one axis is at most [k]. *)
Lemma push_bound a d k : Rabs a <= d -> 0 < d -> 0 <= k -> Rabs (a / d * k) <= k.
Proof.
  intros Ha Hd Hk. rewrite Rabs_mult, (Rabs_right k) by lra.
  assert (Hq : Rabs (a / d) <= 1).
  { unfold Rdiv. rewrite Rabs_mult, Rabs_inv, (Rabs_right d) by lra.
    apply (Rmult_le_reg_r d); [lra|]. rewrite Rmult_assoc, Rinv_l, Rmult_1_r by lra. lra. }
  pose proof (Rabs_pos (a / d)). nra.
Qed.

(** Scaling both coordinates scales the length. *)
Lemma glen_scale a x y : 0 <= a -> glen (a * x) (a * y) = a * glen x y.
Proof.
  intros Ha. unfold glen.
  replace (a * x * (a * x) + a * y * (a * y)) with ((a * a) * (x * x + y * y)) by ring.
  rewrite sqrt_mult_alt by nra. by rewrite sqrt_square.
Qed.

(** The three stages of the vertex shader move a point by at most 0.8,
    0.3 and 3 along an axis. *)
Lemma wave_bound time p :
  Rabs (px (wave_motion time p) - px p) <= 0.8 /\ Rabs (py (wave_motion time p) - py p) <= 0.8 /\
  Rabs (pz (wave_motion time p) - pz p) <= 0.8.
Proof.
  cbn [wave_motion px py pz].
  pose proof (scaled_sin (time * 0.5 + py p * 0.1) 0.8 ltac:(lra)).
  pose proof (scaled_cos (time * 0.3 + px p * 0.1) 0.8 ltac:(lra)).
  pose proof (scaled_sin (time * 0.7 + px p * 0.1) 0.8 ltac:(lra)).
  split_and!; apply Rabs_le; lra.
Qed.

Lemma spiral_bound time w :
  Rabs (px (spiral_motion time w) - px w) <= 0.3 /\ Rabs (py (spiral_motion time w) - py w) <= 0.3 /\
  pz (spiral_motion time w) = pz w.
Proof.
  cbn [spiral_motion px py pz]. set (a := time * 0.2 + glen (px w) (py w) * 0.1).
  pose proof (scaled_cos a 0.3 ltac:(lra)). pose proof (scaled_sin a 0.3 ltac:(lra)).
  split_and!; [apply Rabs_le; lra | apply Rabs_le; lra | done].
Qed.

Lemma repel_bound mx my s q :
  mouse_repel mx my s = Some q -> Rabs (px q - px s) <= 3 /\ Rabs (py q - py s) <= 3 /\ pz q = pz s.
Proof.
  unfold mouse_repel. set (d := glen (px s - mx * 15) (py s - my * 15)).
  assert (Hd : 0 <= d) by apply glen_nonneg.
  destruct (Rlt_dec d 8) as [Hlt|Hge]; [destruct (Req_EM_T d 0) as [|Hne]; [discriminate|] |].
  - intros [= <-]. cbn [px py pz]. set (k := 3 * (1 - d / 8)).
    assert (Hk : 0 <= k <= 3).
    { unfold k. split; [|assert (0 <= d / 8) by (unfold Rdiv; nra); lra].
      assert (d / 8 < 1) by (unfold Rdiv; lra). lra. }
    replace (px s + (px s - mx * 15) / d * k - px s) with ((px s - mx * 15) / d * k) by ring.
    replace (py s + (py s - my * 15) / d * k - py s) with ((py s - my * 15) / d * k) by ring.
    split_and!; [| |done]; (eapply Rle_trans; [apply push_bound | apply Hk]); try lra;
      [apply abs_le_glen | apply abs_le_glen_r].
  - intros [= <-]. rewrite !Rminus_diag, Rabs_R0. lra.
Qed.

(** ** Properties *)

Section Blending.

Lemma clamp01_range x : 0 <= clamp01 x <= 1.
Proof.
  unfold clamp01, Rmin, Rmax.
  destruct (Rle_dec x 0); destruct (Rle_dec _ 1); lra.
Qed.

Lemma clamp01_id x : 0 <= x <= 1 -> clamp01 x = x.
Proof. intros Hx. unfold clamp01. rewrite Rmax_left, Rmin_left; lra. Qed.

Lemma clamp01_idem x : clamp01 (clamp01 x) = clamp01 x.
Proof. apply clamp01_id, clamp01_range. Qed.

Lemma clamp01_nonneg_add u a : 0 <= u -> 0 <= a -> clamp01 (u + a) = Rmin (u + a) 1.
Proof. intros Hu Ha. unfold clamp01. rewrite Rmax_left; lra. Qed.

(** Two additive steps on a clamped channel add up, whatever their
    order. *)
Lemma clamp_add_add v a b :
  0 <= a -> 0 <= b ->
  clamp01 (clamp01 (clamp01 v + a) + b) = clamp01 (clamp01 v + (a + b)).
Proof.
  intros Ha Hb. destruct (clamp01_range v) as [Hv0 Hv1]. set (u := clamp01 v) in *.
  rewrite !clamp01_nonneg_add; try lra.
  - unfold Rmin. destruct (Rle_dec (u + a) 1); destruct (Rle_dec _ 1); destruct (Rle_dec _ 1); lra.
  - apply clamp01_range.
Qed.

Lemma src_term_nonneg f : 0 <= clamp01 (fr_color f) * clamp01 (fr_alpha f).
Proof. apply Rmult_le_pos; apply clamp01_range. Qed.

Lemma blend_particle p f :
  blend particle_material p f =
  if Rle_dec (fr_depth f) (pix_depth p)
  then MkPixel (clamp01 (clamp01 (pix_value p) + clamp01 (fr_color f) * clamp01 (fr_alpha f))) (pix_depth p)
  else p.
Proof. reflexivity. Qed.

(** With the particle material two fragments commute: the depth buffer
    is never written, and additive steps add up. *)
Lemma particle_blend_comm p f g :
  blend particle_material (blend particle_material p f) g =
  blend particle_material (blend particle_material p g) f.
Proof.
  rewrite (blend_particle p f), (blend_particle p g).
  repeat match goal with |- context [Rle_dec ?x ?y] => destruct (Rle_dec x y) end;
    rewrite ?blend_particle; cbn [pix_value pix_depth];
    repeat match goal with |- context [Rle_dec ?x ?y] => destruct (Rle_dec x y) end;
    try contradiction; try done.
  f_equal. rewrite !clamp01_idem, !clamp_add_add by apply src_term_nonneg. f_equal. f_equal. lra.
Qed.

Lemma draw_perm fs fs' p :
  Permutation fs fs' -> draw particle_material fs p = draw particle_material fs' p.
Proof.
  intros H. revert p. induction H as [|x l l' _ IH|x y l|l l' l'' _ IH1 _ IH2]; intros p; cbn.
  - done.
  - apply IH.
  - by rewrite particle_blend_comm.
  - by rewrite IH1, IH2.
Qed.

Lemma draw_brightens fs p :
  clamp01 (pix_value p) <= clamp01 (pix_value (draw particle_material fs p)).
Proof.
  revert p. induction fs as [|f fs IH]; intros p; cbn; [lra|].
  eapply Rle_trans; [|apply IH]. unfold blend. cbn [mt_additive mt_depth_write particle_material].
  destruct (Rle_dec _ _); cbn [pix_value]; [|lra].
  rewrite clamp01_idem. destruct (clamp01_range (pix_value p)).
  pose proof (src_term_nonneg f). rewrite clamp01_nonneg_add by lra.
  unfold Rmin. destruct (Rle_dec _ 1); lra.
Qed.

End Blending.

(** Three.js's defaults would make the order matter: an opaque black
    fragment drawn over a half-transparent white one at the same depth
    hides it, and not the other way round. *)
Lemma default_blend_order_matters :
  draw default_material [MkFrag 0.5 1 0.5; MkFrag 0.5 0 1] (MkPixel 0 1) <>
  draw default_material [MkFrag 0.5 0 1; MkFrag 0.5 1 0.5] (MkPixel 0 1).
Proof.
  unfold draw. cbn [fold_left]. unfold blend. cbn [mt_additive mt_depth_write default_material
    fr_depth fr_color fr_alpha pix_value pix_depth].
  repeat first
    [ progress cbn [pix_value pix_depth]
    | match goal with |- context [Rle_dec ?x ?y] => destruct (Rle_dec x y); [|lra] end
    | match goal with |- context [clamp01 ?x] => rewrite (clamp01_id x) by lra end ].
  intros H. injection H. lra.
Qed.

(** C10. The pointer repels: a particle whose displaced point lies within
    8 units of the pointer's image [mousePosition * 15.0] is pushed
    straight away from it, to the distance [3 + 5 d / 8] (so into
    [[3, 8)], keeping the order of distances); one at 8 or more is not
    moved; one exactly on it makes [normalize] divide by zero, for which
    GLSL defines no result. *)
Theorem mouse_repel_pushes_out mx my pos :
  let d := glen (px pos - mx * 15) (py pos - my * 15) in
  (d = 0 -> mouse_repel mx my pos = None) /\
  (0 < d < 8 -> exists q, mouse_repel mx my pos = Some q /\ pz q = pz pos /\
     glen (px q - mx * 15) (py q - my * 15) = 3 + 5 * d / 8) /\
  (8 <= d -> mouse_repel mx my pos = Some pos).
Proof.
  cbv zeta. unfold mouse_repel. set (d := glen (px pos - mx * 15) (py pos - my * 15)).
  split_and!.
  - intros Hd. destruct (Rlt_dec d 8); [|lra]. by destruct (Req_EM_T d 0).
  - intros Hd. destruct (Rlt_dec d 8); [|lra]. destruct (Req_EM_T d 0); [lra|].
    eexists. split_and!; [reflexivity | done |]. cbn [px py].
    set (a := 1 + 3 * (1 - d / 8) / d).
    assert (Ha : 0 <= a) by (unfold a; assert (0 <= 3 * (1 - d / 8) / d) by (unfold Rdiv; apply Rmult_le_pos; [lra | left; apply Rinv_0_lt_compat; lra]); lra).
    replace (px pos + (px pos - mx * 15) / d * (3 * (1 - d / 8)) - mx * 15) with (a * (px pos - mx * 15))
      by (unfold a; field; lra).
    replace (py pos + (py pos - my * 15) / d * (3 * (1 - d / 8)) - my * 15) with (a * (py pos - my * 15))
      by (unfold a; field; lra).
    rewrite glen_scale by exact Ha. fold d. unfold a. field. lra.
  - intros Hd. destruct (Rlt_dec d 8); [lra | done].
Qed.

(** C11. The vertex shader keeps each particle near its simulated
    position: wave, spiral and pointer together move it by at most
    [0.8 + 0.3 + 3 = 4.1] units along x and y and [0.8] along z, whatever
    the time and the pointer. *)
Theorem vertex_pos_bounded time mx my p q :
  vertex_pos time mx my p = Some q ->
  Rabs (px q - px p) <= 4.1 /\ Rabs (py q - py p) <= 4.1 /\ Rabs (pz q - pz p) <= 0.8.
Proof.
  unfold vertex_pos. set (w := wave_motion time p). set (s := spiral_motion time w).
  intros Hq. destruct (repel_bound mx my s q Hq) as (Hx3 & Hy3 & Hz3).
  destruct (spiral_bound time w) as (Hx2 & Hy2 & Hz2). destruct (wave_bound time p) as (Hx1 & Hy1 & Hz1).
  fold w in Hx1, Hy1, Hz1. fold s in Hx2, Hy2, Hz2.
  rewrite Hz3, Hz2. split_and!; [| | exact Hz1]; split_Rabs; lra.
Qed.

(** The sprite is a disc: the alpha of a pixel lies between 0 and the
    particle's opacity, and is 0 from half a sprite away from the centre
    on, whatever the time. *)
Lemma frag_alpha_disc time dist opacity vdist :
  0 <= opacity ->
  0 <= frag_alpha time dist opacity vdist <= opacity /\
  (0.5 <= dist -> frag_alpha time dist opacity vdist = 0).
Proof.
  intros Ho. unfold frag_alpha. split.
  - pose proof (smoothstep_range 0 0.5 dist). pose proof (SIN_bound (time * 3 + vdist * 0.1)).
    set (a := 1 - smoothstep 0 0.5 dist). set (b := 0.9 + 0.1 * sin (time * 3 + vdist * 0.1)).
    assert (0 <= a <= 1) by (unfold a; lra). assert (0.8 <= b <= 1) by (unfold b; lra).
    assert (0 <= a * opacity <= opacity) by nra. split; nra.
  - intros Hd. rewrite smoothstep_one by lra. ring.
Qed.

(** The point size varies by the factors [1 +- 0.3] and [1 +- 0.2] around
    [size * 300 / depth] for a particle in front of the camera. *)
Lemma dynamic_size_bounds time size depth p :
  0 <= size -> 0 < depth ->
  0.56 * (size * (300 / depth)) <= dynamic_size time size depth p <= 1.56 * (size * (300 / depth)).
Proof.
  intros Hs Hd. unfold dynamic_size. set (b := size * (300 / depth)).
  assert (Hb : 0 <= b) by (unfold b, Rdiv; apply Rmult_le_pos; [done | left; apply Rmult_lt_0_compat; [lra | apply Rinv_0_lt_compat; lra]]).
  pose proof (SIN_bound (time * 2 + px p * 0.1)). pose proof (SIN_bound (time * 1.5 + py p * 0.1)).
  set (s1 := 1 + sin (time * 2 + px p * 0.1) * 0.3). set (s2 := 1 + sin (time * 1.5 + py p * 0.1) * 0.2).
  assert (0.7 <= s1 <= 1.3) by (unfold s1; lra). assert (0.8 <= s2 <= 1.2) by (unfold s2; lra).
  assert (0.56 <= s1 * s2 <= 1.56) by nra.
  replace (b * s1 * s2) with (b * (s1 * s2)) by ring. split; nra.
Qed.

(** C12. The particles can be drawn in any order: with
    [AdditiveBlending] and [depthWrite: false], the value a pixel of
    the canvas ends with is the same for every order of the fragments
    that reach it (the point sprites need no sorting), and it is never
    darker than before; three.js's default material would not have this
    property ([default_blend_order_matters]). *)
Theorem particle_blend_order_independent fs fs' p :
  Permutation fs fs' ->
  draw particle_material fs p = draw particle_material fs' p /\
  clamp01 (pix_value p) <= clamp01 (pix_value (draw particle_material fs p)).
Proof. intros H. split; [by apply draw_perm | apply draw_brightens]. Qed.

(** ** Witnesses *)

Lemma mouse_repel_pushes_out_witness :
  exists q, mouse_repel 0 0 (MkV3 3 4 0) = Some q /\ glen (px q - 0 * 15) (py q - 0 * 15) = 3 + 5 * 5 / 8.
Proof.
  assert (Hd : glen (3 - 0 * 15) (4 - 0 * 15) = 5) by (unfold glen; apply sqrt_lem_1; lra).
  pose proof (mouse_repel_pushes_out 0 0 (MkV3 3 4 0)) as H. cbv zeta in H. cbn [px py] in H.
  rewrite Hd in H. destruct H as (_ & H & _). destruct (H ltac:(lra)) as (q & E & _ & Hq).
  exists q. split; [exact E | exact Hq].
Defined.

Lemma vertex_pos_bounded_witness :
  exists q, vertex_pos 0 100 0 (MkV3 0 0 0) = Some q /\ Rabs (px q - 0) <= 4.1.
Proof.
  set (s := spiral_motion 0 (wave_motion 0 (MkV3 0 0 0))).
  destruct (wave_bound 0 (MkV3 0 0 0)) as (Hx1 & _). destruct (spiral_bound 0 (wave_motion 0 (MkV3 0 0 0))) as (Hx2 & _).
  fold s in Hx2. cbn [px] in Hx1.
  assert (Hd : 8 <= glen (px s - 100 * 15) (py s - 0 * 15)).
  { eapply Rle_trans; [|apply abs_le_glen]. split_Rabs; lra. }
  assert (E : vertex_pos 0 100 0 (MkV3 0 0 0) = Some s).
  { unfold vertex_pos, mouse_repel. fold s. destruct (Rlt_dec _ 8); [lra | reflexivity]. }
  exists s. split; [exact E|]. exact (proj1 (vertex_pos_bounded 0 100 0 (MkV3 0 0 0) s E)).
Defined.

Lemma frag_alpha_disc_witness :
  frag_alpha 0 0.6 0.5 0 = 0 /\ 0 <= frag_alpha 0 0.2 0.5 0 <= 0.5.
Proof.
  split; [apply (frag_alpha_disc 0 0.6 0.5 0); lra | apply (frag_alpha_disc 0 0.2 0.5 0); lra].
Defined.

Lemma particle_blend_order_independent_witness :
  draw particle_material [MkFrag 0.5 1 0.5; MkFrag 0.5 0 1] (MkPixel 0 1) =
  draw particle_material [MkFrag 0.5 0 1; MkFrag 0.5 1 0.5] (MkPixel 0 1).
Proof. apply (particle_blend_order_independent _ _ (MkPixel 0 1)), perm_swap. Defined.

End Shaders.
