(* ===== verification/Navigation.v ===== *)
(** * [initNavigation]: the mobile menu and the in-page links

    [initNavigation] (script.js, lines 276-310) looks up the hamburger
    button, the menu and the navigation links, and registers three kinds
    of click listeners: the hamburger toggles the class [active] on itself
    and on the menu; every link first removes [active] from both, then
    (a second listener) cancels the default navigation and scrolls to the
    element its [href] selects.  The listeners of an element run in the
    order they were registered; an exception thrown by one of them is
    reported and the next one still runs (DOM event dispatch).  A state of
    the component is the document, the registered listeners and the last
    element scrolled into view.  The scrolling listener's
    [querySelector(href)] is [href_kind_of] (the parse of the selector)
    and [query_compounds] (its evaluation). *)

From Stdlib Require Import Ascii.
From stdpp Require Import base list strings gmap.
From S2P Require Import Prelude Dom.

Module Navigation.
Import Dom.

(** Exceptions of the handlers: a method called on [null], and an
    invalid selector passed to [querySelector].  [SelectorOutsideModel]
    is not a JavaScript exception: it marks a [querySelector] call on a
    selector this model does not interpret (see [href_kind_of]), whose
    outcome the model leaves open. *)
Inductive js_error := TypeError | SyntaxError (sel : string) | SelectorOutsideModel (sel : string).

(** The three listeners of lines 282, 289 and 297, with the elements
    their closures captured ([navMenu] may be [null]). *)
Inductive handler :=
  | HToggle (ham : nat) (menu : option nat)
  | HClose (ham : nat) (menu : option nat)
  | HScroll (link : nat).

Record Nav := MkNav {
  nv_doc : Doc;
  nv_listeners : list (nat * handler);
  nv_scroll : option nat
}.

Definition active : string := "active".

Definition hamburger_sel := [ByClass "hamburger"].
Definition nav_menu_sel := [ByClass "nav-menu"].
Definition nav_link_sel := [ByClass "nav-link"].

(** [initNavigation]: [hamburger.addEventListener] on a missing hamburger
    throws before any listener is registered ([None]); otherwise the
    listeners in registration order: the hamburger's, then one closing
    listener per link, then one scrolling listener per link. *)
Definition init_navigation (d : Doc) : option (list (nat * handler)) :=
  match query hamburger_sel d with
  | None => None
  | Some h =>
      let menu := query nav_menu_sel d in
      let links := query_all nav_link_sel d in
      Some ((h, HToggle h menu) :: ((fun l => (l, HClose h menu)) <$> links)
            ++ ((fun l => (l, HScroll l)) <$> links))
  end.

(** ** [document.querySelector] on an [href]

    The scrolling listener passes the [href] attribute to
    [document.querySelector]; a missing attribute is passed as [null],
    which the call converts to the string ["null"].  The string is parsed
    as a CSS selector list: a string that is not one throws
    [SyntaxError] (["#"], [""], ["#1"], any URL with ["/"], ["@"], ["?"]
    or ["="] outside brackets, a [":"] not followed by a name); a list
    of compound selectors made of a type ([a], case-insensitive), [*],
    [#id] and [.class] selects the first element, in document order,
    that matches one of them.  Selectors whose validity or meaning rests
    on parts of CSS outside this model (attribute selectors,
    pseudo-classes, combinators, namespaces, strings, escapes, comments,
    non-ASCII identifiers, NUL) are [HrefOutside]. *)
Inductive href_kind :=
  | HrefCompounds (cs : list (list selector))
  | HrefInvalid
  | HrefOutside.

Definition code (c : ascii) : nat := nat_of_ascii c.

Definition is_digit (c : ascii) : bool := bool_decide (48 <= code c <= 57)%nat.

Definition is_ident_start (c : ascii) : bool :=
  bool_decide (65 <= code c <= 90 \/ 97 <= code c <= 122 \/ code c = 95)%nat.

Definition is_ident_char (c : ascii) : bool :=
  is_ident_start c || is_digit c || bool_decide (code c = 45)%nat.

Definition is_ws (c : ascii) : bool := bool_decide (code c ∈ [9; 10; 12; 13; 32])%nat.

Definition is_in (c : ascii) (s : string) : bool := bool_decide (c ∈ String.list_ascii_of_string s).

Definition non_ascii (c : ascii) : bool := bool_decide (128 <= code c)%nat.

(** A CSS identifier: a letter or [_], or [-] followed by one of them or
    by [-]; then letters, digits, [-] and [_]. *)
Definition valid_ident (l : list ascii) : bool :=
  match l with
  | [] => false
  | c :: r =>
      (is_ident_start c ||
       (bool_decide (c = "-"%char) &&
        match r with c2 :: _ => is_ident_start c2 || bool_decide (c2 = "-"%char) | [] => false end)) &&
      forallb is_ident_char l
  end.

(** HTML matches type selectors ASCII case-insensitively. *)
Definition ascii_lower (c : ascii) : ascii :=
  if bool_decide (65 <= code c <= 90)%nat then ascii_of_nat (code c + 32) else c.

(** A character that no selector has at top level: it makes the
    tokens a [delim], an [at-keyword], a number or a block that the
    selector grammar rejects. *)
Definition top_allowed (c : ascii) : bool :=
  is_ident_char c || is_in c "#.*:,>+~[(|&" || is_ws c || non_ascii c.

Definition is_pseudo_start (c : ascii) : bool :=
  is_ident_start c || is_in c ":-" || non_ascii c.

(** A top-level character that makes the list invalid, skipping the
    contents of [[...]] and [(...)] blocks; a closing bracket at top
    level is invalid too. *)
Fixpoint top_invalid (stack : list ascii) (l : list ascii) : bool :=
  match l with
  | [] => false
  | c :: l' =>
      if is_in c "[(" then top_invalid (c :: stack) l'
      else if is_in c "])" then
        match stack with
        | [] => true
        | o :: st =>
            if bool_decide (o = "["%char /\ c = "]"%char \/ o = "("%char /\ c = ")"%char)
            then top_invalid st l' else top_invalid stack l'
        end
      else match stack with
           | [] =>
               negb (top_allowed c) ||
               (bool_decide (c = ":"%char) && match l' with c2 :: _ => negb (is_pseudo_start c2) | [] => true end) ||
               top_invalid [] l'
           | _ => top_invalid stack l'
           end
  end.

Fixpoint has_comment (l : list ascii) : bool :=
  match l with
  | c :: ((c2 :: _) as l') => bool_decide (c = "/"%char /\ c2 = "*"%char) || has_comment l'
  | _ => false
  end.

(** The segments of a compound selector: the type part, then one
    segment per [#] or [.]. *)
Fixpoint compound_segments (l : list ascii) (mark : ascii) (cur : list ascii) :
    list (ascii * list ascii) :=
  match l with
  | [] => [(mark, rev cur)]
  | c :: l' =>
      if is_in c "#." then (mark, rev cur) :: compound_segments l' c []
      else compound_segments l' mark (c :: cur)
  end.

Definition parse_segment (seg : ascii * list ascii) : option (list selector) :=
  let '(mark, t) := seg in
  if bool_decide (mark = "#"%char) then
    if valid_ident t then Some [ById (String.string_of_list_ascii t)] else None
  else if bool_decide (mark = "."%char) then
    if valid_ident t then Some [ByClass (String.string_of_list_ascii t)] else None
  else match t with
       | [] => Some []
       | [c] => if bool_decide (c = "*"%char) then Some []
                else if valid_ident t then Some [ByTag (String.string_of_list_ascii (ascii_lower <$> t))] else None
       | _ => if valid_ident t then Some [ByTag (String.string_of_list_ascii (ascii_lower <$> t))] else None
       end.

(** A compound selector: the conjunction of its simple selectors. *)
Definition parse_compound (l : list ascii) : option (list selector) :=
  if bool_decide (l = []) then None
  else (fun ss => concat ss) <$> mapM parse_segment (compound_segments l " "%char []).

Definition is_sep (c : ascii) : bool := is_ws c || is_in c ">+~".

(** Maximal runs of separator characters and of compound characters. *)
Fixpoint group_runs (l : list ascii) : list (bool * list ascii) :=
  match l with
  | [] => []
  | c :: l' =>
      match group_runs l' with
      | (b, r) :: rs => if Bool.eqb (is_sep c) b then (b, c :: r) :: rs else (is_sep c, [c]) :: (b, r) :: rs
      | [] => [(is_sep c, [c])]
      end
  end.

Definition ws_run (r : bool * list ascii) : bool := r.1 && forallb is_ws r.2.

Fixpoint drop_ws_runs (rs : list (bool * list ascii)) : list (bool * list ascii) :=
  match rs with r :: rs' => if ws_run r then drop_ws_runs rs' else rs | [] => [] end.

Definition strip_ws_runs (rs : list (bool * list ascii)) : list (bool * list ascii) :=
  rev (drop_ws_runs (rev (drop_ws_runs rs))).

(** One complex selector: compounds separated by at most one combinator
    each ([>], [+], [~] or white space), not starting or ending with one.
    A single compound is evaluated; several need the document tree and
    are [HrefOutside]. *)
Definition classify_complex (l : list ascii) : href_kind :=
  let rs := strip_ws_runs (group_runs l) in
  let words := snd <$> filter (fun r => negb r.1) rs in
  let bad_sep := existsb (fun r => r.1 && bool_decide (2 <= length (filter (fun c => is_in c ">+~") r.2))%nat) rs in
  match rs, last rs with
  | (true, _) :: _, _ | _, Some (true, _) | [], _ => HrefInvalid
  | _, _ =>
      if bad_sep then HrefInvalid
      else match mapM parse_compound words with
           | None => HrefInvalid
           | Some [c] => HrefCompounds [c]
           | Some _ => HrefOutside
           end
  end.

Fixpoint split_commas (l : list ascii) (cur : list ascii) : list (list ascii) :=
  match l with
  | [] => [rev cur]
  | c :: l' => if bool_decide (c = ","%char) then rev cur :: split_commas l' [] else split_commas l' (c :: cur)
  end.

Definition combine_kinds (ks : list href_kind) : href_kind :=
  if existsb (fun k => match k with HrefInvalid => true | _ => false end) ks then HrefInvalid
  else if existsb (fun k => match k with HrefOutside => true | _ => false end) ks then HrefOutside
  else HrefCompounds (concat ((fun k => match k with HrefCompounds cs => cs | _ => [] end) <$> ks)).

Definition href_kind_of (href : string) : href_kind :=
  let l := String.list_ascii_of_string href in
  if existsb (fun c => bool_decide (code c ∈ [0; 34; 39; 92])%nat) l || has_comment l then HrefOutside
  else if top_invalid [] l then HrefInvalid
  else if existsb (fun c => is_in c "[(:|&" || non_ascii c) l then HrefOutside
  else combine_kinds (classify_complex <$> split_commas l []).

(** The first element, in document order, that matches one of the
    compounds. *)
Definition query_compounds (cs : list (list selector)) (d : Doc) : option nat :=
  head (filter (fun i => default false ((fun e => existsb (fun c => forallb (fun s => matches s e) c) cs) <$> d !! i) = true)
               (seq 0 (length d))).

(** ** Handlers *)

Definition set_doc (d : Doc) (n : Nav) : Nav := MkNav d (nv_listeners n) (nv_scroll n).

Definition toggle_active (i : nat) (d : Doc) : Doc :=
  modify_elem (fun e => set_classes (cl_toggle active (e_classes e)) e) i d.

Definition remove_active (i : nat) (d : Doc) : Doc :=
  modify_elem (fun e => set_classes (cl_remove active (e_classes e)) e) i d.

(** One listener: the new state, whether it called [preventDefault], and
    the exception it threw.  [navMenu.classList] on a missing menu throws
    after the hamburger has been updated. *)
Definition run_handler (h : handler) (n : Nav) : Nav * bool * option js_error :=
  match h with
  | HToggle ham menu =>
      let d1 := toggle_active ham (nv_doc n) in
      match menu with
      | Some m => (set_doc (toggle_active m d1) n, false, None)
      | None => (set_doc d1 n, false, Some TypeError)
      end
  | HClose ham menu =>
      let d1 := remove_active ham (nv_doc n) in
      match menu with
      | Some m => (set_doc (remove_active m d1) n, false, None)
      | None => (set_doc d1 n, false, Some TypeError)
      end
  | HScroll l =>
      let href := default "null" (nv_doc n !! l ≫= get_attribute "href") in
      match href_kind_of href with
      | HrefInvalid => (n, true, Some (SyntaxError href))
      | HrefOutside => (n, true, Some (SelectorOutsideModel href))
      | HrefCompounds cs =>
          match query_compounds cs (nv_doc n) with
          | Some t => (MkNav (nv_doc n) (nv_listeners n) (Some t), true, None)
          | None => (n, true, None)
          end
      end
  end.

(** Dispatch of a click on element [i]: its listeners in registration
    order; the default action is cancelled if one of them cancelled it,
    and the exceptions are collected (reported to the console). *)
Fixpoint dispatch (hs : list handler) (n : Nav) : Nav * bool * list js_error :=
  match hs with
  | [] => (n, false, [])
  | h :: hs' =>
      let '(n1, p1, e1) := run_handler h n in
      let '(n2, p2, e2) := dispatch hs' n1 in
      (n2, p1 || p2, option_list e1 ++ e2)
  end.

Definition listeners_on (i : nat) (n : Nav) : list handler :=
  snd <$> filter (fun ih => ih.1 = i) (nv_listeners n).

Definition click (i : nat) (n : Nav) : Nav * bool * list js_error :=
  dispatch (listeners_on i n) n.

(** The states of the component: after [initNavigation], any sequence of
    clicks. *)
Inductive nav_reach (d0 : Doc) : Nav -> Prop :=
  | nav_init ls : init_navigation d0 = Some ls -> nav_reach d0 (MkNav d0 ls None)
  | nav_click n i : nav_reach d0 n -> nav_reach d0 (click i n).1.1.

(** Whether element [i] carries the class [active]. *)
Definition has_active (i : nat) (d : Doc) : bool :=
  match d !! i with Some e => cl_contains active (e_classes e) | None => false end.

(** What every reachable state keeps: the listeners [initNavigation]
    registered and the document up to classes. *)
Definition nav_inv (d0 : Doc) (n : Nav) : Prop :=
  init_navigation d0 = Some (nv_listeners n) /\ strip <$> nv_doc n = strip <$> d0.

(** The listeners [initNavigation] registers for the hamburger [h] and the
    menu [m]. *)
Definition handler_of (h m : nat) (hd : handler) : Prop :=
  hd = HToggle h (Some m) \/ hd = HClose h (Some m) \/ exists l, hd = HScroll l.

(** A page for the examples: the hamburger, the menu, a link to the
    section [about], a link whose [href] is ["#"], and the section. *)
Definition demo_elem (tag : string) (id : option string) (cls : list string)
    (attrs : list (string * string)) : Elem := MkElem tag id cls attrs ∅ "".

Definition demo_doc : Doc :=
  [demo_elem "button" None ["hamburger"] [];
   demo_elem "ul" None ["nav-menu"] [];
   demo_elem "a" None ["nav-link"] [("href", "#about")];
   demo_elem "a" None ["nav-link"] [("href", "#")];
   demo_elem "section" (Some "about") [] []].

Definition demo_nav : Nav := MkNav demo_doc (default [] (init_navigation demo_doc)) None.

(** A page whose links carry the kinds of [href] the handler meets. *)
Definition links_doc : Doc :=
  [demo_elem "button" None ["hamburger"] [];
   demo_elem "ul" None ["nav-menu"] [];
   demo_elem "a" None ["nav-link"] [("href", "#about")];
   demo_elem "a" None ["nav-link"] [("href", "#")];
   demo_elem "a" None ["nav-link"] [("href", "https://example.org/")];
   demo_elem "a" None ["nav-link"] [("href", "#contact.big")];
   demo_elem "a" None ["nav-link"] [("href", "SECTION")];
   demo_elem "section" (Some "about") [] [];
   demo_elem "section" (Some "contact") ["big"] []].

(** ** Lemmas *)

Section DocFacts.
Implicit Types (d : Doc) (i j : nat).

Lemma fmap_strip_modify f i d :
  (forall e, strip (f e) = strip e) -> strip <$> modify_elem f i d = strip <$> d.
Proof.
  intros Hf. apply list_eq. intros j. rewrite !list_lookup_fmap, lookup_modify_elem.
  case_decide; [|done]. subst. destruct (d !! j); cbn; [by rewrite Hf | done].
Qed.

Lemma strip_toggle_active i d : strip <$> toggle_active i d = strip <$> d.
Proof. by apply fmap_strip_modify. Qed.

Lemma strip_remove_active i d : strip <$> remove_active i d = strip <$> d.
Proof. by apply fmap_strip_modify. Qed.

Lemma length_strip d d' : strip <$> d = strip <$> d' -> length d = length d'.
Proof. intros E. by rewrite <-(length_fmap strip d), E, length_fmap. Qed.

Lemma lookup_strip d d' i :
  strip <$> d = strip <$> d' -> strip <$> d !! i = strip <$> d' !! i.
Proof. intros E. by rewrite <-!list_lookup_fmap, E. Qed.

Lemma lookup_attr_strip d d' i a :
  strip <$> d = strip <$> d' -> d !! i ≫= get_attribute a = d' !! i ≫= get_attribute a.
Proof.
  intros E. pose proof (lookup_strip _ _ i E) as Ei.
  destruct (d !! i) as [e|], (d' !! i) as [e'|]; cbn in *; try discriminate; [|done].
  assert (Ea : e_attrs (strip e) = e_attrs (strip e')) by congruence. cbn in Ea.
  unfold get_attribute. by rewrite Ea.
Qed.

Lemma has_active_toggle_eq i d :
  is_Some (d !! i) -> has_active i (toggle_active i d) = negb (has_active i d).
Proof.
  intros [e He]. unfold has_active, toggle_active. rewrite lookup_modify_elem, decide_True, He
    by done.
  apply cl_contains_toggle.
Qed.

Lemma has_active_toggle_ne i j d : i <> j -> has_active j (toggle_active i d) = has_active j d.
Proof. intros Hij. unfold has_active, toggle_active. by rewrite lookup_modify_elem, decide_False. Qed.

Lemma has_active_remove_eq i d : has_active i (remove_active i d) = false.
Proof.
  unfold has_active, remove_active. rewrite lookup_modify_elem, decide_True by done.
  destruct (d !! i); [apply cl_contains_remove | done].
Qed.

Lemma has_active_remove_ne i j d : i <> j -> has_active j (remove_active i d) = has_active j d.
Proof. intros Hij. unfold has_active, remove_active. by rewrite lookup_modify_elem, decide_False. Qed.

Lemma length_toggle_active i d : length (toggle_active i d) = length d.
Proof. apply length_modify_elem. Qed.

Lemma length_remove_active i d : length (remove_active i d) = length d.
Proof. apply length_modify_elem. Qed.

End DocFacts.

Section HandlerFacts.
Context (d0 : Doc).

Lemma run_handler_inv hd n : nav_inv d0 n -> nav_inv d0 (run_handler hd n).1.1.
Proof.
  intros [Hl Hs]. unfold nav_inv.
  destruct hd as [h [m|] | h [m|] | l]; cbn [run_handler fst set_doc nv_doc nv_listeners];
    try (split; [done|]).
  - by rewrite !strip_toggle_active.
  - by rewrite !strip_toggle_active.
  - by rewrite !strip_remove_active.
  - by rewrite !strip_remove_active.
  - destruct (href_kind_of _); [destruct (query_compounds _ _)|..]; by split.
Qed.

Lemma dispatch_inv hs n : nav_inv d0 n -> nav_inv d0 (dispatch hs n).1.1.
Proof.
  revert n. induction hs as [|hd hs IH]; intros n Hn; [done|]. cbn.
  pose proof (run_handler_inv hd n Hn) as H1.
  destruct (run_handler hd n) as [[n1 p1] e1]. cbn in H1.
  specialize (IH n1 H1). destruct (dispatch hs n1) as [[n2 p2] e2]. exact IH.
Qed.

Lemma nav_reach_inv n : nav_reach d0 n -> nav_inv d0 n.
Proof.
  induction 1 as [ls Hls | n i _ IH]; [by split | apply dispatch_inv, IH].
Qed.

Lemma init_navigation_handlers ls h m :
  init_navigation d0 = Some ls -> query hamburger_sel d0 = Some h ->
  query nav_menu_sel d0 = Some m -> Forall (fun ih => handler_of h m ih.2) ls.
Proof.
  unfold init_navigation. intros Hls Hh Hm. rewrite Hh, Hm in Hls. injection Hls as <-.
  constructor; [by left|]. apply Forall_app. split; apply Forall_fmap, Forall_forall;
    intros l _; unfold handler_of; cbn; eauto.
Qed.

Lemma listeners_on_handlers n h m i :
  Forall (fun ih => handler_of h m ih.2) (nv_listeners n) ->
  Forall (handler_of h m) (listeners_on i n).
Proof.
  intros H. apply Forall_fmap, Forall_forall. intros x Hx.
  apply list_elem_of_filter in Hx as [_ Hx]. by eapply Forall_forall in H.
Qed.

End HandlerFacts.

Lemma filter_pair_notin {B} (X : nat -> B) links l :
  l ∉ links -> filter (fun ih => ih.1 = l) ((fun l' => (l', X l')) <$> links) = [].
Proof.
  induction links as [|a links IH]; intros Hl; [done|].
  rewrite fmap_cons, filter_cons_False by (cbn; set_solver). apply IH. set_solver.
Qed.

Lemma filter_pair_in {B} (X : nat -> B) links l :
  NoDup links -> l ∈ links ->
  snd <$> filter (fun ih => ih.1 = l) ((fun l' => (l', X l')) <$> links) = [X l].
Proof.
  induction links as [|a links IH]; intros Hnd Hl; [set_solver|].
  apply NoDup_cons in Hnd as [Ha Hnd]. rewrite fmap_cons. destruct (decide (a = l)) as [<-|Hal].
  - rewrite filter_cons_True by done. by rewrite filter_pair_notin.
  - rewrite filter_cons_False by done. apply IH; [done | set_solver].
Qed.

Lemma listeners_on_link d0 ls h l :
  init_navigation d0 = Some ls -> query hamburger_sel d0 = Some h ->
  l ∈ query_all nav_link_sel d0 -> l <> h ->
  snd <$> filter (fun ih => ih.1 = l) ls = [HClose h (query nav_menu_sel d0); HScroll l].
Proof.
  unfold init_navigation. intros Hls Hh Hl Hlh. rewrite Hh in Hls. injection Hls as <-.
  rewrite filter_cons_False by (cbn; congruence). rewrite filter_app, fmap_app.
  rewrite !filter_pair_in by auto using NoDup_query_all. done.
Qed.

Lemma listeners_on_hamburger d0 ls h :
  init_navigation d0 = Some ls -> query hamburger_sel d0 = Some h ->
  h ∉ query_all nav_link_sel d0 ->
  snd <$> filter (fun ih => ih.1 = h) ls = [HToggle h (query nav_menu_sel d0)].
Proof.
  unfold init_navigation. intros Hls Hh Hl. rewrite Hh in Hls. injection Hls as <-.
  rewrite filter_cons_True by done. rewrite filter_app, !filter_pair_notin by done. done.
Qed.

Section SyncFacts.
Context (d0 : Doc) (h m : nat).
Hypothesis (Hhm : h <> m) (Hh : (h < length d0)%nat) (Hm : (m < length d0)%nat).

Lemma run_handler_sync hd n :
  handler_of h m hd -> nav_inv d0 n ->
  has_active h (nv_doc n) = has_active m (nv_doc n) ->
  has_active h (nv_doc (run_handler hd n).1.1) = has_active m (nv_doc (run_handler hd n).1.1).
Proof using Hhm Hh Hm.
  intros Hhd [_ Hs] Hsync. pose proof (length_strip _ _ Hs) as Hlen.
  destruct Hhd as [-> | [-> | [l ->]]]; cbn [run_handler fst set_doc nv_doc].
  - rewrite has_active_toggle_ne, !has_active_toggle_eq, has_active_toggle_ne by
      (done || apply lookup_lt_is_Some; rewrite ?length_toggle_active; lia).
    by rewrite Hsync.
  - by rewrite has_active_remove_ne, !has_active_remove_eq by done.
  - destruct (href_kind_of _); [destruct (query_compounds _ _)|..]; exact Hsync.
Qed.

Lemma dispatch_sync hs n :
  Forall (handler_of h m) hs -> nav_inv d0 n ->
  has_active h (nv_doc n) = has_active m (nv_doc n) ->
  has_active h (nv_doc (dispatch hs n).1.1) = has_active m (nv_doc (dispatch hs n).1.1).
Proof using Hhm Hh Hm.
  revert n. induction hs as [|hd hs IH]; intros n Hhs Hn Hsync; [done|].
  apply Forall_cons in Hhs as [Hhd Hhs]. cbn.
  pose proof (run_handler_sync hd n Hhd Hn Hsync) as S1.
  pose proof (run_handler_inv d0 hd n Hn) as I1.
  destruct (run_handler hd n) as [[n1 p1] e1]. cbn in S1, I1.
  specialize (IH n1 Hhs I1 S1). destruct (dispatch hs n1) as [[n2 p2] e2]. exact IH.
Qed.

End SyncFacts.

Section ToggleFacts.
Implicit Types (d : Doc) (i j : nat).

Lemma toggle_active_comm i j d : i <> j ->
  toggle_active i (toggle_active j d) = toggle_active j (toggle_active i d).
Proof.
  intros Hij. apply list_eq. intros k. unfold toggle_active. rewrite !lookup_modify_elem.
  do 2 case_decide; subst; done.
Qed.

Lemma NoDup_toggle_active i d :
  Forall (fun e => NoDup (e_classes e)) d -> Forall (fun e => NoDup (e_classes e)) (toggle_active i d).
Proof.
  intros Hd. apply Forall_lookup. intros j e. unfold toggle_active. rewrite lookup_modify_elem.
  intros Hj. case_decide.
  - apply fmap_Some in Hj as (e0 & Hj & ->). cbn. apply NoDup_cl_toggle.
    exact (Forall_lookup_1 _ _ _ _ Hd Hj).
  - exact (Forall_lookup_1 _ _ _ _ Hd Hj).
Qed.

Lemma toggle_active_twice i d :
  Forall (fun e => NoDup (e_classes e)) d -> toggle_active i (toggle_active i d) ≡ d.
Proof.
  intros Hd. apply list_equiv_lookup. intros j. unfold toggle_active. rewrite !lookup_modify_elem.
  case_decide; [subst|done]. destruct (d !! j) as [e|] eqn:E; cbn; [|done].
  constructor. split; [done|]. cbn. apply cl_toggle_involutive.
  by eapply Forall_lookup in Hd.
Qed.

End ToggleFacts.

Lemma lookup_lt_query ss d i : query ss d = Some i -> (i < length d)%nat.
Proof. intros H. destruct (query_Some _ _ _ H) as (e & He & _). by eapply lookup_lt_Some. Qed.

(** C23. The menu and the hamburger stay in step: when the page starts with
    both open or both closed, every sequence of clicks on any element
    keeps the class [active] on both or on neither. *)
Theorem nav_menu_sync d0 n h m :
  query hamburger_sel d0 = Some h -> query nav_menu_sel d0 = Some m -> h <> m ->
  has_active h d0 = has_active m d0 -> nav_reach d0 n ->
  has_active h (nv_doc n) = has_active m (nv_doc n).
Proof.
  intros Hh Hm Hhm H0 Hr. induction Hr as [ls Hls | n i Hr IH]; [done|].
  destruct (nav_reach_inv d0 n Hr) as [Hl Hs].
  apply (dispatch_sync d0 h m Hhm (lookup_lt_query _ _ _ Hh) (lookup_lt_query _ _ _ Hm));
    [| by split | exact IH].
  apply listeners_on_handlers. exact (init_navigation_handlers d0 _ h m Hl Hh Hm).
Qed.

(** C24. A click on a navigation link (other than the hamburger) closes the
    menu, cancels the browser's navigation whatever the [href], then
    passes the [href] to [querySelector] on the document as the closing
    listener left it: a string that is not a selector ([#] alone, a URL
    such as [https://example.org/], [mailto:a@b]) throws [SyntaxError];
    a selector list scrolls to the first element in document order that
    one of its compounds matches ([#about], [#a.b], [section]), and
    leaves the scroll unchanged when none does.  Selectors outside the
    modelled part of CSS are excluded by the hypothesis. *)
Theorem nav_link_click d0 n h m l e :
  query hamburger_sel d0 = Some h -> query nav_menu_sel d0 = Some m ->
  l ∈ query_all nav_link_sel d0 -> l <> h -> d0 !! l = Some e -> nav_reach d0 n ->
  let href := default "null" (get_attribute "href" e) in
  href_kind_of href <> HrefOutside ->
  let d := remove_active m (remove_active h (nv_doc n)) in
  click l n =
    (MkNav d (nv_listeners n)
       (match href_kind_of href with
        | HrefCompounds cs => match query_compounds cs d with Some t => Some t | None => nv_scroll n end
        | _ => nv_scroll n
        end),
     true,
     match href_kind_of href with HrefInvalid => [SyntaxError href] | _ => [] end).
Proof.
  intros Hh Hm Hl Hlh He Hr href Hk d. subst d. destruct (nav_reach_inv d0 n Hr) as [Hls Hs].
  unfold click, listeners_on. rewrite (listeners_on_link d0 _ h l Hls Hh Hl Hlh), Hm.
  cbn [dispatch run_handler set_doc nv_doc nv_listeners nv_scroll].
  assert (Hs1 : strip <$> remove_active m (remove_active h (nv_doc n)) = strip <$> d0)
    by by rewrite !strip_remove_active.
  rewrite (lookup_attr_strip _ _ l "href" Hs1), He. cbn [mbind option_bind].
  fold href. destruct (href_kind_of href) as [cs| |]; [|reflexivity|done].
  destruct (query_compounds cs _); reflexivity.
Qed.

(** A second click on the hamburger undoes the first: the first click
    flips [active] on the hamburger (and on the menu), and after two
    clicks every element has again the classes it had (in another
    order), with no exception thrown and nothing scrolled. *)
Lemma hamburger_double_click d0 n h m :
  query hamburger_sel d0 = Some h -> query nav_menu_sel d0 = Some m -> h <> m ->
  h ∉ query_all nav_link_sel d0 -> nav_reach d0 n ->
  Forall (fun e => NoDup (e_classes e)) (nv_doc n) ->
  let c1 := click h n in
  let c2 := click h c1.1.1 in
  has_active h (nv_doc c1.1.1) = negb (has_active h (nv_doc n)) /\
  nv_doc c2.1.1 ≡ nv_doc n /\ nv_listeners c2.1.1 = nv_listeners n /\
  nv_scroll c2.1.1 = nv_scroll n /\ c1.2 = [] /\ c2.2 = [].
Proof.
  intros Hh Hm Hhm Hl Hr Hnd. cbv zeta. destruct (nav_reach_inv d0 n Hr) as [Hls Hs].
  pose proof (length_strip _ _ Hs) as Hlen.
  pose proof (lookup_lt_query _ _ _ Hh) as Hh'.
  assert (E : forall n', nv_listeners n' = nv_listeners n -> click h n' =
            (set_doc (toggle_active m (toggle_active h (nv_doc n'))) n', false, [])).
  { intros n' Hn'. unfold click, listeners_on. rewrite Hn'.
    by rewrite (listeners_on_hamburger d0 _ h Hls Hh Hl), Hm. }
  rewrite (E n eq_refl). cbn [fst snd]. rewrite (E (set_doc (toggle_active m (toggle_active h (nv_doc n))) n) eq_refl).
  cbn [fst snd set_doc nv_doc nv_listeners nv_scroll]. split_and!; try done.
  - rewrite has_active_toggle_ne, has_active_toggle_eq by
      (done || apply lookup_lt_is_Some; lia). done.
  - rewrite (toggle_active_comm h m (toggle_active h (nv_doc n))) by done.
    etransitivity; [apply toggle_active_twice | apply toggle_active_twice; exact Hnd].
    by apply NoDup_toggle_active, NoDup_toggle_active.
Qed.

(** ** Witnesses *)

Lemma demo_nav_reach : nav_reach demo_doc demo_nav.
Proof. apply nav_init. vm_compute. reflexivity. Qed.

Lemma nav_menu_sync_witness :
  let n := (click 0 (click 2 demo_nav).1.1).1.1 in
  nav_reach demo_doc n /\ has_active 0 (nv_doc n) = true /\
  has_active 0 (nv_doc n) = has_active 1 (nv_doc n).
Proof.
  cbv zeta. assert (Hr : nav_reach demo_doc (click 0 (click 2 demo_nav).1.1).1.1)
    by (apply nav_click, nav_click, demo_nav_reach).
  split; [exact Hr|]. split; [vm_compute; reflexivity|].
  apply (nav_menu_sync demo_doc _ 0 1); [reflexivity | reflexivity | lia | reflexivity | exact Hr].
Defined.

Lemma nav_link_click_witness :
  let n := MkNav links_doc (default [] (init_navigation links_doc)) None in
  nv_scroll (click 2 n).1.1 = Some 7%nat /\ (click 2 n).1.2 = true /\
  (click 3 n).2 = [SyntaxError "#"] /\
  (click 4 n).2 = [SyntaxError "https://example.org/"] /\
  nv_scroll (click 5 n).1.1 = Some 8%nat /\
  nv_scroll (click 6 n).1.1 = Some 7%nat.
Proof.
  cbv zeta. assert (Hr : nav_reach links_doc (MkNav links_doc (default [] (init_navigation links_doc)) None))
    by (apply nav_init; vm_compute; reflexivity).
  pose proof (fun l href => nav_link_click links_doc (MkNav links_doc (default [] (init_navigation links_doc)) None) 0 1 l (demo_elem "a" None ["nav-link"] [("href", href)]))
    as E. cbv zeta in E.
  rewrite (E 2%nat "#about"), (E 3%nat "#"), (E 4%nat "https://example.org/"), (E 5%nat "#contact.big"), (E 6%nat "SECTION");
    [vm_compute; split_and!; reflexivity|..];
    first [reflexivity | lia | exact Hr | vm_compute; congruence
          | apply elem_of_query_all; eexists; split; reflexivity].
Defined.

End Navigation.
