(* ===== verification/Typing.v ===== *)
(** * [initTypingEffect]: the hero title typed one character at a time

    [initTypingEffect] (script.js, lines 444-462) reads the text of
    [.title-name], empties it, and after one second appends one character
    every 100 ms: the closure [typeWriter] appends [text.charAt(i)] while
    [i < text.length] and schedules itself again.  The state is the
    closure's variables ([text], [i]) and the title's text; the timers
    are those of [Timers.TimerQueue].  A string is a sequence of
    characters here, as [text.length] and [charAt] count them. *)

From Stdlib Require Import String.
From stdpp Require Import base list strings.
From S2P Require Import Prelude Timers.

Module Typing.
Import Timers.
Local Open Scope nat_scope.

Inductive typing_cb := TypeWriter.

Record Typing := MkTyping { ty_text : string; ty_i : nat; ty_title : string }.

(** [text.charAt(i)]: the character at [i], [""] past the end. *)
Definition char_at (i : nat) (s : string) : string := String.substring i 1 s.

Section Effect.
Context `{TQ : TimerQueue T}.

(** Without [.title-name] the routine returns; otherwise the title is
    emptied and [typeWriter] is scheduled after 1000 ms. *)
Definition init_typing (title : option string) (q : T typing_cb) : option Typing * T typing_cb :=
  match title with
  | None => (None, q)
  | Some text => (Some (MkTyping text 0 ""), tq_set 1000 TypeWriter q)
  end.

Definition type_writer (c : typing_cb) (s : Typing) (q : T typing_cb) : Typing * T typing_cb :=
  if bool_decide (ty_i s < String.length (ty_text s)) then
    (MkTyping (ty_text s) (S (ty_i s)) (String.append (ty_title s) (char_at (ty_i s) (ty_text s))),
     tq_set 100 TypeWriter q)
  else (s, q).

End Effect.

(** ** Lemmas *)

Lemma substring_full s : substring 0 (String.length s) s = s.
Proof. induction s as [|c s IH]; cbn; [done | by rewrite IH]. Qed.

Lemma substring_empty s : substring 0 0 s = "".
Proof. by destruct s. Qed.

Lemma append_cons c a b : String.append (String c a) b = String c (String.append a b).
Proof. reflexivity. Qed.

Lemma substring_snoc s i :
  i < String.length s -> String.append (substring 0 i s) (char_at i s) = substring 0 (S i) s.
Proof.
  revert i. induction s as [|c s IH]; intros i Hi; cbn in Hi; [lia|].
  destruct i as [|i].
  - cbn. by destruct s.
  - unfold char_at in *. change (substring 0 (S i) (String c s)) with (String c (substring 0 i s)).
    change (substring (S i) 1 (String c s)) with (substring i 1 s).
    change (substring 0 (S (S i)) (String c s)) with (String c (substring 0 (S i) s)).
    rewrite append_cons. f_equal. apply IH. lia.
Qed.

Section EffectFacts.
Context `{TQ : TimerQueue T}.

Lemma type_writer_lt c text i title (q : T typing_cb) :
  i < String.length text ->
  type_writer c (MkTyping text i title) q =
    (MkTyping text (S i) (String.append title (char_at i text)), tq_set 100 TypeWriter q).
Proof. intros H. unfold type_writer. cbn. by rewrite bool_decide_true. Qed.

Lemma type_writer_ge c text i title (q : T typing_cb) :
  String.length text <= i -> type_writer c (MkTyping text i title) q = (MkTyping text i title, q).
Proof. intros H. unfold type_writer. cbn. rewrite bool_decide_false by lia. done. Qed.

(** [k] runs of [typeWriter] from position [i], with the next run due at
    [t]: [k] more characters are typed and the next run is [100 * k] ms
    later. *)
Lemma type_writer_steps text i k t (q : T typing_cb) :
  i + k <= String.length text -> tq_pending q = [(t, TypeWriter)] -> tq_now q <= t ->
  exists q', run_timers type_writer k (MkTyping text i (substring 0 i text)) q =
      (MkTyping text (i + k) (substring 0 (i + k) text), q') /\
    tq_pending q' = [(t + 100 * k, TypeWriter)] /\ tq_now q' <= t + 100 * k.
Proof.
  revert i t q. induction k as [|k IH]; intros i t q Hk Hq Hn.
  - exists q. rewrite !Nat.add_0_r. by split_and!.
  - destruct (run_timers_step type_writer k (MkTyping text i (substring 0 i text)) q t TypeWriter [] Hq)
      as (q1 & Hq1 & Hn1 & ->).
    rewrite type_writer_lt, substring_snoc by lia.
    destruct (IH (S i) (t + 100) (tq_set 100 TypeWriter q1)) as (q' & E & Hp & Hn');
      [lia | rewrite tq_pending_set, Hq1, Hn1; cbn; f_equal; f_equal; lia
      | rewrite tq_now_set, Hn1; lia |].
    exists q'. replace (i + S k) with (S i + k) by lia.
    split_and!; [exact E | rewrite Hp; do 2 f_equal; lia | lia].
Qed.

End EffectFacts.

Section Properties.
Context `{TQ : TimerQueue T}.

(** The typing effect types the title's text in order: [k] runs of
    [typeWriter] after [initTypingEffect] (for [k] up to the length of
    the text) have put its first [k] characters back, and the next run
    is due [1000 + 100 * k] ms after the start. *)
Lemma typing_effect_prefix text (q0 : T typing_cb) k :
  tq_pending q0 = [] -> k <= String.length text ->
  exists s0 q1 q', init_typing (Some text) q0 = (Some s0, q1) /\
    run_timers type_writer k s0 q1 = (MkTyping text k (substring 0 k text), q') /\
    tq_pending q' = [(tq_now q0 + 1000 + 100 * k, TypeWriter)].
Proof.
  intros Hq0 Hk.
  destruct (type_writer_steps text 0 k (tq_now q0 + 1000) (tq_set 1000 TypeWriter q0))
    as (q' & E & Hp & _); [lia | by rewrite tq_pending_set, Hq0 | rewrite tq_now_set; lia |].
  rewrite Nat.add_0_l in E. rewrite substring_empty in E.
  exists (MkTyping text 0 ""), (tq_set 1000 TypeWriter q0), q'. split_and!; [done | exact E | exact Hp].
Qed.

(** C25. The typing effect terminates and restores the title: with at
    least [length + 1] timer runs, the title is again exactly the text it
    had, no timer is left pending, and the last run happened
    [1000 + 100 * length] ms after the start. *)
Theorem typing_effect_completes text (q0 : T typing_cb) fuel :
  tq_pending q0 = [] -> S (String.length text) <= fuel ->
  exists s0 q1 q', init_typing (Some text) q0 = (Some s0, q1) /\
    run_timers type_writer fuel s0 q1 = (MkTyping text (String.length text) text, q') /\
    tq_pending q' = [] /\ tq_now q' = tq_now q0 + 1000 + 100 * String.length text.
Proof.
  intros Hq0 Hf. set (n := String.length text).
  destruct (type_writer_steps text 0 n (tq_now q0 + 1000) (tq_set 1000 TypeWriter q0))
    as (q1 & E1 & Hp1 & Hn1); [lia | by rewrite tq_pending_set, Hq0 | rewrite tq_now_set; lia |].
  rewrite Nat.add_0_l in E1. rewrite substring_empty in E1.
  destruct (run_timers_step type_writer (fuel - S n) (MkTyping text n (substring 0 n text)) q1 _ _ _ Hp1)
    as (q2 & Hp2 & Hn2 & E2).
  exists (MkTyping text 0 ""), (tq_set 1000 TypeWriter q0), q2. split; [done|].
  replace fuel with (n + S (fuel - S n)) by lia.
  rewrite run_timers_add, E1, E2, type_writer_ge, run_timers_empty by (done || lia).
  unfold n. rewrite substring_full. split_and!; [done | done | rewrite Hn2; lia].
Qed.

End Properties.

(** ** Witnesses: the title [dot-agi] on a page whose clock starts at 0 *)

Lemma typing_effect_prefix_witness :
  exists s0 q1 q', init_typing (Some "dot-agi") (tq_empty (T := list_timers) 0) = (Some s0, q1) /\
    run_timers type_writer 3 s0 q1 = (MkTyping "dot-agi" 3 "dot", q') /\
    tq_pending q' = [(1300, TypeWriter)].
Proof.
  destruct (typing_effect_prefix "dot-agi" (tq_empty (T := list_timers) 0) 3 (tq_pending_empty 0) ltac:(cbn; lia))
    as (s0 & q1 & q' & H1 & H2 & H3).
  exists s0, q1, q'. split_and!; [exact H1 | exact H2 | exact H3].
Defined.

Lemma typing_effect_completes_witness :
  exists s0 q1 q', init_typing (Some "dot-agi") (tq_empty (T := list_timers) 0) = (Some s0, q1) /\
    run_timers type_writer 8 s0 q1 = (MkTyping "dot-agi" 7 "dot-agi", q') /\
    tq_pending q' = [] /\ tq_now q' = 1700.
Proof.
  destruct (typing_effect_completes "dot-agi" (tq_empty (T := list_timers) 0) 8 (tq_pending_empty 0) ltac:(cbn; lia))
    as (s0 & q1 & q' & H1 & H2 & H3 & H4).
  exists s0, q1, q'. split_and!; [exact H1 | exact H2 | exact H3 | exact H4].
Defined.

End Typing.
