(* ===== verification/Double.v ===== *)
(** * IEEE 754 binary64: the values of JavaScript's Number type

    Every number of script.js is a double.  This file writes out the
    rounding that IEEE 754 prescribes (round to nearest, ties to even,
    53-bit significands, gradual underflow below [2^-1022], overflow to
    an infinity) on exact rationals, and the operations the counters of
    [initCounterAnimation] and the animation delays of the start use:
    [+], [*], [/], [<] and [Math.floor].  A
    Number is [FloatNum q] with [q] a double, an infinity, or [NaN];
    negative zero is not distinguished from zero (no operation of the
    script observes the difference).

    [round53_rel] is the standard error bound: in the normal range a
    rounded result is within a relative [2^-53] of the exact one. *)

From Stdlib Require Import Qabs Qpower Psatz.
From stdpp Require Import base.
From S2P Require Import Prelude.

Module Double.

Inductive float_val := FloatNum (q : Q) | FloatInf (negative : bool) | FloatNaN.

(** ** Rounding *)

(** [n / d] rounded to the nearest integer, ties to the even one
    ([d > 0]). *)
Definition round_half_even (n d : Z) : Z :=
  let q := (n / d)%Z in
  match Z.compare (2 * (n mod d)) d with
  | Lt => q
  | Gt => (q + 1)%Z
  | Eq => if Z.even q then q else (q + 1)%Z
  end.

(** For [x > 0], the exponent [e] with [2^52 <= x / 2^e < 2^53]: the
    significand of [x] at exponent [e] has 53 bits. *)
Definition binade (x : Q) : Z :=
  let e0 := (Z.log2 (Qnum x) - Z.log2 (Zpos (Qden x)) - 52)%Z in
  if qltb (x / Qpower 2 e0) (Qpower 2 52) then (e0 - 1)%Z else e0.

(** A positive [x] rounded to a 53-bit significand, the exponent kept
    at least [-1074] (subnormal numbers have fewer bits). *)
Definition round53_pos (x : Q) : Q :=
  let s := Qpower 2 (Z.max (binade x) (-1074)) in
  let m := x / s in
  inject_Z (round_half_even (Qnum m) (Zpos (Qden m))) * s.

(** Round to nearest, ties to even, with an unbounded exponent above;
    the result in lowest terms. *)
Definition round53 (x : Q) : Q :=
  Qred (if qltb 0 x then round53_pos x else if qltb x 0 then - round53_pos (- x) else 0).

(** The double nearest [x]: an infinity when the rounded magnitude
    reaches [2^1024]. *)
Definition fl (x : Q) : float_val :=
  let r := round53 x in
  if Qle_bool (Qpower 2 1024) (Qabs r) then FloatInf (qltb x 0) else FloatNum r.

(** ** Operations *)

Definition js_add (x y : float_val) : float_val :=
  match x, y with
  | FloatNaN, _ | _, FloatNaN => FloatNaN
  | FloatInf b1, FloatInf b2 => if Bool.eqb b1 b2 then FloatInf b1 else FloatNaN
  | FloatInf b, FloatNum _ | FloatNum _, FloatInf b => FloatInf b
  | FloatNum p, FloatNum q => fl (p + q)
  end.

Definition js_div (x y : float_val) : float_val :=
  match x, y with
  | FloatNaN, _ | _, FloatNaN | FloatInf _, FloatInf _ => FloatNaN
  | FloatInf b, FloatNum q => FloatInf (xorb b (qltb q 0))
  | FloatNum _, FloatInf _ => FloatNum 0
  | FloatNum p, FloatNum q =>
      if Qeq_bool q 0 then (if Qeq_bool p 0 then FloatNaN else FloatInf (qltb p 0))
      else fl (p / q)
  end.

Definition js_mul (x y : float_val) : float_val :=
  match x, y with
  | FloatNaN, _ | _, FloatNaN => FloatNaN
  | FloatInf b1, FloatInf b2 => FloatInf (xorb b1 b2)
  | FloatInf b, FloatNum q | FloatNum q, FloatInf b =>
      if Qeq_bool q 0 then FloatNaN else FloatInf (xorb b (qltb q 0))
  | FloatNum p, FloatNum q => fl (p * q)
  end.

(** [x < y]: false when either is [NaN]. *)
Definition js_lt (x y : float_val) : bool :=
  match x, y with
  | FloatNum p, FloatNum q => qltb p q
  | FloatInf true, FloatNum _ | FloatNum _, FloatInf false | FloatInf true, FloatInf false => true
  | _, _ => false
  end.

(** [Math.floor]: the floor of a double is a double. *)
Definition js_floor (x : float_val) : float_val :=
  match x with FloatNum q => FloatNum (inject_Z (Qfloor q)) | _ => x end.

(** The unit roundoff [2^-53]. *)
Definition unit_roundoff : Q := 1 # 9007199254740992.

(** ** Lemmas *)

(** Rounding [m] to an integer moves it by at most a half. *)
Lemma round_half_even_spec (m : Q) :
  let r := inject_Z (round_half_even (Qnum m) (Zpos (Qden m))) in r - (1 # 2) <= m <= r + (1 # 2).
Proof.
  destruct m as [p q]. cbn [Qnum Qden]. unfold round_half_even.
  pose proof (Z.div_mod p (Zpos q) ltac:(lia)) as Hd.
  pose proof (Z.mod_pos_bound p (Zpos q) ltac:(lia)) as Hm.
  set (a := (p / Zpos q)%Z) in *. set (r := (p mod Zpos q)%Z) in *.
  destruct (Z.compare_spec (2 * r) (Zpos q)); [destruct (Z.even a)|..];
    unfold Qle, Qminus, Qplus; cbn; split; nia.
Qed.

Lemma Qpower_2_pos (e : Z) : 0 < Qpower 2 e.
Proof. by apply Qpower_0_lt. Qed.

Lemma pow2_inject (a : Z) : (0 <= a)%Z -> Qpower 2 a == inject_Z (2 ^ a).
Proof. intros Ha. symmetry. exact (Zpower_Qpower 2 a Ha). Qed.

(** The scale of [x] before the correction of [binade]. *)
Lemma binade_estimate (x : Q) :
  0 < x ->
  let e0 := (Z.log2 (Qnum x) - Z.log2 (Zpos (Qden x)) - 52)%Z in
  2251799813685248 < x / Qpower 2 e0 < 9007199254740992.
Proof.
  destruct x as [p q]. intros Hx. cbn [Qnum Qden]. unfold Qlt in Hx; cbn in Hx.
  pose proof (Z.log2_spec p ltac:(lia)) as Hp. pose proof (Z.log2_spec (Zpos q) ltac:(lia)) as Hq.
  assert (Ha : (0 <= Z.log2 p)%Z) by apply Z.log2_nonneg.
  assert (Hb : (0 <= Z.log2 (Zpos q))%Z) by apply Z.log2_nonneg.
  set (a := Z.log2 p) in *. set (b := Z.log2 (Zpos q)) in *. clearbody a b.
  rewrite Z.pow_succ_r in Hp, Hq by lia.
  assert (Ha' : (0 < 2 ^ a)%Z) by (apply Z.pow_pos_nonneg; lia).
  assert (Hb' : (0 < 2 ^ b)%Z) by (apply Z.pow_pos_nonneg; lia).
  assert (E : (p # q) / Qpower 2 (a - b - 52) ==
              inject_Z (p * 2 ^ b * 4503599627370496) / inject_Z (Zpos q * 2 ^ a)).
  { rewrite !Qpower_minus by done. rewrite (pow2_inject a), (pow2_inject b) by done.
    rewrite Qmake_Qdiv, !inject_Z_mult. change (Qpower 2 52) with (inject_Z 4503599627370496).
    field. unfold Qeq; cbn; split_and!; lia. }
  rewrite E. split.
  - apply Qlt_shift_div_l; [unfold Qlt; cbn; nia|].
    change 2251799813685248 with (inject_Z 2251799813685248). rewrite <-inject_Z_mult, <-Zlt_Qlt. nia.
  - apply Qlt_shift_div_r; [unfold Qlt; cbn; nia|].
    change 9007199254740992 with (inject_Z 9007199254740992). rewrite <-inject_Z_mult, <-Zlt_Qlt. nia.
Qed.

(** The significand of a positive [x] at [binade x] has 53 bits. *)
Lemma binade_spec (x : Q) :
  0 < x -> 4503599627370496 <= x / Qpower 2 (binade x) < 9007199254740992.
Proof.
  intros Hx. pose proof (binade_estimate x Hx) as He. unfold binade. cbv zeta in *.
  set (e0 := (Z.log2 (Qnum x) - Z.log2 (Zpos (Qden x)) - 52)%Z) in *.
  change (Qpower 2 52) with 4503599627370496. case_qlt; [|lra].
  assert (E : x / Qpower 2 (e0 - 1) == 2 * (x / Qpower 2 e0)).
  { rewrite Qpower_minus by done. change (Qpower 2 1) with 2.
    field. apply Qnot_eq_sym, Qlt_not_eq, Qpower_2_pos. }
  rewrite E. lra.
Qed.

(** In the normal range the exponent is not clamped. *)
Lemma binade_normal (x : Q) : Qpower 2 (-1022) <= x -> (-1074 <= binade x)%Z.
Proof.
  intros Hx. assert (Hx0 : 0 < x) by (eapply Qlt_le_trans; [apply Qpower_2_pos | exact Hx]).
  destruct (Z.le_gt_cases (-1074) (binade x)) as [|Hb]; [done|]. exfalso.
  pose proof (binade_spec x Hx0) as Hm. pose proof (Qpower_2_pos (binade x)) as Hp.
  assert (Hle : Qpower 2 (binade x) <= Qpower 2 (-1075)) by (apply Qpower_le_compat_l; [lia | done]).
  set (s := Qpower 2 (binade x)) in *. clearbody s.
  assert (E : x == x / s * s) by (field; lra). rewrite E in Hx.
  assert (Et : Qpower 2 (-1022) == 9007199254740992 * Qpower 2 (-1075)) by (vm_compute; reflexivity).
  rewrite Et in Hx.
  set (m := x / s) in *. clearbody m. set (t := Qpower 2 (-1075)) in *. nra.
Qed.

(** Rounding a positive number in the normal range changes it by at
    most a relative [2^-53]. *)
Lemma round53_pos_rel (x : Q) :
  Qpower 2 (-1022) <= x ->
  (1 - unit_roundoff) * x <= round53_pos x <= (1 + unit_roundoff) * x.
Proof.
  intros Hx. assert (Hx0 : 0 < x) by (eapply Qlt_le_trans; [apply Qpower_2_pos | exact Hx]).
  unfold round53_pos. rewrite Z.max_l by (by apply binade_normal).
  pose proof (binade_spec x Hx0) as Hm. pose proof (Qpower_2_pos (binade x)) as Hs.
  set (s := Qpower 2 (binade x)) in *. clearbody s.
  pose proof (round_half_even_spec (x / s)) as Hr. cbv zeta in Hr.
  set (r := inject_Z _) in *. clearbody r.
  assert (E : x == x / s * s) by (field; lra). unfold unit_roundoff. rewrite E at 1 2.
  set (m := x / s) in *. clearbody m. destruct Hr as [Hr1 Hr2]. nra.
Qed.
 
Lemma round53_pos_eq (x : Q) : 0 < x -> round53 x == round53_pos x.
Proof. intros Hx. unfold round53. rewrite Qred_correct, (proj2 (qltb_true _ _) Hx). reflexivity. Qed.

Lemma round53_neg_eq (x : Q) : x < 0 -> round53 x == - round53_pos (- x).
Proof.
  intros Hx. unfold round53. rewrite Qred_correct, (proj2 (qltb_false 0 x)), (proj2 (qltb_true _ _) Hx)
    by lra. reflexivity.
Qed.

Lemma round53_zero (x : Q) : x == 0 -> round53 x = 0.
Proof.
  intros Hx. unfold round53. rewrite (proj2 (qltb_false 0 x)), (proj2 (qltb_false x 0)) by lra.
  reflexivity.
Qed.

(** The error bound on both sides of zero. *)
Lemma round53_rel (x : Q) :
  Qpower 2 (-1022) <= x ->
  (1 - unit_roundoff) * x <= round53 x <= (1 + unit_roundoff) * x.
Proof.
  intros Hx. pose proof (Qpower_2_pos (-1022)). rewrite round53_pos_eq by lra. by apply round53_pos_rel.
Qed.

Lemma round53_rel_neg (x : Q) :
  x <= - Qpower 2 (-1022) ->
  (1 + unit_roundoff) * x <= round53 x <= (1 - unit_roundoff) * x.
Proof.
  intros Hx. pose proof (Qpower_2_pos (-1022)). rewrite round53_neg_eq by lra.
  pose proof (round53_pos_rel (- x) ltac:(lra)). lra.
Qed.

(** A rounded result within [2^1023] is finite. *)
Lemma fl_normal (x : Q) :
  Qpower 2 (-1022) <= x <= Qpower 2 1023 \/ - Qpower 2 1023 <= x <= - Qpower 2 (-1022) ->
  fl x = FloatNum (round53 x).
Proof.
  intros Hx. unfold fl. destruct (Qle_bool _ _) eqn:E; [exfalso|done].
  apply Qle_bool_iff in E. pose proof (Qpower_2_pos (-1022)). pose proof (Qpower_2_pos 1023).
  assert (Et : Qpower 2 1024 == 2 * Qpower 2 1023) by (vm_compute; reflexivity). rewrite Et in E.
  destruct Hx as [Hx | Hx].
  - pose proof (round53_rel x ltac:(lra)). unfold unit_roundoff in *.
    assert (Ea : Qabs (round53 x) == round53 x) by (apply Qabs_pos; lra). rewrite Ea in E. lra.
  - pose proof (round53_rel_neg x ltac:(lra)). unfold unit_roundoff in *.
    assert (Ea : Qabs (round53 x) == - round53 x) by (apply Qabs_neg; lra). rewrite Ea in E. lra.
Qed.

(** A finite positive result is the rounded value; otherwise it is
    [+Infinity]. *)
Lemma fl_pos_cases (x : Q) : 0 < x -> fl x = FloatNum (round53 x) \/ fl x = FloatInf false.
Proof.
  intros Hx. unfold fl. rewrite (proj2 (qltb_false x 0)) by lra. destruct (Qle_bool _ _); auto.
Qed.

(** A finite result is below [2^1024] in magnitude. *)
Lemma fl_finite_bound (x r : Q) : fl x = FloatNum r -> r = round53 x /\ Qabs r < Qpower 2 1024.
Proof.
  unfold fl. destruct (Qle_bool _ _) eqn:E; [discriminate|]. intros [= <-]. split; [done|].
  apply Qnot_le_lt. intros H. apply Qle_bool_iff in H. congruence.
Qed.

(** A finite double nearest an integer is [0] or at least [1/2] in
    magnitude. *)
Lemma fl_int (v : Z) (f : Q) :
  fl (inject_Z v) = FloatNum f ->
  (f == 0 \/ 1 # 2 <= f \/ f <= - (1 # 2)) /\ - Qpower 2 1024 < f < Qpower 2 1024.
Proof.
  intros Hf. destruct (fl_finite_bound _ _ Hf) as [-> Hb]. split; [|by apply Qabs_Qlt_condition].
  assert (Ht : Qpower 2 (-1022) <= 1) by (apply Qle_bool_iff; vm_compute; reflexivity).
  destruct (Z.lt_trichotomy v 0) as [Hv | [-> | Hv]].
  - right; right. assert (Hq : inject_Z v <= -1) by (change (-1) with (inject_Z (-1)); rewrite <-Zle_Qle; lia).
    pose proof (round53_rel_neg (inject_Z v) ltac:(lra)). unfold unit_roundoff in *. lra.
  - left. by rewrite round53_zero.
  - right; left. assert (Hq : 1 <= inject_Z v) by (change 1 with (inject_Z 1); rewrite <-Zle_Qle; lia).
    pose proof (round53_rel (inject_Z v) ltac:(lra)). unfold unit_roundoff in *. lra.
Qed.

End Double.
