(* ===== verification/JsNumber.v ===== *)
(** * Numbers and their text: [parseInt], [parseFloat] and [String]

    The counters of [initCounterAnimation] (script.js, lines 465-494)
    read their final value with [parseInt(target.textContent)] (line 472)
    and show numbers by assigning them to [textContent] (lines 480 and
    483), which converts with [Number::toString]; [initFloatingElements]
    reads speeds with [parseFloat] (line 353).  These are the runtime's
    algorithms (ECMA-262, sections 19.2.5, 19.2.4 and 6.1.6.1.20),
    written out on ASCII strings and the doubles of [Double]:
    [parse_int] reads white space, a sign, a [0x] prefix and the
    longest run of digits, and rounds the integer to the nearest double
    (the standard allows an approximation after the 20th significant
    digit; the engines round exactly, as here); [parse_float] reads the
    longest decimal literal and rounds it; [number_to_string] is
    [Number::toString]: the shortest digit string that reads back as the
    double, in plain notation below [1e21] and in exponent notation
    ([1e+21], [1.5e-7]) outside [1e-6 .. 1e21]. *)

From Stdlib Require Import ZArith String Ascii Qabs.
From stdpp Require Import base list strings.
From S2P Require Import Prelude Double.

Module JsNumber.
Import Double.
Local Open Scope nat_scope.

(** ** [parseInt] *)

Definition is_js_space (c : ascii) : bool :=
  match nat_of_ascii c with 9 | 10 | 11 | 12 | 13 | 32 => true | _ => false end.

Fixpoint trim_start (s : string) : string :=
  match s with
  | String c r => if is_js_space c then trim_start r else s
  | EmptyString => EmptyString
  end.

(** The value of a digit in base [radix] (letters for 10 to 35). *)
Definition digit_val (radix : Z) (c : ascii) : option Z :=
  let n := Z.of_nat (nat_of_ascii c) in
  let v := if ((48 <=? n) && (n <=? 57))%Z then Some (n - 48)%Z
           else if ((97 <=? n) && (n <=? 122))%Z then Some (n - 87)%Z
           else if ((65 <=? n) && (n <=? 90))%Z then Some (n - 55)%Z
           else None in
  match v with Some d => if (d <? radix)%Z then Some d else None | None => None end.

(** Reads digits as long as there are. *)
Fixpoint scan_digits (radix acc : Z) (s : string) : Z :=
  match s with
  | String c r =>
      match digit_val radix c with
      | Some d => scan_digits radix (acc * radix + d)%Z r
      | None => acc
      end
  | EmptyString => acc
  end.

Definition is_x (c : ascii) : bool := bool_decide (c = "x"%char \/ c = "X"%char).

(** [parseInt(s)]: leading white space, a sign, the prefix [0x] for base
    16, then the longest run of digits, as the nearest double; [NaN]
    when there is none. *)
Definition parse_int (s : string) : float_val :=
  let s1 := trim_start s in
  let '(sign, s2) :=
    match s1 with
    | String c r => if bool_decide (c = "-"%char) then ((-1)%Z, r)
                    else if bool_decide (c = "+"%char) then (1%Z, r) else (1%Z, s1)
    | EmptyString => (1%Z, s1)
    end in
  let '(radix, s3) :=
    match s2 with
    | String c (String x r) => if bool_decide (c = "0"%char) && is_x x then (16%Z, r) else (10%Z, s2)
    | _ => (10%Z, s2)
    end in
  match s3 with
  | String c _ => match digit_val radix c with
                  | Some _ => fl (inject_Z (sign * scan_digits radix 0 s3))
                  | None => FloatNaN
                  end
  | EmptyString => FloatNaN
  end.

(** ** Numbers as text *)

Definition digit_char (d : Z) : ascii := ascii_of_nat (48 + Z.to_nat d).

(** The decimal digits of [n] in front of [acc]; one step per digit. *)
Fixpoint digits_rev (fuel : nat) (n : Z) (acc : string) : string :=
  match fuel with
  | O => acc
  | S f => if (n <? 10)%Z then String (digit_char n) acc
           else digits_rev f (n / 10)%Z (String (digit_char (n mod 10)) acc)
  end.

(** The decimal digits of a natural number [z] (it has at most
    [log2 z + 1] of them). *)
Definition int_to_string (z : Z) : string := digits_rev (S (Z.to_nat (Z.log2 z))) z EmptyString.

Definition ndigits (z : Z) : Z := Z.of_nat (String.length (int_to_string z)).

(** For [x > 0], the least [n] with [x < 10^n]: with [10^(a-1) <= p < 10^a]
    and [10^(b-1) <= q < 10^b], [p / q] lies between [10^(a-b-1)] and
    [10^(a-b+1)]. *)
Definition dec_exponent (x : Q) : Z :=
  let est := (ndigits (Qnum x) - ndigits (Zpos (Qden x)))%Z in
  if qltb x (Qpower 10 est) then est else (est + 1)%Z.

(** The value [s * 10^(n-k)] of a candidate [(n, s)] with [k] digits. *)
Definition cand_value (k : Z) (c : Z * Z) : Q := inject_Z c.2 * Qpower 10 (c.1 - k).

(** The [k]-digit decimals around [x]: below and above it at the
    exponent of [x], and at the next exponent (when rounding carries
    into a new digit); those that read back as [x]. *)
Definition candidates (x : Q) (k : Z) : list (Z * Z) :=
  let n0 := dec_exponent x in
  filter (fun c => (10 ^ (k - 1) <=? c.2)%Z && (c.2 <? 10 ^ k)%Z && Qeq_bool (round53 (cand_value k c)) x)
    (flat_map (fun n => let s0 := Qfloor (x / Qpower 10 (n - k)) in [(n, s0); (n, s0 + 1)%Z])
              [n0; (n0 + 1)%Z]).

(** Of two candidates, the one closer to [x], and the even one on a tie. *)
Definition closer (x : Q) (k : Z) (c1 c2 : Z * Z) : Z * Z :=
  let d1 := Qabs (cand_value k c1 - x) in
  let d2 := Qabs (cand_value k c2 - x) in
  if qltb d1 d2 then c1 else if qltb d2 d1 then c2 else if Z.even c1.2 then c1 else c2.

(** Step 5 of [Number::toString]: [n], [k] and [s] with [k] as small as
    possible (at most 17 digits are needed for a double). *)
Fixpoint shortest_from (x : Q) (ks : list Z) : Z * Z * Z :=
  match ks with
  | [] => (dec_exponent x, 17%Z, Qfloor (x / Qpower 10 (dec_exponent x - 17)))
  | k :: ks' =>
      match candidates x k with
      | c :: cs => let '(n, s) := foldl (closer x k) c cs in (n, k, s)
      | [] => shortest_from x ks'
      end
  end.

Definition shortest (x : Q) : Z * Z * Z := shortest_from x ((fun i => Z.of_nat (S i)) <$> seq 0 17).

Definition zeros (m : Z) : string := String.string_of_list_ascii (repeat "0"%char (Z.to_nat m)).

(** Steps 6-10 for a positive double. *)
Definition pos_to_string (x : Q) : string :=
  let '(n, k, s) := shortest x in
  let ds := int_to_string s in
  let sub i l := String.substring (Z.to_nat i) (Z.to_nat l) ds in
  if (k <=? n)%Z && (n <=? 21)%Z then ds +:+ zeros (n - k)
  else if (0 <? n)%Z && (n <=? 21)%Z then sub 0%Z n +:+ "." +:+ sub n (k - n)%Z
  else if (-6 <? n)%Z && (n <=? 0)%Z then "0." +:+ zeros (- n)%Z +:+ ds
  else
    let e := (n - 1)%Z in
    let es := (if (e <? 0)%Z then "-" else "+") +:+ int_to_string (Z.abs e) in
    if (k =? 1)%Z then ds +:+ "e" +:+ es else sub 0%Z 1%Z +:+ "." +:+ sub 1%Z (k - 1)%Z +:+ "e" +:+ es.

(** [Number::toString(x)] with radix 10. *)
Definition number_to_string (x : float_val) : string :=
  match x with
  | FloatNaN => "NaN"
  | FloatInf false => "Infinity"
  | FloatInf true => "-Infinity"
  | FloatNum q =>
      if Qeq_bool q 0 then "0"
      else if qltb q 0 then "-" +:+ pos_to_string (- q) else pos_to_string q
  end.

(** What [textContent = x] shows for a Number [x]. *)
Definition show_num (x : float_val) : string := number_to_string x.

(** ** [parseFloat] *)

(** The leading decimal digits of [s], read onto the accumulator [acc]:
    the value, how many digits, and the rest of the string. *)
Fixpoint dec_prefix (acc : Z) (n : nat) (s : string) : Z * nat * string :=
  match s with
  | String c r =>
      match digit_val 10 c with
      | Some d => dec_prefix (acc * 10 + d)%Z (S n) r
      | None => (acc, n, s)
      end
  | EmptyString => (acc, n, s)
  end.

(** [ExponentPart] at the head of [s]: [e] or [E], a sign, digits; its
    value, and [0] when there is none (the prefix then ends before the
    [e]). *)
Definition exponent_part (s : string) : Z :=
  match s with
  | String c r =>
      if bool_decide (c = "e"%char \/ c = "E"%char) then
        let '(sg, r') :=
          match r with
          | String c2 r2 => if bool_decide (c2 = "-"%char) then ((-1)%Z, r2)
                            else if bool_decide (c2 = "+"%char) then (1%Z, r2) else (1%Z, r)
          | EmptyString => (1%Z, r)
          end in
        let '(v, k, _) := dec_prefix 0 0 r' in
        if (k =? 0)%nat then 0%Z else (sg * v)%Z
      else 0%Z
  | EmptyString => 0%Z
  end.

(** The longest prefix of [s] that is a [StrUnsignedDecimalLiteral]:
    [Infinity], or digits with an optional fraction and exponent, with
    at least one digit before or after the point. *)
Definition parse_unsigned (s : string) : float_val :=
  if String.prefix "Infinity" s then FloatInf false else
  let '(ip, ni, r1) := dec_prefix 0 0 s in
  let '(m, nf, r2) :=
    match r1 with
    | String c r => if bool_decide (c = "."%char) then dec_prefix ip 0 r else (ip, 0, r1)
    | EmptyString => (ip, 0, r1)
    end in
  if (ni + nf =? 0)%nat then FloatNaN
  else fl (inject_Z m * Qpower 10 (exponent_part r2 - Z.of_nat nf)).

Definition float_neg (x : float_val) : float_val :=
  match x with
  | FloatNum q => FloatNum (Qred (- q))
  | FloatInf b => FloatInf (negb b)
  | FloatNaN => FloatNaN
  end.

(** [parseFloat(s)]: leading white space, a sign, then the longest
    decimal literal. *)
Definition parse_float (s : string) : float_val :=
  match trim_start s with
  | String c r =>
      if bool_decide (c = "-"%char) then float_neg (parse_unsigned r)
      else if bool_decide (c = "+"%char) then parse_unsigned r
      else parse_unsigned (String c r)
  | EmptyString => FloatNaN
  end.

(** ** Lemmas *)

(** A finite number [parseInt] returns is [0] or at least [1/2] in
    magnitude, and below [2^1024]. *)
Lemma parse_int_finite (s : string) (f : Q) :
  parse_int s = FloatNum f ->
  (f == 0 \/ 1 # 2 <= f \/ f <= - (1 # 2))%Q /\ (- Qpower 2 1024 < f < Qpower 2 1024)%Q.
Proof. unfold parse_int. repeat case_match; try discriminate; apply fl_int. Qed.

End JsNumber.
