(* ===== verification/Counter.v ===== *)
(** * [initCounterAnimation]: the statistics counting up

    [initCounterAnimation] (script.js, lines 465-494) observes every
    [.stat-number]; when one becomes half visible, the observer reads its
    final value with [parseInt(target.textContent)], stops observing it,
    and runs [updateCounter] once per animation frame: [currentValue]
    grows by [finalValue / (2000 / 16)] and the element shows
    [Math.floor(currentValue)] until [currentValue] reaches the final
    value, which is then shown.

    Numbers are doubles ([Double]): [parseInt] rounds to one,
    [increment] is the double nearest [finalValue / 125], every
    [currentValue += increment] rounds, and the texts are
    [Number::toString] of [Math.floor(currentValue)] and of [finalValue]
    ([JsNumber]).  The rounding is visible: ["50"] shows [3] at the
    tenth call and needs 126 calls.

    One counter's animation is [start_counter], [update_counter] and
    [run_counter]; the observer of all counters is the state [Counters]
    (texts, observed targets, running animations, log of starts) with
    the callback [counter_callback], the frame [counter_frame] and the
    step relation [co_step]. *)

From Stdlib Require Import ZArith String Ascii.
From stdpp Require Import base list strings sets.
From S2P Require Import Prelude Double JsNumber.

Module Counter.
Import Double JsNumber.
Local Open Scope nat_scope.

(** ** The animation of one counter *)

Record Anim := MkAnim {
  an_final : float_val;
  an_increment : float_val;
  an_current : float_val;
  an_text : string
}.

Definition duration : float_val := FloatNum 2000.

(** The observer's callback for an entry that intersects (lines
    472-475): [finalValue = parseInt(target.textContent)],
    [increment = finalValue / (duration / 16)], [currentValue = 0]. *)
Definition start_counter (text : string) : Anim :=
  let final := parse_int text in
  MkAnim final (js_div final (js_div duration (FloatNum 16))) (FloatNum 0) text.

(** [updateCounter] (lines 477-485): the new state and whether it asked
    for another frame. *)
Definition update_counter (a : Anim) : Anim * bool :=
  let cur := js_add (an_current a) (an_increment a) in
  if js_lt cur (an_final a)
  then (MkAnim (an_final a) (an_increment a) cur (show_num (js_floor cur)), true)
  else (MkAnim (an_final a) (an_increment a) cur (show_num (an_final a)), false).

(** The first call and then one call per animation frame while
    [updateCounter] asks for one, at most [fuel] calls: the final state,
    the texts shown after each call, and whether it is still running. *)
Fixpoint run_counter (fuel : nat) (a : Anim) : Anim * list string * bool :=
  match fuel with
  | O => (a, [], true)
  | S f =>
      let '(a', again) := update_counter a in
      if again then let '(a'', tr, r) := run_counter f a' in (a'', an_text a' :: tr, r)
      else (a', [an_text a'], false)
  end.

(** ** The observer of all counters (lines 466-493)

    The state of the [.stat-number] elements: their texts, the targets
    [counterObserver] still observes, the counters whose
    [updateCounter] has asked for a frame (in the order of the requests),
    and the log of the animations the observer started, with the text
    [parseInt] read for each. *)
Record Counters := MkCounters {
  cs_text : list string;
  cs_observed : list nat;
  cs_running : list (nat * Anim);
  cs_started : list (nat * string)
}.

(** An entry of the observer's callback: the target and
    [entry.isIntersecting]. *)
Definition entry : Type := nat * bool.

(** [counters.forEach(counter => counterObserver.observe(counter))]. *)
Definition init_counters (texts : list string) : Counters :=
  MkCounters texts (seq 0 (length texts)) [] [].

(** The body of [entries.forEach] (lines 470-489): read the final value
    from the current text, run [updateCounter] once (it writes the text
    and may request a frame), then [unobserve] the target. *)
Definition on_entry (c : Counters) (e : entry) : Counters :=
  let '(i, inter) := e in
  if inter then
    match cs_text c !! i with
    | Some text =>
        let '(a, again) := update_counter (start_counter text) in
        MkCounters (<[i := an_text a]> (cs_text c)) (filter (fun j => j <> i) (cs_observed c))
                   (if again then cs_running c ++ [(i, a)] else cs_running c)
                   (cs_started c ++ [(i, text)])
    | None => c
    end
  else c.

Definition counter_callback (es : list entry) (c : Counters) : Counters := foldl on_entry c es.

(** An animation frame runs the [updateCounter] callbacks requested
    before it, in order; each writes its text and may request the next
    frame. *)
Fixpoint frame_run (rs : list (nat * Anim)) (texts : list string) : list string * list (nat * Anim) :=
  match rs with
  | [] => (texts, [])
  | (i, a) :: rs' =>
      let '(a', again) := update_counter a in
      let '(texts', next) := frame_run rs' (<[i := an_text a']> texts) in
      (texts', if again then (i, a') :: next else next)
  end.

Definition counter_frame (c : Counters) : Counters :=
  let '(texts, next) := frame_run (cs_running c) (cs_text c) in
  MkCounters texts (cs_observed c) next (cs_started c).

(** The browser calls the callback with entries for observed targets; a
    target crosses the threshold [0.5] in and out alternately, and the
    model lets a batch hold at most one intersecting entry per target. *)
Inductive co_step : Counters -> Counters -> Prop :=
  | co_notify c (es : list entry) :
      Forall (fun e => e.2 = true -> e.1 ∈ cs_observed c) es ->
      NoDup (fst <$> filter (fun e => e.2 = true) es) ->
      co_step c (counter_callback es c)
  | co_frame c : co_step c (counter_frame c).

Inductive co_reach (texts : list string) : Counters -> Prop :=
  | co_start : co_reach texts (init_counters texts)
  | co_next c c' : co_reach texts c -> co_step c c' -> co_reach texts c'.

(** Each element is observed until its counter starts and only then
    animated; its text is the original one until it starts; every start
    read the original text. *)
Definition co_inv (texts : list string) (c : Counters) : Prop :=
  length (cs_text c) = length texts /\
  NoDup (fst <$> cs_started c) /\
  (forall i, i ∈ cs_observed c -> (i ∉ fst <$> cs_started c) /\ cs_text c !! i = texts !! i) /\
  (forall i a, (i, a) ∈ cs_running c -> i ∈ fst <$> cs_started c) /\
  (forall i t, (i, t) ∈ cs_started c -> texts !! i = Some t).

(** Two counters, ["50+"] and ["2000"]: the first scrolls into view,
    one frame runs, then the second scrolls into view. *)
Definition co_demo : Counters :=
  counter_callback [(1, true)]
    (counter_frame (counter_callback [(0, true)] (init_counters ["50+"; "2000"]))).

(** ** Lemmas *)

(** *** Rounding in [updateCounter]

    With [a = finalValue / 125], [increment] is [a] up to a relative
    [2^-53], and after [j] calls [currentValue] is [j * a] up to a
    relative [2^-45]: each of the at most 126 additions adds at most
    [2^-53] of the running value. *)

Section Rounding.
Local Open Scope Q_scope.

Definition drift : Q := 1 # 35184372088832.

Definition near (f : Q) (j : nat) (c : Q) : Prop :=
  (1 - drift) * (inject_Z (Z.of_nat j) * (f / 125)) <= c <= (1 + drift) * (inject_Z (Z.of_nat j) * (f / 125)).

(** The counter of a positive final value [f] after [j] calls. *)
Definition anim_near (f : Q) (j : nat) (a : Anim) : Prop :=
  an_final a = FloatNum f /\
  (exists i, an_increment a = FloatNum i /\
     (1 - unit_roundoff) * (f / 125) <= i <= (1 + unit_roundoff) * (f / 125)) /\
  (exists c, an_current a = FloatNum c /\ near f j c).

Lemma duration_16 : js_div duration (FloatNum 16) = FloatNum 125.
Proof. vm_compute. reflexivity. Qed.

Lemma start_counter_eq text :
  start_counter text = MkAnim (parse_int text) (js_div (parse_int text) (FloatNum 125)) (FloatNum 0) text.
Proof. unfold start_counter. by rewrite duration_16. Qed.

Lemma tiny_le : Qpower 2 (-1022) <= 1 # 1000.
Proof. apply Qle_bool_iff. vm_compute. reflexivity. Qed.

Lemma pow1024 : Qpower 2 1024 == 2 * Qpower 2 1023.
Proof. vm_compute. reflexivity. Qed.

Lemma inject_S (j : nat) : inject_Z (Z.of_nat (S j)) == inject_Z (Z.of_nat j) + 1.
Proof. by rewrite Nat2Z.inj_succ, <-Z.add_1_r, inject_Z_plus. Qed.

Lemma mult_le_nat (j k : nat) (a : Q) :
  (j <= k)%nat -> 0 <= a -> inject_Z (Z.of_nat j) * a <= inject_Z (Z.of_nat k) * a.
Proof. intros Hjk Ha. apply Qmult_le_compat_r; [rewrite <-Zle_Qle; lia | exact Ha]. Qed.

Lemma start_near text f :
  parse_int text = FloatNum f -> 0 < f -> anim_near f 0 (start_counter text).
Proof.
  intros Hp Hf. destruct (parse_int_finite text f Hp) as [Hf1 Hf2].
  assert (Hf3 : 1 # 2 <= f) by (destruct Hf1 as [|[|]]; lra).
  pose proof tiny_le. pose proof pow1024. pose proof (Qpower_2_pos 1023).
  rewrite start_counter_eq, Hp. split_and!; [done | | exists 0; split; [done|]].
  - change (js_div (FloatNum f) (FloatNum 125)) with (fl (f / 125)).
    rewrite fl_normal by (left; qpow_lra). eexists. split; [reflexivity|].
    pose proof (round53_rel (f / 125) ltac:(qpow_lra)). qpow_lra.
  - unfold near, drift. change (inject_Z (Z.of_nat 0)) with 0. qpow_lra.
Qed.

(** One call of [updateCounter] after [j <= 125] calls. *)
Lemma near_step f j c i :
  1 # 2 <= f -> (j <= 125)%nat -> near f j c ->
  (1 - unit_roundoff) * (f / 125) <= i <= (1 + unit_roundoff) * (f / 125) ->
  Qpower 2 (-1022) <= c + i /\ c + i <= 2 * f /\
  (near f (S j) (round53 (c + i))).
Proof.
  intros Hf Hj Hc Hi. unfold near in *. rewrite inject_S.
  pose proof (mult_le_nat j 125 (f / 125) Hj ltac:(qpow_lra)) as HT. pose proof tiny_le.
  pose proof (mult_le_nat 0 j (f / 125) ltac:(lia) ltac:(qpow_lra)) as H0.
  change (inject_Z (Z.of_nat 0)) with 0 in H0.
  remember (inject_Z (Z.of_nat j) * (f / 125)) as T eqn:ET.
  change (inject_Z (Z.of_nat 125)) with 125 in HT.
  assert (E : (inject_Z (Z.of_nat j) + 1) * (f / 125) == T + f / 125) by (rewrite ET; ring).
  rewrite E. pose proof (round53_rel (c + i)) as Hr. unfold unit_roundoff, drift in *.
  assert (Hci : Qpower 2 (-1022) <= c + i) by qpow_lra. specialize (Hr Hci).
  split_and!; qpow_lra.
Qed.

Lemma pow1000 : 2 * Qpower 2 1000 <= Qpower 2 1023.
Proof. apply Qle_bool_iff. vm_compute. reflexivity. Qed.

(** The state after one more call. *)
Lemma update_near f j a :
  1 # 2 <= f -> (j <= 125)%nat -> anim_near f j a ->
  exists cur a', update_counter a = (a', js_lt cur (FloatNum f)) /\
    an_text a' = (if js_lt cur (FloatNum f) then show_num (js_floor cur) else show_num (FloatNum f)) /\
    (cur = FloatInf false \/ exists r, cur = FloatNum r /\ anim_near f (S j) a' /\ near f (S j) r) /\
    (f <= Qpower 2 1000 -> exists r, cur = FloatNum r).
Proof.
  intros Hf Hj (Hfin & (i & Hi & Bi) & (c & Hc & Bc)).
  destruct (near_step f j c i Hf Hj Bc Bi) as (Hlo & Hhi & Hn).
  pose proof (Qpower_2_pos (-1022)). pose proof pow1000.
  unfold update_counter. rewrite Hc, Hi, Hfin. cbn [js_add].
  set (a1 := fun t => MkAnim (FloatNum f) (FloatNum i) (fl (c + i)) t).
  exists (fl (c + i)), (a1 (if js_lt (fl (c + i)) (FloatNum f) then show_num (js_floor (fl (c + i)))
                            else show_num (FloatNum f))).
  split_and!.
  - by destruct (js_lt _ _).
  - done.
  - destruct (fl_pos_cases (c + i)) as [E | E]; [qpow_lra | right | by left].
    eexists. split; [exact E|]. split; [|exact Hn]. split_and!; [done | by exists i |].
    exists (round53 (c + i)). split; [exact E | exact Hn].
  - intros Hs. rewrite fl_normal; [by eexists | left; qpow_lra].
Qed.

(** The counter runs on after at most 124 calls and stops at the
    126th. *)
Lemma near_running f k r :
  0 < f -> near f k r ->
  ((k <= 124)%nat -> qltb r f = true) /\ (k = 126%nat -> qltb r f = false).
Proof.
  intros Hf Hr. unfold near, drift in Hr. split.
  - intros Hk. apply qltb_true. pose proof (mult_le_nat k 124 (f / 125) Hk ltac:(qpow_lra)).
    change (inject_Z (Z.of_nat 124)) with 124 in *. qpow_lra.
  - intros ->. apply qltb_false. change (inject_Z (Z.of_nat 126)) with 126 in *. qpow_lra.
Qed.

Lemma Qfloor_eq (x : Q) (k : Z) : inject_Z k <= x < inject_Z k + 1 -> Qfloor x = k.
Proof.
  intros [H1 H2]. pose proof (Qfloor_le x) as H3. pose proof (Qlt_floor x) as H4.
  rewrite inject_Z_plus in H4. change (inject_Z 1) with 1 in H4.
  assert (H5 : (k < Qfloor x + 1)%Z) by (rewrite Zlt_Qlt, inject_Z_plus; change (inject_Z 1) with 1; lra).
  assert (H6 : (Qfloor x < k + 1)%Z) by (rewrite Zlt_Qlt, inject_Z_plus; change (inject_Z 1) with 1; lra).
  lia.
Qed.

(** A value within [1/126] of [N / 125] has the floor of [N / 125], or
    one less when [N / 125] is an integer. *)
Lemma floor_close (N : Z) (r : Q) :
  inject_Z N / 125 - (1 # 126) <= r <= inject_Z N / 125 + (1 # 126) ->
  Qfloor r = (N / 125)%Z \/ ((N mod 125 = 0)%Z /\ Qfloor r = (N / 125 - 1)%Z).
Proof.
  intros Hr. pose proof (Z.div_mod N 125 ltac:(lia)) as Hd. pose proof (Z.mod_pos_bound N 125 ltac:(lia)) as Hm.
  set (q := (N / 125)%Z) in *. set (m := (N mod 125)%Z) in *. clearbody q m.
  assert (E : inject_Z N == 125 * inject_Z q + inject_Z m) by (rewrite Hd, inject_Z_plus, inject_Z_mult; reflexivity).
  rewrite E in Hr. assert (Hm' : 0 <= inject_Z m <= 124) by (change 0 with (inject_Z 0); change 124 with (inject_Z 124); rewrite <-!Zle_Qle; lia).
  destruct (Z.eq_dec m 0%Z) as [Hm0 | Hm0].
  - subst m. change (inject_Z 0) with 0 in Hr. destruct (Qlt_le_dec r (inject_Z q)) as [Hlt | Hle].
    + right. split; [done|]. apply Qfloor_eq. unfold Z.sub. rewrite inject_Z_plus. rewrite inject_Z_opp. change (inject_Z 1) with 1. qpow_lra.
    + left. apply Qfloor_eq. qpow_lra.
  - left. assert (1 <= inject_Z m) by (change 1 with (inject_Z 1); rewrite <-Zle_Qle; lia).
    apply Qfloor_eq. qpow_lra.
Qed.

(** The number a call shows, for a final value below [2^32]. *)
Lemma near_floor (z : Z) (k : nat) (r : Q) :
  (0 < z < 2 ^ 32)%Z -> (k <= 126)%nat -> near (inject_Z z) k r ->
  let N := (Z.of_nat k * z)%Z in
  Qfloor r = (N / 125)%Z \/ ((N mod 125 = 0)%Z /\ Qfloor r = (N / 125 - 1)%Z).
Proof.
  intros Hz Hk Hr N. apply floor_close. unfold near, drift in Hr.
  assert (E : inject_Z (Z.of_nat k) * (inject_Z z / 125) == inject_Z N / 125)
    by (unfold N; rewrite inject_Z_mult; field).
  rewrite E in Hr. assert (HN : 0 <= inject_Z N <= 541165879296).
  { change 0 with (inject_Z 0). change 541165879296 with (inject_Z 541165879296).
    rewrite <-!Zle_Qle. unfold N. nia. }
  qpow_lra.
Qed.

(** [updateCounter] unfolded once in [run_counter]. *)
Lemma run_counter_S fuel a a1 b :
  update_counter a = (a1, b) ->
  run_counter (S fuel) a =
    if b then (let '(a2, tr, r) := run_counter fuel a1 in (a2, an_text a1 :: tr, r))
    else (a1, [an_text a1], false).
Proof. intros E. cbn [run_counter]. by rewrite E. Qed.

(** From [j <= 125] calls, [126 - j] more calls end the animation. *)
Lemma run_near f j a fuel :
  1 # 2 <= f -> (j <= 125)%nat -> anim_near f j a -> (126 - j <= fuel)%nat ->
  exists a' tr, run_counter fuel a = (a', tr, false).
Proof.
  revert j a. induction fuel as [|fuel IH]; intros j a Hf Hj Ha Hfuel; [lia|].
  destruct (update_near f j a Hf Hj Ha) as (cur & a1 & E & _ & Hcases & _).
  rewrite (run_counter_S _ _ _ _ E). destruct (js_lt cur (FloatNum f)) eqn:Hlt; [|by do 2 eexists].
  destruct Hcases as [-> | (r & -> & Ha1 & Hr)]; [discriminate|]. cbn [js_lt] in Hlt.
  destruct (decide (S j = 126)%nat) as [Hj6 | Hj6].
  - rewrite (proj2 (near_running f _ r ltac:(qpow_lra) Hr) Hj6) in Hlt. discriminate.
  - destruct (IH (S j) a1 Hf ltac:(lia) Ha1 ltac:(lia)) as (a2 & tr & E2). rewrite E2. by do 2 eexists.
Qed.

(** A final value [0] or below stops at the first call. *)
Lemma update_nonpos text f :
  parse_int text = FloatNum f -> f <= 0 -> (update_counter (start_counter text)).2 = false.
Proof.
  intros Hp Hf. destruct (parse_int_finite text f Hp) as [Hf1 Hf2].
  pose proof tiny_le. pose proof pow1024. pose proof (Qpower_2_pos 1023). pose proof (Qpower_2_pos (-1022)).
  rewrite start_counter_eq, Hp. unfold update_counter. cbn [an_current an_increment an_final].
  change (js_div (FloatNum f) (FloatNum 125)) with (fl (f / 125)).
  destruct Hf1 as [Hz | [Hz | Hz]]; [| qpow_lra |].
  - assert (E : fl (f / 125) = FloatNum 0).
    { unfold fl. rewrite round53_zero by (rewrite Hz; reflexivity). reflexivity. }
    rewrite E. cbn [js_add]. assert (E2 : fl (0 + 0) = FloatNum 0) by (vm_compute; reflexivity).
    rewrite E2. cbn [js_lt]. by rewrite (proj2 (qltb_false 0 f)) by lra.
  - rewrite fl_normal by (right; qpow_lra).
    pose proof (round53_rel_neg (f / 125) ltac:(qpow_lra)) as Hi. unfold unit_roundoff in Hi.
    set (i := round53 (f / 125)) in *. clearbody i. cbn [js_add].
    rewrite fl_normal by (right; qpow_lra).
    pose proof (round53_rel_neg (0 + i) ltac:(qpow_lra)) as Hc. unfold unit_roundoff in Hc.
    cbn [js_lt]. by rewrite (proj2 (qltb_false _ _)) by qpow_lra.
Qed.

Lemma Z_pos_Q (z : Z) : (0 < z)%Z -> 0 < inject_Z z.
Proof. intros Hz. change 0 with (inject_Z 0). by rewrite <-Zlt_Qlt. Qed.

(** One call with a final value below [2^32]: no overflow, and the text
    is the floor of the new value or the final value. *)
Lemma step_small z j a :
  (0 < z < 2 ^ 32)%Z -> (j <= 125)%nat -> anim_near (inject_Z z) j a ->
  exists r a1, update_counter a = (a1, qltb r (inject_Z z)) /\ anim_near (inject_Z z) (S j) a1 /\
    near (inject_Z z) (S j) r /\
    an_text a1 = (if qltb r (inject_Z z) then show_num (FloatNum (inject_Z (Qfloor r)))
                  else show_num (FloatNum (inject_Z z))).
Proof.
  intros Hz Hj Ha.
  assert (H1 : 1 <= inject_Z z) by (change 1 with (inject_Z 1); rewrite <-Zle_Qle; lia).
  assert (Hf : 1 # 2 <= inject_Z z) by lra.
  assert (Hs : inject_Z z <= Qpower 2 1000).
  { apply (Qle_trans _ (inject_Z (2 ^ 32))); [rewrite <-Zle_Qle; lia|]. apply Qle_bool_iff. vm_compute. reflexivity. }
  destruct (update_near _ j a Hf Hj Ha) as (cur & a1 & E & Ht & Hcases & Hfin).
  destruct (Hfin Hs) as [r ->]. destruct Hcases as [? | (r' & [= <-] & Ha1 & Hr)]; [discriminate|].
  exists r, a1. split_and!; [exact E | exact Ha1 | exact Hr | exact Ht].
Qed.

End Rounding.

(** Every run that ends shows the final value last. *)
Lemma run_counter_final fuel a a' tr :
  run_counter fuel a = (a', tr, false) ->
  last tr = Some (show_num (an_final a)) /\ an_text a' = show_num (an_final a).
Proof.
  revert a a' tr. induction fuel as [|fuel IH]; intros a a' tr E; [discriminate|].
  destruct (update_counter a) as [a1 b] eqn:Eu. rewrite (run_counter_S _ _ _ _ Eu) in E.
  assert (Hf : an_final a1 = an_final a) by (unfold update_counter in Eu; case_match; by simplify_eq).
  destruct b.
  - destruct (run_counter fuel a1) as [[a2 tr2] r] eqn:E2. injection E as <- <- ->.
    destruct (IH _ _ _ E2) as [Hl Ht]. rewrite Hf in Hl, Ht. split; [|done].
    destruct tr2; [discriminate | exact Hl].
  - injection E as <- <- . unfold update_counter in Eu. case_match; simplify_eq. done.
Qed.

(** A counter that stops at the next call shows its final value. *)
Lemma run_stop a a1 t :
  update_counter a = (a1, false) -> an_text a1 = t ->
  (forall fuel, (run_counter fuel a).2 = true <-> fuel <= 0) /\
  (forall fuel, 0 < fuel -> exists a', run_counter fuel a = (a', [] ++ [t], false)).
Proof.
  intros E Ht. split; intros [|fuel]; rewrite ?(run_counter_S _ _ _ _ E); cbn; try (split; intros; done || lia).
  - lia.
  - intros _. rewrite Ht. by eexists.
Qed.

(** The calls after the [j]-th of a counter with final value
    [0 < z < 2^32]: the numbers shown, then [z]. *)
Lemma run_detail z :
  (0 < z < 2 ^ 32)%Z -> forall n j a, j + n = 125 -> anim_near (inject_Z z) j a ->
  exists zs, (j + length zs = 124 \/ j + length zs = 125) /\
    (forall k y, zs !! k = Some y -> let N := (Z.of_nat (j + k + 1) * z)%Z in
       y = (N / 125)%Z \/ ((N mod 125 = 0)%Z /\ y = (N / 125 - 1)%Z)) /\
    (forall fuel, (run_counter fuel a).2 = true <-> fuel <= length zs) /\
    (forall fuel, length zs < fuel -> exists a', run_counter fuel a =
       (a', ((fun y => show_num (FloatNum (inject_Z y))) <$> zs) ++ [show_num (FloatNum (inject_Z z))], false)).
Proof.
  intros Hz n. induction n as [|n IH]; intros j a Hjn Ha;
    destruct (step_small z j a Hz ltac:(lia) Ha) as (r & a1 & E & Ha1 & Hr & Ht);
    destruct (near_running (inject_Z z) (S j) r (Z_pos_Q z ltac:(lia)) Hr) as [Hrun Hstop];
    destruct (qltb r (inject_Z z)) eqn:Hlt.
  - discriminate (Hstop ltac:(lia)).
  - destruct (run_stop a a1 _ E Ht) as [H1 H2]. exists []. cbn. split_and!; [lia | done | done | done].
  - destruct (IH (S j) a1 ltac:(lia) Ha1) as (zs & Hlen & Hzs & Hr1 & Hr2).
    exists (Qfloor r :: zs). split_and!; cbn [length].
    + lia.
    + intros [|k] y Hy; cbn in Hy.
      * injection Hy as <-. replace (j + 0 + 1) with (S j) by lia. apply near_floor; [done | lia | exact Hr].
      * replace (j + S k + 1) with (S j + k + 1) by lia. exact (Hzs k y Hy).
    + intros [|fuel]; [cbn; split; intros; [lia | done]|].
      rewrite (run_counter_S _ _ _ _ E). destruct (run_counter fuel a1) as [[a2 tr] b] eqn:E2.
      specialize (Hr1 fuel). rewrite E2 in Hr1. cbn in *. rewrite Hr1. lia.
    + intros [|fuel] Hfuel; [lia|]. rewrite (run_counter_S _ _ _ _ E).
      destruct (Hr2 fuel ltac:(lia)) as (a' & E2). rewrite E2, Ht. by eexists.
  - destruct (run_stop a a1 _ E Ht) as [H1 H2]. exists []. cbn.
    split_and!; [| done | done | done].
    destruct (decide (S j <= 124)) as [Hj|Hj]; [discriminate (Hrun Hj) | lia].
Qed.

(** *** The observer keeps its invariant *)

Section ObserverFacts.
Variable texts : list string.

Lemma on_entry_inv c e :
  co_inv texts c -> (e.2 = true -> e.1 ∈ cs_observed c) -> co_inv texts (on_entry c e).
Proof.
  destruct e as [i []]; cbn; [|done]. intros Hinv Hobs. specialize (Hobs eq_refl).
  destruct (cs_text c !! i) as [t|] eqn:Et; [|done].
  destruct (update_counter (start_counter t)) as [a again].
  destruct Hinv as (Hlen & Hnd & Hobs' & Hrun & Hst). destruct (Hobs' i Hobs) as [Hni Hti].
  split_and!; cbn.
  - by rewrite length_insert.
  - rewrite fmap_app. apply NoDup_app. split_and!; [done | | by apply NoDup_singleton].
    cbn. set_solver.
  - intros j [Hji Hj]%list_elem_of_filter. destruct (Hobs' j Hj) as [Hnj Htj].
    split; [rewrite fmap_app; cbn; set_solver|]. by rewrite list_lookup_insert_ne.
  - intros j b Hjb. rewrite fmap_app, elem_of_app. destruct again.
    + apply elem_of_app in Hjb as [Hjb | Hjb%list_elem_of_singleton]; [left; eapply Hrun, Hjb|].
      injection Hjb as -> ->. right. cbn. set_solver.
    + left. eapply Hrun, Hjb.
  - intros j u [Hju | [= -> ->]%list_elem_of_singleton]%elem_of_app; [by apply Hst|].
    by rewrite <-Hti.
Qed.

Lemma counter_callback_inv es c :
  co_inv texts c ->
  Forall (fun e => e.2 = true -> e.1 ∈ cs_observed c) es ->
  NoDup (fst <$> filter (fun e => e.2 = true) es) ->
  co_inv texts (counter_callback es c).
Proof.
  revert c. induction es as [|[i b] es IH]; intros c Hinv Hobs Hnd; [exact Hinv|].
  apply Forall_cons in Hobs as [Hi Hobs].
  change (counter_callback _ c) with (counter_callback es (on_entry c (i, b))). apply IH.
  - by apply on_entry_inv.
  - destruct b; [|exact Hobs].
    rewrite filter_cons_True in Hnd by done. cbn in Hnd. apply NoDup_cons in Hnd as [Hni _].
    cbn [on_entry]. destruct (cs_text c !! i); [|exact Hobs].
    destruct (update_counter _) as [a again]; cbn.
    apply Forall_forall. intros [j b] Hjb Hb; cbn in *. subst b.
    apply list_elem_of_filter. split; [|exact (proj1 (Forall_forall _ _) Hobs _ Hjb eq_refl)].
    intros ->. apply Hni, list_elem_of_fmap. exists (i, true). split; [done|].
    by apply list_elem_of_filter.
  - destruct b; [rewrite filter_cons_True in Hnd by done | by rewrite filter_cons_False in Hnd].
    cbn in Hnd. by apply NoDup_cons in Hnd as [_ ?].
Qed.

Lemma frame_run_spec rs ts ts' next :
  frame_run rs ts = (ts', next) ->
  length ts' = length ts /\ (forall j, j ∉ fst <$> rs -> ts' !! j = ts !! j) /\
  (forall i a, (i, a) ∈ next -> i ∈ fst <$> rs).
Proof.
  revert ts ts' next. induction rs as [|[i a] rs IH]; intros ts ts' next E.
  - injection E as <- <-. split_and!; [done | done | intros ? ? Hin; by apply elem_of_nil in Hin].
  - cbn in E. destruct (update_counter a) as [a' again].
    destruct (frame_run rs _) as [t2 n2] eqn:E2. injection E as <- <-.
    destruct (IH _ _ _ E2) as (Hl & Ht & Hn). split_and!.
    + by rewrite Hl, length_insert.
    + intros j Hj. cbn in Hj. rewrite Ht by set_solver. apply list_lookup_insert_ne. set_solver.
    + intros j b Hjb. cbn. destruct again; [|right; by eapply Hn].
      apply elem_of_cons in Hjb as [[= -> ->] | Hjb]; [left | right; by eapply Hn].
Qed.

Lemma counter_frame_inv c : co_inv texts c -> co_inv texts (counter_frame c).
Proof.
  unfold counter_frame. destruct (frame_run (cs_running c) (cs_text c)) as [t n] eqn:E.
  apply frame_run_spec in E as (Hl & Ht & Hn).
  intros (Hlen & Hnd & Hobs & Hrun & Hst). split_and!; cbn; [lia | done | | | done].
  - intros j Hj. destruct (Hobs j Hj) as [Hnj Htj]. split; [done|]. rewrite <-Htj. apply Ht.
    intros (x & -> & Hx)%list_elem_of_fmap. destruct x as [k b]. apply Hnj. by eapply Hrun.
  - intros i a Hia. apply Hn in Hia as ([k b] & -> & Hx)%list_elem_of_fmap. by eapply Hrun.
Qed.

Lemma co_reach_inv c : co_reach texts c -> co_inv texts c.
Proof.
  induction 1 as [|c c' _ IH Hs].
  - split_and!; cbn; [done | constructor | | by intros ? ? ?%elem_of_nil | by intros ? ? ?%elem_of_nil].
    intros i _. split; [by intros ?%elem_of_nil | done].
  - destruct Hs as [c es Hobs Hnd | c]; [by apply counter_callback_inv | by apply counter_frame_inv].
Qed.

End ObserverFacts.

Section Properties.

(** C26. The counter of a [.stat-number] whose text reads as an integer
    [0 < f < 2^32] computes with doubles: [increment] is the double
    nearest [f / 125] and every [currentValue += increment] rounds.  It
    takes 125 or 126 calls of [updateCounter] (the first one and 124 or
    125 animation frames): with fewer it is still running; at the
    [k]-th call it shows [floor(k * f / 125)], or one less, which
    happens only when [k * f / 125] is an integer that the rounded sum
    falls just short of; then it shows [f] and asks for no further
    frame. *)
Theorem counter_animation_frames text z :
  parse_int text = FloatNum (inject_Z z) -> (0 < z < 2 ^ 32)%Z ->
  exists zs, (length zs = 124 \/ length zs = 125) /\
    (forall k y, zs !! k = Some y -> let N := (Z.of_nat (S k) * z)%Z in
       y = (N / 125)%Z \/ ((N mod 125 = 0)%Z /\ y = (N / 125 - 1)%Z)) /\
    (forall fuel, (run_counter fuel (start_counter text)).2 = true <-> fuel <= length zs) /\
    (forall fuel, length zs < fuel -> exists a, run_counter fuel (start_counter text) =
       (a, ((fun y => show_num (FloatNum (inject_Z y))) <$> zs) ++ [show_num (FloatNum (inject_Z z))], false)).
Proof.
  intros Hp Hz. pose proof (start_near text _ Hp (Z_pos_Q z ltac:(lia))) as H0.
  destruct (run_detail z Hz 125 0 _ eq_refl H0) as (zs & Hlen & Hzs & Hr1 & Hr2).
  exists zs. split_and!; [lia | | exact Hr1 | exact Hr2].
  intros k y Hy. pose proof (Hzs k y Hy) as Hk. cbv zeta in *. by replace (S k) with (0 + k + 1) by lia.
Qed.

(** C27. Whatever the text of a [.stat-number], the animation ends
    within 126 calls showing [String(parseInt(text))], computed as the
    runtime does: ["50"] for ["50+"], ["NaN"] for a text that does not
    start with digits, ["1e+21"] for the text
    ["1000000000000000000000"], ["Infinity"] for a number too large
    for a double. *)
Theorem counter_final_text text fuel :
  126 <= fuel ->
  exists a tr, run_counter fuel (start_counter text) = (a, tr, false) /\
    last tr = Some (show_num (parse_int text)) /\ an_text a = show_num (parse_int text).
Proof.
  intros Hfuel. assert (Hend : exists a tr, run_counter fuel (start_counter text) = (a, tr, false)).
  { destruct fuel as [|fuel]; [lia|]. destruct (parse_int text) as [f| b |] eqn:Hp.
    - destruct (Qlt_le_dec 0 f) as [Hf | Hf].
      + destruct (parse_int_finite text f Hp) as [Hf1 _].
        apply (run_near f 0); [destruct Hf1 as [|[|]]; lra | lia | by apply start_near | lia].
      + destruct (update_counter (start_counter text)) as [a1 b] eqn:E.
        pose proof (update_nonpos text f Hp Hf) as Hb. rewrite E in Hb. cbn in Hb. subst b.
        rewrite (run_counter_S _ _ _ _ E). by do 2 eexists.
    - rewrite start_counter_eq, Hp. destruct b; cbn; by do 2 eexists.
    - rewrite start_counter_eq, Hp. cbn. by do 2 eexists. }
  destruct Hend as (a & tr & E). destruct (run_counter_final _ _ _ _ E) as [Hl Ht].
  by exists a, tr.
Qed.

(** C28. Each counter starts once, from its own text: through any
    sequence of observer callbacks and animation frames, the observer
    starts at most one animation per [.stat-number], and each start reads
    with [parseInt] the text the element had when the page loaded, never
    a number an animation has written since ([unobserve] runs before the
    element can be reported again). *)
Theorem counter_starts_once texts c :
  co_reach texts c ->
  NoDup (fst <$> cs_started c) /\ forall i t, (i, t) ∈ cs_started c -> texts !! i = Some t.
Proof. intros Hr. destruct (co_reach_inv texts c Hr) as (_ & Hnd & _ & _ & Hst). by split. Qed.

End Properties.

(** ** Witnesses *)

Lemma counter_animation_frames_witness :
  exists zs, length zs = 125 /\ (forall y, zs !! 9 = Some y -> y = 4%Z \/ y = 3%Z) /\
    (run_counter 125 (start_counter "50")).2 = true.
Proof.
  destruct (counter_animation_frames "50" 50 ltac:(vm_compute; reflexivity) ltac:(lia))
    as (zs & Hlen & Hzs & Hr1 & _).
  assert (Hrun : (run_counter 125 (start_counter "50")).2 = true) by (vm_compute; reflexivity).
  exists zs. split_and!; [apply Hr1 in Hrun; lia | | exact Hrun].
  intros y Hy. destruct (Hzs 9 y Hy) as [-> | [_ ->]]; [left | right]; reflexivity.
Defined.

Lemma counter_final_text_witness :
  (exists a tr, run_counter 126 (start_counter "50+") = (a, tr, false) /\ an_text a = "50"%string) /\
  (exists a tr, run_counter 126 (start_counter "AI") = (a, tr, false) /\ an_text a = "NaN"%string) /\
  (exists a tr, run_counter 126 (start_counter "1000000000000000000000") = (a, tr, false) /\
     an_text a = "1e+21"%string).
Proof.
  split_and!.
  - destruct (counter_final_text "50+" 126 ltac:(lia)) as (a & tr & E & _ & Ht).
    exists a, tr. split; [exact E | rewrite Ht; vm_compute; reflexivity].
  - destruct (counter_final_text "AI" 126 ltac:(lia)) as (a & tr & E & _ & Ht).
    exists a, tr. split; [exact E | rewrite Ht; vm_compute; reflexivity].
  - destruct (counter_final_text "1000000000000000000000" 126 ltac:(lia)) as (a & tr & E & _ & Ht).
    exists a, tr. split; [exact E | rewrite Ht; vm_compute; reflexivity].
Defined.

Lemma co_demo_reach : co_reach ["50+"; "2000"] co_demo.
Proof.
  set (c0 := init_counters ["50+"; "2000"]).
  set (c1 := counter_callback [(0, true)] c0).
  set (c2 := counter_frame c1).
  assert (H1 : co_reach ["50+"; "2000"] c1).
  { apply (co_next _ c0); [apply co_start | apply co_notify].
    - repeat constructor.
    - repeat constructor. apply not_elem_of_nil. }
  apply (co_next _ c2); [apply (co_next _ c1); [exact H1 | apply co_frame] | apply co_notify].
  - constructor; [|constructor]. cbv beta. intros _.
    assert (Ho : cs_observed (counter_frame (counter_callback [(0, true)] (init_counters ["50+"; "2000"]))) = [1])
      by (vm_compute; reflexivity).
    rewrite Ho. apply list_elem_of_In. by left.
  - repeat constructor. apply not_elem_of_nil.
Qed.

Lemma counter_starts_once_witness :
  cs_started co_demo = [(0, "50+"%string); (1, "2000"%string)] /\ NoDup (fst <$> cs_started co_demo).
Proof.
  split; [vm_compute; reflexivity|].
  exact (proj1 (counter_starts_once ["50+"; "2000"] co_demo co_demo_reach)).
Defined.

End Counter.
