(* ===== verification/CounterObserver.v ===== *)
(** * The counters driven by their observer

    [initCounterAnimation] (script.js lines 465-494) observes every
    [.stat-number] with threshold 0.5 (line 491); its callback starts the
    counter of each intersecting entry and calls
    [counterObserver.unobserve(target)] (line 488).  [Counter] models the
    callback and the animation frames with the entries as an input;
    here they come from [Observer.update_observations] at every
    rendering frame, after the animation frame callbacks of that frame
    ([updateCounter]), and [unobserve] drops the registrations of the
    counters the callback started.

    The refinement theorem says that every state this page reaches is a
    state of [Counter.co_reach], so the counter theorems hold for it; the
    liveness theorem says that a counter not yet started starts in the
    first frame where half of it is in the window. *)

From stdpp Require Import base list strings sets.
From S2P Require Import Prelude Observer JsNumber Counter.

Module CounterObserver.
Import Observer Counter.
Local Open Scope nat_scope.

(** [{ threshold: 0.5 }] (line 491). *)
Definition counter_options : IOOptions := MkOptions (1 # 2) 0 0.

Record CounterPage := MkCP {
  cp_regs : list Registration;
  cp_counters : Counters
}.

(** [counters.forEach(counter => counterObserver.observe(counter))]
    (line 493), counters numbered in document order. *)
Definition init_counter_page (texts : list string) : CounterPage :=
  MkCP (map observe (seq 0 (length texts))) (init_counters texts).

Section Frames.
Variable gate : bool.

(** One rendering frame: the requested [updateCounter] calls run, the
    registrations are updated, the callback runs with the entries, and
    the registrations of the targets it unobserved are gone. *)
Definition counter_page_frame (layout : nat -> Rect) (v : Viewport) (p : CounterPage) : CounterPage :=
  let c1 := counter_frame (cp_counters p) in
  let '(regs, es) := update_observations gate counter_options layout v (cp_regs p) in
  let c2 := counter_callback es c1 in
  MkCP (filter (fun r => reg_target r ∈ cs_observed c2) regs) c2.

Inductive cp_reach (texts : list string) : CounterPage -> Prop :=
  | cp_start : cp_reach texts (init_counter_page texts)
  | cp_frame layout v p : cp_reach texts p -> cp_reach texts (counter_page_frame layout v p).

End Frames.

(** The invariant: the counters are a state of [Counter]; the
    registrations are the observed counters, once each, and none
    records an intersection (the one that did was unobserved). *)
Definition cp_inv (texts : list string) (p : CounterPage) : Prop :=
  co_reach texts (cp_counters p) /\
  NoDup (map reg_target (cp_regs p)) /\
  (forall i, i ∈ map reg_target (cp_regs p) <-> i ∈ cs_observed (cp_counters p)) /\
  (forall i, i ∈ cs_observed (cp_counters p) -> i < length texts) /\
  (forall r, r ∈ cp_regs p -> reg_prev_inter r = false).

(** Two counters, the first in the window and the second 2000 pixels
    down. *)
Definition cp_layout (i : nat) : Rect :=
  match i with O => MkRect 100 100 | _ => MkRect 2000 100 end.

(** ** Lemmas *)

Section CallbackFacts.
Implicit Types (c : Counters) (e : entry) (es : list entry).

Lemma on_entry_observed_sub c e : cs_observed (on_entry c e) ⊆ cs_observed c.
Proof.
  destruct e as [i []]; cbn; [|done]. destruct (cs_text c !! i); [|done].
  destruct (update_counter _); cbn. intros j [_ Hj]%list_elem_of_filter. done.
Qed.

Lemma on_entry_keeps c e i :
  i ∈ cs_observed c -> e <> (i, true) -> i ∈ cs_observed (on_entry c e).
Proof.
  destruct e as [j []]; cbn; [|done]. intros Hi Hne. destruct (cs_text c !! j); [|done].
  destruct (update_counter _); cbn. apply list_elem_of_filter. split; [congruence | done].
Qed.

Lemma length_on_entry c e : length (cs_text (on_entry c e)) = length (cs_text c).
Proof.
  destruct e as [i []]; cbn; [|done]. destruct (cs_text c !! i); [|done].
  destruct (update_counter _); cbn. apply length_insert.
Qed.

Lemma on_entry_started_sub c e : cs_started c ⊆ cs_started (on_entry c e).
Proof.
  destruct e as [i []]; cbn; [|done]. destruct (cs_text c !! i); [|done].
  destruct (update_counter _); cbn. set_solver.
Qed.

Lemma callback_observed_sub es c : cs_observed (counter_callback es c) ⊆ cs_observed c.
Proof.
  revert c. induction es as [|e es IH]; intros c; [done|].
  change (counter_callback (e :: es) c) with (counter_callback es (on_entry c e)).
  etrans; [apply IH | apply on_entry_observed_sub].
Qed.

Lemma callback_started_sub es c : cs_started c ⊆ cs_started (counter_callback es c).
Proof.
  revert c. induction es as [|e es IH]; intros c; [done|].
  change (counter_callback (e :: es) c) with (counter_callback es (on_entry c e)).
  etrans; [apply on_entry_started_sub | apply IH].
Qed.

(** An intersecting entry for an observed counter starts it... *)
Lemma callback_starts es c i :
  (i, true) ∈ es -> i ∈ cs_observed c -> i < length (cs_text c) ->
  exists t, (i, t) ∈ cs_started (counter_callback es c).
Proof.
  revert c. induction es as [|e es IH]; intros c Hin Hi Hlen; [set_solver|].
  change (counter_callback (e :: es) c) with (counter_callback es (on_entry c e)).
  destruct (decide (e = (i, true))) as [->|Hne].
  - destruct (lookup_lt_is_Some_2 _ _ Hlen) as [t Ht]. exists t.
    apply callback_started_sub. cbn. rewrite Ht. destruct (update_counter _). cbn. set_solver.
  - apply IH; [set_solver | by apply on_entry_keeps | by rewrite length_on_entry].
Qed.

(** ... and unobserves it. *)
Lemma callback_removes es c i :
  (i, true) ∈ es -> i < length (cs_text c) -> i ∉ cs_observed (counter_callback es c).
Proof.
  revert c. induction es as [|e es IH]; intros c Hin Hlen; [set_solver|].
  change (counter_callback (e :: es) c) with (counter_callback es (on_entry c e)).
  destruct (decide (e = (i, true))) as [->|Hne].
  - intros Hi%callback_observed_sub. revert Hi. cbn.
    destruct (lookup_lt_is_Some_2 _ _ Hlen) as [t ->]. destruct (update_counter _). cbn.
    intros [? _]%list_elem_of_filter. done.
  - apply IH; [set_solver | by rewrite length_on_entry].
Qed.

Lemma counter_frame_observed c : cs_observed (counter_frame c) = cs_observed c.
Proof. unfold counter_frame. by destruct (frame_run _ _). Qed.

Lemma map_target_filter (l : list nat) regs :
  map reg_target (filter (fun r => reg_target r ∈ l) regs) = filter (fun i => i ∈ l) (map reg_target regs).
Proof.
  induction regs as [|r rs IH]; [done|]. cbn [map]. rewrite !filter_cons.
  case_decide; cbn; by rewrite IH.
Qed.

End CallbackFacts.

Section Invariant.
Context (gate : bool) (texts : list string) (layout : nat -> Rect) (v : Viewport).

Lemma counter_page_frame_spec p :
  counter_page_frame gate layout v p =
  let c2 := counter_callback (update_observations gate counter_options layout v (cp_regs p)).2
              (counter_frame (cp_counters p)) in
  MkCP (filter (fun r => reg_target r ∈ cs_observed c2)
          (update_observations gate counter_options layout v (cp_regs p)).1) c2.
Proof. unfold counter_page_frame. by destruct (update_observations _ _ _ _ _). Qed.

Lemma cp_inv_init : cp_inv texts (init_counter_page texts).
Proof.
  split_and!; cbn; rewrite ?targets_observe.
  - apply co_start.
  - apply NoDup_seq.
  - done.
  - intros i Hi. apply elem_of_seq in Hi. lia.
  - intros r (j & -> & _)%list_elem_of_fmap. done.
Qed.

Lemma cp_inv_frame p : cp_inv texts p -> cp_inv texts (counter_page_frame gate layout v p).
Proof.
  intros (Hr & Hnd & Hiff & Hlt & Hpi). rewrite counter_page_frame_spec. unfold cp_inv. cbn [cp_regs cp_counters].
  set (es := (update_observations gate counter_options layout v (cp_regs p)).2).
  set (c2 := counter_callback es (counter_frame (cp_counters p))).
  pose proof (update_observations_targets gate counter_options layout v (cp_regs p)) as Htg.
  assert (Hr2 : co_reach texts c2).
  { eapply co_next; [eapply co_next; [exact Hr | apply co_frame] | apply co_notify].
    - apply Forall_forall. intros [i b] Hin Hb; cbn in *. subst b.
      rewrite counter_frame_observed. apply Hiff. by apply update_observations_entries in Hin as [? _].
    - by apply update_observations_NoDup. }
  assert (Hsub : forall i, i ∈ cs_observed c2 -> i ∈ cs_observed (cp_counters p)).
  { intros i Hi. rewrite <- counter_frame_observed. by apply callback_observed_sub in Hi. }
  split_and!.
  - exact Hr2.
  - rewrite map_target_filter, Htg. by apply NoDup_filter.
  - intros i. rewrite map_target_filter, list_elem_of_filter, Htg, Hiff.
    naive_solver.
  - intros i Hi. by apply Hlt, Hsub.
  - intros r' [Hobs Hr']%list_elem_of_filter. destruct (reg_prev_inter r') eqn:Hpr; [exfalso|done].
    rewrite update_observations_spec in Hr'. cbn in Hr'.
    apply list_elem_of_fmap in Hr' as (r & -> & Hr0). rewrite update_observation_target in Hobs.
    destruct (update_observation_new_inter gate counter_options layout v r Hpr) as [H | H];
      [by rewrite Hpi in H|].
    apply (update_observation_entry_in gate counter_options layout v (cp_regs p) r _ Hr0) in H.
    destruct (co_reach_inv texts (counter_frame (cp_counters p)) (co_next _ _ _ Hr (co_frame (cp_counters p)))) as [Hlen _].
    refine (callback_removes es (counter_frame (cp_counters p)) (reg_target r) H _ Hobs).
    rewrite Hlen. apply Hlt, Hiff, list_elem_of_fmap. by exists r.
Qed.

End Invariant.

Lemma cp_reach_inv gate texts p : cp_reach gate texts p -> cp_inv texts p.
Proof. induction 1; [apply cp_inv_init | by apply cp_inv_frame]. Qed.

(** ** Properties *)

(** C29. The counters driven by their observer refine the counter model:
    every state the page reaches through rendering frames, with any
    layouts and viewports, is a state of [Counter.co_reach] (so each
    counter starts at most once, from its original text); the observer's
    registrations are exactly the counters not yet started, and none of
    them records an intersection. *)
Theorem counter_page_refines gate texts p :
  cp_reach gate texts p ->
  co_reach texts (cp_counters p) /\
  (forall i, i ∈ map reg_target (cp_regs p) <-> i ∈ cs_observed (cp_counters p)) /\
  (forall r, r ∈ cp_regs p -> reg_prev_inter r = false).
Proof. intros H. destruct (cp_reach_inv _ _ _ H) as (? & _ & ? & _ & ?). done. Qed.

(** C30. A counter starts as soon as half of it is in the window: in a
    frame where a counter not yet started shows at least half of its
    height, the callback starts it, from the text it had at load time,
    and unobserves it. *)
Theorem counter_starts_when_visible gate texts layout v p i :
  cp_reach gate texts p -> i ∈ cs_observed (cp_counters p) ->
  geom_intersects counter_options v (layout i) = true ->
  (1 # 2 <= intersection_ratio counter_options v (layout i))%Q ->
  (exists t, (i, t) ∈ cs_started (cp_counters (counter_page_frame gate layout v p)) /\
             texts !! i = Some t) /\
  i ∉ cs_observed (cp_counters (counter_page_frame gate layout v p)).
Proof.
  intros Hr Hi Hg Ht.
  destruct (cp_reach_inv _ _ _ Hr) as (Hco & _ & Hiff & Hlt & Hpi).
  pose proof (cp_reach_inv _ _ _ (cp_frame _ _ layout v p Hr)) as [Hco' _].
  destruct (co_reach_inv texts _ (co_next _ _ _ Hco (co_frame _))) as [Hlen _].
  pose proof (Hlt i Hi) as Hbound.
  apply Hiff, list_elem_of_fmap in Hi as (r & Htr & Hr0).
  assert (Hent : (i, true) ∈ (update_observations gate counter_options layout v (cp_regs p)).2).
  { destruct (update_observation_new_inter gate counter_options layout v r) as [H | H].
    - rewrite update_observation_inter, <- Htr. by apply is_intersecting_threshold.
    - by rewrite Hpi in H.
    - rewrite Htr. by apply (update_observation_entry_in _ _ _ _ _ r _ Hr0) in H. }
  rewrite counter_page_frame_spec in Hco' |- *. cbn in Hco' |- *.
  destruct (co_reach_inv texts _ Hco') as (_ & _ & _ & _ & Hst).
  split.
  - destruct (callback_starts _ (counter_frame (cp_counters p)) i Hent) as [t Ht'];
      [rewrite counter_frame_observed; apply Hiff, list_elem_of_fmap; by exists r | lia |].
    exists t. split; [exact Ht' | by apply Hst].
  - apply callback_removes; [exact Hent | lia].
Qed.

(** ** Witnesses *)

Lemma counter_page_refines_witness :
  co_reach ["50+"; "2000"]
    (cp_counters (counter_page_frame false cp_layout (MkViewport 0 800) (init_counter_page ["50+"; "2000"]))).
Proof.
  exact (proj1 (counter_page_refines false _ _
    (cp_frame _ _ cp_layout (MkViewport 0 800) _ (cp_start false ["50+"; "2000"])))).
Defined.

Lemma counter_starts_when_visible_witness :
  exists t, (0, t) ∈ cs_started (cp_counters (counter_page_frame false cp_layout (MkViewport 0 800)
                                                  (init_counter_page ["50+"; "2000"]))) /\
            ["50+"; "2000"] !! 0 = Some t.
Proof.
  destruct (counter_starts_when_visible false ["50+"; "2000"] cp_layout (MkViewport 0 800) _ 0
              (cp_start _ _)) as [H _].
  - cbn. set_solver.
  - reflexivity.
  - apply Qle_bool_iff. reflexivity.
  - exact H.
Defined.

End CounterObserver.
