(* ===== verification/Throttle.v ===== *)
(** * [throttle]: the scroll listener limited to one run per 16 ms

    [throttle(func, limit)] (script.js, lines 587-598) returns a function
    that runs [func] only when its closure variable [inThrottle] is falsy
    ([undefined] at first), then sets it and schedules a timer that
    clears it [limit] ms later.  The script registers
    [throttle(() => {}, 16)] as a [scroll] listener (lines 601-603).

    The state is [inThrottle] and the times at which [func] ran (latest
    first); the timer is one of [Timers.TimerQueue].  A scroll event and a
    due timer are tasks of different sources, which the browser may run
    in either order: [th_step] lets a call happen at any time from the
    current clock on, and a timer fire whenever one is pending.

    [scroll_events] is the deterministic event loop of a page that only
    scrolls (a due timer runs before the next event); [throttle_ref] is
    the pure leading-edge throttle it is proved equivalent to. *)

From Stdlib Require Import Sorting.Sorted.
From stdpp Require Import base list.
From S2P Require Import Prelude Timers.

Module Throttle.
Import Timers.
Local Open Scope nat_scope.

Inductive throttle_cb := ResetThrottle.

Record Throttle := MkThrottle { th_in : bool; th_runs : list nat }.

Section Model.
Context `{TQ : TimerQueue T}.
Variable limit : nat.

(** A call of the returned function, at the current time of the clock. *)
Definition throttled_call (s : Throttle) (q : T throttle_cb) : Throttle * T throttle_cb :=
  if th_in s then (s, q)
  else (MkThrottle true (tq_now q :: th_runs s), tq_set limit ResetThrottle q).

(** The timer's callback [() => inThrottle = false]. *)
Definition reset_throttle (c : throttle_cb) (s : Throttle) (q : T throttle_cb) : Throttle * T throttle_cb :=
  (MkThrottle false (th_runs s), q).

Inductive th_step : Throttle * T throttle_cb -> Throttle * T throttle_cb -> Prop :=
  | th_call s q t : tq_now q <= t -> th_step (s, q) (throttled_call s (tq_advance t q))
  | th_fire s q c q' : tq_pop q = Some (c, q') -> th_step (s, q) (reset_throttle c s q').

(** From the registration on, with no timer of the throttle pending. *)
Inductive th_reach (q0 : T throttle_cb) : Throttle * T throttle_cb -> Prop :=
  | th_start : tq_pending q0 = [] -> th_reach q0 (MkThrottle false [], q0)
  | th_next x y : th_reach q0 x -> th_step x y -> th_reach q0 y.

(** Successive runs (latest first) at least [limit] ms apart. *)
Fixpoint spaced (l : list nat) : Prop :=
  match l with
  | a :: ((b :: _) as l') => b + limit <= a /\ spaced l'
  | _ => True
  end.

(** The invariant: when open, no timer is pending and the last run is at
    least [limit] ms old; when closed, exactly the timer that reopens it
    is pending, due [limit] ms after the last run. *)
Definition th_inv (s : Throttle) (q : T throttle_cb) : Prop :=
  spaced (th_runs s) /\
  if th_in s then
    exists r, head (th_runs s) = Some r /\ tq_pending q = [(r + limit, ResetThrottle)] /\ r <= tq_now q
  else tq_pending q = [] /\ (forall r, head (th_runs s) = Some r -> r + limit <= tq_now q).

(** ** The throttle against its reference

    The event loop of a page that only scrolls: before a scroll event at
    time [t] the browser runs the timer of the throttle if it is due by
    [t], then it dispatches the event. *)
Definition fire_due (t : nat) (x : Throttle * T throttle_cb) : Throttle * T throttle_cb :=
  match tq_pop x.2 with
  | Some (c, q') => if tq_now q' <=? t then reset_throttle c x.1 q' else x
  | None => x
  end.

Definition scroll_at (x : Throttle * T throttle_cb) (t : nat) : Throttle * T throttle_cb :=
  let x' := fire_due t x in throttled_call x'.1 (tq_advance t x'.2).

Definition scroll_events (ts : list nat) (x : Throttle * T throttle_cb) : Throttle * T throttle_cb :=
  foldl scroll_at x ts.

(** The reference: a leading-edge throttle on the times of the calls; a
    call runs when it comes [limit] ms or more after the last run (runs
    latest first). *)
Definition th_open (runs : list nat) (t : nat) : bool :=
  match runs with [] => true | r :: _ => r + limit <=? t end.

Fixpoint throttle_ref (runs : list nat) (ts : list nat) : list nat :=
  match ts with
  | [] => runs
  | t :: ts' => throttle_ref (if th_open runs t then t :: runs else runs) ts'
  end.

End Model.

(** ** Examples: the script's [limit] of 16 ms; scroll events at 0, 5
    and 20 ms, the timer running between the last two *)

Definition th_demo0 : Throttle * list_timers throttle_cb := (MkThrottle false [], tq_empty 0).

Definition th_demo1 := throttled_call 16 th_demo0.1 (tq_advance 0 th_demo0.2).
Definition th_demo2 := throttled_call 16 th_demo1.1 (tq_advance 5 th_demo1.2).
Definition th_demo3 :=
  match tq_pop th_demo2.2 with
  | Some (c, q') => reset_throttle c th_demo2.1 q'
  | None => th_demo2
  end.
Definition th_demo4 := throttled_call 16 th_demo3.1 (tq_advance 20 th_demo3.2).

(** ** Lemmas *)

Section Facts.
Context `{TQ : TimerQueue T}.
Variable limit : nat.

Lemma th_inv_start (q0 : T throttle_cb) : tq_pending q0 = [] -> th_inv limit (MkThrottle false []) q0.
Proof. intros H. split; [done|]. split; [done|]. discriminate. Qed.

Lemma th_inv_call s (q : T throttle_cb) t :
  th_inv limit s q -> tq_now q <= t ->
  let '(s', q') := throttled_call limit s (tq_advance t q) in th_inv limit s' q'.
Proof.
  destruct s as [[|] runs]; intros [Hsp Hin] Ht; cbn in *.
  - destruct Hin as (r & Hr & Hp & Hle). split; [done|].
    exists r. rewrite tq_advance_pending, tq_advance_now. split_and!; [done | done | lia].
  - destruct Hin as [Hp Hr]. rewrite tq_advance_now. split.
    + destruct runs as [|r runs]; cbn; [done|]. specialize (Hr r eq_refl). split; [lia | done].
    + exists (Nat.max (tq_now q) t). split; [done|].
      rewrite tq_pending_set, tq_advance_pending, tq_now_set, tq_advance_now, Hp. split; [done | lia].
Qed.

Lemma th_inv_fire s (q : T throttle_cb) c q' :
  th_inv limit s q -> tq_pop q = Some (c, q') ->
  let '(s', q'') := reset_throttle c s q' in th_inv limit s' q''.
Proof.
  destruct s as [[|] runs]; intros [Hsp Hin] Hpop; cbn in *.
  - destruct Hin as (r & Hr & Hp & Hle).
    destruct (tq_pop_some q _ _ _ Hp) as (q2 & Hpop2 & Hp2 & Hn2). rewrite Hpop in Hpop2.
    simplify_eq. split; [done|]. split; [done|].
    intros r' Hr'. destruct runs; cbn in *; simplify_eq. lia.
  - destruct Hin as [Hp _]. by rewrite tq_pop_none in Hpop.
Qed.

Lemma th_reach_inv (q0 : T throttle_cb) x : th_reach limit q0 x -> th_inv limit x.1 x.2.
Proof.
  induction 1 as [Hq0 | x y _ IH Hstep]; [by apply th_inv_start|].
  destruct Hstep as [s q t Ht | s q c q' Hpop]; cbn in IH.
  - pose proof (th_inv_call s q t IH Ht) as H.
    destruct (throttled_call limit s (tq_advance t q)). exact H.
  - exact (th_inv_fire s q c q' IH Hpop).
Qed.

Lemma scroll_at_step s (q : T throttle_cb) t :
  th_inv limit s q -> tq_now q <= t ->
  let '(s', q') := scroll_at limit (s, q) t in
  th_inv limit s' q' /\ tq_now q' = t /\
  th_runs s' = if th_open limit (th_runs s) t then t :: th_runs s else th_runs s.
Proof.
  intros Hinv Ht. unfold scroll_at, fire_due. cbn [fst snd].
  destruct s as [[|] runs]; destruct Hinv as [Hsp Hin]; cbn in Hin.
  - destruct Hin as (r & Hr & Hp & Hle). destruct runs as [|r' runs]; [discriminate|].
    injection Hr as ->. destruct (tq_pop_some q _ _ _ Hp) as (q' & Hpop & Hp' & Hn').
    rewrite Hpop, Hn'. cbn [th_open th_runs].
    destruct (Nat.max (tq_now q) (r + limit) <=? t) eqn:E;
      [apply Nat.leb_le in E | apply Nat.leb_gt in E].
    + rewrite (proj2 (Nat.leb_le _ _)) by lia.
      pose proof (th_inv_call (MkThrottle false (r :: runs)) q' t) as H.
      cbn [reset_throttle]. destruct (throttled_call limit _ _) as [s2 q2] eqn:E2.
      split.
      { apply H; [|rewrite Hn'; lia]. split; [done|]. split; [exact Hp'|].
        intros r2 [= <-]. rewrite Hn'. lia. }
      cbn in E2. injection E2 as <- <-. rewrite tq_now_set, tq_advance_now, Hn'.
      assert (Hm : Nat.max (Nat.max (tq_now q) (r + limit)) t = t) by lia. by rewrite Hm.
    + rewrite (proj2 (Nat.leb_gt _ _)) by lia. cbn. rewrite tq_advance_now. split_and!; [|lia|done].
      split; [done|]. exists r. rewrite tq_advance_pending, tq_advance_now. split_and!; [done | done | lia].
  - destruct Hin as [Hp Hr]. rewrite tq_pop_none by done. cbn.
    rewrite tq_advance_now. assert (Ho : th_open limit runs t = true).
    { destruct runs as [|r runs]; [done|]. apply Nat.leb_le. specialize (Hr r eq_refl). lia. }
    rewrite Ho. pose proof (th_inv_call (MkThrottle false runs) q t (conj Hsp (conj Hp Hr)) Ht) as H.
    cbn in H. rewrite tq_advance_now in H. rewrite tq_now_set, tq_advance_now.
    assert (Hm : Nat.max (tq_now q) t = t) by lia. rewrite Hm in H |- *. by split_and!.
Qed.

Lemma scroll_events_ref ts s (q : T throttle_cb) :
  th_inv limit s q -> Sorted le (tq_now q :: ts) ->
  th_runs (scroll_events limit ts (s, q)).1 = throttle_ref limit (th_runs s) ts.
Proof.
  revert s q. induction ts as [|t ts IH]; intros s q Hinv Hs; [done|].
  apply Sorted_inv in Hs as [Hs Hhd]. apply HdRel_inv in Hhd.
  pose proof (scroll_at_step s q t Hinv Hhd) as H. cbn [scroll_events foldl throttle_ref].
  change (foldl (scroll_at limit) (scroll_at limit (s, q) t) ts)
    with (scroll_events limit ts (scroll_at limit (s, q) t)).
  destruct (scroll_at limit (s, q) t) as [s' q'] eqn:E. destruct H as (Hinv' & Hn & Hr).
  rewrite IH; [by rewrite Hr | exact Hinv' | by rewrite Hn].
Qed.

End Facts.

Section Properties.
Context `{TQ : TimerQueue T}.

(** The throttle keeps its promise: in every state reachable from the
    registration, through any interleaving of scroll events and timer
    runs, two runs of the throttled function are at least [limit] ms
    apart. *)
Lemma throttle_spacing limit (q0 : T throttle_cb) s q :
  th_reach limit q0 (s, q) -> spaced limit (th_runs s).
Proof. intros Hr. exact (proj1 (th_reach_inv limit q0 _ Hr)). Qed.

(** The throttle never stays closed: whenever it is closed, the timer
    that reopens it is the one pending, running it is a step, and the
    next call after that runs the function. *)
Lemma throttle_reopens limit (q0 : T throttle_cb) s q :
  th_reach limit q0 (s, q) -> th_in s = true ->
  exists q', tq_pop q = Some (ResetThrottle, q') /\
    th_step limit (s, q) (MkThrottle false (th_runs s), q') /\
    forall t, tq_now q' <= t ->
      (throttled_call limit (MkThrottle false (th_runs s)) (tq_advance t q')).1 =
        MkThrottle true (t :: th_runs s).
Proof.
  intros Hr Hin. destruct (th_reach_inv limit q0 _ Hr) as [_ Hinv]. cbn in Hinv.
  rewrite Hin in Hinv. destruct Hinv as (r & _ & Hp & _).
  destruct (tq_pop_some q _ _ _ Hp) as (q' & Hpop & _ & _).
  exists q'. split_and!; [exact Hpop | exact (th_fire limit s q _ q' Hpop) |].
  intros t Ht. cbn. rewrite tq_advance_now. f_equal. f_equal. lia.
Qed.

(** C31. Equivalence with the reference: on a page whose scroll events
    come at times [ts] (the timer of the throttle running first when it
    is due by the time of an event), the function runs at exactly the
    events a leading-edge throttle keeps: those [limit] ms or more after
    the last run. *)
Theorem throttle_equiv limit (q0 : T throttle_cb) ts :
  tq_pending q0 = [] -> Sorted le (tq_now q0 :: ts) ->
  th_runs (scroll_events limit ts (MkThrottle false [], q0)).1 = throttle_ref limit [] ts.
Proof. intros Hq Hs. apply scroll_events_ref; [by apply th_inv_start | exact Hs]. Qed.

End Properties.

(** ** Witnesses *)

Lemma th_demo_reach : th_reach 16 (tq_empty 0) th_demo4.
Proof.
  eapply th_next; [eapply th_next; [eapply th_next; [eapply th_next|]|]|].
  - apply th_start. reflexivity.
  - apply (th_call 16 th_demo0.1 th_demo0.2 0). cbn. lia.
  - apply (th_call 16 th_demo1.1 th_demo1.2 5). cbn. lia.
  - apply (th_fire 16 th_demo2.1 th_demo2.2 ResetThrottle (ListTimers 16 [])). reflexivity.
  - apply (th_call 16 th_demo3.1 th_demo3.2 20). cbn. lia.
Qed.

Lemma throttle_spacing_witness :
  th_runs th_demo4.1 = [20; 0] /\ spaced 16 (th_runs th_demo4.1).
Proof.
  split; [reflexivity|].
  exact (throttle_spacing 16 (tq_empty 0) th_demo4.1 th_demo4.2 th_demo_reach).
Defined.

Lemma throttle_reopens_witness :
  th_in th_demo4.1 = true /\
  exists q', tq_pop th_demo4.2 = Some (ResetThrottle, q') /\
    (throttled_call 16 (MkThrottle false (th_runs th_demo4.1)) (tq_advance 40 q')).1 =
      MkThrottle true [40; 20; 0].
Proof.
  split; [reflexivity|].
  destruct (throttle_reopens 16 (tq_empty 0) th_demo4.1 th_demo4.2 th_demo_reach eq_refl)
    as (q' & Hpop & _ & Hcall).
  exists q'. split; [exact Hpop|].
  assert (Hq : q' = ListTimers 36 []) by (vm_compute in Hpop; congruence). subst q'.
  rewrite Hcall; [reflexivity | cbn; lia].
Defined.

Lemma throttle_equiv_witness :
  throttle_ref 16 [] [0; 5; 16; 20; 33; 40] = [33; 16; 0] /\
  th_runs (scroll_events 16 [0; 5; 16; 20; 33; 40] (MkThrottle false [], tq_empty (T := list_timers) 0)).1 =
    [33; 16; 0].
Proof.
  split; [reflexivity|].
  rewrite (throttle_equiv 16 (tq_empty 0) [0; 5; 16; 20; 33; 40] (tq_pending_empty 0)); [reflexivity|].
  cbn. repeat constructor.
Defined.

End Throttle.
