(* ===== verification/Contact.v ===== *)
(** * [initContactForm]: the simulated submission of the contact form

    [initContactForm] (script.js, lines 371-394) registers a [submit]
    listener on [#contact-form].  It cancels the submission, saves the
    text of the submit button in [originalText], shows a spinner and
    [" Sending..."], disables the button, and after 2000 ms shows an
    alert, resets the form and restores the button's text and state.

    The state is the form's field values and their defaults, the
    button's text, spinner and [disabled] flag, and the number of alerts
    shown; the timer is one of [Timers.TimerQueue], its callback carrying
    the [originalText] its closure captured.  A user can only submit
    through an enabled submit button (the HTML rule for activation and
    implicit submission); a script can dispatch [submit] at any time. *)

From stdpp Require Import base list strings.
From S2P Require Import Prelude Timers.

Module Contact.
Import Timers.
Local Open Scope nat_scope.

Inductive restore_cb := Restore (original : string).

Record Form := MkForm {
  fm_values : list string;
  fm_defaults : list string;
  fm_btn_text : string;
  fm_spinner : bool;
  fm_disabled : bool;
  fm_alerts : nat
}.

(** The [textContent] of ['<span class="loading"></span> Sending...']. *)
Definition sending_text : string := " Sending...".

Section Handlers.
Context `{TQ : TimerQueue T}.

(** The [submit] listener (lines 375-393). *)
Definition on_submit (f : Form) (q : T restore_cb) : Form * T restore_cb :=
  (MkForm (fm_values f) (fm_defaults f) sending_text true true (fm_alerts f),
   tq_set 2000 (Restore (fm_btn_text f)) q).

(** The timer's callback: [alert], [form.reset()], the saved text back
    and the button enabled. *)
Definition restore (c : restore_cb) (f : Form) (q : T restore_cb) : Form * T restore_cb :=
  let 'Restore original := c in
  (MkForm (fm_defaults f) (fm_defaults f) original false false (S (fm_alerts f)), q).

Definition set_values (vs : list string) (f : Form) : Form :=
  MkForm vs (fm_defaults f) (fm_btn_text f) (fm_spinner f) (fm_disabled f) (fm_alerts f).

Inductive cf_step : Form * T restore_cb -> Form * T restore_cb -> Prop :=
  | cf_user_submit f q t :
      fm_disabled f = false -> tq_now q <= t -> cf_step (f, q) (on_submit f (tq_advance t q))
  | cf_fire f q c q' : tq_pop q = Some (c, q') -> cf_step (f, q) (restore c f q')
  | cf_edit f q vs : cf_step (f, q) (set_values vs f, q).

(** From the page's load, with the button showing [text0]. *)
Inductive cf_reach (text0 : string) (vs0 : list string) (q0 : T restore_cb) :
    Form * T restore_cb -> Prop :=
  | cf_start : tq_pending q0 = [] -> cf_reach text0 vs0 q0 (MkForm vs0 vs0 text0 false false 0, q0)
  | cf_next x y : cf_reach text0 vs0 q0 x -> cf_step x y -> cf_reach text0 vs0 q0 y.

(** The button is either enabled, showing its text, with nothing pending,
    or disabled, showing the spinner, with the one timer that restores
    [text0] pending. *)
Definition cf_inv (text0 : string) (vs0 : list string) (f : Form) (q : T restore_cb) : Prop :=
  fm_defaults f = vs0 /\
  if fm_disabled f then
    fm_btn_text f = sending_text /\ fm_spinner f = true /\
    exists t, tq_pending q = [(t, Restore text0)]
  else fm_btn_text f = text0 /\ fm_spinner f = false /\ tq_pending q = [].

End Handlers.

(** ** Examples: a form with two fields, a button reading [Send], and
    a clock starting at 0 *)

Definition cf_demo0 : Form * list_timers restore_cb :=
  (MkForm ["Ada"; "Hello"] [""; ""] "Send" false false 0, tq_empty 0).

Definition cf_demo1 := on_submit cf_demo0.1 (tq_advance 10 cf_demo0.2).

(** ** Lemmas *)

Section Facts.
Context `{TQ : TimerQueue T}.
Variables (text0 : string) (vs0 : list string).

Lemma cf_inv_step x y : cf_inv text0 vs0 x.1 x.2 -> cf_step x y -> cf_inv text0 vs0 y.1 y.2.
Proof.
  intros Hinv Hs. destruct Hs as [f q t Hd Ht | f q c q' Hpop | f q vs]; cbn in *.
  - destruct Hinv as [Hdef Hinv]. rewrite Hd in Hinv. destruct Hinv as (Htxt & _ & Hp).
    split; [done|]. split_and!; [done | done |]. eexists.
    by rewrite tq_pending_set, tq_advance_pending, Hp, Htxt.
  - destruct Hinv as [Hdef Hinv]. destruct (fm_disabled f).
    + destruct Hinv as (_ & _ & t & Hp). destruct (tq_pop_some q _ _ _ Hp) as (q2 & Hpop2 & Hp2 & _).
      rewrite Hpop in Hpop2. simplify_eq. cbn. by split_and!.
    + destruct Hinv as (_ & _ & Hp). by rewrite tq_pop_none in Hpop.
  - exact Hinv.
Qed.

Lemma cf_reach_inv q0 x : cf_reach text0 vs0 q0 x -> cf_inv text0 vs0 x.1 x.2.
Proof.
  induction 1 as [Hq0 | x y _ IH Hs]; [by split | exact (cf_inv_step x y IH Hs)].
Qed.

End Facts.

Section Properties.
Context `{TQ : TimerQueue T}.

(** C32. Through any sequence of user submissions, edits and timer runs,
    the submit button is either enabled and shows its original text with
    nothing pending, or disabled with the spinner and [" Sending..."]
    while exactly one timer, which restores the original text, is
    pending. *)
Theorem contact_button_consistent text0 vs0 (q0 : T restore_cb) f q :
  cf_reach text0 vs0 q0 (f, q) ->
  (fm_disabled f = false -> fm_btn_text f = text0 /\ fm_spinner f = false /\ tq_pending q = []) /\
  (fm_disabled f = true -> fm_btn_text f = sending_text /\ fm_spinner f = true /\
     exists t, tq_pending q = [(t, Restore text0)]).
Proof.
  intros Hr. destruct (cf_reach_inv text0 vs0 q0 _ Hr) as [_ Hinv]. cbn in Hinv.
  destruct (fm_disabled f); split; intros H; done.
Qed.

(** While the form is sending, the pending timer ends it: running it
    shows one more alert, resets the fields to their defaults, and gives
    the button back its original text, without spinner, enabled. *)
Lemma contact_restore text0 vs0 (q0 : T restore_cb) f q :
  cf_reach text0 vs0 q0 (f, q) -> fm_disabled f = true ->
  exists q', run_timers restore 1 f q =
    (MkForm vs0 vs0 text0 false false (S (fm_alerts f)), q') /\ tq_pending q' = [].
Proof.
  intros Hr Hd. destruct (cf_reach_inv text0 vs0 q0 _ Hr) as [Hdef Hinv]. cbn in Hdef, Hinv.
  rewrite Hd in Hinv. destruct Hinv as (_ & _ & t & Hp).
  destruct (run_timers_step restore 0 f q _ _ _ Hp) as (q' & Hp' & _ & ->).
  exists q'. cbn. by rewrite Hdef.
Qed.

(** C33. The listener does not guard against a second [submit] while the
    first is pending (a script's [form.requestSubmit()], say): the second
    saves [" Sending..."] as the original text, and once both timers have
    run the enabled button keeps showing [" Sending..."]. *)
Theorem contact_double_submit f (q : T restore_cb) t1 t2 :
  tq_pending q = [] -> tq_now q <= t1 <= t2 ->
  let '(f1, q1) := on_submit f (tq_advance t1 q) in
  let '(f2, q2) := on_submit f1 (tq_advance t2 q1) in
  exists q', run_timers restore 2 f2 q2 =
    (MkForm (fm_defaults f) (fm_defaults f) sending_text false false (S (S (fm_alerts f))), q') /\
    tq_pending q' = [].
Proof.
  intros Hq Ht. cbn [on_submit fm_values fm_defaults fm_btn_text fm_alerts].
  set (q2 := tq_set 2000 (Restore sending_text)
               (tq_advance t2 (tq_set 2000 (Restore (fm_btn_text f)) (tq_advance t1 q)))).
  assert (Hp : tq_pending q2 = [(t1 + 2000, Restore (fm_btn_text f)); (t2 + 2000, Restore sending_text)]).
  { unfold q2. rewrite tq_pending_set, tq_advance_pending, tq_pending_set, tq_advance_pending, Hq.
    rewrite tq_advance_now, tq_now_set, tq_advance_now. cbn.
    rewrite bool_decide_true by lia. do 3 f_equal; lia. }
  set (f2 := MkForm (fm_values f) (fm_defaults f) sending_text true true (fm_alerts f)).
  destruct (run_timers_step restore 1 f2 q2 _ _ _ Hp) as (q3 & Hp3 & _ & ->). cbn [restore].
  destruct (run_timers_step restore 0 (MkForm (fm_defaults f2) (fm_defaults f2) (fm_btn_text f)
              false false (S (fm_alerts f2))) q3 _ _ _ Hp3) as (q4 & Hp4 & _ & ->). cbn.
  by exists q4.
Qed.

End Properties.

(** ** Witnesses *)

Lemma cf_demo_reach : cf_reach "Send" [""; ""] (tq_empty 0) cf_demo1.
Proof.
  eapply cf_next; [eapply cf_next; [apply cf_start; reflexivity|] |].
  - apply (cf_edit (MkForm [""; ""] [""; ""] "Send" false false 0) (tq_empty 0) ["Ada"; "Hello"]).
  - apply (cf_user_submit cf_demo0.1 cf_demo0.2 10); [reflexivity | cbn; lia].
Qed.

Lemma contact_button_consistent_witness :
  fm_btn_text cf_demo1.1 = sending_text /\ exists t, tq_pending cf_demo1.2 = [(t, Restore "Send")].
Proof.
  destruct (contact_button_consistent "Send" [""; ""] (tq_empty 0) cf_demo1.1 cf_demo1.2 cf_demo_reach)
    as [_ H]. destruct (H eq_refl) as (H1 & _ & H2). split; [exact H1 | exact H2].
Defined.

Lemma contact_restore_witness :
  exists q', run_timers restore 1 cf_demo1.1 cf_demo1.2 =
    (MkForm [""; ""] [""; ""] "Send" false false 1, q') /\ tq_pending q' = [].
Proof. exact (contact_restore "Send" [""; ""] (tq_empty 0) cf_demo1.1 cf_demo1.2 cf_demo_reach eq_refl). Defined.

Lemma contact_double_submit_witness :
  let '(f1, q1) := on_submit cf_demo0.1 (tq_advance 10 cf_demo0.2) in
  let '(f2, q2) := on_submit f1 (tq_advance 500 q1) in
  exists q', run_timers restore 2 f2 q2 = (MkForm [""; ""] [""; ""] sending_text false false 2, q') /\
    tq_pending q' = [].
Proof. exact (contact_double_submit cf_demo0.1 cf_demo0.2 10 500 eq_refl ltac:(cbn; lia)). Defined.

End Contact.
