(* ===== verification/Boot.v ===== *)
(** * The start of the page: the two [DOMContentLoaded] listeners

    The first listener (script.js, lines 517-549) calls the twelve
    [init*] routines in order, then adds the animation classes: [fade-in]
    to every [section] but the first, [slide-in-left] / [slide-in-right]
    alternately to the project cards, [fade-in] to the skill items.  The
    second listener (lines 552-584) registers the hover effects.  An
    exception thrown by a routine leaves the first listener there (the
    rest of its body does not run); the browser reports it and still
    calls the second listener.

    Of the routines, [initThreeJS] throws when the page has the canvas
    but the Three.js script did not load (the section variable
    [three_loaded]), and [initNavigation] throws without a [.hamburger]
    ([Navigation.init_navigation]); [initScrollAnimations] records the
    elements it observes: those that carry an animation class when it
    runs.  The other routines are modelled in their own files and appear
    here by name, in the order they run. *)

From stdpp Require Import base list strings sets.
From S2P Require Import Prelude Dom Navigation Double JsNumber.

Module Boot.
Import Dom Double JsNumber.
Local Open Scope nat_scope.

Inductive routine :=
  | RThree | RNavigation | RScrollAnimations | RSkillBars | RFloating | RContact
  | RScrollProgress | RNavbarScroll | RParallax | RTyping | RCounter | RGlitch.

#[export] Instance routine_eq_dec : EqDecision routine.
Proof. solve_decision. Defined.

(** The calls of lines 518-529, in order. *)
Definition boot_order : list routine :=
  [RThree; RNavigation; RScrollAnimations; RSkillBars; RFloating; RContact;
   RScrollProgress; RNavbarScroll; RParallax; RTyping; RCounter; RGlitch].

Record Boot := MkBoot {
  bt_doc : Doc;
  bt_ran : list routine;
  bt_observed : list nat;
  bt_hover : bool
}.

(** [.fade-in, .slide-in-left, .slide-in-right] (line 328). *)
Definition anim_sel : list selector :=
  [ByClass "fade-in"; ByClass "slide-in-left"; ByClass "slide-in-right"].

(** [document.getElementById('hero-canvas')] (line 10). *)
Definition canvas_sel : list selector := [ById "hero-canvas"].

(** The routines, for a page where the global [THREE] of the Three.js
    script exists ([three_loaded]) or not (the script failed to load). *)
Section Startup.
Variable three_loaded : bool.

(** One routine: [None] when it throws.  [initThreeJS] returns at once
    without a canvas (line 11); with one, [new THREE.Scene()] (line 14)
    throws a [ReferenceError] when [THREE] is not defined. *)
Definition run_routine (r : routine) (b : Boot) : option Boot :=
  match r with
  | RThree =>
      match query canvas_sel (bt_doc b) with
      | Some _ => if three_loaded then Some (MkBoot (bt_doc b) (bt_ran b ++ [r]) (bt_observed b) (bt_hover b))
                  else None
      | None => Some (MkBoot (bt_doc b) (bt_ran b ++ [r]) (bt_observed b) (bt_hover b))
      end
  | RNavigation =>
      match Navigation.init_navigation (bt_doc b) with
      | None => None
      | Some _ => Some (MkBoot (bt_doc b) (bt_ran b ++ [r]) (bt_observed b) (bt_hover b))
      end
  | RScrollAnimations =>
      Some (MkBoot (bt_doc b) (bt_ran b ++ [r]) (query_all anim_sel (bt_doc b)) (bt_hover b))
  | _ => Some (MkBoot (bt_doc b) (bt_ran b ++ [r]) (bt_observed b) (bt_hover b))
  end.

(** The routines in order, stopping at the first exception: the state
    reached and whether all of them returned. *)
Fixpoint run_routines (rs : list routine) (b : Boot) : Boot * bool :=
  match rs with
  | [] => (b, true)
  | r :: rs' => match run_routine r b with
                | None => (b, false)
                | Some b' => run_routines rs' b'
                end
  end.

Definition add_class_at (c : string) (i : nat) (d : Doc) : Doc :=
  modify_elem (fun e => set_classes (cl_add c (e_classes e)) e) i d.

(** [forEach] over a list of elements, adding to each a class that may
    depend on the element and its index. *)
Definition add_all {A} (cls : A -> string) (idx : A -> nat) (l : list A) (d : Doc) : Doc :=
  foldl (fun d a => add_class_at (cls a) (idx a) d) d l.

Definition set_style_at (k v : string) (i : nat) (d : Doc) : Doc := modify_elem (set_style k v) i d.

(** [`${index * 0.1}s`] (line 547): the index times the double nearest
    [0.1], as [Number::toString] writes it, then [s]; the fourth item (index 3) gets
    ["0.30000000000000004s"]. *)
Definition animation_delay (index : nat) : string :=
  show_num (js_mul (FloatNum (inject_Z (Z.of_nat index))) (fl (1 # 10)%Q)) +:+ "s".

(** Lines 545-548: each skill item, in order, gets [fade-in] and then
    its [animationDelay]. *)
Definition init_skill_items (l : list nat) (d : Doc) : Doc :=
  foldl (fun d ki => set_style_at "animationDelay" (animation_delay ki.1) ki.2 (add_class_at "fade-in" ki.2 d))
    d (imap pair l).

(** Lines 532-548: [fade-in] on the sections after the first (index
    [> 0]), [slide-in-left] on the project cards of even index and
    [slide-in-right] on the others, [fade-in] and a delay of [0.1s] per
    index on the skill items. *)
Definition add_animation_classes (d : Doc) : Doc :=
  let d1 := add_all (fun _ => "fade-in") id (drop 1 (query_all [ByTag "section"] d)) d in
  let d2 := add_all (fun ki => if Nat.even ki.1 then "slide-in-left" else "slide-in-right") snd
              (imap pair (query_all [ByClass "project-card"] d1)) d1 in
  init_skill_items (query_all [ByClass "skill-item"] d2) d2.

(** The first listener. *)
Definition first_listener (b : Boot) : Boot :=
  let '(b', ok) := run_routines boot_order b in
  if ok then MkBoot (add_animation_classes (bt_doc b')) (bt_ran b') (bt_observed b') (bt_hover b')
  else b'.

(** The second listener: the hover effects. *)
Definition second_listener (b : Boot) : Boot :=
  MkBoot (bt_doc b) (bt_ran b) (bt_observed b) true.

Definition dom_content_loaded (d : Doc) : Boot :=
  second_listener (first_listener (MkBoot d [] [] false)).

End Startup.

(** [initThreeJS] does not throw: [THREE] is defined or there is no
    canvas. *)
Definition three_ok (three_loaded : bool) (d : Doc) : bool :=
  three_loaded || bool_decide (query canvas_sel d = None).

(** The callback of the scroll-animation observer (lines 319-325): every
    entry that intersects gets [visible] on its target. *)
Definition reveal (entries : list (nat * bool)) (d : Doc) : Doc :=
  foldl (fun d (ie : nat * bool) => if ie.2 then add_class_at "visible" ie.1 d else d) d entries.

Definition has_class (c : string) (i : nat) (d : Doc) : bool :=
  match d !! i with Some e => cl_contains c (e_classes e) | None => false end.

(** A page for the examples: a hamburger, two sections (the hero and
    [about]) and a project card, none with an animation class. *)
Definition boot_demo : Doc :=
  [Navigation.demo_elem "button" None ["hamburger"] [];
   Navigation.demo_elem "section" (Some "hero") [] [];
   Navigation.demo_elem "section" (Some "about") [] [];
   Navigation.demo_elem "div" None ["project-card"] []].

(** The hero canvas. *)
Definition canvas_demo : Elem := Navigation.demo_elem "canvas" (Some "hero-canvas") [] [].

(** ** Lemmas *)

Section ClassFacts.
Implicit Types (d : Doc) (c x : string) (i j : nat).

Lemma length_add_class_at c i d : length (add_class_at c i d) = length d.
Proof. apply length_modify_elem. Qed.

Lemma has_class_add_mono c x i j d :
  has_class x j d = true -> has_class x j (add_class_at c i d) = true.
Proof.
  unfold has_class, add_class_at. rewrite lookup_modify_elem.
  case_decide; [subst|done]. destruct (d !! j); cbn; [|done].
  rewrite !cl_contains_spec, elem_of_cl_add. auto.
Qed.

Lemma has_class_add_other c x i j d :
  x <> c -> has_class x j (add_class_at c i d) = has_class x j d.
Proof.
  intros Hx. unfold has_class, add_class_at. rewrite lookup_modify_elem.
  case_decide; [subst|done]. destruct (d !! j); cbn; [|done].
  apply bool_decide_ext. rewrite elem_of_cl_add. naive_solver.
Qed.

Lemma has_class_add_hit c i d : (i < length d)%nat -> has_class c i (add_class_at c i d) = true.
Proof.
  intros Hi. unfold has_class, add_class_at. rewrite lookup_modify_elem, decide_True by done.
  destruct (lookup_lt_is_Some_2 d i Hi) as [e ->]. cbn.
  apply cl_contains_spec, elem_of_cl_add. by left.
Qed.

Context {A : Type} (cls : A -> string) (idx : A -> nat).

Lemma add_all_cons a l d : add_all cls idx (a :: l) d = add_all cls idx l (add_class_at (cls a) (idx a) d).
Proof. done. Qed.

Lemma length_add_all l d : length (add_all cls idx l d) = length d.
Proof.
  revert d. induction l as [|a l IH]; intros d; [done|].
  by rewrite add_all_cons, IH, length_add_class_at.
Qed.

Lemma has_class_add_all_mono x j l d :
  has_class x j d = true -> has_class x j (add_all cls idx l d) = true.
Proof.
  revert d. induction l as [|a l IH]; intros d H; [done|]. apply IH, has_class_add_mono, H.
Qed.

Lemma has_class_add_all_other x j l d :
  (forall a, a ∈ l -> cls a <> x) -> has_class x j (add_all cls idx l d) = has_class x j d.
Proof.
  revert d. induction l as [|a l IH]; intros d H; [done|]. rewrite add_all_cons.
  rewrite IH by set_solver. apply has_class_add_other. apply not_eq_sym, H. set_solver.
Qed.

Lemma has_class_add_all_hit a l d :
  a ∈ l -> (idx a < length d)%nat -> has_class (cls a) (idx a) (add_all cls idx l d) = true.
Proof.
  revert d. induction l as [|b l IH]; intros d Ha Hlt; [set_solver|]. rewrite add_all_cons.
  apply elem_of_cons in Ha as [->|Ha].
  - apply has_class_add_all_mono, has_class_add_hit, Hlt.
  - apply IH; [done | by rewrite length_add_class_at].
Qed.

End ClassFacts.

Section SkillItems.
Implicit Types (d : Doc) (x : string) (j : nat) (l : list nat).

Lemma has_class_set_style_at k v i x j d : has_class x j (set_style_at k v i d) = has_class x j d.
Proof.
  unfold has_class, set_style_at. rewrite lookup_modify_elem.
  case_decide; [subst|done]. by destruct (d !! j).
Qed.

Lemma init_skill_items_step l d (P : Doc -> Prop) :
  P d -> (forall d i s, P d -> P (set_style_at "animationDelay" s i (add_class_at "fade-in" i d))) ->
  P (init_skill_items l d).
Proof.
  unfold init_skill_items. generalize (imap pair l). intros kis H0 Hs.
  revert d H0. induction kis as [|ki kis IH]; intros d H0; [done|]. cbn. apply IH, Hs, H0.
Qed.

Lemma length_init_skill_items l d : length (init_skill_items l d) = length d.
Proof.
  apply (init_skill_items_step l d (fun d' => length d' = length d)); [done|].
  intros d' i s <-. unfold set_style_at. by rewrite length_modify_elem, length_add_class_at.
Qed.

Lemma has_class_init_skill_items_mono x j l d :
  has_class x j d = true -> has_class x j (init_skill_items l d) = true.
Proof.
  intros H. apply (init_skill_items_step l d (fun d' => has_class x j d' = true)); [done|].
  intros d' i s Hd. rewrite has_class_set_style_at. by apply has_class_add_mono.
Qed.

Lemma has_class_init_skill_items_other x j l d :
  x <> "fade-in" -> has_class x j (init_skill_items l d) = has_class x j d.
Proof.
  intros Hx. apply (init_skill_items_step l d (fun d' => has_class x j d' = has_class x j d)); [done|].
  intros d' i s Hd. by rewrite has_class_set_style_at, has_class_add_other.
Qed.

End SkillItems.

Lemma has_class_animation_other x j d :
  x <> "fade-in" -> x <> "slide-in-left" -> x <> "slide-in-right" ->
  has_class x j (add_animation_classes d) = has_class x j d.
Proof.
  intros H1 H2 H3. unfold add_animation_classes.
  rewrite has_class_init_skill_items_other, !has_class_add_all_other; [done | intros ? _; done | | done].
  intros [k i] _. cbn. by destruct (Nat.even k).
Qed.

Lemma has_class_animation_mono x j d :
  has_class x j d = true -> has_class x j (add_animation_classes d) = true.
Proof.
  intros H. unfold add_animation_classes. apply has_class_init_skill_items_mono. by do 2 apply has_class_add_all_mono.
Qed.

Lemma has_class_reveal_other x j entries d :
  x <> "visible" -> has_class x j (reveal entries d) = has_class x j d.
Proof.
  intros Hx. unfold reveal. revert d. induction entries as [|[i b] es IH]; intros d; [done|].
  cbn. rewrite IH. destruct b; [by apply has_class_add_other | done].
Qed.

(** Entries about other targets leave an element's [visible] as it is. *)
Lemma has_class_reveal_unobserved j (observed : list nat) entries d :
  j ∉ observed -> Forall (fun ie => ie.1 ∈ observed) entries ->
  has_class "visible" j (reveal entries d) = has_class "visible" j d.
Proof.
  intros Hj Hes. unfold reveal. revert d. induction entries as [|[i b] es IH]; intros d; [done|].
  apply Forall_cons in Hes as [Hi Hes]. cbn. rewrite IH by done. destruct b; [|done].
  unfold has_class, add_class_at. rewrite lookup_modify_elem, decide_False by (cbn in Hi; set_solver). done.
Qed.

Lemma run_routine_three three d ran obs hov :
  three_ok three d = true ->
  run_routine three RThree (MkBoot d ran obs hov) = Some (MkBoot d (ran ++ [RThree]) obs hov).
Proof.
  intros H. cbn. destruct (query canvas_sel d) eqn:E; [|done].
  destruct three; [done|]. unfold three_ok in H. rewrite E in H. by case_bool_decide.
Qed.

Lemma run_routines_ok three rs d ran obs hov ls :
  three_ok three d = true -> Navigation.init_navigation d = Some ls ->
  run_routines three rs (MkBoot d ran obs hov) =
    (MkBoot d (ran ++ rs) (if bool_decide (RScrollAnimations ∈ rs) then query_all anim_sel d else obs) hov,
     true).
Proof.
  intros H3 E. revert ran obs. induction rs as [|r rs IH]; intros ran obs.
  - by rewrite app_nil_r.
  - cbn [run_routines]. destruct r; rewrite ?(run_routine_three three d ran obs hov H3);
      cbn [run_routine bt_doc bt_ran bt_observed bt_hover];
      rewrite ?E, IH, <-app_assoc; f_equal; f_equal;
      repeat case_bool_decide; set_solver.
Qed.

Lemma dom_content_loaded_ok three d :
  three_ok three d = true -> query Navigation.hamburger_sel d <> None ->
  dom_content_loaded three d = MkBoot (add_animation_classes d) boot_order (query_all anim_sel d) true.
Proof.
  intros H3 H. destruct (Navigation.init_navigation d) as [ls|] eqn:E.
  - unfold dom_content_loaded, first_listener. rewrite (run_routines_ok three _ d [] [] false ls H3 E).
    cbn [bt_doc bt_ran bt_observed bt_hover]. rewrite bool_decide_true by (cbn; set_solver). done.
  - unfold Navigation.init_navigation in E. by destruct (query Navigation.hamburger_sel d).
Qed.

Lemma dom_content_loaded_missing three d :
  three_ok three d = true -> query Navigation.hamburger_sel d = None ->
  dom_content_loaded three d = MkBoot d [RThree] [] true.
Proof.
  intros H3 H. unfold dom_content_loaded, first_listener. cbn [boot_order run_routines].
  rewrite (run_routine_three three d [] [] false H3). cbn [run_routines run_routine bt_doc].
  unfold Navigation.init_navigation. by rewrite H.
Qed.

Section Properties.

(** C16. The peripheral routines do not all "no-op when their elements are
    missing": the first listener stops at the first routine that throws.
    When the Three.js script did not load, [initThreeJS] throws on a page
    with the canvas and none of the twelve routines completes; otherwise,
    without a [.hamburger], [initNavigation] throws, so only
    [initThreeJS] has run.  In both cases no animation class is added,
    and the second listener (hover effects) still runs. *)
Theorem boot_stops_at_first_throw three d :
  (query canvas_sel d <> None -> dom_content_loaded false d = MkBoot d [] [] true) /\
  (three_ok three d = true -> query Navigation.hamburger_sel d = None ->
     dom_content_loaded three d = MkBoot d [RThree] [] true).
Proof.
  split; [|apply dom_content_loaded_missing].
  intros Hc. unfold dom_content_loaded, first_listener. cbn [boot_order run_routines run_routine bt_doc].
  by destruct (query canvas_sel d).
Qed.

(** C35. With a [.hamburger], the first listener runs the twelve routines
    in the order of the source, [initScrollAnimations] observes the
    elements that carry an animation class in the page as loaded, and
    every [section] but the first then receives [fade-in]. *)
Theorem boot_complete three d :
  three_ok three d = true -> query Navigation.hamburger_sel d <> None ->
  let b := dom_content_loaded three d in
  bt_ran b = boot_order /\ bt_observed b = query_all anim_sel d /\ bt_hover b = true /\
  forall k i, (1 <= k)%nat -> query_all [ByTag "section"] d !! k = Some i ->
    has_class "fade-in" i (bt_doc b) = true.
Proof.
  intros H3 H. cbv zeta. rewrite (dom_content_loaded_ok three d H3 H). cbn. split_and!; [done | done | done |].
  intros k i Hk Hi. unfold add_animation_classes. apply has_class_init_skill_items_mono, has_class_add_all_mono.
  assert (Hd : i ∈ drop 1 (query_all [ByTag "section"] d)).
  { apply list_elem_of_lookup. exists (k - 1)%nat. rewrite lookup_drop. by replace (1 + (k - 1))%nat with k by lia. }
  apply (has_class_add_all_hit (fun _ => "fade-in") id i _ d Hd).
  assert (Hq : i ∈ query_all [ByTag "section"] d) by (by eapply list_elem_of_lookup_2).
  apply elem_of_query_all in Hq as (e & He & _). by eapply lookup_lt_Some.
Qed.

(** [initScrollAnimations] runs before the listener adds the animation
    classes, so an element that has none of them in the page as loaded
    (a section after the first, a project card, a skill item) is never
    observed, and no run of the observer's callback (whose entries are
    about observed elements) gives it [visible]. *)
Lemma scroll_reveal_misses_added_classes three d i e entries :
  three_ok three d = true -> query Navigation.hamburger_sel d <> None ->
  d !! i = Some e -> matches_any anim_sel e = false ->
  let b := dom_content_loaded three d in
  Forall (fun ie => ie.1 ∈ bt_observed b) entries ->
  (i ∉ bt_observed b) /\
  has_class "visible" i (reveal entries (bt_doc b)) = has_class "visible" i d.
Proof.
  intros H3 H He Hm. cbv zeta. intros Hes. revert Hes. rewrite (dom_content_loaded_ok three d H3 H). cbn [bt_observed bt_doc].
  assert (Hi : i ∉ query_all anim_sel d).
  { rewrite elem_of_query_all. intros (e' & He' & Hm'). congruence. }
  intros Hes. split; [exact Hi|]. rewrite (has_class_reveal_unobserved _ _ _ _ Hi Hes).
  by apply has_class_animation_other.
Qed.

End Properties.

(** ** Witnesses *)

Lemma boot_stops_at_first_throw_witness :
  dom_content_loaded false (canvas_demo :: boot_demo) = MkBoot (canvas_demo :: boot_demo) [] [] true /\
  dom_content_loaded true (drop 1 boot_demo) = MkBoot (drop 1 boot_demo) [RThree] [] true.
Proof.
  split; [apply (boot_stops_at_first_throw true (canvas_demo :: boot_demo)); discriminate|].
  apply (boot_stops_at_first_throw true (drop 1 boot_demo)); reflexivity.
Defined.

Lemma boot_complete_witness :
  bt_ran (dom_content_loaded true boot_demo) = boot_order /\
  has_class "fade-in" 2 (bt_doc (dom_content_loaded true boot_demo)) = true.
Proof.
  destruct (boot_complete true boot_demo eq_refl ltac:(discriminate)) as (H1 & _ & _ & H4).
  split; [exact H1 | apply (H4 1%nat 2%nat); [lia | reflexivity]].
Defined.

Lemma scroll_reveal_misses_added_classes_witness :
  let b := dom_content_loaded true boot_demo in
  has_class "fade-in" 2 (bt_doc b) = true /\
  has_class "visible" 2 (reveal [] (bt_doc b)) = false.
Proof.
  cbv zeta. split; [vm_compute; reflexivity|].
  destruct (scroll_reveal_misses_added_classes true boot_demo 2 (Navigation.demo_elem "section" (Some "about") [] [])
              [] eq_refl ltac:(discriminate) eq_refl eq_refl (Forall_nil_2 _)) as [_ H].
  rewrite H. reflexivity.
Defined.

(** The delays the first skill items get: [index * 0.1] in doubles, so
    the fourth item (index 3) is delayed by [0.30000000000000004s]. *)
Lemma animation_delays :
  animation_delay <$> seq 0 5 = ["0s"; "0.1s"; "0.2s"; "0.30000000000000004s"; "0.4s"]%string.
Proof. vm_compute. reflexivity. Qed.

End Boot.
