(* ===== verification/ScrollEffects.v ===== *)
(** * The scroll listeners: progress bar, navbar and parallax

    [initScrollProgress] (script.js, lines 397-408) appends a
    [.scroll-progress] bar and on every [scroll] sets its width to
    [scrollTop / (body.offsetHeight - innerHeight) * 100] percent.
    [initNavbarScroll] (lines 411-428) switches the navbar's background
    and shadow at [scrollTop > 100].  [initParallaxEffects] (lines
    431-441) moves [.hero-stats] by [-0.5 * scrollTop].

    A listener's result is the value it assigns; numbers are rationals,
    with the two non-finite results of a division ([NaN] for [0 / 0],
    [Infinity] for a positive number over [0]).  Assigning a width whose
    text is not a valid non-negative length (["NaN%"], ["Infinity%"],
    ["-3%"]) leaves the width as it was (CSSOM).

    The listeners themselves ([scroll_listener]) are registered by the
    routines of [Boot] that ran, after the throttled listener of line
    601, and a [scroll] event runs them in that order
    ([dispatch_scroll]); an exception in one is reported and the next
    still runs. *)

From stdpp Require Import base list strings gmap.
From S2P Require Import Prelude Dom Navigation Boot.

Module ScrollEffects.
Import Dom Boot.

Inductive num := NFin (q : Q) | NNaN | NInf (positive : bool).

(** [a / b] on the numbers of these listeners. *)
Definition num_div (a b : Q) : num :=
  if Qeq_bool b 0 then
    if Qeq_bool a 0 then NNaN else NInf (Qle_bool 0 a)
  else NFin (a / b).

Definition num_mul (x : num) (k : Q) : num :=
  match x with NFin q => NFin (q * k) | n => n end.

(** The progress listener: [(scrollTop / docHeight) * 100]. *)
Definition scroll_percent (scroll_top body_height inner_height : Q) : num :=
  num_mul (num_div scroll_top (body_height - inner_height)) 100.

(** The width the bar keeps after the assignment. *)
Definition progress_width (old : option Q) (p : num) : option Q :=
  match p with NFin q => if Qle_bool 0 q then Some q else old | _ => old end.

Inductive navbar_style := NavbarSolid | NavbarTranslucent.

(** Lines 418-424: [rgba(0, 0, 0, 0.98)] and the lower shadow past 100
    pixels, [rgba(0, 0, 0, 0.95)] and the centred shadow otherwise. *)
Definition navbar_style_at (scroll_top : Q) : navbar_style :=
  if qltb 100 scroll_top then NavbarSolid else NavbarTranslucent.

(** Lines 436-438: the [translateY] of the hero statistics. *)
Definition parallax_offset (scrolled : Q) : Q := scrolled * (-0.5).

(** ** The [scroll] listeners of the page

    The throttled listener of line 601 is registered when the script
    loads; the other three by the routines of the first
    [DOMContentLoaded] listener that ran ([Boot.bt_ran]), in that order.
    [initNavbarScroll] captures [querySelector('.navbar')] (line 412)
    whether or not it found one; [initParallaxEffects] registers only
    when there is a [.hero-stats] (line 434). *)
Inductive scroll_listener :=
  | LThrottle
  | LProgress
  | LNavbar (navbar : option nat)
  | LParallax (hero : nat).

Definition navbar_sel : list selector := [ByClass "navbar"].
Definition hero_sel : list selector := [ByClass "hero-stats"].

Definition registered (d : Doc) (r : routine) : list scroll_listener :=
  match r with
  | RScrollProgress => [LProgress]
  | RNavbarScroll => [LNavbar (query navbar_sel d)]
  | RParallax => match query hero_sel d with Some i => [LParallax i] | None => [] end
  | _ => []
  end.

Definition scroll_listeners (d : Doc) (ran : list routine) : list scroll_listener :=
  LThrottle :: (ran ≫= registered d).

(** What the listeners write: the document (the navbar's styles), the
    width of the progress bar, the [translateY] of [.hero-stats], and the
    number of exceptions reported. *)
Record ScrollState := MkScroll {
  ss_doc : Doc;
  ss_bar : option Q;
  ss_parallax : option Q;
  ss_errors : nat
}.

(** The two branches of lines 418-424. *)
Definition navbar_apply (st : navbar_style) (e : Elem) : Elem :=
  match st with
  | NavbarSolid =>
      set_style "box-shadow" "0 2px 20px rgba(0, 255, 65, 0.3)" (set_style "background" "rgba(0, 0, 0, 0.98)" e)
  | NavbarTranslucent =>
      set_style "box-shadow" "0 0 20px rgba(0, 255, 65, 0.3)" (set_style "background" "rgba(0, 0, 0, 0.95)" e)
  end.

(** One listener at [pageYOffset = top]: the throttled function is empty;
    [navbar.style] on [null] throws a [TypeError], which the browser
    reports before it calls the next listener. *)
Definition run_scroll_listener (top body inner : Q) (s : ScrollState) (l : scroll_listener) : ScrollState :=
  match l with
  | LThrottle => s
  | LProgress =>
      MkScroll (ss_doc s) (progress_width (ss_bar s) (scroll_percent top body inner)) (ss_parallax s) (ss_errors s)
  | LNavbar (Some i) =>
      MkScroll (modify_elem (navbar_apply (navbar_style_at top)) i (ss_doc s)) (ss_bar s) (ss_parallax s) (ss_errors s)
  | LNavbar None => MkScroll (ss_doc s) (ss_bar s) (ss_parallax s) (S (ss_errors s))
  | LParallax _ => MkScroll (ss_doc s) (ss_bar s) (Some (parallax_offset top)) (ss_errors s)
  end.

(** A [scroll] event: the listeners in registration order. *)
Definition dispatch_scroll (ls : list scroll_listener) (top body inner : Q) (s : ScrollState) : ScrollState :=
  foldl (run_scroll_listener top body inner) s ls.

(** ** Lemmas *)

Lemma num_div_fin a b : ~ b == 0 -> num_div a b = NFin (a / b).
Proof.
  intros Hb. unfold num_div. destruct (Qeq_bool b 0) eqn:E; [|done].
  apply Qeq_bool_eq in E. contradiction.
Qed.

(** On a page taller than the window the bar gets a width in [[0, 100]]. *)
Lemma progress_in_range top body inner old :
  0 <= top -> 0 < body - inner -> top <= body - inner ->
  exists p, scroll_percent top body inner = NFin p /\ 0 <= p <= 100 /\
    progress_width old (scroll_percent top body inner) = Some p.
Proof.
  intros Htop Hpos Hle. unfold scroll_percent.
  rewrite num_div_fin by (intros E; rewrite E in Hpos; discriminate Hpos).
  eexists. split; [reflexivity|].
  assert (Hr : 0 <= top / (body - inner) <= 1).
  { split; [apply Qle_shift_div_l; [done | lra] | apply Qle_shift_div_r; [done | lra]]. }
  assert (Hp : 0 <= top / (body - inner) * 100 <= 100) by lra.
  split; [exact Hp|]. cbn. rewrite (proj2 (Qle_bool_iff _ _)); [done | apply Hp].
Qed.

Lemma registered_boot_order d :
  boot_order ≫= registered d =
    [LProgress; LNavbar (query navbar_sel d)] ++
    match query hero_sel d with Some i => [LParallax i] | None => [] end.
Proof. cbn. by destruct (query hero_sel d). Qed.

Section Properties.

(** The progress bar: on a page taller than the window, a scroll
    position between the top and the bottom gives a width between 0 and
    100 percent; on a page no taller than the window, the division is by
    zero and the width assigned is ["NaN%"] at the top and
    ["Infinity%"] below it, which the browser ignores: the bar keeps its
    previous width. *)
Lemma scroll_progress_percent top body inner old :
  0 <= top ->
  (0 < body - inner -> top <= body - inner ->
     exists p, scroll_percent top body inner = NFin p /\ 0 <= p <= 100 /\
       progress_width old (scroll_percent top body inner) = Some p) /\
  (body - inner == 0 ->
     scroll_percent top body inner = (if Qeq_bool top 0 then NNaN else NInf true) /\
     progress_width old (scroll_percent top body inner) = old).
Proof.
  intros Htop. split; [by apply progress_in_range|].
  intros Hz. unfold scroll_percent, num_div.
  rewrite (proj2 (Qeq_bool_iff _ _) Hz). cbn.
  destruct (Qeq_bool top 0); [done|]. rewrite (proj2 (Qle_bool_iff _ _) Htop). done.
Qed.

(** C18. The scroll listeners depend on the start of the page.  Without a
    [.hamburger] the first [DOMContentLoaded] listener stops in
    [initNavigation], none of the three scroll listeners is registered,
    and a scroll changes nothing.  With one but without a [.navbar], every
    scroll event throws a [TypeError] in the navbar listener ([navbar] is
    [null]), and the progress bar and the parallax listener still run:
    the bar gets a width in [[0, 100]] and [.hero-stats], when present,
    its offset. *)
Theorem scroll_listeners_navbar_error three d top body inner s :
  three_ok three d = true ->
  (query Navigation.hamburger_sel d = None ->
     dispatch_scroll (scroll_listeners d (bt_ran (dom_content_loaded three d))) top body inner s = s) /\
  (query Navigation.hamburger_sel d <> None -> query navbar_sel d = None ->
     0 <= top -> 0 < body - inner -> top <= body - inner ->
     let s' := dispatch_scroll (scroll_listeners d (bt_ran (dom_content_loaded three d))) top body inner s in
     ss_errors s' = S (ss_errors s) /\ ss_doc s' = ss_doc s /\
     (exists p, ss_bar s' = Some p /\ 0 <= p <= 100) /\
     ss_parallax s' = match query hero_sel d with Some _ => Some (parallax_offset top) | None => ss_parallax s end).
Proof.
  intros H3. split.
  - intros H. by rewrite dom_content_loaded_missing by done.
  - intros H Hn Htop Hpos Hle. cbv zeta. rewrite dom_content_loaded_ok by done.
    unfold scroll_listeners, dispatch_scroll. cbn [bt_ran]. rewrite registered_boot_order, Hn.
    destruct (progress_in_range top body inner (ss_bar s) Htop Hpos Hle) as (p & _ & Hp & Hw).
    destruct (query hero_sel d); cbn; rewrite Hw; split_and!; eauto.
Qed.

End Properties.

(** ** Witnesses *)

Lemma scroll_progress_percent_witness :
  (exists p, scroll_percent 500 3000 1000 = NFin p /\ 0 <= p <= 100) /\
  scroll_percent 0 800 800 = NNaN /\ progress_width (Some 40) (scroll_percent 0 800 800) = Some 40.
Proof.
  destruct (scroll_progress_percent 500 3000 1000 None ltac:(lra)) as [H1 _].
  destruct (scroll_progress_percent 0 800 800 (Some 40) ltac:(lra)) as [_ H2].
  split; [|destruct (H2 ltac:(lra)) as [E1 E2]; split; [exact E1 | exact E2]].
  destruct (H1 ltac:(lra) ltac:(lra)) as (p & E & Hp & _). exists p. split; [exact E | exact Hp].
Defined.

Lemma scroll_listeners_navbar_error_witness :
  dispatch_scroll (scroll_listeners (drop 1 boot_demo) (bt_ran (dom_content_loaded true (drop 1 boot_demo))))
    500 3000 1000 (MkScroll (drop 1 boot_demo) None None 0) = MkScroll (drop 1 boot_demo) None None 0 /\
  let s' := dispatch_scroll (scroll_listeners boot_demo (bt_ran (dom_content_loaded true boot_demo)))
              500 3000 1000 (MkScroll boot_demo None None 0) in
  ss_errors s' = 1%nat /\ exists p, ss_bar s' = Some p /\ 0 <= p <= 100.
Proof.
  destruct (scroll_listeners_navbar_error true (drop 1 boot_demo) 500 3000 1000
              (MkScroll (drop 1 boot_demo) None None 0) eq_refl) as [H1 _].
  destruct (scroll_listeners_navbar_error true boot_demo 500 3000 1000
              (MkScroll boot_demo None None 0) eq_refl) as [_ H2].
  split; [apply H1; reflexivity|].
  destruct (H2 ltac:(discriminate) ltac:(reflexivity) ltac:(lra) ltac:(lra) ltac:(lra)) as (He & _ & Hb & _).
  split; [exact He | exact Hb].
Defined.

End ScrollEffects.
