(* ===== verification/Decorations.v ===== *)
(** * Decorations: skill bars and hover styles

    [initSkillBars] (lines 333-346) sets a bar's width from its
    [data-level] when it becomes half visible; the second
    [DOMContentLoaded] listener (lines 552-584) sets the styles of
    project cards and skill items on [mouseenter] and [mouseleave].

    A skill bar's width goes through [css_width_ok],
    the CSS parser's test of a [<length-percentage>] value the browser
    applies to [style.width = ...]: an invalid value is ignored, which is
    what happens to ["null%"].  The observer's notifications are a step
    relation [skill_reach] from the loaded document. *)

From Stdlib Require Import String Ascii.
From stdpp Require Import base list strings gmap sets.
From S2P Require Import Prelude Dom JsNumber.

Module Decorations.
Import Dom JsNumber.


(** ** Skill bars *)

(** CSS white space, and a value read without its white space at both
    ends. *)
Definition is_css_space (c : ascii) : bool :=
  bool_decide (nat_of_ascii c ∈ [9; 10; 12; 13; 32]%nat).

Fixpoint drop_css_spaces (l : list ascii) : list ascii :=
  match l with c :: l' => if is_css_space c then drop_css_spaces l' else l | [] => [] end.

Definition trim_css (s : string) : string :=
  string_of_list_ascii
    (rev (drop_css_spaces (rev (drop_css_spaces (list_ascii_of_string s))))).

Definition is_dec_digit (c : ascii) : bool := bool_decide (is_Some (digit_val 10 c)).

(** The [e] part of a CSS number: consumed only when digits follow it
    (after an optional sign); its value and the rest. *)
Definition css_exponent (s : string) : Z * string :=
  let digits sg r :=
    match dec_prefix 0 0 r with
    | (v, S _, rest) => Some ((sg * v)%Z, rest)
    | _ => None
    end in
  match s with
  | String c r =>
      if bool_decide (c = "e"%char \/ c = "E"%char) then
        let e := match r with
                 | String c2 r2 => if bool_decide (c2 = "-"%char) then digits (-1)%Z r2
                                   else if bool_decide (c2 = "+"%char) then digits 1%Z r2
                                   else digits 1%Z r
                 | EmptyString => None
                 end in
        default (0%Z, s) e
      else (0%Z, s)
  | EmptyString => (0%Z, s)
  end.

(** CSS Syntax's "consume a number" at the head of [s]: a sign, digits,
    a point only when a digit follows it, an exponent; at least one
    digit.  The value and the rest. *)
Definition css_number (s : string) : option (Q * string) :=
  let '(sg, s1) :=
    match s with
    | String c r => if bool_decide (c = "-"%char) then ((-1)%Z, r)
                    else if bool_decide (c = "+"%char) then (1%Z, r) else (1%Z, s)
    | EmptyString => (1%Z, s)
    end in
  let '(ip, ni, r1) := dec_prefix 0 0 s1 in
  let '(m, nf, r2) :=
    match r1 with
    | String c (String d r) =>
        if bool_decide (c = "."%char) && is_dec_digit d then dec_prefix ip 0 (String d r)
        else (ip, 0%nat, r1)
    | _ => (ip, 0%nat, r1)
    end in
  if (ni + nf =? 0)%nat then None
  else let '(e, r3) := css_exponent r2 in
       Some (inject_Z (sg * m) * Qpower 10 (e - Z.of_nat nf), r3).

(** [style.width = v] takes effect when [v] is one percentage token, not
    negative; otherwise the assignment is ignored (CSSOM). *)
Definition css_width_ok (v : string) : bool :=
  match css_number (trim_css v) with
  | Some (q, String c EmptyString) => bool_decide (c = "%"%char) && Qle_bool 0 q
  | _ => false
  end.

(** [level + '%'] with [level = getAttribute('data-level')], which is
    [null] when the attribute is missing. *)
Definition skill_width (level : option string) : string := default "null" level +:+ "%".

(** The observer's callback for an entry that intersects (lines 338-341). *)
Definition on_skill_visible (e : Elem) : Elem :=
  let w := skill_width (get_attribute "data-level" e) in
  if css_width_ok w then set_style "width" w e else e.

(** [initSkillBars] (lines 333-346): the bars [skillObserver] observes;
    it never unobserves them. *)
Definition init_skill_bars (d : Doc) : list nat := query_all [ByClass "skill-bar"] d.

(** The callback (lines 336-343) on a batch of entries. *)
Definition skill_callback (entries : list (nat * bool)) (d : Doc) : Doc :=
  foldl (fun d (ie : nat * bool) => if ie.2 then modify_elem on_skill_visible ie.1 d else d) d entries.

(** The browser reports observed targets only. *)
Inductive skill_reach (d0 : Doc) : Doc -> Prop :=
  | skill_start : skill_reach d0 d0
  | skill_notify d entries :
      skill_reach d0 d -> Forall (fun ie : nat * bool => ie.1 ∈ init_skill_bars d0) entries ->
      skill_reach d0 (skill_callback entries d).

(** Every bar is as loaded or has had [on_skill_visible] once. *)
Definition skill_inv (d0 d : Doc) : Prop :=
  length d = length d0 /\
  forall i e0, d0 !! i = Some e0 ->
    d !! i = Some e0 \/ (i ∈ init_skill_bars d0 /\ d !! i = Some (on_skill_visible e0)).


(** ** Hover styles *)

Definition card_enter (e : Elem) : Elem :=
  set_style "box-shadow" "0 0 40px rgba(0, 255, 65, 0.8)"
    (set_style "transform" "translateY(-10px) scale(1.02)" e).

Definition card_leave (e : Elem) : Elem :=
  set_style "box-shadow" "0 0 30px rgba(0, 255, 65, 0.5)"
    (set_style "transform" "translateY(0) scale(1)" e).

Definition item_enter (e : Elem) : Elem :=
  set_style "box-shadow" "0 0 30px rgba(0, 212, 255, 0.8)"
    (set_style "transform" "translateX(10px) scale(1.05)"
      (set_style "color" "#ffffff" (set_style "background" "rgba(0, 212, 255, 0.3)" e))).

Definition item_leave (e : Elem) : Elem :=
  set_style "box-shadow" "0 0 20px rgba(0, 212, 255, 0.3)"
    (set_style "transform" "translateX(0) scale(1)"
      (set_style "color" "#00d4ff" (set_style "background" "rgba(0, 212, 255, 0.1)" e))).

Definition skill_demo : Doc :=
  [MkElem "div" None ["skill-bar"] [("data-level", "90")] ∅ "";
   MkElem "div" None ["skill-bar"] [] ∅ ""].

(** ** Lemmas *)

(** *** The skill bars keep their width or take their level *)

Lemma set_style_idem k v e : set_style k v (set_style k v e) = set_style k v e.
Proof. unfold set_style; cbn. by rewrite insert_insert_eq. Qed.

Lemma get_attribute_on_skill_visible a e :
  get_attribute a (on_skill_visible e) = get_attribute a e.
Proof. unfold on_skill_visible. by repeat case_match. Qed.

Lemma on_skill_visible_idem e : on_skill_visible (on_skill_visible e) = on_skill_visible e.
Proof.
  unfold on_skill_visible at 1. rewrite get_attribute_on_skill_visible.
  unfold on_skill_visible. repeat case_match; auto using set_style_idem.
Qed.

Lemma skill_callback_inv d0 d entries :
  skill_inv d0 d -> Forall (fun ie : nat * bool => ie.1 ∈ init_skill_bars d0) entries ->
  skill_inv d0 (skill_callback entries d).
Proof.
  revert d. induction entries as [|[j b] es IH]; intros d [Hl Hd] Hall; [by split|].
  apply Forall_cons in Hall as [Hj Hall]. cbn in Hj.
  change (skill_callback ((j, b) :: es) d)
    with (skill_callback es (if b then modify_elem on_skill_visible j d else d)).
  apply IH; [|exact Hall]. destruct b; [|by split].
  split; [by rewrite length_modify_elem, Hl|].
  intros i e0 Hi. rewrite lookup_modify_elem. case_decide as Hij; [subst j|by apply Hd].
  destruct (Hd i e0 Hi) as [-> | [_ ->]]; cbn; right; (split; [done|]);
    by rewrite ?on_skill_visible_idem.
Qed.

Lemma skill_reach_inv d0 d : skill_reach d0 d -> skill_inv d0 d.
Proof.
  induction 1 as [|d entries _ IH Hall]; [split; [done | by left] | by apply skill_callback_inv].
Qed.

(** C19. The skill-bar observer only ever fills bars, and fills them only
    with a valid width: in every state reachable from the loaded page,
    an element is either as it was loaded, or it is a [.skill-bar] whose
    ["data-level"] makes a valid CSS width [level%] and whose inline
    [width] is that string.  A bar reported as intersecting gets that
    width from the callback, whatever the earlier notifications were,
    and keeps its loaded style when the width is not valid CSS. *)
Theorem skill_bar_width d0 d i e0 :
  skill_reach d0 d -> d0 !! i = Some e0 ->
  (d !! i = Some e0 \/
   (i ∈ init_skill_bars d0 /\
    css_width_ok (skill_width (get_attribute "data-level" e0)) = true /\
    d !! i = Some (set_style "width" (skill_width (get_attribute "data-level" e0)) e0))) /\
  (i ∈ init_skill_bars d0 ->
   let w := skill_width (get_attribute "data-level" e0) in
   skill_callback [(i, true)] d !! i = Some (if css_width_ok w then set_style "width" w e0 else e0)).
Proof.
  intros Hr Hi. destruct (skill_reach_inv d0 d Hr) as [_ Hd]. split.
  - destruct (Hd i e0 Hi) as [Heq | [Hb Heq]]; [by left|].
    unfold on_skill_visible in Heq. destruct (css_width_ok _) eqn:E; [by right | by left].
  - intros _. cbn. rewrite lookup_modify_elem, decide_True by done.
    destruct (Hd i e0 Hi) as [-> | [_ ->]]; cbn; by rewrite ?on_skill_visible_idem.
Qed.


(** ** Witnesses *)

Lemma skill_bar_width_witness :
  skill_callback [(0%nat, true)] skill_demo !! 0%nat =
    Some (set_style "width" "90%" (MkElem "div" None ["skill-bar"] [("data-level", "90")] ∅ "")) /\
  skill_callback [(1%nat, true)] skill_demo !! 1%nat =
    Some (MkElem "div" None ["skill-bar"] [] ∅ "").
Proof.
  split.
  - rewrite (proj2 (skill_bar_width skill_demo skill_demo 0%nat _ (skill_start _) eq_refl)
      ltac:(vm_compute; left)). reflexivity.
  - rewrite (proj2 (skill_bar_width skill_demo skill_demo 1%nat _ (skill_start _) eq_refl)
      ltac:(vm_compute; right; left)). reflexivity.
Defined.

End Decorations.
