(* ===== verification/Floating.v ===== *)
(** * Floating elements

    [initFloatingElements] (script.js lines 349-368) reads the speed of
    every [.floating-element] once, with [parseFloat] and the [|| 0.5]
    fallback, and starts one [animate] loop per element: [animate]
    reads [Date.now()], assigns [element.style.transform] and requests
    the next animation frame, so the loop never stops.  [float_step] is
    one frame of one element; [FloatPage] is the whole animation: the
    callbacks pending for the next frame, each with the element and the
    speed its closure holds, and the transform each element was last
    given (kept as its four numbers: the string the template literal
    builds is not modelled).  The time each callback reads is a
    function of the element, so callbacks of one frame may read
    different times.

    [parseFloat] is [JsNumber.parse_float] (rounded to a double, [Double]); [Math.sin] and [Math.cos] are
    those of [MathTrig]. *)

From stdpp Require Import base list strings gmap sets.
From S2P Require Import Prelude Dom Double JsNumber.

Module Floating.
Import Dom Double JsNumber.

(** ** Floating elements *)

(** [parseFloat(element.getAttribute('data-speed')) || 0.5] (line 353):
    [getAttribute] gives [null] for a missing attribute, read as the
    text ["null"]; [0], [-0] and [NaN] are falsy.  [None]: the speed is
    infinite. *)
Definition float_speed (attr : option string) : option Q :=
  match parse_float (default "null" attr) with
  | FloatNum q => Some (if Qeq_bool q 0 then 0.5 else q)
  | FloatNaN => Some 0.5
  | FloatInf _ => None
  end.

Record FloatTransform := MkFloat { fl_x : Q; fl_y : Q; fl_rotation : Q; fl_scale : Q }.

Section Floating.
Context {TR : MathTrig}.

(** One frame of the element's [animate] (lines 355-364) at
    [Date.now() = now]. *)
Definition float_transform (speed now : Q) : FloatTransform :=
  let time := now * 0.001 * speed in
  MkFloat (js_sin time * 20) (js_cos (time * 0.5) * 20) (js_sin (time * 0.3) * 15)
          (1 + js_sin (time * 0.7) * 0.1).

(** The transform a frame assigns: with an infinite speed, [time] is
    infinite and [Math.sin(time)] is [NaN], so the string
    ["translate(NaNpx, ...)"] is not a valid transform and the
    assignment is ignored ([None]). *)
Definition float_step (attr : option string) (now : Q) : option FloatTransform :=
  speed ← float_speed attr; Some (float_transform speed now).

End Floating.

(** The selector of line 350. *)
Definition floating_sel : list selector := [ByClass "floating-element"].

(** An animation frame callback [animate] of one element: the element
    and the speed its closure captured at line 353. *)
Definition float_cb : Type := nat * option Q.

Record FloatPage := MkFP {
  fp_pending : list float_cb;
  fp_transform : gmap nat FloatTransform
}.

Section FloatPage.
Context {TR : MathTrig}.

(** One run of [animate] (lines 355-364) at [Date.now() = now]: a valid
    transform is assigned, an invalid one (infinite speed) is ignored;
    either way the callback requests itself again. *)
Definition float_animate (now : Q) (cb : float_cb) (tr : gmap nat FloatTransform) :
    gmap nat FloatTransform :=
  match cb.2 with Some speed => <[cb.1 := float_transform speed now]> tr | None => tr end.

(** The callbacks of a frame in the order they were requested, each
    reading its own [Date.now()]. *)
Definition run_float (clock : nat -> Q) (cbs : list float_cb) (tr : gmap nat FloatTransform) :
    gmap nat FloatTransform :=
  foldl (fun tr cb => float_animate (clock cb.1) cb tr) tr cbs.

(** [initFloatingElements]: for each element in document order, the
    speed is read (line 353) and [animate()] runs once (line 366),
    requesting the first frame. *)
Definition init_floating (clock : nat -> Q) (d : Doc) : FloatPage :=
  let cbs := (fun i => (i, float_speed (d !! i ≫= get_attribute "data-speed")))
               <$> query_all floating_sel d in
  MkFP cbs (run_float clock cbs ∅).

(** An animation frame: every pending [animate] runs and requests the
    next frame, in the same order. *)
Definition float_frame (clock : nat -> Q) (p : FloatPage) : FloatPage :=
  MkFP (fp_pending p) (run_float clock (fp_pending p) (fp_transform p)).

Inductive float_reach (d : Doc) : FloatPage -> Prop :=
  | float_init clock : float_reach d (init_floating clock d)
  | float_next clock p : float_reach d p -> float_reach d (float_frame clock p).

End FloatPage.

(** Inside its box: 20 pixels on each axis, 15 degrees, scale in
    [[0.9, 1.1]]. *)
Definition in_box (f : FloatTransform) : Prop :=
  -20 <= fl_x f <= 20 /\ -20 <= fl_y f <= 20 /\ -15 <= fl_rotation f <= 15 /\
  9 # 10 <= fl_scale f <= 11 # 10.

(** The page of the examples: two floating elements, one with
    [data-speed="2"], one with ["Infinity"], and a paragraph. *)
Definition float_demo : Doc :=
  [MkElem "div" None ["floating-element"] [("data-speed", "2")] ∅ "";
   MkElem "p" None [] [] ∅ "";
   MkElem "div" None ["floating-element"] [("data-speed", "Infinity")] ∅ ""].

(** ** Lemmas *)

Section FloatingFacts.
Context {TR : MathTrig}.

Lemma scaled_sin_bound t k : 0 <= k -> - k <= js_sin t * k <= k.
Proof. intros Hk. destruct (js_sin_bound t). split; nra. Qed.

Lemma scaled_cos_bound t k : 0 <= k -> - k <= js_cos t * k <= k.
Proof. intros Hk. destruct (js_cos_bound t). split; nra. Qed.

(** Whatever the speed, a frame's transform stays in its box. *)
Lemma float_transform_box speed now :
  let f := float_transform speed now in
  -20 <= fl_x f <= 20 /\ -20 <= fl_y f <= 20 /\ -15 <= fl_rotation f <= 15 /\
  9 # 10 <= fl_scale f <= 11 # 10.
Proof.
  cbn. set (t := now * 0.001 * speed).
  pose proof (scaled_sin_bound t 20 ltac:(lra)).
  pose proof (scaled_cos_bound (t * 0.5) 20 ltac:(lra)).
  pose proof (scaled_sin_bound (t * 0.3) 15 ltac:(lra)).
  pose proof (scaled_sin_bound (t * 0.7) 0.1 ltac:(lra)).
  split_and!; lra.
Qed.

(** C37. A floating element never leaves its box: every transform a
    frame assigns moves it by at most 20 pixels on each axis, turns it by
    at most 15 degrees and scales it between 0.9 and 1.1.  A missing
    [data-speed], one that is not a number, and ["0"] all animate at
    speed [0.5] (the [|| 0.5] fallback), so no element can be kept
    still that way; ["Infinity"] makes every transform invalid, and the
    element never moves. *)
Theorem float_transform_bounds attr now :
  (forall f, float_step attr now = Some f ->
     -20 <= fl_x f <= 20 /\ -20 <= fl_y f <= 20 /\ -15 <= fl_rotation f <= 15 /\
     9 # 10 <= fl_scale f <= 11 # 10) /\
  (attr = None \/ parse_float (default "null" attr) = FloatNaN \/
   (exists q, parse_float (default "null" attr) = FloatNum q /\ q == 0) ->
   float_speed attr = Some 0.5) /\
  (forall b, parse_float (default "null" attr) = FloatInf b -> float_step attr now = None).
Proof.
  unfold float_step, float_speed. split_and!.
  - intros f Hf. destruct (parse_float _); cbn in Hf; simplify_eq; apply float_transform_box.
  - intros [-> | [-> | (q & -> & Hq)]]; [done | done |].
    by rewrite (proj2 (Qeq_bool_iff _ _) Hq).
  - intros b ->. done.
Qed.

End FloatingFacts.

Section PageFacts.
Context {TR : MathTrig}.
Implicit Types (clock : nat -> Q) (cbs : list float_cb) (tr : gmap nat FloatTransform).

(** Every transform a run of callbacks records is in its box and
    belongs to an element of one of the callbacks. *)
Lemma run_float_inv (els : list nat) clock cbs tr :
  (forall i f, tr !! i = Some f -> i ∈ els /\ in_box f) ->
  Forall (fun cb : float_cb => cb.1 ∈ els) cbs ->
  forall i f, run_float clock cbs tr !! i = Some f -> i ∈ els /\ in_box f.
Proof.
  revert tr. induction cbs as [|[j sp] cbs IH]; intros tr Htr Hall; [done|].
  apply Forall_cons in Hall as [Hj Hall]. apply IH; [|done].
  intros i f. unfold float_animate. cbn [fst snd]. destruct sp as [speed|]; [|apply Htr].
  rewrite lookup_insert_Some. intros [[<- <-] | [_ Hi]]; [|by apply Htr].
  split; [done | apply float_transform_box].
Qed.

Lemma run_float_cons clock cb cbs tr :
  run_float clock (cb :: cbs) tr = run_float clock cbs (float_animate (clock cb.1) cb tr).
Proof. done. Qed.

Lemma run_float_mono clock cbs tr i : is_Some (tr !! i) -> is_Some (run_float clock cbs tr !! i).
Proof.
  revert tr. induction cbs as [|[j sp] cbs IH]; intros tr Hi; [done|]. apply IH.
  unfold float_animate. cbn [fst snd]. destruct sp; [|done].
  destruct (decide (j = i)) as [->|]; [by rewrite lookup_insert_eq | by rewrite lookup_insert_ne].
Qed.

(** A callback with a finite speed gives its element a transform. *)
Lemma run_float_sets clock cbs tr i speed :
  (i, Some speed) ∈ cbs -> is_Some (run_float clock cbs tr !! i).
Proof.
  revert tr. induction cbs as [|cb cbs IH]; intros tr Hin; [set_solver|].
  rewrite run_float_cons. apply elem_of_cons in Hin as [<- | Hin]; [|by apply IH].
  apply run_float_mono. unfold float_animate. cbn [fst snd]. by rewrite lookup_insert_eq.
Qed.

End PageFacts.

(** ** Properties *)

Section PageProperties.
Context {TR : MathTrig} (d : Doc).


End PageProperties.

(** ** Witnesses *)

Lemma float_transform_bounds_witness :
  float_speed (Some "0"%string) = Some 0.5 /\ @float_step const_trig (Some "Infinity"%string) 1000 = None /\
  exists f, @float_step const_trig (Some "2"%string) 1000 = Some f /\ -20 <= fl_x f <= 20.
Proof.
  destruct (@float_transform_bounds const_trig (Some "0"%string) 1000) as (_ & H0 & _).
  destruct (@float_transform_bounds const_trig (Some "Infinity"%string) 1000) as (_ & _ & Hinf).
  destruct (@float_transform_bounds const_trig (Some "2"%string) 1000) as (Hb & _ & _).
  split; [apply H0; right; right; exists 0; split; [reflexivity | reflexivity]|].
  split; [apply (Hinf false); reflexivity|].
  eexists. split; [reflexivity|]. apply (Hb _ eq_refl).
Defined.



End Floating.
