(* ===== verification/Reveal.v ===== *)
(** * The page's observers, frame by frame

    [initScrollAnimations] (script.js lines 313-330) and [initSkillBars]
    (lines 333-346) each create an [IntersectionObserver] and observe
    the elements their query returns; at every rendering frame the
    browser updates both observers' registrations, in the order the
    observers were created, and then runs their callbacks with the
    entries queued ([Observer.update_observations]).  The callbacks are
    [Boot.reveal] (add [visible]) and [Decorations.skill_callback] (set
    the width); both write into the one document.

    [ObsPage] is the state: the two lists of registrations and the
    document; [observer_frame] is one frame for a layout and a viewport,
    both arbitrary (the layout of the page is CSS's, and may change from
    frame to frame, e.g. by the [fade-in] transition); [obs_reach] is
    any sequence of frames from the state the two [init] routines
    leave.  The theorems say what the classes and widths of every
    element are in every reachable state, that an element far enough in
    the viewport is revealed or filled at the next frame, and that the
    bottom margin of [-50px] keeps the last 50 pixels of the window from
    revealing anything. *)

From stdpp Require Import base list strings sets.
From S2P Require Import Prelude Dom Observer Navigation Boot Decorations.

Module Reveal.
Import Dom Observer Boot Decorations.

(** [observerOptions] (lines 314-317): threshold [0.1], root margin
    ['0px 0px -50px 0px']. *)
Definition scroll_options : IOOptions := MkOptions (1 # 10) 0 (-50).

(** [{ threshold: 0.5 }] (line 343). *)
Definition skill_options : IOOptions := MkOptions (1 # 2) 0 0.

Record ObsPage := MkOP {
  op_anim : list Registration;
  op_skill : list Registration;
  op_doc : Doc
}.

Section Frames.
Variable gate : bool.

(** [animatedElements.forEach(el => observer.observe(el))] (line 329)
    and [skillBars.forEach(bar => skillObserver.observe(bar))]
    (line 345). *)
Definition init_observers (observed : list nat) (d : Doc) : ObsPage :=
  MkOP (map observe observed) (map observe (init_skill_bars d)) d.

(** One frame: both observers are updated, then the scroll-animation
    callback runs, then the skill-bar callback. *)
Definition observer_frame (layout : nat -> Rect) (v : Viewport) (p : ObsPage) : ObsPage :=
  let '(ra, ea) := update_observations gate scroll_options layout v (op_anim p) in
  let '(rk, ek) := update_observations gate skill_options layout v (op_skill p) in
  MkOP ra rk (skill_callback ek (reveal ea (op_doc p))).

Inductive obs_reach (observed : list nat) (d0 : Doc) : ObsPage -> Prop :=
  | obs_start : obs_reach observed d0 (init_observers observed d0)
  | obs_frame layout v p :
      obs_reach observed d0 p -> obs_reach observed d0 (observer_frame layout v p).

End Frames.

(** [entry.target.classList.add('visible')] on one element (line 322). *)
Definition add_visible (e : Elem) : Elem := set_classes (cl_add "visible" (e_classes e)) e.

(** An element of the loaded page, revealed or not, filled or not. *)
Definition decorate (rv fl : bool) (e : Elem) : Elem :=
  let e1 := if rv then add_visible e else e in
  if fl then on_skill_visible e1 else e1.

(** The invariant: the registrations are those of the [init] routines,
    and every element is its loaded form decorated by two predicates;
    the registrations that record an intersection are decorated. *)
Definition obs_inv (observed : list nat) (d0 : Doc) (p : ObsPage) : Prop :=
  map reg_target (op_anim p) = observed /\
  map reg_target (op_skill p) = init_skill_bars d0 /\
  exists rv fl : nat -> bool,
    (forall i, rv i = true -> i ∈ observed) /\
    (forall i, fl i = true -> i ∈ init_skill_bars d0) /\
    (forall i, op_doc p !! i = decorate (rv i) (fl i) <$> d0 !! i) /\
    (forall r, r ∈ op_anim p -> reg_prev_inter r = true -> rv (reg_target r) = true) /\
    (forall r, r ∈ op_skill p -> reg_prev_inter r = true -> fl (reg_target r) = true).

(** The page of the examples: an observed section and a skill bar at
    level 90. *)
Definition obs_demo : Doc :=
  [MkElem "section" (Some "about") ["fade-in"] [] ∅ "";
   MkElem "div" None ["skill-bar"] [("data-level", "90")] ∅ ""].

Definition demo_layout (top0 : Q) (i : nat) : Rect :=
  match i with O => MkRect top0 100 | _ => MkRect 200 20 end.

(** ** Lemmas *)

Section ElemFacts.

Lemma cl_add_idem c l : cl_add c (cl_add c l) = cl_add c l.
Proof.
  unfold cl_add at 1. rewrite bool_decide_eq_true_2; [done|]. apply elem_of_cl_add. by left.
Qed.

Lemma add_visible_idem e : add_visible (add_visible e) = add_visible e.
Proof. unfold add_visible. cbn. by rewrite cl_add_idem. Qed.

Lemma on_skill_visible_add_visible e :
  on_skill_visible (add_visible e) = add_visible (on_skill_visible e).
Proof. destruct e. unfold on_skill_visible. cbn. by case_match. Qed.

Lemma classes_on_skill_visible e : e_classes (on_skill_visible e) = e_classes e.
Proof. unfold on_skill_visible. by case_match. Qed.

Lemma add_visible_decorate rv fl e : add_visible (decorate rv fl e) = decorate true fl e.
Proof.
  unfold decorate. destruct rv, fl;
    rewrite ?on_skill_visible_add_visible, ?add_visible_idem; done.
Qed.

Lemma on_skill_visible_decorate rv fl e : on_skill_visible (decorate rv fl e) = decorate rv true e.
Proof. unfold decorate. destruct fl; [apply on_skill_visible_idem | done]. Qed.

Lemma has_class_decorate_visible fl e : cl_contains "visible" (e_classes (decorate true fl e)) = true.
Proof.
  unfold decorate. destruct fl; rewrite ?classes_on_skill_visible;
    apply cl_contains_spec, elem_of_cl_add; by left.
Qed.

Lemma classes_decorate_unrevealed fl e : e_classes (decorate false fl e) = e_classes e.
Proof. unfold decorate. destruct fl; [apply classes_on_skill_visible | done]. Qed.

Lemma style_decorate rv fl e :
  e_style (decorate rv fl e) = e_style (if fl then on_skill_visible e else e).
Proof.
  unfold decorate. destruct rv, fl; try done. by rewrite on_skill_visible_add_visible.
Qed.

End ElemFacts.

(** A [forEach] whose body modifies the element of some entries with an
    idempotent function, read at one index. *)
Lemma lookup_foldl_modify {A} (P : A -> bool) (idx : A -> nat) (f : Elem -> Elem)
    (Hf : forall e, f (f e) = f e) (l : list A) (d : Doc) (i : nat) :
  foldl (fun d a => if P a then modify_elem f (idx a) d else d) d l !! i =
  if existsb (fun a => P a && bool_decide (idx a = i)) l then f <$> d !! i else d !! i.
Proof.
  revert d. induction l as [|a l IH]; intros d; [done|]. cbn. rewrite IH.
  destruct (P a) eqn:Ha; cbn; [|done]. rewrite lookup_modify_elem.
  case_bool_decide as Hai; case_decide; try congruence; cbn.
  - destruct (existsb _ l); [|done]. destruct (d !! i); cbn; by rewrite ?Hf.
  - done.
Qed.

Lemma lookup_reveal entries d i :
  reveal entries d !! i =
  if existsb (fun ie : nat * bool => ie.2 && bool_decide (ie.1 = i)) entries
  then add_visible <$> d !! i else d !! i.
Proof. apply (lookup_foldl_modify snd fst add_visible add_visible_idem). Qed.

Lemma lookup_skill_callback entries d i :
  skill_callback entries d !! i =
  if existsb (fun ie : nat * bool => ie.2 && bool_decide (ie.1 = i)) entries
  then on_skill_visible <$> d !! i else d !! i.
Proof. apply (lookup_foldl_modify snd fst on_skill_visible on_skill_visible_idem). Qed.

Lemma existsb_entry (es : list (nat * bool)) (Q : nat * bool -> bool) i :
  existsb (fun ie => Q ie && bool_decide (ie.1 = i)) es = true <->
  exists b, (i, b) ∈ es /\ Q (i, b) = true.
Proof.
  rewrite existsb_exists. split.
  - intros ([j b] & Hin & [HQ Hj]%andb_true_iff). apply bool_decide_eq_true in Hj.
    cbn in Hj. subst j. exists b. by rewrite list_elem_of_In.
  - intros (b & Hin & HQ). exists (i, b). rewrite <- list_elem_of_In, HQ.
    by rewrite bool_decide_eq_true_2.
Qed.

Section FrameFacts.
Context (gate : bool) (layout : nat -> Rect) (v : Viewport).

Lemma op_anim_frame p :
  op_anim (observer_frame gate layout v p) =
  map (fun r => (update_observation gate scroll_options layout v r).1) (op_anim p).
Proof.
  unfold observer_frame. rewrite !update_observations_spec. done.
Qed.

Lemma op_skill_frame p :
  op_skill (observer_frame gate layout v p) =
  map (fun r => (update_observation gate skill_options layout v r).1) (op_skill p).
Proof.
  unfold observer_frame. rewrite !update_observations_spec. done.
Qed.

Lemma op_doc_frame p :
  op_doc (observer_frame gate layout v p) =
  skill_callback (update_observations gate skill_options layout v (op_skill p)).2
    (reveal (update_observations gate scroll_options layout v (op_anim p)).2
       (op_doc p)).
Proof.
  unfold observer_frame. rewrite !update_observations_spec. done.
Qed.

(** The registration of a target records whether it intersects now. *)
Lemma frame_registration o regs i :
  i ∈ map reg_target regs ->
  exists r', r' ∈ map (fun r => (update_observation gate o layout v r).1) regs /\
    reg_target r' = i /\ reg_prev_inter r' = is_intersecting gate o v (layout i).
Proof.
  intros (r & -> & Hr)%list_elem_of_fmap. eexists. split; [apply list_elem_of_fmap; eauto|].
  by rewrite update_observation_target, update_observation_inter.
Qed.

(** A registration that records an intersection after the frame did so
    before, or its target has an intersecting entry in this frame. *)
Lemma frame_new_inter o regs r' :
  r' ∈ map (fun r => (update_observation gate o layout v r).1) regs ->
  reg_prev_inter r' = true ->
  exists r, r ∈ regs /\ reg_target r' = reg_target r /\
    (reg_prev_inter r = true \/ (reg_target r, true) ∈ (update_observations gate o layout v regs).2).
Proof.
  intros (r & -> & Hr)%list_elem_of_fmap Hi. exists r.
  rewrite update_observation_target. split; [done|]. split; [done|].
  destruct (update_observation_new_inter gate o layout v r Hi) as [H | H]; [by left|right].
  by apply (update_observation_entry_in gate o layout v regs r).
Qed.

Lemma targets_frame o regs :
  map reg_target (map (fun r => (update_observation gate o layout v r).1) regs) = map reg_target regs.
Proof. rewrite map_map. apply map_ext. intros r. apply update_observation_target. Qed.

End FrameFacts.

Section Invariant.
Context (gate : bool) (observed : list nat) (d0 : Doc).

Lemma obs_inv_init : obs_inv observed d0 (init_observers observed d0).
Proof.
  split; [apply targets_observe|]. split; [apply targets_observe|].
  exists (fun _ => false), (fun _ => false). split_and!; try done.
  - intros i. cbn. by destruct (d0 !! i).
  - intros r (j & -> & _)%list_elem_of_fmap. done.
  - intros r (j & -> & _)%list_elem_of_fmap. done.
Qed.
Lemma obs_inv_frame layout v p :
  obs_inv observed d0 p -> obs_inv observed d0 (observer_frame gate layout v p).
Proof.
  intros (Ha & Hk & rv & fl & Hrv & Hfl & Hd & Hra & Hrk).
  set (ea := (update_observations gate scroll_options layout v (op_anim p)).2).
  set (ek := (update_observations gate skill_options layout v (op_skill p)).2).
  unfold obs_inv. rewrite op_anim_frame, op_skill_frame, !targets_frame. split; [done|]. split; [done|].
  exists (fun i => rv i || existsb (fun ie : nat * bool => ie.2 && bool_decide (ie.1 = i)) ea),
         (fun i => fl i || existsb (fun ie : nat * bool => ie.2 && bool_decide (ie.1 = i)) ek).
  split_and!.
  - intros i [Hi | (b & Hi & Hb)%existsb_entry]%orb_true_iff; [by apply Hrv|].
    rewrite <- Ha. by apply update_observations_entries in Hi as [? _].
  - intros i [Hi | (b & Hi & Hb)%existsb_entry]%orb_true_iff; [by apply Hfl|].
    rewrite <- Hk. by apply update_observations_entries in Hi as [? _].
  - intros i. rewrite op_doc_frame, lookup_skill_callback, lookup_reveal, Hd. fold ea ek.
    destruct (d0 !! i) as [e|]; [cbn|by repeat case_match].
    destruct (existsb _ ea), (existsb _ ek); cbn; rewrite ?orb_true_r, ?orb_false_r;
      rewrite ?add_visible_decorate, ?on_skill_visible_decorate; done.
  - intros r' Hr' Hi. destruct (frame_new_inter gate layout v _ _ _ Hr' Hi) as (r & Hr & -> & [H | H]).
    + by rewrite (Hra r Hr H).
    + apply orb_true_iff. right. apply existsb_entry. by exists true.
  - intros r' Hr' Hi. destruct (frame_new_inter gate layout v _ _ _ Hr' Hi) as (r & Hr & -> & [H | H]).
    + by rewrite (Hrk r Hr H).
    + apply orb_true_iff. right. apply existsb_entry. by exists true.
Qed.

Lemma obs_reach_inv p : obs_reach gate observed d0 p -> obs_inv observed d0 p.
Proof. induction 1; [apply obs_inv_init | by apply obs_inv_frame]. Qed.

End Invariant.

Section BootFacts.

Lemma query_class_has_class c d i :
  default false (matches_any [ByClass c] <$> d !! i) = has_class c i d.
Proof. unfold has_class. destruct (d !! i); cbn; [apply orb_false_r | done]. Qed.

(** [initSkillBars] queries the page before the listener adds the
    animation classes; the query is the same after. *)
Lemma skill_bars_boot d : init_skill_bars (add_animation_classes d) = init_skill_bars d.
Proof.
  unfold init_skill_bars, add_animation_classes. apply query_all_ext; [by rewrite length_init_skill_items, !length_add_all|].
  intros i. rewrite !query_class_has_class. fold (add_animation_classes d).
  by apply has_class_animation_other.
Qed.

End BootFacts.

(** ** Properties *)

Section Properties.
Context (gate : bool) (observed : list nat) (d0 : Doc).

(** C20. Through any frames of the two observers, every element of the
    page is the element it was at load time, with [visible] added only
    if [initScrollAnimations] observed it and with the width of its
    [data-level] only if it is a [.skill-bar]; no element is added or
    removed, and nothing else changes. *)
Theorem observers_decorate p :
  obs_reach gate observed d0 p ->
  forall i, exists rv fl : bool,
    (rv = true -> i ∈ observed) /\ (fl = true -> i ∈ init_skill_bars d0) /\
    op_doc p !! i = decorate rv fl <$> d0 !! i.
Proof.
  intros Hr i. destruct (obs_reach_inv gate observed d0 p Hr) as (_ & _ & rv & fl & Hrv & Hfl & Hd & _).
  exists (rv i), (fl i). auto.
Qed.

(** C21. The observers reveal what the reader sees: after a frame in
    which an observed element meets the viewport shrunk by 50 pixels at
    the bottom with at least a tenth of its height, it has [visible];
    after a frame in which a skill bar shows at least half of its
    height, it has the inline width of its [data-level].  This holds
    whatever happened before, in the reading of the W3C specification
    and in Chromium's. *)
Theorem observer_frame_reveals layout v p i e0 :
  obs_reach gate observed d0 p -> d0 !! i = Some e0 ->
  (i ∈ observed -> geom_intersects scroll_options v (layout i) = true ->
   1 # 10 <= intersection_ratio scroll_options v (layout i) ->
   has_class "visible" i (op_doc (observer_frame gate layout v p)) = true) /\
  (i ∈ init_skill_bars d0 -> geom_intersects skill_options v (layout i) = true ->
   1 # 2 <= intersection_ratio skill_options v (layout i) ->
   e_style <$> op_doc (observer_frame gate layout v p) !! i = Some (e_style (on_skill_visible e0))).
Proof.
  intros Hr He0. pose proof (obs_reach_inv gate observed d0 _ (obs_frame _ _ _ layout v p Hr))
    as (_ & _ & rv & fl & _ & _ & Hd & Hra & Hrk).
  destruct (obs_reach_inv gate observed d0 p Hr) as (Ha & Hk & _).
  split.
  - intros Hi Hg Ht. rewrite <- Ha in Hi.
    destruct (frame_registration gate layout v scroll_options _ i Hi) as (r' & Hr' & Ht' & Hinter).
    rewrite <- op_anim_frame in Hr'. rewrite (is_intersecting_threshold gate _ _ _ Hg Ht) in Hinter.
    pose proof (Hra r' Hr' Hinter) as Hv. rewrite Ht' in Hv.
    unfold has_class. rewrite Hd, He0. cbn. rewrite Hv. apply has_class_decorate_visible.
  - intros Hi Hg Ht. rewrite <- Hk in Hi.
    destruct (frame_registration gate layout v skill_options _ i Hi) as (r' & Hr' & Ht' & Hinter).
    rewrite <- op_skill_frame in Hr'. rewrite (is_intersecting_threshold gate _ _ _ Hg Ht) in Hinter.
    pose proof (Hrk r' Hr' Hinter) as Hf. rewrite Ht' in Hf.
    rewrite Hd, He0. cbn. by rewrite Hf, style_decorate.
Qed.

(** C22. The bottom margin [-50px]: an element whose top is in the
    last 50 pixels of the window, or below, gets no [visible] from a
    frame, whatever the state of the observers; it is revealed only
    once it has come higher. *)
Theorem reveal_bottom_margin layout v p i :
  vp_scroll v + vp_height v - 50 < r_top (layout i) ->
  has_class "visible" i (op_doc (observer_frame gate layout v p)) = has_class "visible" i (op_doc p).
Proof.
  intros Hb. unfold has_class. rewrite op_doc_frame, lookup_skill_callback, lookup_reveal.
  destruct (existsb _ (update_observations _ scroll_options _ _ _).2) eqn:E.
  - exfalso. apply existsb_entry in E as (b & Hin & HQ).
    apply update_observations_entries in Hin as [_ ->].
    rewrite is_intersecting_below in HQ; [done|]. unfold root_bottom. cbn. lra.
  - destruct (existsb _ (update_observations _ skill_options _ _ _).2); [|done]. destruct (op_doc p !! i); cbn; [|done].
    by rewrite classes_on_skill_visible.
Qed.

End Properties.

(** C17. The animation classes the first [DOMContentLoaded] listener
    adds come too late: [initScrollAnimations] has already observed the
    elements, so a section, project card or skill item that had no
    animation class in the page as loaded never gets [visible], through
    any frames of the observers as the page starts them, whatever the
    layouts and scroll positions.  The observers start as the code
    starts them: the elements with an animation class when
    [initScrollAnimations] ran, and the [.skill-bar]s of the page. *)
Theorem boot_sections_never_revealed gate three d i e p :
  three_ok three d = true -> query Navigation.hamburger_sel d <> None ->
  d !! i = Some e -> matches_any anim_sel e = false ->
  let b := dom_content_loaded three d in
  init_observers (bt_observed b) (bt_doc b) =
    MkOP (map observe (query_all anim_sel d)) (map observe (init_skill_bars d)) (add_animation_classes d) /\
  (obs_reach gate (bt_observed b) (bt_doc b) p -> has_class "visible" i (op_doc p) = has_class "visible" i d).
Proof.
  intros H3 H He Hm. cbv zeta. rewrite (dom_content_loaded_ok three d H3 H). cbn [bt_observed bt_doc].
  split; [unfold init_observers; by rewrite skill_bars_boot|].
  intros Hr. destruct (obs_reach_inv _ _ _ _ Hr) as (_ & _ & rv & fl & Hrv & _ & Hd & _).
  assert (Hi : i ∉ query_all anim_sel d).
  { rewrite elem_of_query_all. intros (e' & He' & Hm'). congruence. }
  rewrite <- (has_class_animation_other "visible" i d) by done.
  unfold has_class. rewrite Hd. destruct (add_animation_classes d !! i); cbn; [|done].
  destruct (rv i) eqn:Er; [by destruct Hi; apply Hrv|]. by rewrite classes_decorate_unrevealed.
Qed.


(** ** Witnesses *)

Lemma observers_decorate_witness :
  exists rv fl : bool, (fl = true -> 1%nat ∈ init_skill_bars obs_demo) /\
    op_doc (observer_frame false (demo_layout 0) (MkViewport 0 800) (init_observers [0%nat] obs_demo)) !! 1%nat =
    decorate rv fl <$> obs_demo !! 1%nat.
Proof.
  destruct (observers_decorate false [0%nat] obs_demo _
    (obs_frame false [0%nat] obs_demo (demo_layout 0) (MkViewport 0 800) _ (obs_start _ _ _)) 1%nat)
    as (rv & fl & _ & Hfl & Hd).
  exists rv, fl. split; [exact Hfl | exact Hd].
Defined.

Lemma observer_frame_reveals_witness :
  has_class "visible" 0 (op_doc (observer_frame false (demo_layout 0) (MkViewport 0 800)
                                   (init_observers [0%nat] obs_demo))) = true /\
  e_style <$> op_doc (observer_frame false (demo_layout 0) (MkViewport 0 800)
                        (init_observers [0%nat] obs_demo)) !! 1%nat =
    Some (e_style (on_skill_visible (MkElem "div" None ["skill-bar"] [("data-level", "90")] ∅ ""))).
Proof.
  destruct (observer_frame_reveals false [0%nat] obs_demo (demo_layout 0) (MkViewport 0 800)
              _ 0 _ (obs_start _ _ _) eq_refl) as [H0 _].
  destruct (observer_frame_reveals false [0%nat] obs_demo (demo_layout 0) (MkViewport 0 800)
              _ 1 _ (obs_start _ _ _) eq_refl) as [_ H1].
  split.
  - apply H0; [by left | reflexivity | apply Qle_bool_iff; reflexivity].
  - apply H1; [vm_compute; by left | reflexivity | apply Qle_bool_iff; reflexivity].
Defined.

Lemma reveal_bottom_margin_witness :
  has_class "visible" 0 (op_doc (observer_frame false (demo_layout 760) (MkViewport 0 800)
                                   (init_observers [0%nat] obs_demo))) = false.
Proof.
  rewrite (reveal_bottom_margin false (demo_layout 760) (MkViewport 0 800) _ 0); [reflexivity|].
  vm_compute. reflexivity.
Defined.

Lemma boot_sections_never_revealed_witness :
  let b := dom_content_loaded true boot_demo in
  has_class "fade-in" 2 (bt_doc b) = true /\
  has_class "visible" 2 (op_doc (observer_frame false (fun _ => MkRect 0 100) (MkViewport 0 800)
                                   (init_observers (bt_observed b) (bt_doc b)))) = false.
Proof.
  cbv zeta. split; [vm_compute; reflexivity|].
  destruct (boot_sections_never_revealed false true boot_demo 2
              (Navigation.demo_elem "section" (Some "about") [] [])
              (observer_frame false (fun _ => MkRect 0 100) (MkViewport 0 800)
                 (init_observers (bt_observed (dom_content_loaded true boot_demo))
                                 (bt_doc (dom_content_loaded true boot_demo)))))
    as [_ H]; [reflexivity | vm_compute; discriminate | reflexivity | reflexivity |].
  rewrite H; [reflexivity|]. apply obs_frame, obs_start.
Defined.

End Reveal.
