(* ===== verification/Glitch.v ===== *)
(** * [initGlitchEffects]: the random glitch of the titles

    [initGlitchEffects] (script.js, lines 497-514) starts, for every
    [.title-name] and [.section-title], an interval of 2000 ms; at each
    tick, with probability [0.1] ([Math.random() < 0.1]), the element's
    [textShadow] becomes a red and a cyan shadow offset by
    [Math.random() * 4 - 2] pixels, and a timer puts the green glow back
    100 ms later.

    One element is modelled: its shadow and the index of the next draw
    of [Math.random]; the interval and the timer are timers of
    [Timers.TimerQueue] (an interval is rescheduled [2000] ms after each
    tick, when the tick's callback returns). *)

From stdpp Require Import base list.
From S2P Require Import Prelude Timers.

Module Glitch.
Import Timers.

Inductive glitch_cb := GTick | GReset.

Inductive shadow :=
  | ShadowCss                                  (** no inline shadow yet *)
  | ShadowGlow                                 (** ['0 0 20px rgba(0, 255, 65, 0.8)'] *)
  | ShadowGlitch (x1 y1 x2 y2 : Q).            (** the two offset shadows *)

Record Glitch := MkGlitch { gl_shadow : shadow; gl_draw : nat }.

Section Effect.
Context {RNG : MathRandom} `{TQ : TimerQueue T}.

(** [Math.random() * 4 - 2] for the [k]-th draw. *)
Definition offset (k : nat) : Q := random_draw k * 4 - 2.

(** The interval's callback, then its rescheduling; the timer's callback. *)
Definition glitch_handle (c : glitch_cb) (g : Glitch) (q : T glitch_cb) : Glitch * T glitch_cb :=
  match c with
  | GTick =>
      let n := gl_draw g in
      if qltb (random_draw n) 0.1 then
        (MkGlitch (ShadowGlitch (offset (n + 1)) (offset (n + 2)) (offset (n + 3)) (offset (n + 4)))
                  (n + 5),
         tq_set 2000 GTick (tq_set 100 GReset q))
      else (MkGlitch (gl_shadow g) (S n), tq_set 2000 GTick q)
  | GReset => (MkGlitch ShadowGlow (gl_draw g), q)
  end.

(** [setInterval(..., 2000)] at time [tq_now q]. *)
Definition init_glitch (q : T glitch_cb) : Glitch * T glitch_cb :=
  (MkGlitch ShadowCss 0, tq_set 2000 GTick q).

(** A glitch is on screen only with its reset pending 100 ms after the
    tick that made it, before the next tick; otherwise only the next
    tick is pending. *)
Definition glitch_inv (g : Glitch) (q : T glitch_cb) : Prop :=
  match gl_shadow g with
  | ShadowGlitch x1 y1 x2 y2 =>
      Forall (fun x => -2 <= x < 2) [x1; y1; x2; y2] /\
      tq_pending q = [(tq_now q + 100, GReset); (tq_now q + 2000, GTick)]%nat
  | _ => exists t, tq_pending q = [(t, GTick)] /\ (tq_now q <= t)%nat
  end.

End Effect.

(** ** Lemmas *)

Section Facts.
Context {RNG : MathRandom} `{TQ : TimerQueue T}.

Lemma offset_range k : -2 <= offset k < 2.
Proof. unfold offset. destruct (random_range k). split; lra. Qed.

Lemma offsets_range n :
  Forall (fun x => -2 <= x < 2) [offset (n + 1); offset (n + 2); offset (n + 3); offset (n + 4)].
Proof. repeat (constructor; [apply offset_range|]). constructor. Qed.

Lemma tick_inv g (q : T glitch_cb) :
  tq_pending q = [] -> gl_shadow g = ShadowCss \/ gl_shadow g = ShadowGlow ->
  let '(g', q') := glitch_handle GTick g q in glitch_inv g' q'.
Proof.
  intros Hp Hs. unfold glitch_handle. destruct (qltb _ _); unfold glitch_inv; cbn.
  - split; [apply offsets_range|]. rewrite !tq_pending_set, !tq_now_set, Hp. cbn.
    rewrite bool_decide_true by lia. done.
  - destruct Hs as [-> | ->]; exists (tq_now q + 2000)%nat;
      rewrite tq_pending_set, tq_now_set, Hp; split; [done | lia | done | lia].
Qed.

Lemma glitch_inv_step (g : Glitch) (q : T glitch_cb) :
  glitch_inv g q ->
  exists c q', tq_pop q = Some (c, q') /\ let '(g', q'') := glitch_handle c g q' in glitch_inv g' q''.
Proof.
  unfold glitch_inv at 1. destruct (gl_shadow g) as [| |x1 y1 x2 y2] eqn:Es.
  1,2: intros (t & Hp & _); destruct (tq_pop_some q _ _ _ Hp) as (q' & Hpop & Hp' & _);
       exists GTick, q'; split; [exact Hpop | apply tick_inv; [exact Hp' | rewrite Es; auto]].
  intros [_ Hp]. destruct (tq_pop_some q _ _ _ Hp) as (q' & Hpop & Hp' & Hn').
  exists GReset, q'. split; [exact Hpop|]. cbn.
  exists (tq_now q + 2000)%nat. rewrite Hp', Hn'. split; [done | lia].
Qed.

Lemma run_glitch_inv fuel (g : Glitch) (q : T glitch_cb) :
  glitch_inv g q -> let '(g', q') := run_timers glitch_handle fuel g q in glitch_inv g' q'.
Proof.
  revert g q. induction fuel as [|fuel IH]; intros g q Hinv; [exact Hinv|].
  destruct (glitch_inv_step g q Hinv) as (c & q' & Hpop & H). cbn. rewrite Hpop.
  destruct (glitch_handle c g q') as [g2 q2]. apply IH, H.
Qed.

End Facts.

Section Properties.
Context {RNG : MathRandom} `{TQ : TimerQueue T}.

(** A glitch is short-lived and the interval never stops: after any
    number of timer runs from [initGlitchEffects], a timer is pending,
    and whenever the title shows the glitch its four offsets lie in
    [[-2, 2)], the timer that restores the glow is the next to run, 100
    ms after the tick that made the glitch, and the next tick comes 2000
    ms after that tick, so the glitch lasts 100 ms. *)
Lemma glitch_short_lived (q0 : T glitch_cb) fuel :
  tq_pending q0 = [] ->
  let '(g, q) := run_timers glitch_handle fuel (init_glitch q0).1 (init_glitch q0).2 in
  tq_pending q <> [] /\
  match gl_shadow g with
  | ShadowGlitch x1 y1 x2 y2 =>
      Forall (fun x => -2 <= x < 2) [x1; y1; x2; y2] /\
      tq_pending q = [(tq_now q + 100, GReset); (tq_now q + 2000, GTick)]%nat
  | _ => True
  end.
Proof.
  intros Hq0.
  assert (H0 : glitch_inv (init_glitch q0).1 (init_glitch q0).2).
  { cbn. exists (tq_now q0 + 2000)%nat. rewrite tq_pending_set, tq_now_set, Hq0. split; [done | lia]. }
  pose proof (run_glitch_inv fuel _ _ H0) as H.
  destruct (run_timers glitch_handle fuel _ _) as [g q]. unfold glitch_inv in H.
  destruct (gl_shadow g) as [| |x1 y1 x2 y2].
  - destruct H as (t & Hp & _). split; [by rewrite Hp | done].
  - destruct H as (t & Hp & _). split; [by rewrite Hp | done].
  - destruct H as [Hr Hp]. split; [by rewrite Hp | done].
Qed.

End Properties.

(** ** Witnesses: the cycling generator (first draw 0, below 0.1) *)

Lemma glitch_short_lived_witness :
  let '(g, q) := run_timers (@glitch_handle seq_random _ _) 1
                   (init_glitch (T := list_timers) (tq_empty 0)).1
                   (init_glitch (T := list_timers) (tq_empty 0)).2 in
  gl_shadow g = ShadowGlitch (-10 # 7) (-6 # 7) (-2 # 7) (2 # 7) /\
  tq_pending q = [(2100, GReset); (4000, GTick)]%nat.
Proof.
  pose proof (@glitch_short_lived seq_random _ _ (tq_empty (T := list_timers) 0) 1 (tq_pending_empty 0))
    as H.
  vm_compute in H |- *. destruct H as [_ [_ H]]. split; [reflexivity | exact H].
Defined.

End Glitch.
